(* ===== verification/_CoqProject ===== *)
-Q . S2P
Prelude.v
Bytes.v
Deps.v
Felt.v
Hashers.v
Transactions.v
ComputeHash.v
Blockifier.v
Conversions.v
Broadcasted.v
Fee.v
Execution.v
Parametric.v
Block.v
CallTrace.v
PalletStorage.v
DictState.v
Pallet.v
PalletEffects.v
PalletProperties.v
Chain.v
ChainRun.v
Validation.v
Simulations.v
Runtime.v
Snos.v
Db.v
MappingSync.v
MappingWorker.v
Events.v
Settlement.v
L1Messages.v
StateDiff.v
Overrides.v
RpcCore.v
Rpc.v
RpcProperties.v
EndToEnd.v
Trace.v
RpcReadOnly.v
TraceProperties.v
DataAvailability.v
Files.v
Engines.v
Genesis.v
Setup.v
EthereumConfig.v
Node.v
Ethereum.v
