(* ===== verification/Prelude.v ===== *)
(** * Madara: a shallow embedding of the Starknet sequencer

    Madara is a Starknet sequencer built on Substrate.  Its runtime holds one
    pallet, [pallet-starknet], that keeps the Starknet state in FRAME storage,
    executes transactions against it with the third-party [blockifier], and
    turns the transactions of every Substrate block into a Starknet block that
    is deposited in the digest.  The primitives crates supply the data: field
    elements, hashers, transactions, fees, headers.  The node's client crates
    follow the chain from outside: they map Starknet block hashes to Substrate
    ones, answer queries, bring messages from L1, publish state diffs, and settle
    the finalized blocks on another layer.  The node starts them all, from a
    chain specification and the files that its setup command installs.

    ** Files, from the data up

    - [Prelude] (this file): results, panics, the state monads [eff] and
      [effr], wrap-around arithmetic, the framing predicate [within], tactics
      and hint databases.
    - [Bytes]: bytes and fixed-size arrays, big-endian encodings.
    - [Deps]: the operations the code uses of starknet-ff, starknet-api,
      primitive-types, cairo-felt and starknet-crypto, as classes of operations
      with classes of their documented laws, and one concrete instance
      (Module [Reference]) that shows the laws can hold.
    - [Felt]: primitives/felt ([Felt252Wrapper], its conversions, its SCALE
      codec).  [Hashers]: primitives/hashers, chain-id, program-hash.
    - [Transactions], [ComputeHash], [Conversions], [Execution]:
      primitives/transactions (types and getters; compute_hash.rs;
      conversions.rs; execution.rs).  [Broadcasted]: what users submit and what
      is shown to them, in the same crate.  [Fee]: primitives/fee.  [Parametric]:
      execution cannot tell apart states whose methods behave alike.
    - [Blockifier]: the data of starknet-api and blockifier that the code
      builds or reads, the [State] trait and the virtual machine, which is a
      parameter with named laws.
    - [Block]: primitives/block and primitives/digest-log.
    - [CallTrace]: the loop shared by emit_events_in_call_info and
      aggregate_messages_in_call_info in pallets/starknet/src/lib.rs.
    - [PalletStorage]: the pallet's storage items ([World] is what blockifier
      can write, [Ledger] the rest, [System] the part of frame_system that is
      used) and blockifier_state_adapter.rs.  [DictState]: primitives/state, a
      second state reader, over hash maps.  [Pallet]: the dispatchables,
      on_finalize, store_block, the genesis build and execution_config.rs.
    - [PalletEffects], [PalletProperties]: what a dispatch does to the state.
    - [Chain]: the life of the runtime as a step relation (initialize a block,
      dispatch calls, finalize it) with its invariant.  [ChainRun]: an
      executable runner of those steps and the concrete chain the witnesses
      use.
    - [Validation]: the pool side of the pallet (validate_unsigned,
      pre_dispatch, transaction_validation.rs) and the sequencer address
      inherent (primitives/sequencer-address).
    - [Simulations]: pallets/starknet/src/simulations.rs.  [Runtime]: the
      Starknet runtime API that the node calls.
    - [Snos]: primitives/messages and primitives/snos-output, the output of the
      Starknet OS and its encoding into felts.
    - [Db]: client/db, the stores over a key-value database.  [Engines]: opening
      that database, and the adapter for parity-db.  [MappingSync],
      [MappingWorker]: client/mapping-sync, the rounds that fill the mapping
      store and the stream that runs them.
    - [Events]: starknet_getEvents of client/rpc with its continuation tokens,
      and the runtime API functions it calls.  [Overrides]: client/storage, which
      reads the storage of a block.  [RpcCore]: client/rpc-core.  [Rpc],
      [Trace]: the other methods of client/rpc; their theorems are in
      [RpcProperties], [RpcReadOnly] and [TraceProperties].  [EndToEnd]: the
      server, the chain and the mapping worker composed.
    - [Settlement]: client/settlement, the loop that carries finalized blocks to
      the settlement layer.  [L1Messages]: client/l1-messages, the worker for
      messages in the other direction.
    - [StateDiff]: client/commitment-state-diff and primitives/storage.
      [DataAvailability]: client/data-availability, the worker that stores and
      publishes the diffs.  [EthereumConfig]: the configuration of the Ethereum
      clients and their construction.  [Ethereum]: the Ethereum parts of
      settlement and data availability, over the core contract.
    - [Files]: paths and files.  [Genesis]: genesis data, its loader and the
      genesis block.  [Setup]: the setup command.  [Node]: the run command, the
      components and the tasks of a full node, and the inherent data of its
      blocks.

    ** What the theorems show

    - Chain: every reachable chain stores, for each finalized block, the hash of
      the block in its digest, each block naming its parent; finalization, with
      fields within their widths, panics exactly when the sequencer address was
      not set; the address is set once per block; an L1 message is consumed at
      most once.
    - Pallet: events and messages are recorded in the order in which the
      execution emitted them; a successful transaction adds one to its sender's
      nonce and leaves the other nonces alone, since the laws of the virtual
      machine say that contract code does not write them; the state adapter behaves as a finite map, and the
      reader over hash maps answers as it does.
    - Pool: transactions of one sender are ordered by nonce, stale ones are never
      dispatched, and the inherent sets the sequencer address.
    - Simulations: re-executing a block reports what including its transactions
      recorded; a fee estimate is the fee of the resources used.  Both leave the
      storage alone.
    - Stores: they refine finite maps, and the adapter for parity-db refines the
      database under them; the mapping only ever holds what the chain says, and
      makes progress; it has every synced block, except those whose header some
      client failed to give, which are lost ([unanswered_block_never_mapped]);
      once the chain is at rest a bounded number of runs of its worker completes
      it, unless a run was torn between its two commits.
    - End to end: a transaction that the server accepts and that is sealed in a
      block is found, under the hash the server returned, by a node whose mapping
      worker has run once per block and twice more, if no commit and no header
      lookup failed before.
    - RPC: a transaction is found exactly when a mapped block has it, which with
      the cache on needs that blocks with one Starknet hash have the same
      transactions ([fork_cache_hides_transaction] is the other case); an
      accepted submission reaches the pool as the transaction whose hash was
      returned, and a refused one leaves the database alone, though its extrinsic
      can be in the pool; which extrinsic a receipt is of, with or without the
      cache; state queries answer what the pallet stores; traces have the kinds and hashes of the transactions, and
      their cache is invisible; queries never write; what the first pages of an
      event query hold, and that later ones may repeat.
    - Layers: settlement is gapless over failures and retries, and reaches the
      highest announced block; over Ethereum the same holds of the words that the
      core contract accepted, unless an update is reverted, which goes unnoticed;
      the OS output round trips.  An L1 message is submitted only while unused,
      and never again once the chain has consumed it.
      A state diff replays its block, and is published at most once and after it
      was stored.
    - Genesis and node: which genesis data gives which storage; the genesis block
      of the node is block 0 of the pallet; how far a setup gets, that what it has
      installed is what its source provided, and that a chain loads it; a node
      runs exactly the tasks that it was asked for, on the database configured; a
      block authored by the node can be finalized; the
      Ethereum clients of one configuration talk to the same contract.
    - Execution and fees: the nonce gate, the fee limit, the exact fee, the one
      transfer that charges it; and that a reverted transaction keeps its writes.
    - Data: transaction and header hashes determine the fields they hash, up to
      a collision of the hash, which is exhibited; round trips and error
      classification of the field element conversions; totality of the byte
      hasher; the bound on deployed addresses; round trip of legacy classes.

    ** Conventions

    Machine integers are [Z] with the wrap-around of a release build, usize
    being 64 bits wide; the event order counter of [CallTrace] is the one
    exception, it counts items held in memory and is left unbounded.  A panic
    is the value [Panic].  Recursion is structural, with these exceptions.
    [Hashers.chunks] has the length of the list as fuel ([chunks_concat] shows
    that this is enough), [Snos.decode_loop] the length of its segment
    ([decode_loop_fuel]), [Events.hex_digits] the sixteen digits a 64-bit number
    can have, and [Events.filter_blocks] the number of blocks in the range; it
    runs out only where the source does not terminate, on a range that ends at
    the largest u64.  [Settlement.catch_up] counts the blocks left to settle.
    Workers that run forever are modelled on the finite list of notifications
    or attempts seen so far.  Dispatch discards the writes of a call that
    returns an error, as FRAME's transactional storage layer does.

    ** Not modelled

    Third-party code is a parameter, with what is documented of it as laws: the
    Cairo virtual machine, the hash functions, the Sierra compiler, JSON and
    compression, the database engine, the file system and the network, the
    Substrate client and its transaction pool, and the contracts and event
    streams of L1.  Weights, logging, metrics and metadata are left out, as they
    have no effect on the state.  The consensus, networking and import queues of
    Substrate are constructor calls into libraries, which [Node] has as steps
    that can fail; the macro assembly of the runtime and the Substrate
    subcommands are left out, as nothing of the repository is in them.  The Celestia and Avail clients do
    not compile when their features are enabled, since their methods have another
    error type than the trait they implement, so there is no behaviour to
    describe.  Code that nothing uses is not modelled: the pallet's RawOrigin, and
    the status query of the prover. *)
From Stdlib Require Export Lia ZArith.
From stdpp Require Export base gmap strings list numbers.

(** ** Results, panics and state *)

(** Rust's [Result<A, E>].  The error type comes first so that [result E] is a
    type constructor. *)
Inductive result (E A : Type) : Type :=
| Ok (a : A)
| Err (e : E).
Arguments Ok {E A} a.
Arguments Err {E A} e.

(** A Rust expression that may panic ([unwrap] on an error, a failed [assert],
    an out-of-range index). *)
Inductive outcome (A : Type) : Type :=
| Ret (a : A)
| Panic.
Arguments Ret {A} a.
Arguments Panic {A}.

Declare Scope madara_scope.
Delimit Scope madara_scope with madara.
Open Scope madara_scope.

#[export] Instance result_eq_dec E A `{EqDecision E} `{EqDecision A} : EqDecision (result E A).
Proof. solve_decision. Defined.

#[export] Instance outcome_eq_dec A `{EqDecision A} : EqDecision (outcome A).
Proof. solve_decision. Defined.

Definition result_bind {E A B} (m : result E A) (f : A -> result E B) : result E B :=
  match m with Ok a => f a | Err e => Err e end.

Definition result_map {E A B} (f : A -> B) (m : result E A) : result E B :=
  match m with Ok a => Ok (f a) | Err e => Err e end.

(** [Result::map_err]. *)
Definition map_err {E F A} (f : E -> F) (m : result E A) : result F A :=
  match m with Ok a => Ok a | Err e => Err (f e) end.

(** [Result::ok]. *)
Definition result_ok {E A} (m : result E A) : option A :=
  match m with Ok a => Some a | Err _ => None end.

(** [Option::ok_or]. *)
Definition ok_or {E A} (o : option A) (e : E) : result E A :=
  match o with Some a => Ok a | None => Err e end.

Definition is_ok {E A} (m : result E A) : bool :=
  match m with Ok _ => true | Err _ => false end.

Definition outcome_bind {A B} (m : outcome A) (f : A -> outcome B) : outcome B :=
  match m with Ret a => f a | Panic => Panic end.

(** [Result::unwrap] and [Option::unwrap]. *)
Definition unwrap {E A} (m : result E A) : outcome A :=
  match m with Ok a => Ret a | Err _ => Panic end.

Definition unwrap_opt {A} (o : option A) : outcome A :=
  match o with Some a => Ret a | None => Panic end.

(** Stateful code that may panic, and stateful code that in addition returns a
    [Result]: the state reached before an [Err] is kept, as in Rust, where [?]
    does not undo the writes made before it. *)
Definition eff (S A : Type) : Type := S -> outcome (A * S).
Definition effr (S E A : Type) : Type := eff S (result E A).

Definition eret {S A} (a : A) : eff S A := fun s => Ret (a, s).
Definition epanic {S A} : eff S A := fun _ => Panic.
Definition ebind {S A B} (m : eff S A) (f : A -> eff S B) : eff S B :=
  fun s => match m s with Ret (a, s') => f a s' | Panic => Panic end.
Definition etry {S E A B} (m : effr S E A) (f : A -> effr S E B) : effr S E B :=
  ebind m (fun r => match r with Ok a => f a | Err e => eret (Err e) end).
Definition eget {S A} (f : S -> A) : eff S A := fun s => Ret (f s, s).
Definition eput {S} (f : S -> S) : eff S unit := fun s => Ret (tt, f s).
Definition elift {S A} (m : outcome A) : eff S A :=
  fun s => match m with Ret a => Ret (a, s) | Panic => Panic end.
Definition eassert {S} (b : bool) : eff S unit :=
  fun s => if b then Ret (tt, s) else Panic.
(** Effects on one part of a pair of states. *)
Definition on_fst {S T A} (m : eff S A) : eff (S * T) A :=
  fun '(s, t) => match m s with Ret (a, s') => Ret (a, (s', t)) | Panic => Panic end.
Definition on_snd {S T A} (m : eff T A) : eff (S * T) A :=
  fun '(s, t) => match m t with Ret (a, t') => Ret (a, (s, t')) | Panic => Panic end.
Definition emap_err {S E F A} (f : E -> F) (m : effr S E A) : effr S F A :=
  ebind m (fun r => eret (map_err f r)).

Notation "'let?' x := m 'in' k" := (result_bind m (fun x => k))
  (at level 10, x pattern, m at level 100, k at level 200) : madara_scope.
Notation "'let!' x := m 'in' k" := (outcome_bind m (fun x => k))
  (at level 10, x pattern, m at level 100, k at level 200) : madara_scope.
Notation "x <-- m ;; k" := (ebind m (fun x => k))
  (at level 100, m at next level, right associativity) : madara_scope.
Notation "x <-? m ;; k" := (etry m (fun x => k))
  (at level 100, m at next level, right associativity) : madara_scope.
Notation "m ;;; k" := (ebind m (fun _ => k))
  (at level 100, right associativity) : madara_scope.
Notation "m ;;? k" := (etry m (fun _ => k))
  (at level 100, right associativity) : madara_scope.

(** [Iterator::collect::<Result<Vec<_>, _>>] over a fallible [map]: stops at the
    first error. *)
Fixpoint try_map {E A B} (f : A -> result E B) (l : list A) : result E (list B) :=
  match l with
  | [] => Ok []
  | x :: l' => let? y := f x in let? ys := try_map f l' in Ok (y :: ys)
  end.

(** The same for a [map] whose closure may panic. *)
Fixpoint traverse {A B} (f : A -> outcome B) (l : list A) : outcome (list B) :=
  match l with
  | [] => Ret []
  | x :: l' => let! y := f x in let! ys := traverse f l' in Ret (y :: ys)
  end.

(** A [for] loop whose body is stateful and may stop with an error. *)
Fixpoint efor {S E A} (f : A -> effr S E unit) (l : list A) : effr S E unit :=
  match l with
  | [] => eret (Ok tt)
  | x :: l' => f x ;;? efor f l'
  end.

(** [map] and [collect] into a [Result], of a stateful closure. *)
Fixpoint etraverse {S E A B} (f : A -> effr S E B) (l : list A) : effr S E (list B) :=
  match l with
  | [] => eret (Ok [])
  | x :: l' => y <-? f x ;; ys <-? etraverse f l' ;; eret (Ok (y :: ys))
  end.

(** ** Machine integers

    The release profile of the workspace leaves overflow checks off, so the
    arithmetic operators of Rust's [uN] wrap around. *)
Definition u8_max : Z := 2 ^ 8 - 1.
Definition u32_max : Z := 2 ^ 32 - 1.
Definition u64_max : Z := 2 ^ 64 - 1.
Definition u128_max : Z := 2 ^ 128 - 1.

Definition wrap (w z : Z) : Z := z mod 2 ^ w.
Definition wadd (w x y : Z) : Z := wrap w (x + y).
Definition wsub (w x y : Z) : Z := wrap w (x - y).
Definition wmul (w x y : Z) : Z := wrap w (x * y).
Definition in_width (w z : Z) : bool := (0 <=? z)%Z && (z <? 2 ^ w)%Z.

(** [saturating_sub] of an unsigned type. *)
Definition saturating_sub (x y : Z) : Z := Z.max 0 (x - y).

(** Length of a [Vec] as a machine integer. *)
Definition zlen {A} (l : list A) : Z := Z.of_nat (length l).

(** ** Tactics and hints *)
Create HintDb madara.
Create Rewrite HintDb madara.

(** Case analysis on the scrutinee of the first [match] in the goal or in a
    hypothesis. *)
Ltac case_match_goal :=
  match goal with
  | |- context [match ?x with _ => _ end] => destruct x eqn:?
  end.
Ltac case_match_hyp H :=
  match type of H with
  | context [match ?x with _ => _ end] => destruct x eqn:?
  end.

(** Peels the binds of a computation that is known to have returned. *)
Ltac peel H :=
  repeat (unfold etry, ebind, eret, eget, eput, elift, eassert, emap_err, epanic in H; simpl in H;
          case_match_hyp H; simplify_eq H; intros; subst; simpl in * ).

Ltac zbool :=
  repeat match goal with
  | H : (_ && _) = true |- _ => apply andb_true_iff in H as [? ?]
  | H : (_ <=? _)%Z = true |- _ => apply Z.leb_le in H
  | H : (_ <? _)%Z = true |- _ => apply Z.ltb_lt in H
  | H : (_ <=? _)%Z = false |- _ => apply Z.leb_gt in H
  | H : (_ <? _)%Z = false |- _ => apply Z.ltb_ge in H
  | H : (_ =? _)%Z = true |- _ => apply Z.eqb_eq in H
  | H : (_ =? _)%Z = false |- _ => apply Z.eqb_neq in H
  end.

(** ** Generic lemmas *)

(** Proofs of boolean equations are unique, so records that carry one as an
    invariant are equal when their data are. *)
Lemma bool_proof_irrel (a b : bool) (p q : a = b) : p = q.
Proof. apply Eqdep_dec.UIP_dec, bool_dec. Qed.

(** The same proof in the form that evaluates to [eq_refl] on closed booleans,
    so that concrete records are compared by computation. *)
Definition canon (b : bool) : b = true -> b = true :=
  match b return b = true -> b = true with true => fun _ => eq_refl | false => fun H => H end.

Lemma in_width_spec w z : in_width w z = true <-> (0 <= z < 2 ^ w)%Z.
Proof. unfold in_width. rewrite andb_true_iff, Z.leb_le, Z.ltb_lt. tauto. Qed.

Lemma wrap_small w z : (0 <= z < 2 ^ w)%Z -> wrap w z = z.
Proof. intros. unfold wrap. now apply Z.mod_small. Qed.

Lemma wrap_bound w z : (0 <= w)%Z -> (0 <= wrap w z < 2 ^ w)%Z.
Proof. intros. unfold wrap. apply Z.mod_pos_bound, Z.pow_pos_nonneg; lia. Qed.

Lemma zlen_app {A} (l1 l2 : list A) : zlen (l1 ++ l2) = (zlen l1 + zlen l2)%Z.
Proof. unfold zlen. rewrite length_app. lia. Qed.

Lemma zlen_cons {A} (x : A) l : zlen (x :: l) = (1 + zlen l)%Z.
Proof. unfold zlen. simpl. lia. Qed.

Lemma zlen_nonneg {A} (l : list A) : (0 <= zlen l)%Z.
Proof. unfold zlen. lia. Qed.

Lemma try_map_ok {E A B} (f : A -> result E B) g l :
  (forall x, x ∈ l -> f x = Ok (g x)) -> try_map f l = Ok (map g l).
Proof.
  induction l as [|x l IH]; intros H; simpl; [done|].
  rewrite (H x) by left. simpl. rewrite IH; [done|]. intros; apply H; by right.
Qed.

Lemma try_map_inv {E A B} (f : A -> result E B) l ys :
  try_map f l = Ok ys -> Forall2 (fun x y => f x = Ok y) l ys.
Proof.
  revert ys. induction l as [|x l IH]; intros ys; simpl; [intros [= <-]; constructor|].
  destruct (f x) as [y|] eqn:Hf; simpl; [|done].
  destruct (try_map f l) as [ys'|]; simpl; [|done].
  intros [= <-]. constructor; auto.
Qed.

Lemma traverse_ret {A B} (f : A -> outcome B) g l :
  (forall x, x ∈ l -> f x = Ret (g x)) -> traverse f l = Ret (map g l).
Proof.
  induction l as [|x l IH]; intros H; simpl; [done|].
  rewrite (H x) by left. simpl. rewrite IH; [done|]. intros; apply H; by right.
Qed.

Lemma traverse_inv {A B} (f : A -> outcome B) l ys :
  traverse f l = Ret ys -> Forall2 (fun x y => f x = Ret y) l ys.
Proof.
  revert ys. induction l as [|x l IH]; intros ys; simpl; [intros [= <-]; constructor|].
  destruct (f x) as [y|] eqn:Hf; simpl; [|done].
  destruct (traverse f l) as [ys'|]; simpl; [|done].
  intros [= <-]. constructor; auto.
Qed.

#[export] Hint Rewrite @zlen_app @zlen_cons : madara.
#[export] Hint Resolve zlen_nonneg : madara.

(** ** Framing

    [within R m]: every run of [m] that returns moves the state along [R].  The
    rules below follow the structure of the code, so that framing an operation
    is a search in the hint database [within]. *)
Definition within {S A} (R : S -> S -> Prop) (m : eff S A) : Prop :=
  forall s a s', m s = Ret (a, s') -> R s s'.

Create HintDb within.

Section within.
  Context {S : Type} (R : S -> S -> Prop) `{!PreOrder R}.

Lemma within_ret {A} (a : A) : within R (eret a).
Proof. intros s b s'. unfold eret. intros [= <- <-]. reflexivity. Qed.

Lemma within_lift {A} (m : outcome A) : within R (elift m).
Proof. intros s b s'. unfold elift. destruct m; [|done]. intros [= <- <-]. reflexivity. Qed.

Lemma within_bind {A B} (m : eff S A) (f : A -> eff S B) :
  within R m -> (forall a, within R (f a)) -> within R (ebind m f).
Proof.
  intros Hm Hf s b s'. unfold ebind. destruct (m s) as [[a s1]|] eqn:E; [|done].
  intros Hb. etransitivity; [by eapply Hm|by eapply Hf].
Qed.

Lemma within_try {E A B} (m : effr S E A) (f : A -> effr S E B) :
  within R m -> (forall a, within R (f a)) -> within R (etry m f).
Proof. intros Hm Hf. apply within_bind; [done|]. intros [a|e]; [apply Hf|apply within_ret]. Qed.

Lemma within_map_err {E F A} (g : E -> F) (m : effr S E A) : within R m -> within R (emap_err g m).
Proof. intros Hm. apply within_bind; [done|]. intros. apply within_ret. Qed.

Lemma within_if {A} (b : bool) (m1 m2 : eff S A) :
  within R m1 -> within R m2 -> within R (if b then m1 else m2).
Proof. by destruct b. Qed.

Lemma within_get {A} (f : S -> A) : within R (eget f).
Proof. intros s b s'. unfold eget. intros [= <- <-]. reflexivity. Qed.

Lemma within_assert (b : bool) : within R (eassert b).
Proof. intros s a s'. unfold eassert. destruct b; [|done]. intros [= <- <-]. reflexivity. Qed.

Lemma within_for {E A} (f : A -> effr S E unit) l : (forall x, within R (f x)) -> within R (efor f l).
Proof. intros Hf. induction l as [|x l IH]; simpl; [apply within_ret|]. by apply within_try. Qed.

End within.

#[export] Hint Resolve within_ret within_lift within_bind within_try within_map_err within_if within_get
  within_assert within_for : within.
