(* ===== verification/Bytes.v ===== *)
(** * Bytes and big-endian integers

    Byte strings as the code has them ([u8], [[u8; N]], [Vec<u8>]): lists of
    [Byte.byte], fixed-size arrays carrying their length, and the big-endian
    reading and writing of integers that [to_be_bytes] and [from_be_bytes] of
    the Rust standard library perform. *)
From Stdlib Require Export Strings.Byte.
From Stdlib Require Import Strings.String.
From S2P Require Import Prelude.

#[export] Instance byte_eq_decision : EqDecision byte := byte_eq_dec.

#[export] Program Instance byte_countable : Countable byte :=
  inj_countable Byte.to_N Byte.of_N _.
Next Obligation. intros b. apply Byte.of_to_N. Qed.

(** The value of a byte, and the low byte of an integer. *)
Definition byte_val (b : byte) : Z := Z.of_N (Byte.to_N b).
Definition byte_of (z : Z) : byte :=
  match Byte.of_N (Z.to_N (z mod 256)) with Some b => b | None => x00 end.

(** A byte-string literal, as [b...] and [as_bytes] give it. *)
Definition bytes_of (s : string) : list byte := String.list_byte_of_string s.

(** Value of a byte string read most significant byte first. *)
Definition be_val (l : list byte) : Z :=
  fold_left (fun acc b => acc * 256 + byte_val b)%Z l 0%Z.

(** The [n] low-order bytes of an integer, most significant first. *)
Fixpoint be_bytes (n : nat) (z : Z) : list byte :=
  match n with
  | O => []
  | S n' => be_bytes n' (z / 256) ++ [byte_of z]
  end.

#[global] Arguments be_bytes : simpl never.

Lemma be_bytes_S n z : be_bytes (S n) z = be_bytes n (z / 256) ++ [byte_of z].
Proof. reflexivity. Qed.

(** [[u8; n]]. *)
Record array (n : nat) := mk_array {
  arr : list byte;
  arr_len : (length arr =? n)%nat = true;
}.
Arguments mk_array {n} arr arr_len.
Arguments arr {n} a.
Arguments arr_len {n} a.

Lemma array_eq n (a b : array n) : arr a = arr b -> a = b.
Proof.
  destruct a as [x p], b as [y q]; simpl. intros ->. f_equal. apply bool_proof_irrel.
Qed.

#[export] Instance array_eq_dec n : EqDecision (array n).
Proof.
  intros a b. destruct (decide (arr a = arr b)) as [e|ne].
  - left. by apply array_eq.
  - right. congruence.
Defined.

(** Conversion of a slice into an array, as [<[u8; n]>::try_from]. *)
Definition array_of_slice (n : nat) (l : list byte) : option (array n) :=
  match (length l =? n)%nat as b return (length l =? n)%nat = b -> option (array n) with
  | true => fun H => Some (mk_array l H)
  | false => fun _ => None
  end eq_refl.

Lemma array_of_slice_spec n l a : array_of_slice n l = Some a <-> arr a = l.
Proof.
  unfold array_of_slice.
  generalize (eq_refl (length l =? n)%nat) at 1.
  generalize (length l =? n)%nat at 2 3. intros [] H; split; intros Ha.
  - by simplify_eq.
  - subst. f_equal. by apply array_eq.
  - done.
  - subst. destruct a as [x p]. simpl in *. congruence.
Qed.

Lemma array_of_slice_arr n (a : array n) : array_of_slice n (arr a) = Some a.
Proof. by apply array_of_slice_spec. Qed.

Lemma array_of_slice_none n l : array_of_slice n l = None <-> length l <> n.
Proof.
  split.
  - intros Hn Hl. assert (Hb : (length l =? n)%nat = true) by by apply Nat.eqb_eq.
    assert (Hs : array_of_slice n l = Some (mk_array l Hb)) by by apply array_of_slice_spec.
    congruence.
  - intros Hl. destruct (array_of_slice n l) as [a|] eqn:Ha; [|done].
    apply array_of_slice_spec in Ha. subst. destruct Hl. apply Nat.eqb_eq, arr_len.
Qed.

#[export] Program Instance array_countable n : Countable (array n) :=
  inj_countable arr (array_of_slice n) _.
Next Obligation. intros. apply array_of_slice_arr. Qed.

Lemma byte_val_range b : (0 <= byte_val b < 256)%Z.
Proof. unfold byte_val. pose proof (Byte.to_N_bounded b). lia. Qed.

Lemma byte_val_of z : byte_val (byte_of z) = (z mod 256)%Z.
Proof.
  unfold byte_of. pose proof (Z.mod_pos_bound z 256 ltac:(lia)).
  destruct (Byte.of_N (Z.to_N (z mod 256))) as [b|] eqn:Hb.
  - apply Byte.to_of_N in Hb. unfold byte_val. rewrite Hb. lia.
  - apply Byte.of_N_None_iff in Hb. lia.
Qed.

Lemma byte_val_inj b c : byte_val b = byte_val c -> b = c.
Proof.
  unfold byte_val. intros H. apply (f_equal Z.to_N) in H. rewrite !N2Z.id in H.
  apply (f_equal Byte.of_N) in H. rewrite !Byte.of_to_N in H. congruence.
Qed.

Lemma byte_of_val b : byte_of (byte_val b) = b.
Proof.
  apply byte_val_inj. rewrite byte_val_of. apply Z.mod_small, byte_val_range.
Qed.

Lemma be_val_snoc l b : be_val (l ++ [b]) = (be_val l * 256 + byte_val b)%Z.
Proof. unfold be_val. by rewrite fold_left_app. Qed.

Lemma be_val_nonneg l : (0 <= be_val l)%Z.
Proof.
  induction l as [|b l IH] using rev_ind; [done|].
  rewrite be_val_snoc. pose proof (byte_val_range b). lia.
Qed.

Lemma be_val_bound l : (be_val l < 256 ^ zlen l)%Z.
Proof.
  induction l as [|b l IH] using rev_ind; [done|].
  rewrite be_val_snoc, zlen_app. change (zlen [b]) with 1%Z.
  rewrite Z.pow_add_r by (try apply zlen_nonneg; lia).
  pose proof (byte_val_range b). lia.
Qed.

Lemma be_bytes_length n z : length (be_bytes n z) = n.
Proof. revert z. induction n as [|n IH]; intros z; [done|]. rewrite be_bytes_S, length_app, IH. simpl. lia. Qed.

Lemma be_val_bytes n z : (0 <= z < 256 ^ Z.of_nat n)%Z -> be_val (be_bytes n z) = z.
Proof.
  revert z. induction n as [|n IH]; intros z Hz; [change (0 = z)%Z; change (256 ^ Z.of_nat 0)%Z with 1%Z in Hz; lia|].
  rewrite be_bytes_S, be_val_snoc, byte_val_of, IH.
  - pose proof (Z.div_mod z 256). lia.
  - replace (Z.of_nat (S n)) with (Z.of_nat n + 1)%Z in Hz by lia.
    rewrite Z.pow_add_r in Hz by lia. split; [apply Z.div_pos; lia|].
    apply Z.div_lt_upper_bound; lia.
Qed.

Lemma be_bytes_val l : be_bytes (length l) (be_val l) = l.
Proof.
  induction l as [|b l IH] using rev_ind; [done|].
  rewrite length_app, Nat.add_comm. cbn [length Nat.add]. rewrite be_bytes_S, be_val_snoc.
  pose proof (byte_val_range b). f_equal.
  - rewrite Z.div_add_l by lia. rewrite (Z.div_small (byte_val b)) by lia. by rewrite Z.add_0_r.
  - f_equal. apply byte_val_inj. rewrite byte_val_of, Z.add_comm, Z.mod_add by lia. by apply Z.mod_small.
Qed.

Lemma be_val_inj l1 l2 : length l1 = length l2 -> be_val l1 = be_val l2 -> l1 = l2.
Proof. intros Hl Hv. rewrite <- (be_bytes_val l1), <- (be_bytes_val l2). congruence. Qed.

Lemma be_val_zeros n l : be_val (replicate n x00 ++ l) = be_val l.
Proof.
  assert (H : forall l acc, fold_left (fun acc b => acc * 256 + byte_val b)%Z (replicate n x00 ++ l) acc
             = fold_left (fun acc b => acc * 256 + byte_val b)%Z l (acc * 256 ^ Z.of_nat n)%Z).
  { induction n as [|n IH]; intros l' acc; simpl.
    - f_equal. lia.
    - rewrite IH. f_equal. change (byte_val x00) with 0%Z.
      replace (Z.of_nat (S n)) with (Z.of_nat n + 1)%Z by lia. rewrite Z.pow_add_r by lia. lia. }
  unfold be_val. rewrite H. f_equal.
Qed.

(** The [n]-byte array of an integer. *)
Lemma be_bytes_len n z : (length (be_bytes n z) =? n)%nat = true.
Proof. rewrite be_bytes_length. apply Nat.eqb_refl. Qed.

Definition be_array (n : nat) (z : Z) : array n :=
  mk_array (be_bytes n z) (canon _ (be_bytes_len n z)).

Lemma be_array_val n z : (0 <= z < 256 ^ Z.of_nat n)%Z -> be_val (arr (be_array n z)) = z.
Proof. apply be_val_bytes. Qed.

Lemma arr_length n (a : array n) : length (arr a) = n.
Proof. apply Nat.eqb_eq, arr_len. Qed.

Lemma array_val_bound n (a : array n) : (0 <= be_val (arr a) < 256 ^ Z.of_nat n)%Z.
Proof.
  split; [apply be_val_nonneg|]. pose proof (be_val_bound (arr a)) as H.
  unfold zlen in H. by rewrite arr_length in H.
Qed.

Lemma array_val_inj n (a b : array n) : be_val (arr a) = be_val (arr b) -> a = b.
Proof. intros H. apply array_eq, be_val_inj; [by rewrite !arr_length|done]. Qed.

Lemma be_array_of_val n (a : array n) : be_array n (be_val (arr a)) = a.
Proof. apply array_val_inj, be_array_val, array_val_bound. Qed.

#[export] Hint Resolve be_val_nonneg byte_val_range array_val_bound : madara.
#[export] Hint Rewrite be_val_snoc be_bytes_length byte_val_of : madara.
