(* ===== verification/Deps.v ===== *)
(** * Number types of the third-party crates

    The value types of [starknet-ff], [starknet-api], [primitive-types] and
    [cairo-felt] that the sources build on, with the functions the sources call
    on them as operations of type classes and their documented behaviour as laws
    of companion classes.  The last section gives a reference implementation of
    each interface, used to show that the laws can be met. *)
From S2P Require Import Prelude Bytes.
Local Open Scope Z_scope.

(** ** Bounded integers *)

(** An integer in [[0, m)]; the bound is a decidable proposition, so equality of
    values is equality of integers. *)
Record bounded (m : Z) := mk_bounded {
  bval : Z;
  bok : (0 <=? bval) && (bval <? m) = true;
}.
Arguments mk_bounded {m} bval bok.
Arguments bval {m} b.
Arguments bok {m} b.

Lemma bounded_eq m (a b : bounded m) : bval a = bval b -> a = b.
Proof. destruct a as [x p], b as [y q]; simpl. intros ->. f_equal. apply bool_proof_irrel. Qed.

Lemma bounded_range m (a : bounded m) : 0 <= bval a < m.
Proof. destruct a as [x p]; simpl. zbool. lia. Qed.

#[export] Instance bounded_eq_dec m : EqDecision (bounded m).
Proof.
  intros a b. destruct (decide (bval a = bval b)) as [e|ne].
  - left. by apply bounded_eq.
  - right. congruence.
Defined.

Definition bounded_of (m z : Z) : option (bounded m) :=
  match (0 <=? z) && (z <? m) as b return (0 <=? z) && (z <? m) = b -> option (bounded m) with
  | true => fun H => Some (mk_bounded z H)
  | false => fun _ => None
  end eq_refl.

Lemma bounded_of_spec m z a : bounded_of m z = Some a <-> bval a = z.
Proof.
  unfold bounded_of. generalize (eq_refl ((0 <=? z) && (z <? m))) at 1.
  generalize ((0 <=? z) && (z <? m)) at 2 3. intros [] H; split; intros Ha.
  - by simplify_eq.
  - subst. f_equal. by apply bounded_eq.
  - done.
  - subst. destruct a as [x p]. simpl in *. congruence.
Qed.

Lemma bounded_of_none m z : bounded_of m z = None <-> ~ 0 <= z < m.
Proof.
  destruct (bounded_of m z) as [a|] eqn:Ha; split; try done.
  - apply bounded_of_spec in Ha as <-. pose proof (bounded_range m a). tauto.
  - intros _ Hz. assert (Hb : (0 <=? z) && (z <? m) = true) by lia.
    assert (bounded_of m z = Some (mk_bounded z Hb)) by by apply bounded_of_spec. congruence.
Qed.

Lemma bounded_of_val m (a : bounded m) : bounded_of m (bval a) = Some a.
Proof. by apply bounded_of_spec. Qed.

#[export] Program Instance bounded_countable m : Countable (bounded m) :=
  inj_countable bval (bounded_of m) _.
Next Obligation. intros. apply bounded_of_val. Qed.

(** ** The types *)

(** The modulus of the Stark field, 2^251 + 17 * 2^192 + 1. *)
Definition P : Z := 2 ^ 251 + 17 * 2 ^ 192 + 1.

(** [starknet_ff::FieldElement] and [cairo_vm::felt::Felt252], by their value. *)
Abbreviation FieldElement := (bounded P).
Abbreviation Felt252 := (bounded P).
(** [sp_core::U256] and [sp_core::H256]. *)
Abbreviation U256 := (bounded (2 ^ 256)).
Abbreviation H256 := (array 32).
(** [starknet_core::types::EthAddress] and [sp_core::H160]. *)
Abbreviation EthAddress := (array 20).

(** [starknet_api::hash::StarkFelt]: 32 big-endian bytes. *)
Record StarkFelt := mk_stark { stark_bytes : array 32 }.

#[export] Instance StarkFelt_eq_dec : EqDecision StarkFelt.
Proof. solve_decision. Defined.

#[export] Program Instance StarkFelt_countable : Countable StarkFelt :=
  inj_countable' stark_bytes mk_stark _.
Next Obligation. by intros []. Qed.

(** [StarkFelt::default()], and its order, that of the byte array. *)
Definition stark_default : StarkFelt := mk_stark (be_array 32 0).
Definition stark_val (s : StarkFelt) : Z := be_val (arr (stark_bytes s)).

Lemma stark_val_inj s t : stark_val s = stark_val t -> s = t.
Proof. destruct s, t. unfold stark_val. simpl. intros H. f_equal. by apply array_val_inj. Qed.

Inductive FromByteSliceError := FBS_InvalidLength | FBS_OutOfRange.
Inductive FromStrError := FS_InvalidCharacter | FS_OutOfRange.

(** ** Interfaces *)

Class StarknetFf := {
  to_bytes_be : FieldElement -> array 32;
  from_bytes_be : array 32 -> option FieldElement;
  from_byte_slice_be : list byte -> result FromByteSliceError FieldElement;
  fe_from_hex_be : string -> result FromStrError FieldElement;
  fe_from_dec_str : string -> result FromStrError FieldElement;
  (** [FieldElement::from_mont]: four little-endian 64-bit limbs. *)
  from_mont : Z -> Z -> Z -> Z -> FieldElement;
  (** [From<u8>], [From<u32>], [From<u64>] for [FieldElement]. *)
  fe_from_u64 : Z -> FieldElement;
  fe_from_eth : EthAddress -> FieldElement;
  u64_try_from_fe : FieldElement -> option Z;
  u128_try_from_fe : FieldElement -> option Z;
  fe_add : FieldElement -> FieldElement -> FieldElement;
  fe_sub : FieldElement -> FieldElement -> FieldElement;
  fe_from_u128 : Z -> FieldElement;
  (** The [%] of [FieldElement]. *)
  fe_rem : FieldElement -> FieldElement -> FieldElement;
}.

Class StarknetFfLaws `{SF : StarknetFf} : Prop := {
  to_bytes_be_val : forall f, be_val (arr (to_bytes_be f)) = bval f;
  from_bytes_be_some : forall a f, from_bytes_be a = Some f <-> bval f = be_val (arr a);
  from_bytes_be_none : forall a, from_bytes_be a = None <-> P <= be_val (arr a);
  from_byte_slice_be_spec : forall l,
    from_byte_slice_be l =
      if (32 <? length l)%nat then Err FBS_InvalidLength
      else match bounded_of P (be_val l) with Some f => Ok f | None => Err FBS_OutOfRange end;
  from_mont_val : forall a b c d,
    (bval (from_mont a b c d) * 2 ^ 256) mod P
    = (a + b * 2 ^ 64 + c * 2 ^ 128 + d * 2 ^ 192) mod P;
  fe_from_u64_val : forall n, 0 <= n < 2 ^ 64 -> bval (fe_from_u64 n) = n;
  fe_from_eth_val : forall a, bval (fe_from_eth a) = be_val (arr a);
  u64_try_from_fe_spec : forall f,
    u64_try_from_fe f = if bval f <=? u64_max then Some (bval f) else None;
  u128_try_from_fe_spec : forall f,
    u128_try_from_fe f = if bval f <=? u128_max then Some (bval f) else None;
  fe_add_val : forall a b, bval (fe_add a b) = (bval a + bval b) mod P;
  fe_sub_val : forall a b, bval (fe_sub a b) = (bval a - bval b) mod P;
  fe_from_u128_val : forall n, 0 <= n < 2 ^ 128 -> bval (fe_from_u128 n) = n;
  fe_rem_val : forall a b, 0 < bval b -> bval (fe_rem a b) = bval a mod bval b;
}.

(** [StarkFelt::new] refuses byte strings with its own range check; what the
    sources rely on is that it keeps the bytes and accepts every canonical
    field element. *)
Class StarknetApi := {
  stark_new : array 32 -> option StarkFelt;
  (** [From<u8>], [From<u64>], [From<u128>] for [StarkFelt]. *)
  stark_from_uint : Z -> StarkFelt;
  (** [TryFrom<StarkFelt> for PatriciaKey], which wraps the felt it accepts. *)
  patricia_check : StarkFelt -> bool;
}.
Class StarknetApiLaws `{SA : StarknetApi} : Prop := {
  stark_from_uint_val : forall n, 0 <= n < 2 ^ 128 -> be_val (arr (stark_bytes (stark_from_uint n))) = n;
  stark_new_bytes : forall a s, stark_new a = Some s -> stark_bytes s = a;
  stark_new_accepts : forall a, be_val (arr a) < P -> is_Some (stark_new a);
  (** Patricia keys are below 2^251. *)
  patricia_check_bound : forall s, patricia_check s = true -> stark_val s < 2 ^ 251;
}.

Class PrimitiveTypes := {
  u256_from_big_endian : array 32 -> U256;
  u256_to_big_endian : U256 -> array 32;
  u256_from_u128 : Z -> U256;
}.
Class PrimitiveTypesLaws `{PT : PrimitiveTypes} : Prop := {
  u256_from_big_endian_val : forall a, bval (u256_from_big_endian a) = be_val (arr a);
  u256_to_big_endian_val : forall u, be_val (arr (u256_to_big_endian u)) = bval u;
  u256_from_u128_val : forall n, 0 <= n < 2 ^ 128 -> bval (u256_from_u128 n) = n;
}.

Class CairoFelt := {
  felt252_to_be_bytes : Felt252 -> array 32;
  felt252_from_bytes_be : array 32 -> Felt252;
}.
Class CairoFeltLaws `{CF : CairoFelt} : Prop := {
  felt252_to_be_bytes_val : forall f, be_val (arr (felt252_to_be_bytes f)) = bval f;
  felt252_from_bytes_be_val : forall a, bval (felt252_from_bytes_be a) = be_val (arr a) mod P;
}.

(** The hash functions of [starknet-crypto] and [starknet-core]. *)
Class StarknetCrypto := {
  pedersen_hash : FieldElement -> FieldElement -> FieldElement;
  poseidon_hash : FieldElement -> FieldElement -> FieldElement;
  poseidon_hash_many : list FieldElement -> FieldElement;
  compute_hash_on_elements : list FieldElement -> FieldElement;
}.
(** [starknet_core::crypto::compute_hash_on_elements] is the Pedersen chain
    h(h(h(h(0, data[0]), data[1]), ...), data[n-1]), n). *)
Class StarknetCryptoLaws `{SF : StarknetFf} `{SC : StarknetCrypto} : Prop := {
  compute_hash_on_elements_chain : forall l z,
    bval z = 0 ->
    compute_hash_on_elements l = pedersen_hash (fold_left pedersen_hash l z) (fe_from_u64 (zlen l));
}.

(** ** Reference implementations *)

Module Reference.

Lemma P_pos : 0 < P. Proof. reflexivity. Qed.
Lemma P_lt_256 : P < 256 ^ Z.of_nat 32. Proof. reflexivity. Qed.

(** The residue of an integer. *)
Lemma residue_ok m (Hm : 0 < m) z : (0 <=? z mod m) && (z mod m <? m) = true.
Proof. pose proof (Z.mod_pos_bound z m Hm). lia. Qed.

Definition residue (m : Z) (Hm : 0 < m) (z : Z) : bounded m :=
  mk_bounded (z mod m) (canon _ (residue_ok m Hm z)).

(** 2^256 modulo [P] has this inverse. *)
Definition mont_inv : Z :=
  Eval vm_compute in
  (* by Fermat: (2^256)^(P-2) mod P, by repeated squaring *)
  let fix pow (b : Z) (e : positive) {struct e} : Z :=
    match e with
    | xH => b mod P
    | xO e' => pow (b * b mod P) e'
    | xI e' => (b * pow (b * b mod P) e') mod P
    end in
  pow (2 ^ 256 mod P) (Z.to_pos (P - 2)).

Lemma mont_inv_ok : (mont_inv * 2 ^ 256) mod P = 1.
Proof. vm_compute. reflexivity. Qed.

(** Hexadecimal and decimal digits are not needed by any law. *)
#[export] Instance ff : StarknetFf := {|
  to_bytes_be f := be_array 32 (bval f);
  from_bytes_be a := bounded_of P (be_val (arr a));
  from_byte_slice_be l :=
    if (32 <? length l)%nat then Err FBS_InvalidLength
    else match bounded_of P (be_val l) with Some f => Ok f | None => Err FBS_OutOfRange end;
  fe_from_hex_be _ := Err FS_InvalidCharacter;
  fe_from_dec_str _ := Err FS_InvalidCharacter;
  from_mont a b c d := residue P P_pos ((a + b * 2 ^ 64 + c * 2 ^ 128 + d * 2 ^ 192) * mont_inv);
  fe_from_u64 n := residue P P_pos n;
  fe_from_eth a := residue P P_pos (be_val (arr a));
  u64_try_from_fe f := if bval f <=? u64_max then Some (bval f) else None;
  u128_try_from_fe f := if bval f <=? u128_max then Some (bval f) else None;
  fe_add a b := residue P P_pos (bval a + bval b);
  fe_sub a b := residue P P_pos (bval a - bval b);
  fe_from_u128 n := residue P P_pos n;
  fe_rem a b := residue P P_pos (bval a mod bval b);
|}.

#[export] Instance ff_laws : StarknetFfLaws (SF := ff).
Proof.
  constructor; simpl; intros.
  - apply be_val_bytes. pose proof (bounded_range P f). pose proof P_lt_256. lia.
  - rewrite bounded_of_spec. done.
  - rewrite bounded_of_none. pose proof (be_val_nonneg (arr a)). lia.
  - done.
  - rewrite Zmult_mod_idemp_l, <- Z.mul_assoc, <- Zmult_mod_idemp_r, mont_inv_ok. f_equal. lia.
  - apply Z.mod_small. assert (2 ^ 64 < P) by reflexivity. lia.
  - apply Z.mod_small. pose proof (array_val_bound 20 a).
    assert (256 ^ Z.of_nat 20 < P) by reflexivity. lia.
  - done.
  - done.
  - done.
  - done.
  - apply Z.mod_small. assert (2 ^ 128 < P) by reflexivity. lia.
  - apply Z.mod_small. pose proof (Z.mod_pos_bound (bval a) (bval b) ltac:(done)).
    pose proof (bounded_range P b). lia.
Qed.

#[export] Instance api : StarknetApi := {|
  stark_new a := Some (mk_stark a);
  stark_from_uint n := mk_stark (be_array 32 n);
  patricia_check s := be_val (arr (stark_bytes s)) <? 2 ^ 251;
|}.
#[export] Instance api_laws : StarknetApiLaws (SA := api).
Proof.
  constructor; simpl; [|by intros a s [= <-]|eauto|intros s Hs; by zbool].
  intros n Hn. apply be_val_bytes. assert (2 ^ 128 < 256 ^ Z.of_nat 32) by reflexivity. lia.
Qed.

Lemma u256_of_ok (a : array 32) : (0 <=? be_val (arr a)) && (be_val (arr a) <? 2 ^ 256) = true.
Proof. pose proof (array_val_bound 32 a). change (256 ^ Z.of_nat 32) with (2 ^ 256) in *. lia. Qed.

Definition u256_of (a : array 32) : U256 := mk_bounded (be_val (arr a)) (canon _ (u256_of_ok a)).

Lemma pow256_pos : 0 < 2 ^ 256. Proof. reflexivity. Qed.

#[export] Instance prim : PrimitiveTypes := {|
  u256_from_big_endian := u256_of;
  u256_to_big_endian u := be_array 32 (bval u);
  u256_from_u128 n := residue (2 ^ 256) pow256_pos n;
|}.
#[export] Instance prim_laws : PrimitiveTypesLaws (PT := prim).
Proof.
  constructor; simpl; intros.
  - done.
  - apply be_val_bytes. apply (bounded_range _ u).
  - apply Z.mod_small. assert (2 ^ 128 < 2 ^ 256) by reflexivity. lia.
Qed.

#[export] Instance cairo : CairoFelt := {|
  felt252_to_be_bytes f := be_array 32 (bval f);
  felt252_from_bytes_be a := residue P P_pos (be_val (arr a));
|}.
#[export] Instance cairo_laws : CairoFeltLaws (CF := cairo).
Proof.
  constructor; simpl; intros; [|done].
  apply be_val_bytes. pose proof (bounded_range P f). pose proof P_lt_256. lia.
Qed.

(** A toy hash: a polynomial in the field. *)
Definition toy_hash (a b : FieldElement) : FieldElement :=
  residue P P_pos (3 * bval a * bval a + 7 * bval b + 11).

#[export] Instance crypto : StarknetCrypto := {|
  pedersen_hash := toy_hash;
  poseidon_hash := toy_hash;
  poseidon_hash_many l := fold_left toy_hash l (residue P P_pos 5);
  compute_hash_on_elements l :=
    toy_hash (fold_left toy_hash l (residue P P_pos 0)) (residue P P_pos (zlen l));
|}.
#[export] Instance crypto_laws : StarknetCryptoLaws (SF := ff) (SC := crypto).
Proof.
  constructor. intros l z Hz. simpl. do 2 f_equal. by apply bounded_eq.
Qed.

End Reference.

#[export] Hint Resolve bounded_range : madara.
