(* ===== verification/Felt.v ===== *)
(** * [mp-felt]: the [Felt252Wrapper] type

    Models [crates/primitives/felt/src/lib.rs] and
    [starkware_types_conversions.rs]: the wrapper of [FieldElement], its
    conversions from and to bytes, machine integers, [U256], [H256], [Felt252],
    [StarkFelt] and the newtypes of [starknet-api], its SCALE codec, and the
    short-string decoding [from_utf8]. *)
From S2P Require Import Prelude Bytes Deps.
Local Open Scope Z_scope.

(** ** Data *)

Record Felt252Wrapper := mk_felt { felt0 : FieldElement }.

#[export] Instance Felt252Wrapper_eq_dec : EqDecision Felt252Wrapper.
Proof. solve_decision. Defined.

#[export] Program Instance Felt252Wrapper_countable : Countable Felt252Wrapper :=
  inj_countable' felt0 mk_felt _.
Next Obligation. by intros []. Qed.

Definition felt_val (f : Felt252Wrapper) : Z := bval (felt0 f).

Inductive Felt252WrapperError :=
| FromArrayError | InvalidLength | InvalidCharacter | OutOfRange | ValueTooLarge.

#[export] Instance Felt252WrapperError_eq_dec : EqDecision Felt252WrapperError.
Proof. solve_decision. Defined.

Definition felt_error_string (err : Felt252WrapperError) : string :=
  match err with
  | FromArrayError => "input array invalid"
  | InvalidCharacter => "invalid character"
  | OutOfRange => "number out of range"
  | InvalidLength => "invalid length"
  | ValueTooLarge => "felt252 value too large"
  end.

Definition from_str_error (err : FromStrError) : Felt252WrapperError :=
  match err with
  | FS_InvalidCharacter => InvalidCharacter
  | FS_OutOfRange => OutOfRange
  end.

(** The constants; their values are stated by the source's comments. *)
Definition ZERO : Felt252Wrapper := mk_felt (mk_bounded (m := P) 0 eq_refl).
Definition ONE : Felt252Wrapper := mk_felt (mk_bounded (m := P) 1 eq_refl).
Definition TWO : Felt252Wrapper := mk_felt (mk_bounded (m := P) 2 eq_refl).
Definition THREE : Felt252Wrapper := mk_felt (mk_bounded (m := P) 3 eq_refl).
Definition MAX : Felt252Wrapper := mk_felt (mk_bounded (m := P) (2 ^ 251 + 17 * 2 ^ 192) eq_refl).
Definition felt_default : Felt252Wrapper := ZERO.

(** The newtypes of [starknet-api] around a [StarkFelt].  [ContractAddress] and
    [StorageKey] wrap a [PatriciaKey], which wraps a [StarkFelt]; the two
    layers are one here. *)
Inductive newtype_tag :=
| BlockHashT | TransactionHashT | NonceT | ClassHashT | CompiledClassHashT | PatriciaKeyT
| ContractAddressT | EntryPointSelectorT | ContractAddressSaltT | StorageKeyT
| TransactionVersionT | EventKeyT.

Record newtype (t : newtype_tag) := mk_new { new0 : StarkFelt }.
Arguments mk_new {t} new0.
Arguments new0 {t} n.

#[export] Instance newtype_eq_dec t : EqDecision (newtype t).
Proof. solve_decision. Defined.

#[export] Program Instance newtype_countable t : Countable (newtype t) :=
  inj_countable' new0 mk_new _.
Next Obligation. by intros t []. Qed.

Abbreviation BlockHash := (newtype BlockHashT).
Abbreviation TransactionHash := (newtype TransactionHashT).
Abbreviation Nonce := (newtype NonceT).
Abbreviation ClassHash := (newtype ClassHashT).
Abbreviation CompiledClassHash := (newtype CompiledClassHashT).
Abbreviation ContractAddress := (newtype ContractAddressT).
Abbreviation EntryPointSelector := (newtype EntryPointSelectorT).
Abbreviation ContractAddressSalt := (newtype ContractAddressSaltT).
Abbreviation StorageKey := (newtype StorageKeyT).
Abbreviation TransactionVersion := (newtype TransactionVersionT).
Abbreviation EventKey := (newtype EventKeyT).

(** ** Operations *)
Section ops.
  Context `{SF : StarknetFf} `{SA : StarknetApi} `{PT : PrimitiveTypes} `{CF : CairoFelt}.

Definition felt_from_hex_be (value : string) : result Felt252WrapperError Felt252Wrapper :=
  let? fe := map_err from_str_error (fe_from_hex_be value) in Ok (mk_felt fe).

Definition felt_from_dec_str (value : string) : result Felt252WrapperError Felt252Wrapper :=
  let? fe := map_err from_str_error (fe_from_dec_str value) in Ok (mk_felt fe).

Definition felt_to_array (f : Felt252Wrapper) : array 32 := to_bytes_be (felt0 f).

(** [TryFrom<&[u8; 32]>]. *)
Definition felt_try_from_array (bytes : array 32) : result Felt252WrapperError Felt252Wrapper :=
  match from_bytes_be bytes with
  | Some ff => Ok (mk_felt ff)
  | None => Err FromArrayError
  end.

(** [TryFrom<&[u8]>]. *)
Definition felt_try_from_slice (bytes : list byte) : result Felt252WrapperError Felt252Wrapper :=
  match from_byte_slice_be bytes with
  | Ok ff => Ok (mk_felt ff)
  | Err FBS_InvalidLength => Err InvalidLength
  | Err FBS_OutOfRange => Err OutOfRange
  end.

Definition felt_from_eth (value : EthAddress) : Felt252Wrapper := mk_felt (fe_from_eth value).

(** [From<u64>], [From<u32>] and [From<u8>]. *)
Definition felt_from_u64 (value : Z) : Felt252Wrapper := mk_felt (fe_from_u64 value).

Definition felt_try_into_u64 (f : Felt252Wrapper) : result Felt252WrapperError Z :=
  ok_or (u64_try_from_fe (felt0 f)) ValueTooLarge.

Definition felt_try_into_u128 (f : Felt252Wrapper) : result Felt252WrapperError Z :=
  ok_or (u128_try_from_fe (felt0 f)) ValueTooLarge.

Definition felt_into_u256 (f : Felt252Wrapper) : U256 := u256_from_big_endian (to_bytes_be (felt0 f)).

Definition felt_try_from_u256 (u : U256) : result Felt252WrapperError Felt252Wrapper :=
  felt_try_from_array (u256_to_big_endian u).

(** [From<u128>]. *)
Definition felt_from_u128 (value : Z) : outcome Felt252Wrapper :=
  unwrap (felt_try_from_u256 (u256_from_u128 value)).

Definition felt_try_from_h256 (h : H256) : result Felt252WrapperError Felt252Wrapper :=
  felt_try_from_slice (arr h).

Definition felt_into_h256 (f : Felt252Wrapper) : H256 := felt_to_array f.

Definition felt_from_felt252 (value : Felt252) : outcome Felt252Wrapper :=
  unwrap (felt_try_from_array (felt252_to_be_bytes value)).

Definition felt_into_felt252 (f : Felt252Wrapper) : Felt252 := felt252_from_bytes_be (felt_to_array f).

Definition felt_from_stark (value : StarkFelt) : outcome Felt252Wrapper :=
  unwrap (felt_try_from_slice (arr (stark_bytes value))).

Definition felt_into_stark (f : Felt252Wrapper) : outcome StarkFelt :=
  unwrap_opt (stark_new (felt_to_array f)).

(** The conversions into and from the twelve newtypes. *)
Definition felt_into_new (t : newtype_tag) (f : Felt252Wrapper) : outcome (newtype t) :=
  let! s := felt_into_stark f in Ret (mk_new s).

Definition felt_from_new {t} (n : newtype t) : outcome Felt252Wrapper := felt_from_stark (new0 n).

(** SCALE: [encode_to] writes the 32 bytes, [decode] reads 32 bytes of the input. *)
Inductive ScaleError :=
| NotEnoughData
| CantGetFieldElement (buf : list byte) (e : Felt252WrapperError).

Definition felt_encode (f : Felt252Wrapper) : list byte := arr (to_bytes_be (felt0 f)).

Definition felt_max_encoded_len : Z := 32.

Definition felt_decode (input : list byte) : result ScaleError (Felt252Wrapper * list byte) :=
  match array_of_slice 32 (take 32 input) with
  | None => Err NotEnoughData
  | Some buf =>
      match felt_try_from_array buf with
      | Ok felt => Ok (felt, drop 32 input)
      | Err e => Err (CantGetFieldElement (arr buf) e)
      end
  end.

(** UTF-8 validation, as [str::from_utf8] performs it. *)
Definition is_cont (b : byte) : bool := (128 <=? byte_val b) && (byte_val b <? 192).

Fixpoint utf8_valid (l : list byte) {struct l} : bool :=
  match l with
  | [] => true
  | b :: l1 =>
      let v := byte_val b in
      if v <? 128 then utf8_valid l1
      else match l1 with
      | [] => false
      | c :: l2 =>
        let w := byte_val c in
        if (194 <=? v) && (v <? 224) then is_cont c && utf8_valid l2
        else match l2 with
        | [] => false
        | d :: l3 =>
          if (224 <=? v) && (v <? 240) then
            is_cont c && (negb (v =? 224) || (160 <=? w)) && (negb (v =? 237) || (w <? 160))
            && is_cont d && utf8_valid l3
          else match l3 with
          | [] => false
          | e :: l4 =>
            (240 <=? v) && (v <? 245)
            && is_cont c && (negb (v =? 240) || (144 <=? w)) && (negb (v =? 244) || (w <? 144))
            && is_cont d && is_cont e && utf8_valid l4
          end
        end
      end
  end.

(** [str::trim_start_matches('\0')]. *)
Fixpoint trim_nul (l : list byte) : list byte :=
  match l with
  | x00 :: l' => trim_nul l'
  | _ => l
  end.

Definition felt_from_utf8 (f : Felt252Wrapper) : result Felt252WrapperError (list byte) :=
  let bytes := arr (to_bytes_be (felt0 f)) in
  if utf8_valid bytes then Ok (trim_nul bytes) else Err InvalidCharacter.

End ops.

(** The conversion into a [StarkFelt] written as a total function; it is what the
    source's [StarkFelt::new(buf).unwrap()] returns (lemma [felt_into_stark_ret]). *)
Definition to_stark `{StarknetFf} (f : Felt252Wrapper) : StarkFelt := mk_stark (felt_to_array f).
Definition to_new `{StarknetFf} (t : newtype_tag) (f : Felt252Wrapper) : newtype t := mk_new (to_stark f).

(** ** Properties *)
Lemma felt_eq f g : felt_val f = felt_val g -> f = g.
Proof. destruct f, g. unfold felt_val. simpl. intros. f_equal. by apply bounded_eq. Qed.

Lemma felt_range f : 0 <= felt_val f < P.
Proof. apply bounded_range. Qed.

Section laws.
  Context `{SF : StarknetFf} {SFL : StarknetFfLaws}.
  Context `{SA : StarknetApi} {SAL : StarknetApiLaws}.
  Context `{PT : PrimitiveTypes} {PTL : PrimitiveTypesLaws}.
  Context `{CF : CairoFelt} {CFL : CairoFeltLaws}.

Lemma felt_to_array_val f : be_val (arr (felt_to_array f)) = felt_val f.
Proof. apply to_bytes_be_val. Qed.

Lemma felt_try_from_array_ok a f :
  felt_try_from_array a = Ok f <-> be_val (arr a) = felt_val f.
Proof.
  unfold felt_try_from_array. destruct (from_bytes_be a) as [g|] eqn:Hg.
  - apply from_bytes_be_some in Hg. rewrite <- Hg. split.
    + by intros [= <-].
    + intros. f_equal. by apply felt_eq.
  - apply from_bytes_be_none in Hg. split; [done|]. intros. pose proof (felt_range f). lia.
Qed.

Lemma felt_try_from_array_err a e :
  felt_try_from_array a = Err e <-> P <= be_val (arr a) /\ e = FromArrayError.
Proof.
  unfold felt_try_from_array. destruct (from_bytes_be a) as [g|] eqn:Hg.
  - apply from_bytes_be_some in Hg. pose proof (bounded_range _ g). split; [done|lia].
  - apply from_bytes_be_none in Hg. split; [by intros [= <-]|by intros [_ ->]].
Qed.

Lemma felt_try_from_slice_ok l f :
  felt_try_from_slice l = Ok f <-> (length l <= 32)%nat /\ be_val l = felt_val f.
Proof.
  unfold felt_try_from_slice. rewrite from_byte_slice_be_spec.
  destruct (32 <? length l)%nat eqn:Hl.
  - apply Nat.ltb_lt in Hl. split; [done|lia].
  - apply Nat.ltb_ge in Hl. destruct (bounded_of P (be_val l)) as [g|] eqn:Hg.
    + apply bounded_of_spec in Hg. split.
      * by intros [= <-].
      * intros [_ Hv]. f_equal. apply felt_eq. unfold felt_val in *. simpl. congruence.
    + apply bounded_of_none in Hg. split; [done|]. intros [_ Hv]. pose proof (felt_range f).
      pose proof (be_val_nonneg l). lia.
Qed.

Lemma felt_try_from_slice_err l e :
  felt_try_from_slice l = Err e <->
  ((32 < length l)%nat /\ e = InvalidLength)
  \/ ((length l <= 32)%nat /\ P <= be_val l /\ e = OutOfRange).
Proof.
  unfold felt_try_from_slice. rewrite from_byte_slice_be_spec. pose proof (be_val_nonneg l).
  destruct (32 <? length l)%nat eqn:Hl.
  - apply Nat.ltb_lt in Hl. split; [intros [= <-]; by left|]. intros [[_ ->]|[? _]]; [done|lia].
  - apply Nat.ltb_ge in Hl. destruct (bounded_of P (be_val l)) as [g|] eqn:Hg.
    + apply bounded_of_spec in Hg. pose proof (bounded_range _ g). split; [done|lia].
    + apply bounded_of_none in Hg. split.
      * intros [= <-]. right. repeat split; lia.
      * intros [[? _]|(_ & _ & ->)]; [lia|done].
Qed.

Lemma felt_into_stark_ret f : felt_into_stark f = Ret (to_stark f).
Proof.
  unfold felt_into_stark. destruct (stark_new_accepts (felt_to_array f)) as [s Hs].
  - rewrite felt_to_array_val. apply felt_range.
  - rewrite Hs. simpl. f_equal. apply stark_new_bytes in Hs. destruct s. simpl in Hs. by subst.
Qed.

Lemma felt_into_new_ret t f : felt_into_new t f = Ret (to_new t f).
Proof. unfold felt_into_new. by rewrite felt_into_stark_ret. Qed.

Lemma felt_from_stark_to f : felt_from_stark (to_stark f) = Ret f.
Proof.
  unfold felt_from_stark, to_stark. simpl.
  destruct (felt_try_from_slice (arr (felt_to_array f))) as [g|e] eqn:Hg.
  - apply felt_try_from_slice_ok in Hg as [_ Hv]. rewrite felt_to_array_val in Hv.
    simpl. f_equal. symmetry. by apply felt_eq.
  - apply felt_try_from_slice_err in Hg. rewrite felt_to_array_val, arr_length in Hg.
    pose proof (felt_range f). destruct Hg as [[? _]|(_ & ? & _)]; lia.
Qed.

Lemma felt_from_new_to t f : felt_from_new (to_new t f) = Ret f.
Proof. apply felt_from_stark_to. Qed.

Lemma to_new_inj t f g : to_new t f = to_new t g -> f = g.
Proof. intros H. apply (f_equal felt_from_new) in H. rewrite !felt_from_new_to in H. congruence. Qed.

Lemma felt_from_u64_val n : 0 <= n < 2 ^ 64 -> felt_val (felt_from_u64 n) = n.
Proof. apply fe_from_u64_val. Qed.

Lemma felt_u256_val f : bval (felt_into_u256 f) = felt_val f.
Proof. unfold felt_into_u256. rewrite u256_from_big_endian_val. apply felt_to_array_val. Qed.

Lemma felt_from_u128_ret n : 0 <= n < 2 ^ 128 -> exists f, felt_from_u128 n = Ret f /\ felt_val f = n.
Proof.
  intros Hn. unfold felt_from_u128, felt_try_from_u256.
  destruct (felt_try_from_array _) as [f|e] eqn:Hf.
  - exists f. split; [done|]. apply felt_try_from_array_ok in Hf.
    rewrite u256_to_big_endian_val, u256_from_u128_val in Hf; auto.
  - apply felt_try_from_array_err in Hf as [Hf _].
    rewrite u256_to_big_endian_val, u256_from_u128_val in Hf by done.
    assert (2 ^ 128 < P) by reflexivity. lia.
Qed.

End laws.

Lemma utf8_valid_zeros n l : utf8_valid (replicate n x00 ++ l) = utf8_valid l.
Proof. induction n as [|n IH]; [done|]. exact IH. Qed.

Lemma trim_nul_zeros n l : trim_nul (replicate n x00 ++ l) = trim_nul l.
Proof. induction n as [|n IH]; [done|]. exact IH. Qed.

Lemma be_bytes_pad n l :
  (length l <= n)%nat -> be_bytes n (be_val l) = replicate (n - length l) x00 ++ l.
Proof.
  intros Hl. apply be_val_inj.
  - rewrite be_bytes_length, length_app, length_replicate. lia.
  - rewrite be_val_zeros. apply be_val_bytes. split; [apply be_val_nonneg|].
    eapply Z.lt_le_trans; [apply be_val_bound|]. apply Z.pow_le_mono_r; [lia|]. unfold zlen. lia.
Qed.

Section properties.
  Context `{SF : StarknetFf} {SFL : StarknetFfLaws}.
  Context `{SA : StarknetApi} {SAL : StarknetApiLaws}.
  Context `{PT : PrimitiveTypes} {PTL : PrimitiveTypesLaws}.
  Context `{CF : CairoFelt} {CFL : CairoFeltLaws}.

(** Every conversion out of a [Felt252Wrapper] is undone by the conversion
    back, none of the [unwrap]s on the way panics, and SCALE decoding of an
    encoded felt followed by any bytes returns the felt and leaves those bytes
    unread; the encoding always has the announced maximal length. *)
Theorem felt_roundtrips (f : Felt252Wrapper) (rest : list byte) (t : newtype_tag) :
  felt_try_from_array (felt_to_array f) = Ok f
  /\ felt_try_from_slice (arr (felt_to_array f)) = Ok f
  /\ felt_try_from_u256 (felt_into_u256 f) = Ok f
  /\ felt_try_from_h256 (felt_into_h256 f) = Ok f
  /\ felt_from_felt252 (felt_into_felt252 f) = Ret f
  /\ outcome_bind (felt_into_stark f) felt_from_stark = Ret f
  /\ outcome_bind (felt_into_new t f) felt_from_new = Ret f
  /\ felt_decode (felt_encode f ++ rest) = Ok (f, rest)
  /\ zlen (felt_encode f) = felt_max_encoded_len.
Proof.
  assert (Ha : felt_try_from_array (felt_to_array f) = Ok f)
    by apply felt_try_from_array_ok, felt_to_array_val.
  assert (Hs : felt_try_from_slice (arr (felt_to_array f)) = Ok f)
    by (apply felt_try_from_slice_ok; rewrite arr_length; split; [lia|apply felt_to_array_val]).
  repeat split; auto.
  - unfold felt_try_from_u256. apply felt_try_from_array_ok.
    by rewrite u256_to_big_endian_val, felt_u256_val.
  - unfold felt_from_felt252, felt_into_felt252.
    replace (felt_try_from_array _) with (Ok (E := Felt252WrapperError) f); [done|].
    symmetry. apply felt_try_from_array_ok.
    rewrite felt252_to_be_bytes_val, felt252_from_bytes_be_val, felt_to_array_val.
    apply Z.mod_small, felt_range.
  - rewrite felt_into_stark_ret. apply felt_from_stark_to.
  - rewrite felt_into_new_ret. apply felt_from_new_to.
  - unfold felt_decode, felt_encode.
    pose proof (arr_length 32 (felt_to_array f)) as Hl. unfold felt_to_array in *.
    rewrite take_app_length', drop_app_length' by done.
    by rewrite array_of_slice_arr, Ha.
  - unfold zlen, felt_encode. by rewrite arr_length.
Qed.

(** Reading bytes accepts exactly the strings of at most 32 bytes whose
    big-endian value is below the field modulus; a longer slice is
    [InvalidLength], a value of the modulus or more is [OutOfRange] through the
    slice conversion and [FromArrayError] through the array, [U256] and SCALE
    conversions. *)
Theorem felt_bytes_classified (l : list byte) (a : array 32) (u : U256) :
  (forall f, felt_try_from_slice l = Ok f <-> (length l <= 32)%nat /\ felt_val f = be_val l)
  /\ (felt_try_from_slice l = Err InvalidLength <-> (32 < length l)%nat)
  /\ (felt_try_from_slice l = Err OutOfRange <-> (length l <= 32)%nat /\ P <= be_val l)
  /\ (forall f, felt_try_from_array a = Ok f <-> felt_val f = be_val (arr a))
  /\ (felt_try_from_array a = Err FromArrayError <-> P <= be_val (arr a))
  /\ (felt_try_from_u256 u = Err FromArrayError <-> P <= bval u)
  /\ (felt_decode (arr a) = Err (CantGetFieldElement (arr a) FromArrayError) <-> P <= be_val (arr a)).
Proof.
  assert (Ha : forall b, felt_try_from_array b = Err FromArrayError <-> P <= be_val (arr b))
    by (intros b; rewrite felt_try_from_array_err; tauto).
  split_and!.
  - intros f. rewrite felt_try_from_slice_ok. intuition.
  - rewrite felt_try_from_slice_err. intuition; congruence.
  - rewrite felt_try_from_slice_err. intuition; congruence.
  - intros f. rewrite felt_try_from_array_ok. intuition.
  - apply Ha.
  - unfold felt_try_from_u256. by rewrite Ha, u256_to_big_endian_val.
  - rewrite <- Ha. unfold felt_decode. rewrite take_ge by (rewrite arr_length; lia).
    rewrite array_of_slice_arr. destruct (felt_try_from_array a); [done|]. split; congruence.
Qed.

(** Machine integers survive the trip through a felt: [u64] and [u128]
    values convert without panic and convert back to themselves, and a felt
    converts to [u64] or [u128] exactly when its value fits, with
    [ValueTooLarge] otherwise. *)
Theorem felt_machine_integers (n : Z) (f : Felt252Wrapper) :
  (0 <= n < 2 ^ 64 -> felt_try_into_u64 (felt_from_u64 n) = Ok n)
  /\ (0 <= n < 2 ^ 128 -> exists g, felt_from_u128 n = Ret g /\ felt_try_into_u128 g = Ok n)
  /\ felt_try_into_u64 f = (if felt_val f <? 2 ^ 64 then Ok (felt_val f) else Err ValueTooLarge)
  /\ felt_try_into_u128 f = (if felt_val f <? 2 ^ 128 then Ok (felt_val f) else Err ValueTooLarge).
Proof.
  assert (H64 : forall f, felt_try_into_u64 f = if felt_val f <? 2 ^ 64 then Ok (felt_val f) else Err ValueTooLarge).
  { intros g. unfold felt_try_into_u64. rewrite u64_try_from_fe_spec. unfold u64_max, felt_val.
    destruct (bval (felt0 g) <=? 2 ^ 64 - 1) eqn:E1, (bval (felt0 g) <? 2 ^ 64) eqn:E2; try done; zbool; lia. }
  assert (H128 : forall f, felt_try_into_u128 f = if felt_val f <? 2 ^ 128 then Ok (felt_val f) else Err ValueTooLarge).
  { intros g. unfold felt_try_into_u128. rewrite u128_try_from_fe_spec. unfold u128_max, felt_val.
    destruct (bval (felt0 g) <=? 2 ^ 128 - 1) eqn:E1, (bval (felt0 g) <? 2 ^ 128) eqn:E2; try done; zbool; lia. }
  split_and!; [intros Hn|intros Hn|apply H64|apply H128].
  - rewrite H64, felt_from_u64_val by done. destruct (n <? 2 ^ 64) eqn:E; [done|zbool; lia].
  - destruct (felt_from_u128_ret n Hn) as (g & Hg & Hv). exists g. split; [done|].
    rewrite H128, Hv. destruct (n <? 2 ^ 128) eqn:E; [done|zbool; lia].
Qed.

(** Short strings: a felt whose value is the big-endian reading of a valid
    UTF-8 string of at most 32 bytes that does not start with a NUL decodes to
    that string. *)
Theorem felt_from_utf8_short_string (s : list byte) (f : Felt252Wrapper) :
  (length s <= 32)%nat -> utf8_valid s = true -> hd x01 s <> x00 -> felt_val f = be_val s ->
  felt_from_utf8 f = Ok s.
Proof.
  intros Hl Hu Hh Hv. unfold felt_from_utf8.
  assert (Hb : arr (to_bytes_be (felt0 f)) = replicate (32 - length s) x00 ++ s).
  { rewrite <- be_bytes_pad by done. apply be_val_inj.
    - by rewrite arr_length, be_bytes_length.
    - rewrite to_bytes_be_val, be_val_bytes; [exact Hv|]. rewrite <- Hv.
      pose proof (felt_range f). assert (P < 256 ^ Z.of_nat 32) by reflexivity. lia. }
  rewrite Hb, utf8_valid_zeros, trim_nul_zeros, Hu. f_equal.
  destruct s as [|[] s]; simpl in *; congruence.
Qed.

End properties.

(** ** Witnesses *)
Import Deps.Reference.
Definition felt_of_Z (z : Z) : Felt252Wrapper :=
  mk_felt (Reference.residue P Reference.P_pos z).

Lemma felt_roundtrips_witness :
  felt_decode (felt_encode (felt_of_Z 3405691582) ++ [xff]) = Ok (felt_of_Z 3405691582, [xff]).
Proof. apply (felt_roundtrips (felt_of_Z 3405691582) [xff] NonceT). Defined.

Lemma felt_bytes_classified_witness :
  felt_try_from_slice (replicate 33 xff) = Err InvalidLength
  /\ felt_try_from_array (be_array 32 P) = Err FromArrayError.
Proof.
  pose proof (felt_bytes_classified (replicate 33 xff) (be_array 32 P)
                (Reference.residue (2 ^ 256) Reference.pow256_pos P)) as (_ & H1 & _ & _ & H2 & _).
  split; [apply H1; vm_compute; lia|apply H2; vm_compute; discriminate].
Defined.

Lemma felt_machine_integers_witness : felt_try_into_u64 (felt_from_u64 42) = Ok 42.
Proof. apply (felt_machine_integers 42 MAX). lia. Defined.

Lemma felt_from_utf8_short_string_witness : felt_from_utf8 (felt_of_Z 5459781) = Ok [x53; x4f; x45].
Proof. apply (felt_from_utf8_short_string [x53; x4f; x45]); [vm_compute; lia|reflexivity|discriminate|reflexivity]. Defined.
