(* ===== verification/Hashers.v ===== *)
(** * [mp-hashers], [mp-chain-id], [mp-program-hash]

    The [HasherT] trait as a type class with its two implementations
    ([pedersen.rs], [poseidon.rs]), and the field constants that the crates give
    in Montgomery form. *)
From S2P Require Import Prelude Bytes Deps Felt.
Local Open Scope Z_scope.

(** [slice::chunks(n)]: consecutive pieces of [n] elements, the last one shorter
    when the length is not a multiple of [n].  The fuel is the length. *)
Fixpoint chunks_fuel {A} (fuel n : nat) (l : list A) : list (list A) :=
  match fuel, l with
  | _, [] => []
  | O, _ => []
  | S fuel', _ => take n l :: chunks_fuel fuel' n (drop n l)
  end.
Definition chunks {A} (n : nat) (l : list A) : list (list A) := chunks_fuel (length l) n l.

(** The trait. *)
Class HasherT := {
  hash_bytes : list byte -> outcome Felt252Wrapper;
  compute_hash_on_wrappers : list Felt252Wrapper -> Felt252Wrapper;
  hash_elements : FieldElement -> FieldElement -> FieldElement;
  H_compute_hash_on_elements : list FieldElement -> FieldElement;
}.

Definition CHUNK_SIZE : nat := 31.

Definition fe_zero : FieldElement := felt0 ZERO.

Section hashers.
  Context `{SF : StarknetFf} `{SC : StarknetCrypto}.

(** The loop of [PedersenHasher::hash_bytes]. *)
Fixpoint pedersen_chunks (hash_value : FieldElement) (cs : list (list byte)) : outcome FieldElement :=
  match cs with
  | [] => Ret hash_value
  | chunk :: cs' =>
      let! field_element := unwrap (from_byte_slice_be chunk) in
      pedersen_chunks (pedersen_hash hash_value field_element) cs'
  end.

Definition PedersenHasher : HasherT := {|
  hash_bytes data := let! h := pedersen_chunks fe_zero (chunks CHUNK_SIZE data) in Ret (mk_felt h);
  compute_hash_on_wrappers data := mk_felt (compute_hash_on_elements (map felt0 data));
  hash_elements a b := pedersen_hash a b;
  H_compute_hash_on_elements elements := compute_hash_on_elements elements;
|}.

Definition PoseidonHasher : HasherT := {|
  hash_bytes data :=
    let! v := traverse (fun chunk => unwrap (from_byte_slice_be chunk)) (chunks CHUNK_SIZE data) in
    Ret (mk_felt (poseidon_hash_many v));
  compute_hash_on_wrappers data := mk_felt (poseidon_hash_many (map felt0 data));
  hash_elements a b := poseidon_hash a b;
  H_compute_hash_on_elements elements := poseidon_hash_many elements;
|}.

(** Constants in Montgomery form. *)
Definition SN_GOERLI_CHAIN_ID : Felt252Wrapper :=
  mk_felt (from_mont 3753493103916128178 18446744073709548950 18446744073709551615 398700013197595345).
Definition SN_MAIN_CHAIN_ID : Felt252Wrapper :=
  mk_felt (from_mont 17696389056366564951 18446744073709551615 18446744073709551615 502562008147966918).
Definition MADARA_CHAIN_ID : Felt252Wrapper :=
  mk_felt (from_mont 18444025906882525153 18446744073709551615 18446744073709551615 530251916243973616).
Definition SN_OS_PROGRAM_HASH : Felt252Wrapper :=
  mk_felt (from_mont 6431315658044554931 6518314672963632076 7993178465604693533 95212460539797968).
Definition SIMULATE_TX_VERSION_OFFSET : FieldElement :=
  from_mont 18446744073700081665 17407 18446744073709551584 576460752142434320.
Definition PREFIX_CONTRACT_ADDRESS : FieldElement :=
  from_mont 3829237882463328880 17289941567720117366 8635008616843941496 533439743893157637.
Definition ADDR_BOUND : FieldElement :=
  from_mont 18446743986131443745 160989183 18446744073709255680 576459263475590224.

End hashers.

(** ** Lemmas *)
Lemma chunks_fuel_concat {A} fuel n (l : list A) :
  (0 < n)%nat -> (length l <= fuel)%nat -> concat (chunks_fuel fuel n l) = l.
Proof.
  intros Hn. revert l. induction fuel as [|fuel IH]; intros l Hl.
  - destruct l; [done|simpl in Hl; lia].
  - destruct l as [|x l]; [done|]. cbn [chunks_fuel concat].
    rewrite IH, take_drop; [done|]. rewrite length_drop. simpl in *. lia.
Qed.

Lemma chunks_concat {A} n (l : list A) : (0 < n)%nat -> concat (chunks n l) = l.
Proof. intros. by apply chunks_fuel_concat. Qed.

Lemma chunks_size {A} n (l c : list A) : c ∈ chunks n l -> (length c <= n)%nat.
Proof.
  unfold chunks. generalize (length l) as fuel. intros fuel. revert l.
  induction fuel as [|fuel IH]; intros l; destruct l; simpl; try by intros ?%not_elem_of_nil.
  rewrite elem_of_cons. intros [->|Hc]; [|eauto]. rewrite length_take. lia.
Qed.

(** A chunk read as a field element. *)
Definition chunk_felt (c : list byte) : FieldElement :=
  match bounded_of P (be_val c) with Some f => f | None => fe_zero end.

Section lemmas.
  Context `{SF : StarknetFf} {SFL : StarknetFfLaws} `{SC : StarknetCrypto}.

Lemma short_slice_ok c :
  (length c <= 31)%nat -> from_byte_slice_be c = Ok (chunk_felt c) /\ bval (chunk_felt c) = be_val c.
Proof.
  intros Hc. rewrite from_byte_slice_be_spec. unfold chunk_felt.
  destruct (32 <? length c)%nat eqn:Hl; [apply Nat.ltb_lt in Hl; lia|].
  destruct (bounded_of P (be_val c)) as [f|] eqn:Hf.
  - split; [done|]. by apply bounded_of_spec in Hf.
  - apply bounded_of_none in Hf. pose proof (be_val_nonneg c). pose proof (be_val_bound c).
    assert (256 ^ zlen c <= 256 ^ 31) by (apply Z.pow_le_mono_r; unfold zlen; lia).
    assert (256 ^ 31 < P) by reflexivity. lia.
Qed.

Lemma pedersen_chunks_ret h cs :
  (forall c, c ∈ cs -> (length c <= 31)%nat) ->
  pedersen_chunks h cs = Ret (fold_left pedersen_hash (map chunk_felt cs) h).
Proof.
  revert h. induction cs as [|c cs IH]; intros h Hc; [done|]. cbn [pedersen_chunks map fold_left].
  destruct (short_slice_ok c) as [-> _]; [apply Hc; left|]. cbn [unwrap outcome_bind].
  apply IH. intros; apply Hc; by right.
Qed.

(** The value of a constant given by its Montgomery limbs. *)
Lemma from_mont_unique a b c d v :
  0 <= v < P ->
  (a + b * 2 ^ 64 + c * 2 ^ 128 + d * 2 ^ 192) mod P = (v * 2 ^ 256) mod P ->
  bval (from_mont a b c d) = v.
Proof.
  intros Hv Hm. pose proof (from_mont_val a b c d) as Hl. rewrite Hm in Hl.
  set (x := bval (from_mont a b c d)) in *. pose proof (bounded_range P (from_mont a b c d)) as Hx.
  fold x in Hx. apply (f_equal (fun y => (y * Reference.mont_inv) mod P)) in Hl.
  rewrite !Zmult_mod_idemp_l, <- !Z.mul_assoc, (Z.mul_comm (2 ^ 256)) in Hl.
  rewrite <- (Zmult_mod_idemp_r _ x), <- (Zmult_mod_idemp_r _ v), Reference.mont_inv_ok in Hl.
  rewrite !Z.mul_1_r, !Z.mod_small in Hl by done. done.
Qed.

(** The two conditions as one boolean, decided by evaluation. *)
Definition mont_check (a b c d v : Z) : bool :=
  (0 <=? v) && (v <? P)
  && ((a + b * 2 ^ 64 + c * 2 ^ 128 + d * 2 ^ 192) mod P =? (v * 2 ^ 256) mod P).

Lemma from_mont_checked a b c d v : mont_check a b c d v = true -> bval (from_mont a b c d) = v.
Proof. unfold mont_check. intros H. zbool. apply from_mont_unique; auto. Qed.

Tactic Notation "mont_const" reference(c) :=
  unfold felt_val, c; cbn [felt0]; apply from_mont_checked; vm_compute; reflexivity.

Lemma SIMULATE_TX_VERSION_OFFSET_val : bval SIMULATE_TX_VERSION_OFFSET = 2 ^ 128.
Proof. mont_const SIMULATE_TX_VERSION_OFFSET. Qed.

Lemma ADDR_BOUND_val : bval ADDR_BOUND = 2 ^ 251 - 256.
Proof. mont_const ADDR_BOUND. Qed.

(** Hashing bytes never panics: every 31-byte chunk is below the modulus, so
    the [unwrap] the comments call safe is safe, and the Pedersen and Poseidon
    results are the hash chain over the big-endian values of the chunks, whose
    concatenation is the input. *)
Theorem hash_bytes_total (data : list byte) :
  let cs := chunks CHUNK_SIZE data in
  concat cs = data
  /\ Forall (fun c => (length c <= 31)%nat /\ bval (chunk_felt c) = be_val c) cs
  /\ hash_bytes (HasherT := PedersenHasher) data
     = Ret (mk_felt (fold_left pedersen_hash (map chunk_felt cs) fe_zero))
  /\ hash_bytes (HasherT := PoseidonHasher) data = Ret (mk_felt (poseidon_hash_many (map chunk_felt cs))).
Proof.
  intros cs. assert (Hc : forall c, c ∈ cs -> (length c <= 31)%nat) by (intros c; apply chunks_size).
  split_and!.
  - apply chunks_concat. unfold CHUNK_SIZE. lia.
  - apply Forall_forall. intros c Hin%list_elem_of_In. split; [auto|]. by apply short_slice_ok, Hc.
  - simpl. fold cs. by rewrite pedersen_chunks_ret.
  - simpl. fold cs. rewrite (traverse_ret _ chunk_felt); [done|].
    intros c Hin. destruct (short_slice_ok c) as [-> _]; auto.
Qed.

(** The Montgomery constants of the source have the values its comments
    and names announce: the chain ids are the ASCII strings SN_GOERLI, SN_MAIN
    and MADARA, the program hash is the documented hexadecimal number, the
    simulation offset is 2^128, the address bound is 2^251 - 256 and the
    address prefix is the string STARKNET_CONTRACT_ADDRESS. *)
Theorem montgomery_constants :
  felt_val SN_GOERLI_CHAIN_ID = be_val (bytes_of "SN_GOERLI")
  /\ felt_val SN_MAIN_CHAIN_ID = be_val (bytes_of "SN_MAIN")
  /\ felt_val MADARA_CHAIN_ID = be_val (bytes_of "MADARA")
  /\ felt_val SN_OS_PROGRAM_HASH = 0x41fc2a467ef8649580631912517edcab7674173f1dbfa2e9b64fbcd82bc4d79
  /\ bval SIMULATE_TX_VERSION_OFFSET = 2 ^ 128
  /\ bval ADDR_BOUND = 2 ^ 251 - 256
  /\ bval PREFIX_CONTRACT_ADDRESS = be_val (bytes_of "STARKNET_CONTRACT_ADDRESS").
Proof.
  split_and!.
  - mont_const SN_GOERLI_CHAIN_ID.
  - mont_const SN_MAIN_CHAIN_ID.
  - mont_const MADARA_CHAIN_ID.
  - mont_const SN_OS_PROGRAM_HASH.
  - apply SIMULATE_TX_VERSION_OFFSET_val.
  - apply ADDR_BOUND_val.
  - mont_const PREFIX_CONTRACT_ADDRESS.
Qed.

End lemmas.

(** ** Witnesses *)
Import Deps.Reference.

Lemma hash_bytes_total_witness :
  exists h, hash_bytes (HasherT := PedersenHasher) (replicate 40 xff) = Ret h.
Proof. destruct (hash_bytes_total (replicate 40 xff)) as (_ & _ & H & _). eexists. exact H. Defined.

Lemma montgomery_constants_witness : bval SIMULATE_TX_VERSION_OFFSET = 2 ^ 128.
Proof. destruct montgomery_constants as (_ & _ & _ & _ & H & _). exact H. Defined.
