(* ===== verification/Transactions.v ===== *)
(** * [mp-transactions]: data types, getters and transaction hashes

    Models [crates/primitives/transactions/src/lib.rs] (the transaction types),
    [getters.rs] and [compute_hash.rs]. *)
From S2P Require Import Prelude Bytes Deps Felt Hashers.
Local Open Scope Z_scope.

(** [blockifier::execution::contract_class::ContractClass]. *)
Class ContractClassI := {
  ContractClass : Type;
  ContractClass_eq_dec :: EqDecision ContractClass;
}.

(** ** Data *)
Record InvokeTransactionV0 := mk_iv0 {
  iv0_max_fee : Z;
  iv0_signature : list Felt252Wrapper;
  iv0_contract_address : Felt252Wrapper;
  iv0_entry_point_selector : Felt252Wrapper;
  iv0_calldata : list Felt252Wrapper;
}.

Record InvokeTransactionV1 := mk_iv1 {
  iv1_max_fee : Z;
  iv1_signature : list Felt252Wrapper;
  iv1_nonce : Felt252Wrapper;
  iv1_sender_address : Felt252Wrapper;
  iv1_calldata : list Felt252Wrapper;
  iv1_offset_version : bool;
}.

Inductive InvokeTransaction := InvokeV0 (tx : InvokeTransactionV0) | InvokeV1 (tx : InvokeTransactionV1).

Record DeclareTransactionV0 := mk_dv0 {
  dv0_max_fee : Z;
  dv0_signature : list Felt252Wrapper;
  dv0_nonce : Felt252Wrapper;
  dv0_class_hash : Felt252Wrapper;
  dv0_sender_address : Felt252Wrapper;
}.

Record DeclareTransactionV1 := mk_dv1 {
  dv1_max_fee : Z;
  dv1_signature : list Felt252Wrapper;
  dv1_nonce : Felt252Wrapper;
  dv1_class_hash : Felt252Wrapper;
  dv1_sender_address : Felt252Wrapper;
  dv1_offset_version : bool;
}.

Record DeclareTransactionV2 := mk_dv2 {
  dv2_max_fee : Z;
  dv2_signature : list Felt252Wrapper;
  dv2_nonce : Felt252Wrapper;
  dv2_class_hash : Felt252Wrapper;
  dv2_sender_address : Felt252Wrapper;
  dv2_compiled_class_hash : Felt252Wrapper;
  dv2_offset_version : bool;
}.

Inductive DeclareTransaction :=
| DeclareV0 (tx : DeclareTransactionV0)
| DeclareV1 (tx : DeclareTransactionV1)
| DeclareV2 (tx : DeclareTransactionV2).

Record DeployAccountTransaction := mk_da {
  da_max_fee : Z;
  da_signature : list Felt252Wrapper;
  da_nonce : Felt252Wrapper;
  da_contract_address_salt : Felt252Wrapper;
  da_constructor_calldata : list Felt252Wrapper;
  da_class_hash : Felt252Wrapper;
  da_offset_version : bool;
}.

Record HandleL1MessageTransaction := mk_l1 {
  l1_nonce : Z;
  l1_contract_address : Felt252Wrapper;
  l1_entry_point_selector : Felt252Wrapper;
  l1_calldata : list Felt252Wrapper;
}.

Inductive UserTransaction `{ContractClassI} :=
| UDeclare (tx : DeclareTransaction) (class : ContractClass)
| UDeployAccount (tx : DeployAccountTransaction)
| UInvoke (tx : InvokeTransaction).

Inductive Transaction :=
| TDeclare (tx : DeclareTransaction)
| TDeployAccount (tx : DeployAccountTransaction)
| TInvoke (tx : InvokeTransaction)
| TL1Handler (tx : HandleL1MessageTransaction).

(** [starknet_api::transaction::Fee] is a [u128]. *)
Inductive UserOrL1HandlerTransaction `{ContractClassI} :=
| User (tx : UserTransaction)
| L1Handler (tx : HandleL1MessageTransaction) (fee : Z).

#[export] Instance InvokeTransactionV0_eq_dec : EqDecision InvokeTransactionV0.
Proof. solve_decision. Defined.
#[export] Instance InvokeTransactionV1_eq_dec : EqDecision InvokeTransactionV1.
Proof. solve_decision. Defined.
#[export] Instance InvokeTransaction_eq_dec : EqDecision InvokeTransaction.
Proof. solve_decision. Defined.
#[export] Instance DeclareTransactionV0_eq_dec : EqDecision DeclareTransactionV0.
Proof. solve_decision. Defined.
#[export] Instance DeclareTransactionV1_eq_dec : EqDecision DeclareTransactionV1.
Proof. solve_decision. Defined.
#[export] Instance DeclareTransactionV2_eq_dec : EqDecision DeclareTransactionV2.
Proof. solve_decision. Defined.
#[export] Instance DeclareTransaction_eq_dec : EqDecision DeclareTransaction.
Proof. solve_decision. Defined.
#[export] Instance DeployAccountTransaction_eq_dec : EqDecision DeployAccountTransaction.
Proof. solve_decision. Defined.
#[export] Instance HandleL1MessageTransaction_eq_dec : EqDecision HandleL1MessageTransaction.
Proof. solve_decision. Defined.
#[export] Instance Transaction_eq_dec : EqDecision Transaction.
Proof. solve_decision. Defined.
#[export] Instance UserTransaction_eq_dec `{ContractClassI} : EqDecision UserTransaction.
Proof. solve_decision. Defined.

Inductive TxType := TxInvoke | TxDeclare | TxDeployAccount | TxL1Handler.

(** [blockifier::transaction::transaction_types::TransactionType], with the
    names used by the conversion. *)
Inductive TransactionType := InvokeFunction | Declare' | DeployAccount' | L1Handler'.

#[export] Instance TxType_eq_dec : EqDecision TxType.
Proof. solve_decision. Defined.
#[export] Instance TransactionType_eq_dec : EqDecision TransactionType.
Proof. solve_decision. Defined.

Definition TransactionType_from (value : TxType) : TransactionType :=
  match value with
  | TxInvoke => InvokeFunction
  | TxDeclare => Declare'
  | TxDeployAccount => DeployAccount'
  | TxL1Handler => L1Handler'
  end.

Definition TxType_from_user `{ContractClassI} (value : UserTransaction) : TxType :=
  match value with
  | UDeclare _ _ => TxDeclare
  | UDeployAccount _ => TxDeployAccount
  | UInvoke _ => TxInvoke
  end.

Definition TxType_from_user_or_l1 `{ContractClassI} (value : UserOrL1HandlerTransaction) : TxType :=
  match value with
  | User tx => TxType_from_user tx
  | L1Handler _ _ => TxL1Handler
  end.

(** [starknet_core::types::MsgFromL1]. *)
Record MsgFromL1 := mk_msg_from_l1 {
  mfl_from_address : EthAddress;
  mfl_to_address : FieldElement;
  mfl_entry_point_selector : FieldElement;
  mfl_payload : list FieldElement;
}.

Definition HandleL1Message_from_msg `{StarknetFf} (msg : MsgFromL1) : HandleL1MessageTransaction := {|
  l1_contract_address := mk_felt (mfl_to_address msg);
  l1_nonce := 0;
  l1_entry_point_selector := mk_felt (mfl_entry_point_selector msg);
  l1_calldata := felt_from_eth (mfl_from_address msg) :: map mk_felt (mfl_payload msg);
|}.

(** ** Getters *)
Definition declare_sender_address (d : DeclareTransaction) : Felt252Wrapper :=
  match d with
  | DeclareV0 tx => dv0_sender_address tx
  | DeclareV1 tx => dv1_sender_address tx
  | DeclareV2 tx => dv2_sender_address tx
  end.

Definition declare_signature (d : DeclareTransaction) : list Felt252Wrapper :=
  match d with
  | DeclareV0 tx => dv0_signature tx
  | DeclareV1 tx => dv1_signature tx
  | DeclareV2 tx => dv2_signature tx
  end.

Definition declare_max_fee (d : DeclareTransaction) : Z :=
  match d with
  | DeclareV0 tx => dv0_max_fee tx
  | DeclareV1 tx => dv1_max_fee tx
  | DeclareV2 tx => dv2_max_fee tx
  end.

Definition declare_nonce (d : DeclareTransaction) : Felt252Wrapper :=
  match d with
  | DeclareV0 tx => dv0_nonce tx
  | DeclareV1 tx => dv1_nonce tx
  | DeclareV2 tx => dv2_nonce tx
  end.

Definition declare_class_hash (d : DeclareTransaction) : Felt252Wrapper :=
  match d with
  | DeclareV0 tx => dv0_class_hash tx
  | DeclareV1 tx => dv1_class_hash tx
  | DeclareV2 tx => dv2_class_hash tx
  end.

Definition declare_compiled_class_hash (d : DeclareTransaction) : option Felt252Wrapper :=
  match d with
  | DeclareV0 _ => None
  | DeclareV1 _ => None
  | DeclareV2 tx => Some (dv2_compiled_class_hash tx)
  end.

Definition declare_offset_version (d : DeclareTransaction) : bool :=
  match d with
  | DeclareV0 _ => false
  | DeclareV1 tx => dv1_offset_version tx
  | DeclareV2 tx => dv2_offset_version tx
  end.

Definition invoke_sender_address (i : InvokeTransaction) : Felt252Wrapper :=
  match i with InvokeV0 tx => iv0_contract_address tx | InvokeV1 tx => iv1_sender_address tx end.

Definition invoke_signature (i : InvokeTransaction) : list Felt252Wrapper :=
  match i with InvokeV0 tx => iv0_signature tx | InvokeV1 tx => iv1_signature tx end.

Definition invoke_max_fee (i : InvokeTransaction) : Z :=
  match i with InvokeV0 tx => iv0_max_fee tx | InvokeV1 tx => iv1_max_fee tx end.

Definition invoke_calldata (i : InvokeTransaction) : list Felt252Wrapper :=
  match i with InvokeV0 tx => iv0_calldata tx | InvokeV1 tx => iv1_calldata tx end.

Definition invoke_nonce (i : InvokeTransaction) : option Felt252Wrapper :=
  match i with InvokeV0 _ => None | InvokeV1 tx => Some (iv1_nonce tx) end.

Definition invoke_offset_version (i : InvokeTransaction) : bool :=
  match i with InvokeV0 _ => false | InvokeV1 tx => iv1_offset_version tx end.

Definition tx_signature (t : Transaction) : list Felt252Wrapper :=
  match t with
  | TDeclare tx => declare_signature tx
  | TDeployAccount tx => da_signature tx
  | TInvoke tx => invoke_signature tx
  | TL1Handler _ => []
  end.

Definition invoke_version (i : InvokeTransaction) : Z :=
  match i with InvokeV0 _ => 0 | InvokeV1 _ => 1 end.

Definition declare_version (d : DeclareTransaction) : Z :=
  match d with DeclareV0 _ => 0 | DeclareV1 _ => 1 | DeclareV2 _ => 2 end.

Definition deploy_account_version (d : DeployAccountTransaction) : Z := 1.
Definition l1_handler_version (h : HandleL1MessageTransaction) : Z := 0.

Definition tx_version (t : Transaction) : Z :=
  match t with
  | TDeclare tx => declare_version tx
  | TDeployAccount tx => deploy_account_version tx
  | TInvoke tx => invoke_version tx
  | TL1Handler tx => l1_handler_version tx
  end.

(** ** Transaction hashes *)

(** The byte-string prefixes.  The source reads them with
    [from_byte_slice_be(..).unwrap()]; lemma [prefixes_ok] shows that none of
    the four [unwrap]s panics and that this is the element they return. *)
Definition DECLARE_PREFIX : list byte := bytes_of "declare".
Definition DEPLOY_ACCOUNT_PREFIX : list byte := bytes_of "deploy_account".
Definition INVOKE_PREFIX : list byte := bytes_of "invoke".
Definition L1_HANDLER_PREFIX : list byte := bytes_of "l1_handler".

Definition fe_one : FieldElement := felt0 ONE.
Definition fe_two : FieldElement := felt0 TWO.

(** [convert_calldata]: the wrappers viewed as the elements they wrap. *)
Definition convert_calldata (data : list Felt252Wrapper) : list FieldElement := map felt0 data.

Section compute_hash.
  Context `{SF : StarknetFf} `{SC : StarknetCrypto} {H : HasherT}.

Definition invoke_v0_elements (tx : InvokeTransactionV0) (chain_id : Felt252Wrapper) (offset_version : bool)
  : list FieldElement :=
  let prefix := chunk_felt INVOKE_PREFIX in
  let version := if offset_version then SIMULATE_TX_VERSION_OFFSET else fe_zero in
  let calldata_hash := compute_hash_on_elements (convert_calldata (iv0_calldata tx)) in
  [prefix; version; felt0 (iv0_contract_address tx); felt0 (iv0_entry_point_selector tx); calldata_hash;
   fe_from_u128 (iv0_max_fee tx); felt0 chain_id].

Definition invoke_v1_elements (tx : InvokeTransactionV1) (chain_id : Felt252Wrapper) (offset_version : bool)
  : list FieldElement :=
  let prefix := chunk_felt INVOKE_PREFIX in
  let version := if offset_version then fe_add SIMULATE_TX_VERSION_OFFSET fe_one else fe_one in
  let calldata_hash := compute_hash_on_elements (convert_calldata (iv1_calldata tx)) in
  [prefix; version; felt0 (iv1_sender_address tx); fe_zero; calldata_hash;
   fe_from_u128 (iv1_max_fee tx); felt0 chain_id; felt0 (iv1_nonce tx)].

Definition declare_v0_elements (tx : DeclareTransactionV0) (chain_id : Felt252Wrapper) (offset_version : bool)
  : list FieldElement :=
  let prefix := chunk_felt DECLARE_PREFIX in
  let version := if offset_version then SIMULATE_TX_VERSION_OFFSET else fe_zero in
  let alignment_placeholder := compute_hash_on_elements [] in
  [prefix; version; felt0 (dv0_sender_address tx); fe_zero; alignment_placeholder;
   fe_from_u128 (dv0_max_fee tx); felt0 chain_id; felt0 (dv0_class_hash tx)].

Definition declare_v1_elements (tx : DeclareTransactionV1) (chain_id : Felt252Wrapper) (offset_version : bool)
  : list FieldElement :=
  let prefix := chunk_felt DECLARE_PREFIX in
  let version := if offset_version then fe_add SIMULATE_TX_VERSION_OFFSET fe_one else fe_one in
  let calldata := compute_hash_on_elements [felt0 (dv1_class_hash tx)] in
  [prefix; version; felt0 (dv1_sender_address tx); fe_zero; calldata;
   fe_from_u128 (dv1_max_fee tx); felt0 chain_id; felt0 (dv1_nonce tx)].

Definition declare_v2_elements (tx : DeclareTransactionV2) (chain_id : Felt252Wrapper) (offset_version : bool)
  : list FieldElement :=
  let prefix := chunk_felt DECLARE_PREFIX in
  let version := if offset_version then fe_add SIMULATE_TX_VERSION_OFFSET fe_two else fe_two in
  let calldata := compute_hash_on_elements [felt0 (dv2_class_hash tx)] in
  [prefix; version; felt0 (dv2_sender_address tx); fe_zero; calldata;
   fe_from_u128 (dv2_max_fee tx); felt0 chain_id; felt0 (dv2_nonce tx); felt0 (dv2_compiled_class_hash tx)].

Definition calculate_contract_address (contract_address_salt class_hash : FieldElement)
    (constructor_calldata : list FieldElement) : FieldElement :=
  fe_rem (compute_hash_on_elements
            [PREFIX_CONTRACT_ADDRESS; fe_zero; contract_address_salt; class_hash;
             compute_hash_on_elements constructor_calldata])
         ADDR_BOUND.

Definition get_account_address (tx : DeployAccountTransaction) : FieldElement :=
  calculate_contract_address (felt0 (da_contract_address_salt tx)) (felt0 (da_class_hash tx))
    (convert_calldata (da_constructor_calldata tx)).

Definition account_address (tx : DeployAccountTransaction) : Felt252Wrapper := mk_felt (get_account_address tx).

Definition deploy_account_calldata (tx : DeployAccountTransaction) : list FieldElement :=
  felt0 (da_class_hash tx) :: felt0 (da_contract_address_salt tx)
    :: convert_calldata (da_constructor_calldata tx).

Definition deploy_account_elements (tx : DeployAccountTransaction) (chain_id contract_address : FieldElement)
    (offset_version : bool) : list FieldElement :=
  let prefix := chunk_felt DEPLOY_ACCOUNT_PREFIX in
  let version := if offset_version then fe_add SIMULATE_TX_VERSION_OFFSET fe_one else fe_one in
  let calldata_hash := compute_hash_on_elements (deploy_account_calldata tx) in
  [prefix; version; contract_address; fe_zero; calldata_hash;
   fe_from_u128 (da_max_fee tx); chain_id; felt0 (da_nonce tx)].

Definition compute_hash_given_contract_address (tx : DeployAccountTransaction)
    (chain_id contract_address : FieldElement) (offset_version : bool) : FieldElement :=
  H_compute_hash_on_elements (deploy_account_elements tx chain_id contract_address offset_version).

Definition l1_handler_elements (tx : HandleL1MessageTransaction) (chain_id : Felt252Wrapper)
    (offset_version : bool) : list FieldElement :=
  let prefix := chunk_felt L1_HANDLER_PREFIX in
  let version := if offset_version then SIMULATE_TX_VERSION_OFFSET else fe_zero in
  let calldata_hash := compute_hash_on_elements (convert_calldata (l1_calldata tx)) in
  [prefix; version; felt0 (l1_contract_address tx); felt0 (l1_entry_point_selector tx); calldata_hash;
   felt0 chain_id; fe_from_u64 (l1_nonce tx)].

Definition invoke_compute_hash (tx : InvokeTransaction) (chain_id : Felt252Wrapper) (offset_version : bool)
  : Felt252Wrapper :=
  match tx with
  | InvokeV0 tx => mk_felt (H_compute_hash_on_elements (invoke_v0_elements tx chain_id offset_version))
  | InvokeV1 tx => mk_felt (H_compute_hash_on_elements (invoke_v1_elements tx chain_id offset_version))
  end.

Definition declare_compute_hash (tx : DeclareTransaction) (chain_id : Felt252Wrapper) (offset_version : bool)
  : Felt252Wrapper :=
  match tx with
  | DeclareV0 tx => mk_felt (H_compute_hash_on_elements (declare_v0_elements tx chain_id offset_version))
  | DeclareV1 tx => mk_felt (H_compute_hash_on_elements (declare_v1_elements tx chain_id offset_version))
  | DeclareV2 tx => mk_felt (H_compute_hash_on_elements (declare_v2_elements tx chain_id offset_version))
  end.

Definition deploy_account_compute_hash (tx : DeployAccountTransaction) (chain_id : Felt252Wrapper)
    (offset_version : bool) : Felt252Wrapper :=
  mk_felt (compute_hash_given_contract_address tx (felt0 chain_id) (get_account_address tx) offset_version).

Definition l1_handler_compute_hash (tx : HandleL1MessageTransaction) (chain_id : Felt252Wrapper)
    (offset_version : bool) : Felt252Wrapper :=
  mk_felt (H_compute_hash_on_elements (l1_handler_elements tx chain_id offset_version)).

Definition tx_compute_hash (t : Transaction) (chain_id : Felt252Wrapper) (offset_version : bool)
  : Felt252Wrapper :=
  match t with
  | TDeclare tx => declare_compute_hash tx chain_id offset_version
  | TDeployAccount tx => deploy_account_compute_hash tx chain_id offset_version
  | TInvoke tx => invoke_compute_hash tx chain_id offset_version
  | TL1Handler tx => l1_handler_compute_hash tx chain_id offset_version
  end.

Context `{CC : ContractClassI}.

Definition user_compute_hash (t : UserTransaction) (chain_id : Felt252Wrapper) (offset_version : bool)
  : Felt252Wrapper :=
  match t with
  | UDeclare tx _ => declare_compute_hash tx chain_id offset_version
  | UDeployAccount tx => deploy_account_compute_hash tx chain_id offset_version
  | UInvoke tx => invoke_compute_hash tx chain_id offset_version
  end.

Definition user_or_l1_compute_hash (t : UserOrL1HandlerTransaction) (chain_id : Felt252Wrapper)
    (offset_version : bool) : Felt252Wrapper :=
  match t with
  | User tx => user_compute_hash tx chain_id offset_version
  | L1Handler tx _ => l1_handler_compute_hash tx chain_id offset_version
  end.

Definition user_sender_address (t : UserTransaction) : Felt252Wrapper :=
  match t with
  | UDeclare tx _ => declare_sender_address tx
  | UDeployAccount tx => account_address tx
  | UInvoke tx => invoke_sender_address tx
  end.

Definition user_signature (t : UserTransaction) : list Felt252Wrapper :=
  match t with
  | UDeclare tx _ => declare_signature tx
  | UDeployAccount tx => da_signature tx
  | UInvoke tx => invoke_signature tx
  end.

Definition user_max_fee (t : UserTransaction) : Z :=
  match t with
  | UDeclare tx _ => declare_max_fee tx
  | UDeployAccount tx => da_max_fee tx
  | UInvoke tx => invoke_max_fee tx
  end.

Definition user_calldata (t : UserTransaction) : option (list Felt252Wrapper) :=
  match t with
  | UDeclare _ _ => None
  | UDeployAccount tx => Some (da_constructor_calldata tx)
  | UInvoke tx => Some (invoke_calldata tx)
  end.

Definition user_nonce (t : UserTransaction) : option Felt252Wrapper :=
  match t with
  | UDeclare tx _ => Some (declare_nonce tx)
  | UDeployAccount tx => Some (da_nonce tx)
  | UInvoke tx => invoke_nonce tx
  end.

Definition user_offset_version (t : UserTransaction) : bool :=
  match t with
  | UDeclare tx _ => declare_offset_version tx
  | UDeployAccount tx => da_offset_version tx
  | UInvoke tx => invoke_offset_version tx
  end.

Definition user_version (t : UserTransaction) : Z :=
  match t with
  | UDeclare tx _ => declare_version tx
  | UDeployAccount tx => deploy_account_version tx
  | UInvoke tx => invoke_version tx
  end.

Definition user_or_l1_version (t : UserOrL1HandlerTransaction) : Z :=
  match t with
  | User tx => user_version tx
  | L1Handler tx _ => l1_handler_version tx
  end.

End compute_hash.
