(* ===== verification/ComputeHash.v ===== *)
(** * What a transaction hash commits to

    Theorems about [compute_hash.rs]: the prefixes read without panic, the
    simulation offset keeps versions apart, the deployed account address is in
    range, and a transaction hash determines, up to a collision of the hash
    functions exhibited explicitly, every field of the transaction that enters
    it. *)
From S2P Require Import Prelude Bytes Deps Felt Hashers Transactions.
Local Open Scope Z_scope.

(** The fields that the hash of each kind of transaction covers. *)
Inductive TxPayload :=
| PInvokeV0 (contract_address entry_point_selector : Felt252Wrapper) (calldata : list Felt252Wrapper)
    (max_fee : Z) (chain_id : Felt252Wrapper) (offset : bool)
| PInvokeV1 (sender_address : Felt252Wrapper) (calldata : list Felt252Wrapper)
    (max_fee : Z) (chain_id nonce : Felt252Wrapper) (offset : bool)
| PDeclareV0 (sender_address : Felt252Wrapper) (max_fee : Z) (chain_id class_hash : Felt252Wrapper) (offset : bool)
| PDeclareV1 (sender_address class_hash : Felt252Wrapper) (max_fee : Z) (chain_id nonce : Felt252Wrapper)
    (offset : bool)
| PDeclareV2 (sender_address class_hash : Felt252Wrapper) (max_fee : Z)
    (chain_id nonce compiled_class_hash : Felt252Wrapper) (offset : bool)
| PDeployAccount (contract_address_salt class_hash : Felt252Wrapper) (calldata : list Felt252Wrapper)
    (max_fee : Z) (chain_id nonce : Felt252Wrapper) (offset : bool)
| PL1Handler (contract_address entry_point_selector : Felt252Wrapper) (calldata : list Felt252Wrapper)
    (chain_id : Felt252Wrapper) (nonce : Z) (offset : bool).

Definition tx_payload (t : Transaction) (c : Felt252Wrapper) (o : bool) : TxPayload :=
  match t with
  | TInvoke (InvokeV0 tx) =>
      PInvokeV0 (iv0_contract_address tx) (iv0_entry_point_selector tx) (iv0_calldata tx) (iv0_max_fee tx) c o
  | TInvoke (InvokeV1 tx) =>
      PInvokeV1 (iv1_sender_address tx) (iv1_calldata tx) (iv1_max_fee tx) c (iv1_nonce tx) o
  | TDeclare (DeclareV0 tx) => PDeclareV0 (dv0_sender_address tx) (dv0_max_fee tx) c (dv0_class_hash tx) o
  | TDeclare (DeclareV1 tx) =>
      PDeclareV1 (dv1_sender_address tx) (dv1_class_hash tx) (dv1_max_fee tx) c (dv1_nonce tx) o
  | TDeclare (DeclareV2 tx) =>
      PDeclareV2 (dv2_sender_address tx) (dv2_class_hash tx) (dv2_max_fee tx) c (dv2_nonce tx)
        (dv2_compiled_class_hash tx) o
  | TDeployAccount tx =>
      PDeployAccount (da_contract_address_salt tx) (da_class_hash tx) (da_constructor_calldata tx)
        (da_max_fee tx) c (da_nonce tx) o
  | TL1Handler tx =>
      PL1Handler (l1_contract_address tx) (l1_entry_point_selector tx) (l1_calldata tx) c (l1_nonce tx) o
  end.

(** Machine-width ranges of the integer fields. *)
Definition tx_wf (t : Transaction) : bool :=
  match t with
  | TInvoke tx => in_width 128 (invoke_max_fee tx)
  | TDeclare tx => in_width 128 (declare_max_fee tx)
  | TDeployAccount tx => in_width 128 (da_max_fee tx)
  | TL1Handler tx => in_width 64 (l1_nonce tx)
  end.

Section binding.
  Context `{SF : StarknetFf} {SFL : StarknetFfLaws} `{SC : StarknetCrypto} {H : HasherT}.

(** The outer list that is hashed with [H], and the inner list that is hashed
    with the Pedersen chain into one of its elements. *)
Definition tx_elements (t : Transaction) (c : Felt252Wrapper) (o : bool) : list FieldElement :=
  match t with
  | TInvoke (InvokeV0 tx) => invoke_v0_elements tx c o
  | TInvoke (InvokeV1 tx) => invoke_v1_elements tx c o
  | TDeclare (DeclareV0 tx) => declare_v0_elements tx c o
  | TDeclare (DeclareV1 tx) => declare_v1_elements tx c o
  | TDeclare (DeclareV2 tx) => declare_v2_elements tx c o
  | TDeployAccount tx => deploy_account_elements tx (felt0 c) (get_account_address tx) o
  | TL1Handler tx => l1_handler_elements tx c o
  end.

Definition tx_inner (t : Transaction) : list FieldElement :=
  match t with
  | TInvoke tx => convert_calldata (invoke_calldata tx)
  | TDeclare (DeclareV0 _) => []
  | TDeclare (DeclareV1 tx) => [felt0 (dv1_class_hash tx)]
  | TDeclare (DeclareV2 tx) => [felt0 (dv2_class_hash tx)]
  | TDeployAccount tx => deploy_account_calldata tx
  | TL1Handler tx => convert_calldata (l1_calldata tx)
  end.

Definition collision (h : list FieldElement -> FieldElement) (l1 l2 : list FieldElement) : Prop :=
  l1 <> l2 /\ h l1 = h l2.

Lemma tx_compute_hash_elements t c o :
  tx_compute_hash t c o = mk_felt (H_compute_hash_on_elements (tx_elements t c o)).
Proof. by destruct t as [[]| |[]|]. Qed.

Lemma tx_elements_inner t c o : (tx_elements t c o !! 4%nat) = Some (compute_hash_on_elements (tx_inner t)).
Proof. by destruct t as [[]| |[]|]. Qed.

Lemma prefixes_ok :
  Forall (fun p => unwrap (from_byte_slice_be p) = Ret (chunk_felt p))
    [DECLARE_PREFIX; DEPLOY_ACCOUNT_PREFIX; INVOKE_PREFIX; L1_HANDLER_PREFIX].
Proof.
  repeat constructor;
    (match goal with |- unwrap (from_byte_slice_be ?p) = _ => destruct (short_slice_ok p) as [-> _] end;
     [vm_compute; lia|done]).
Qed.

(** The four prefixes are distinct field elements. *)
Definition tx_prefix (t : Transaction) : list byte :=
  match t with
  | TInvoke _ => INVOKE_PREFIX
  | TDeclare _ => DECLARE_PREFIX
  | TDeployAccount _ => DEPLOY_ACCOUNT_PREFIX
  | TL1Handler _ => L1_HANDLER_PREFIX
  end.

Lemma tx_elements_head t c o : head (tx_elements t c o) = Some (chunk_felt (tx_prefix t)).
Proof. by destruct t as [[]| |[]|]. Qed.

Lemma prefix_val_inj t1 t2 :
  chunk_felt (tx_prefix t1) = chunk_felt (tx_prefix t2) -> tx_prefix t1 = tx_prefix t2.
Proof.
  intros He. apply (f_equal bval) in He.
  destruct t1, t2; try reflexivity; vm_compute in He; discriminate He.
Qed.

(** The version elements: the simulation offset is 2^128, above every version. *)
Lemma offset_version_val (o : bool) (k : FieldElement) :
  0 <= bval k < 3 ->
  bval (if o then fe_add SIMULATE_TX_VERSION_OFFSET k else k) = bval k + (if o then 2 ^ 128 else 0).
Proof.
  intros Hk. destruct o; [|lia]. rewrite fe_add_val, SIMULATE_TX_VERSION_OFFSET_val, Z.mod_small; [lia|].
  assert (2 ^ 128 + 3 < P) by reflexivity. lia.
Qed.

Lemma offset_zero_val (o : bool) :
  bval (if o then SIMULATE_TX_VERSION_OFFSET else fe_zero) = (if o then 2 ^ 128 else 0).
Proof. destruct o; [apply SIMULATE_TX_VERSION_OFFSET_val|done]. Qed.

Lemma tx_elements_version t c o :
  exists v, tx_elements t c o !! 1%nat = Some v /\ bval v = tx_version t + (if o then 2 ^ 128 else 0).
Proof.
  destruct t as [[]| |[]|]; eexists; (split; [reflexivity|]);
    first [ rewrite offset_zero_val; reflexivity
          | rewrite offset_version_val; [reflexivity|vm_compute; split; congruence] ].
Qed.

Lemma tx_version_range t : 0 <= tx_version t < 3.
Proof. destruct t as [[]| |[]|]; vm_compute; split; congruence. Qed.

Lemma tx_elements_kind t1 c1 o1 t2 c2 o2 :
  tx_elements t1 c1 o1 = tx_elements t2 c2 o2 ->
  tx_prefix t1 = tx_prefix t2 /\ tx_version t1 = tx_version t2 /\ o1 = o2.
Proof.
  intros He. split.
  - apply prefix_val_inj. apply (f_equal head) in He. rewrite !tx_elements_head in He. congruence.
  - destruct (tx_elements_version t1 c1 o1) as (v1 & Hl1 & Hv1).
    destruct (tx_elements_version t2 c2 o2) as (v2 & Hl2 & Hv2).
    rewrite He in Hl1. assert (v1 = v2) as -> by congruence. rewrite Hv1 in Hv2.
    pose proof (tx_version_range t1). pose proof (tx_version_range t2).
    destruct o1, o2; split; try reflexivity; lia.
Qed.

Lemma felt0_inj f g : felt0 f = felt0 g -> f = g.
Proof. destruct f, g. simpl. congruence. Qed.

Lemma convert_calldata_inj l1 l2 : convert_calldata l1 = convert_calldata l2 -> l1 = l2.
Proof.
  revert l2. induction l1 as [|x l1 IH]; intros [|y l2]; simpl; try done.
  intros [= Hx Hl]. f_equal; [by apply felt0_inj|auto].
Qed.

Lemma fe_from_u128_inj m n :
  in_width 128 m = true -> in_width 128 n = true -> fe_from_u128 m = fe_from_u128 n -> m = n.
Proof.
  rewrite !in_width_spec. intros Hm Hn He. apply (f_equal bval) in He.
  rewrite !fe_from_u128_val in He by done. done.
Qed.

Lemma fe_from_u64_inj m n :
  in_width 64 m = true -> in_width 64 n = true -> fe_from_u64 m = fe_from_u64 n -> m = n.
Proof.
  rewrite !in_width_spec. intros Hm Hn He. apply (f_equal bval) in He.
  rewrite !fe_from_u64_val in He by done. done.
Qed.

Lemma tx_elements_inj t1 c1 o1 t2 c2 o2 :
  tx_wf t1 = true -> tx_wf t2 = true ->
  tx_elements t1 c1 o1 = tx_elements t2 c2 o2 -> tx_inner t1 = tx_inner t2 ->
  tx_payload t1 c1 o1 = tx_payload t2 c2 o2.
Proof.
  intros W1 W2 He Hi. destruct (tx_elements_kind _ _ _ _ _ _ He) as (Hp & Hv & ->).
  destruct t1 as [[]| |[]|], t2 as [[]| |[]|]; try discriminate Hp; try discriminate Hv;
    injection He; injection Hi || idtac; intros; simpl in *; f_equal;
    repeat match goal with Hx : convert_calldata _ = convert_calldata _ |- _ => apply convert_calldata_inj in Hx end;
    eauto using felt0_inj, fe_from_u128_inj, fe_from_u64_inj, convert_calldata_inj.
Qed.

(** C32: a transaction hash commits to exactly its payload: the hash depends on
    nothing else (not on the signature, and for a version-0 declare not on the
    nonce), and two transactions with the same hash, under any chain ids and
    offsets, have the same kind, version, chain id, offset, addresses,
    calldata, fee and nonce, unless the two element lists or the two calldata
    lists are a collision of the hash function applied to them. *)
Theorem tx_hash_commits (t1 t2 : Transaction) (c1 c2 : Felt252Wrapper) (o1 o2 : bool) :
  tx_wf t1 = true -> tx_wf t2 = true ->
  (tx_payload t1 c1 o1 = tx_payload t2 c2 o2 -> tx_compute_hash t1 c1 o1 = tx_compute_hash t2 c2 o2)
  /\ (tx_compute_hash t1 c1 o1 = tx_compute_hash t2 c2 o2 ->
      tx_payload t1 c1 o1 = tx_payload t2 c2 o2
      \/ collision H_compute_hash_on_elements (tx_elements t1 c1 o1) (tx_elements t2 c2 o2)
      \/ collision compute_hash_on_elements (tx_inner t1) (tx_inner t2)).
Proof.
  intros W1 W2. split.
  - intros Hp. rewrite !tx_compute_hash_elements. do 2 f_equal.
    destruct t1 as [[[]|[]|[]]|[]|[[]|[]]|[]], t2 as [[[]|[]|[]]|[]|[[]|[]]|[]];
      try discriminate Hp; simpl in Hp; injection Hp; intros; by subst.
  - rewrite !tx_compute_hash_elements. intros [= Hh].
    destruct (decide (tx_elements t1 c1 o1 = tx_elements t2 c2 o2)) as [He|]; [|right; left; by split].
    destruct (decide (tx_inner t1 = tx_inner t2)) as [Hi|].
    + left. by apply tx_elements_inj.
    + right; right. split; [done|]. apply (f_equal (lookup 4%nat)) in He.
      rewrite !tx_elements_inner in He. congruence.
Qed.

(** The address of an account to deploy is below 2^251 - 256, the bound of
    Starknet contract addresses, and the [DeployAccount] hash is computed for
    that address. *)
Theorem deploy_account_address_bound (tx : DeployAccountTransaction) (c : Felt252Wrapper) (o : bool) :
  0 <= felt_val (account_address tx) < 2 ^ 251 - 256
  /\ tx_elements (TDeployAccount tx) c o !! 2%nat = Some (felt0 (account_address tx)).
Proof.
  split; [|done]. unfold account_address, get_account_address, calculate_contract_address, felt_val.
  cbn [felt0]. rewrite fe_rem_val, ADDR_BOUND_val; [|rewrite ADDR_BOUND_val; reflexivity].
  apply Z.mod_pos_bound. reflexivity.
Qed.

End binding.

(** ** Witnesses *)
Import Deps.Reference.

Definition w_invoke (sig nonce : Z) : Transaction :=
  TInvoke (InvokeV1 {| iv1_max_fee := 7; iv1_signature := [felt_of_Z sig]; iv1_nonce := felt_of_Z nonce;
    iv1_sender_address := felt_of_Z 1; iv1_calldata := [felt_of_Z 2]; iv1_offset_version := false |}).

Lemma tx_hash_commits_witness :
  tx_compute_hash (H := PedersenHasher) (w_invoke 5 0) SN_MAIN_CHAIN_ID false
  = tx_compute_hash (H := PedersenHasher) (w_invoke 6 0) SN_MAIN_CHAIN_ID false.
Proof.
  apply (tx_hash_commits (H := PedersenHasher) (w_invoke 5 0) (w_invoke 6 0)
           SN_MAIN_CHAIN_ID SN_MAIN_CHAIN_ID false false); reflexivity.
Defined.

Lemma deploy_account_address_bound_witness :
  felt_val (account_address (mk_da 0 [] ZERO ONE [] TWO false)) < 2 ^ 251 - 256.
Proof.
  destruct (deploy_account_address_bound (mk_da 0 [] ZERO ONE [] TWO false) ZERO false) as [[_ Hb] _].
  exact Hb.
Defined.
