(* ===== verification/Blockifier.v ===== *)
(** * The interface to [blockifier] and [starknet-api]

    Data types of the two crates that the sources build and take apart, the
    [State] traits as type classes, and the functions of [blockifier] that the
    sources call as operations of a class.  The laws say that [blockifier]
    touches the state only through the [State] trait it is given, that contract
    code does not write nonces, and what a few pure helpers return. *)
From S2P Require Import Prelude Bytes Deps Felt Hashers Transactions.
Local Open Scope Z_scope.

Abbreviation Calldata := (list StarkFelt).

(** ** [starknet_api::transaction] *)
Record stDeclareV0V1 := mk_std01 {
  std01_max_fee : Z; std01_signature : list StarkFelt; std01_nonce : Nonce;
  std01_class_hash : ClassHash; std01_sender_address : ContractAddress }.
Record stDeclareV2 := mk_std2 {
  std2_max_fee : Z; std2_signature : list StarkFelt; std2_nonce : Nonce; std2_class_hash : ClassHash;
  std2_compiled_class_hash : CompiledClassHash; std2_sender_address : ContractAddress }.
Inductive stDeclare := StDeclareV0 (tx : stDeclareV0V1) | StDeclareV1 (tx : stDeclareV0V1) | StDeclareV2 (tx : stDeclareV2).
Record stInvokeV0 := mk_sti0 {
  sti0_max_fee : Z; sti0_signature : list StarkFelt; sti0_contract_address : ContractAddress;
  sti0_entry_point_selector : EntryPointSelector; sti0_calldata : Calldata }.
Record stInvokeV1 := mk_sti1 {
  sti1_max_fee : Z; sti1_signature : list StarkFelt; sti1_nonce : Nonce;
  sti1_sender_address : ContractAddress; sti1_calldata : Calldata }.
Inductive stInvoke := StInvokeV0 (tx : stInvokeV0) | StInvokeV1 (tx : stInvokeV1).
Record stDeployAccount := mk_stda {
  stda_max_fee : Z; stda_version : TransactionVersion; stda_signature : list StarkFelt; stda_nonce : Nonce;
  stda_class_hash : ClassHash; stda_contract_address_salt : ContractAddressSalt;
  stda_constructor_calldata : Calldata }.
Record stL1Handler := mk_stl1 {
  stl1_version : TransactionVersion; stl1_nonce : Nonce; stl1_contract_address : ContractAddress;
  stl1_entry_point_selector : EntryPointSelector; stl1_calldata : Calldata }.

(** Getters of [starknet_api::transaction::DeclareTransaction] and
    [InvokeTransaction]. *)
Definition st_declare_class_hash (d : stDeclare) : ClassHash :=
  match d with StDeclareV0 t | StDeclareV1 t => std01_class_hash t | StDeclareV2 t => std2_class_hash t end.
Definition st_declare_sender_address (d : stDeclare) : ContractAddress :=
  match d with StDeclareV0 t | StDeclareV1 t => std01_sender_address t | StDeclareV2 t => std2_sender_address t end.
Definition st_declare_nonce (d : stDeclare) : Nonce :=
  match d with StDeclareV0 t | StDeclareV1 t => std01_nonce t | StDeclareV2 t => std2_nonce t end.
Definition st_declare_max_fee (d : stDeclare) : Z :=
  match d with StDeclareV0 t | StDeclareV1 t => std01_max_fee t | StDeclareV2 t => std2_max_fee t end.
Definition st_declare_signature (d : stDeclare) : list StarkFelt :=
  match d with StDeclareV0 t | StDeclareV1 t => std01_signature t | StDeclareV2 t => std2_signature t end.
Definition st_declare_version (d : stDeclare) : Z :=
  match d with StDeclareV0 _ => 0 | StDeclareV1 _ => 1 | StDeclareV2 _ => 2 end.
Definition st_invoke_max_fee (i : stInvoke) : Z :=
  match i with StInvokeV0 t => sti0_max_fee t | StInvokeV1 t => sti1_max_fee t end.
Definition st_invoke_signature (i : stInvoke) : list StarkFelt :=
  match i with StInvokeV0 t => sti0_signature t | StInvokeV1 t => sti1_signature t end.
Definition st_invoke_calldata (i : stInvoke) : Calldata :=
  match i with StInvokeV0 t => sti0_calldata t | StInvokeV1 t => sti1_calldata t end.

(** ** [blockifier::transaction] *)
Record bDeclare `{ContractClassI} := mk_bd {
  bd_tx : stDeclare; bd_tx_hash : TransactionHash; bd_contract_class : ContractClass }.
Record bInvoke := mk_bi { bi_tx : stInvoke; bi_tx_hash : TransactionHash }.
Record bDeployAccount := mk_bda {
  bda_tx : stDeployAccount; bda_tx_hash : TransactionHash; bda_contract_address : ContractAddress }.
Record bL1Handler := mk_bl1 { bl1_tx : stL1Handler; bl1_paid_fee_on_l1 : Z; bl1_tx_hash : TransactionHash }.

(** The transactions that implement [Executable]. *)
Inductive Executable `{ContractClassI} :=
| XDeclare (tx : bDeclare) | XInvoke (tx : bInvoke) | XDeployAccount (tx : bDeployAccount) | XL1Handler (tx : bL1Handler).

Record AccountTransactionContext := mk_actx {
  actx_transaction_hash : TransactionHash; actx_max_fee : Z; actx_version : TransactionVersion;
  actx_signature : list StarkFelt; actx_nonce : Nonce; actx_sender_address : ContractAddress }.

(** [AccountTransactionContext::default()]. *)
Definition actx_default : AccountTransactionContext :=
  mk_actx (mk_new stark_default) 0 (mk_new stark_default) [] (mk_new stark_default) (mk_new stark_default).

Record BlockContext := mk_bctx {
  bctx_chain_id : list byte; bctx_block_number : Z; bctx_block_timestamp : Z;
  bctx_sequencer_address : ContractAddress; bctx_vm_resource_fee_cost : gmap string Z;
  bctx_fee_token_address : ContractAddress; bctx_invoke_tx_max_n_steps : Z; bctx_validate_max_n_steps : Z;
  bctx_gas_price : Z; bctx_max_recursion_depth : Z }.

Inductive EntryPointType := EPConstructor | EPExternal | EPL1Handler.
Inductive CallType := CTCall | CTDelegate.

Record CallEntryPoint := mk_cep {
  cep_class_hash : option ClassHash; cep_code_address : option ContractAddress;
  cep_entry_point_type : EntryPointType; cep_entry_point_selector : EntryPointSelector;
  cep_calldata : Calldata; cep_storage_address : ContractAddress; cep_caller_address : ContractAddress;
  cep_call_type : CallType; cep_initial_gas : Z }.

(** Events and messages with the position at which execution produced them. *)
Record EventContent := mk_ec { ec_keys : list EventKey; ec_data : list StarkFelt }.
Record OrderedEvent := mk_oe { oe_order : Z; oe_event : EventContent }.
Record MessageContent := mk_mc { mc_to_address : EthAddress; mc_payload : list StarkFelt }.
Record OrderedL2ToL1Message := mk_om { om_order : Z; om_message : MessageContent }.

Record CallExecution := mk_cx {
  cx_retdata : list StarkFelt; cx_events : list OrderedEvent;
  cx_l2_to_l1_messages : list OrderedL2ToL1Message; cx_failed : bool; cx_gas_consumed : Z }.

(** [CallInfo], without the fields about VM resources and accessed storage, which
    the sources never read. *)
#[warnings="-register-all"]
Inductive CallInfo := mk_ci (call : CallEntryPoint) (execution : CallExecution) (inner_calls : list CallInfo).
Definition ci_call (c : CallInfo) : CallEntryPoint := let 'mk_ci x _ _ := c in x.
Definition ci_execution (c : CallInfo) : CallExecution := let 'mk_ci _ x _ := c in x.
Definition ci_inner_calls (c : CallInfo) : list CallInfo := let 'mk_ci _ _ x := c in x.

Abbreviation ResourcesMapping := (gmap string Z).
Definition GAS_USAGE : string := "l1_gas_usage".

Record StateChangesCount := mk_scc {
  n_modified_contracts : Z; n_storage_updates : Z; n_class_hash_updates : Z;
  n_compiled_class_hash_updates : Z }.

Record TransactionExecutionInfo := mk_tei {
  tei_validate_call_info : option CallInfo; tei_execute_call_info : option CallInfo;
  tei_fee_transfer_call_info : option CallInfo; tei_actual_fee : Z;
  tei_actual_resources : ResourcesMapping; tei_revert_error : option string }.

Inductive StateError := UndeclaredClassHash (c : ClassHash) | OtherStateError.

(** [EntryPointExecutionError::PreExecutionError(UninitializedStorageAddress)] is
    the only variant the sources match on; the others, and the remaining
    variants of [TransactionExecutionError], stay opaque. *)
Inductive EntryPointExecutionError :=
| UninitializedStorageAddress (contract_address : ContractAddress)
| OtherEntryPointError (n : nat).

Inductive TransactionExecutionError :=
| InvalidNonce (address : ContractAddress) (expected_nonce actual_nonce : Nonce)
| MaxFeeExceedsBalance (max_fee : Z) (balance_low balance_high : StarkFelt)
| FeeTransferError (max_fee actual_fee : Z)
| InsufficientL1Fee (paid_fee actual_fee : Z)
| FixedPointConversion
| CairoResourcesNotContainedInFeeCosts
| ValidateTransactionError (e : EntryPointExecutionError)
| EntryPointError (e : EntryPointExecutionError)
| TxStateError (e : StateError)
| OtherExecutionError (n : nat).

(** ** The state traits *)

(** [blockifier::state::state_api::{StateReader, State}]; every method takes
    [&mut self]. *)
Class State `{ContractClassI} (S : Type) := {
  get_storage_at : ContractAddress -> StorageKey -> effr S StateError StarkFelt;
  get_nonce_at : ContractAddress -> effr S StateError Nonce;
  get_class_hash_at : ContractAddress -> effr S StateError ClassHash;
  get_compiled_contract_class : ClassHash -> effr S StateError ContractClass;
  get_compiled_class_hash : ClassHash -> effr S StateError CompiledClassHash;
  set_storage_at : ContractAddress -> StorageKey -> StarkFelt -> eff S unit;
  increment_nonce : ContractAddress -> effr S StateError unit;
  set_class_hash_at : ContractAddress -> ClassHash -> effr S StateError unit;
  set_contract_class : ClassHash -> ContractClass -> effr S StateError unit;
  set_compiled_class_hash : ClassHash -> CompiledClassHash -> effr S StateError unit;
}.

(** [mp_state::StateChanges]. *)
Class StateChanges (S : Type) := { count_state_changes : S -> StateChangesCount }.

(** One call of a [State] method that contract code can cause, and the states reachable
    by such calls.  Nonces are not among what contract code can write: they belong to the
    transactions, which alone increment them. *)
Inductive state_call {St : Type} `{State St} : St -> St -> Prop :=
| call_get_storage_at a k s r s' : get_storage_at a k s = Ret (r, s') -> state_call s s'
| call_get_nonce_at a s r s' : get_nonce_at a s = Ret (r, s') -> state_call s s'
| call_get_class_hash_at a s r s' : get_class_hash_at a s = Ret (r, s') -> state_call s s'
| call_get_compiled_contract_class c s r s' : get_compiled_contract_class c s = Ret (r, s') -> state_call s s'
| call_get_compiled_class_hash c s r s' : get_compiled_class_hash c s = Ret (r, s') -> state_call s s'
| call_set_storage_at a k v s r s' : set_storage_at a k v s = Ret (r, s') -> state_call s s'
| call_set_class_hash_at a c s r s' : set_class_hash_at a c s = Ret (r, s') -> state_call s s'
| call_set_contract_class c cc s r s' : set_contract_class c cc s = Ret (r, s') -> state_call s s'
| call_set_compiled_class_hash c k s r s' : set_compiled_class_hash c k s = Ret (r, s') -> state_call s s'.

Definition reaches {St : Type} `{State St} : St -> St -> Prop := rtc state_call.

#[export] Instance reaches_preorder {St : Type} `{State St} : PreOrder (reaches (St := St)).
Proof. unfold reaches. apply _. Qed.

(** A step of a transaction: such a call, or the increment of a nonce. *)
Inductive tx_call {St : Type} `{State St} : St -> St -> Prop :=
| tx_state s s' : state_call s s' -> tx_call s s'
| tx_increment_nonce a s r s' : increment_nonce a s = Ret (r, s') -> tx_call s s'.

Definition transacts {St : Type} `{State St} : St -> St -> Prop := rtc tx_call.

#[export] Instance transacts_preorder {St : Type} `{State St} : PreOrder (transacts (St := St)).
Proof. unfold transacts. apply _. Qed.

Lemma reaches_transacts {St : Type} `{State St} (s s' : St) : reaches s s' -> transacts s s'.
Proof. unfold reaches, transacts. apply rtc_subrel. intros x y. apply tx_state. Qed.

(** ** [blockifier] functions *)

(** What execution mutates besides the state: resources, remaining gas and the
    entry-point execution context. *)
Class BlockifierTypes := {
  ExecutionResources : Type;
  resources_default : ExecutionResources;
  EntryPointExecutionContext : Type;
  context_new : BlockContext -> AccountTransactionContext -> Z -> EntryPointExecutionContext;
  context_account : EntryPointExecutionContext -> AccountTransactionContext;
  error_trace : EntryPointExecutionContext -> string;
}.

Record vm `{BlockifierTypes} (S : Type) := mk_vm {
  vm_state : S; vm_resources : ExecutionResources; vm_gas : Z; vm_context : EntryPointExecutionContext }.
Arguments mk_vm {_ S}.
Arguments vm_state {_ S}.
Arguments vm_resources {_ S}.
Arguments vm_gas {_ S}.
Arguments vm_context {_ S}.

Class Blockifier `{CC : ContractClassI} {BT : BlockifierTypes} := {
  INITIAL_GAS_COST : Z;
  TRANSACTION_GAS_COST : Z;
  VALIDATE_ENTRY_POINT_NAME : string;
  VALIDATE_DECLARE_ENTRY_POINT_NAME : string;
  VALIDATE_DEPLOY_ENTRY_POINT_NAME : string;
  selector_from_name : string -> EntryPointSelector;
  declare_new : stDeclare -> TransactionHash -> ContractClass -> result TransactionExecutionError bDeclare;
  run_execute : forall {St : Type} {ST : State St}, Executable -> effr (vm St) TransactionExecutionError (option CallInfo);
  call_execute : forall {St : Type} {ST : State St}, 
    CallEntryPoint -> effr (St * ExecutionResources * EntryPointExecutionContext) EntryPointExecutionError CallInfo;
  get_fee_token_balance : forall {St : Type} {ST : State St},
    BlockContext -> ContractAddress -> effr St StateError (StarkFelt * StarkFelt);
  verify_no_calls_to_other_contracts : CallInfo -> string -> result TransactionExecutionError unit;
  update_remaining_gas : Z -> CallInfo -> Z;
  calculate_l1_gas_usage : list CallInfo -> StateChangesCount -> option Z -> result TransactionExecutionError Z;
  calculate_tx_resources :
    ExecutionResources -> Z -> TransactionType -> result TransactionExecutionError ResourcesMapping;
}.

(** The state is reached by [State] calls only; [DeclareTransaction::new] keeps
    what it is given; [calculate_tx_resources] records the gas usage. *)
Class BlockifierLaws `{BL : Blockifier} : Prop := {
  declare_new_ok : forall tx h c d,
    declare_new tx h c = Ok d -> d = {| bd_tx := tx; bd_tx_hash := h; bd_contract_class := c |};
  run_execute_reaches : forall (St : Type) {ST : State St} (x : Executable) (v : vm St) r v',
    run_execute x v = Ret (r, v') -> reaches (vm_state v) (vm_state v');
  call_execute_reaches : forall (St : Type) {ST : State St} (c : CallEntryPoint) (s : St) res ctx r s' res' ctx',
    call_execute c (s, res, ctx) = Ret (r, (s', res', ctx')) -> reaches s s';
  get_fee_token_balance_reaches : forall (St : Type) {ST : State St} b a (s : St) r s',
    get_fee_token_balance b a s = Ret (r, s') -> reaches s s';
  calculate_tx_resources_gas : forall r g t m,
    calculate_tx_resources r g t = Ok m -> m !! GAS_USAGE = Some g;
}.

(** A method of the state run inside the larger execution state. *)
Definition on_state `{BlockifierTypes} {St A} (m : eff St A) : eff (vm St) A :=
  fun v => match m (vm_state v) with
           | Ret (a, s) => Ret (a, mk_vm s (vm_resources v) (vm_gas v) (vm_context v))
           | Panic => Panic
           end.

(** ** A reference machine

    A small implementation of the interface: an invoke writes one storage cell
    of its sender and then fails when its calldata is empty; an entry-point call
    emits one event.  It shows that the laws can be met and gives the witnesses
    something to run. *)
Module ReferenceVm.
Import Deps.Reference.

#[export] Instance cc : ContractClassI := {| ContractClass := nat |}.

#[export] Instance types : BlockifierTypes := {|
  ExecutionResources := unit;
  resources_default := tt;
  EntryPointExecutionContext := AccountTransactionContext;
  context_new _ a _ := a;
  context_account a := a;
  error_trace _ := "entry point failed"%string;
|}.

Definition one_event (call : CallEntryPoint) : CallInfo :=
  mk_ci call (mk_cx [stark_from_uint 1] [mk_oe 0 (mk_ec [] (cep_calldata call))] [] false 0) [].

Definition invoke_sender (i : stInvoke) : ContractAddress :=
  match i with StInvokeV0 t => sti0_contract_address t | StInvokeV1 t => sti1_sender_address t end.

Definition invoke_call (i : stInvoke) : CallEntryPoint :=
  mk_cep None None EPExternal (mk_new stark_default) (st_invoke_calldata i) (invoke_sender i)
    (mk_new stark_default) CTCall 0.

Definition ref_run_execute {St : Type} {ST : State St} (x : Executable)
  : effr (vm St) TransactionExecutionError (option CallInfo) :=
  match x with
  | XInvoke tx =>
      on_state (set_storage_at (invoke_sender (bi_tx tx)) (mk_new stark_default) (stark_from_uint 7));;;
      eret (match st_invoke_calldata (bi_tx tx) with
            | [] => Err (OtherExecutionError 0)
            | _ => Ok (Some (one_event (invoke_call (bi_tx tx))))
            end)
  | _ => eret (Ok None)
  end.

#[export] Instance blockifier : Blockifier := {|
  INITIAL_GAS_COST := 100000000;
  TRANSACTION_GAS_COST := 100000;
  VALIDATE_ENTRY_POINT_NAME := "__validate__"%string;
  VALIDATE_DECLARE_ENTRY_POINT_NAME := "__validate_declare__"%string;
  VALIDATE_DEPLOY_ENTRY_POINT_NAME := "__validate_deploy__"%string;
  selector_from_name _ := mk_new stark_default;
  declare_new tx h c := Ok {| bd_tx := tx; bd_tx_hash := h; bd_contract_class := c |};
  run_execute := @ref_run_execute;
  call_execute _ _ c := eret (Ok (one_event c));
  get_fee_token_balance _ _ _ _ := eret (Ok (stark_from_uint 1000, stark_from_uint 0));
  verify_no_calls_to_other_contracts _ _ := Ok tt;
  update_remaining_gas g _ := g;
  calculate_l1_gas_usage _ _ _ := Ok 3;
  calculate_tx_resources _ g _ := Ok {[ GAS_USAGE := g; "n_steps"%string := 250 ]};
|}.

#[export] Instance blockifier_laws : BlockifierLaws (BL := blockifier).
Proof.
  constructor; simpl.
  - by intros tx h c d [= <-].
  - intros St ST x v r v' Hr. destruct x; simpl in Hr;
      try (unfold eret in Hr; simplify_eq; reflexivity).
    unfold ebind, on_state in Hr. destruct (set_storage_at _ _ _ _) as [[[] s]|] eqn:Hs; [|done].
    unfold eret in Hr. simplify_eq. simpl. apply rtc_once. by eapply call_set_storage_at.
  - intros St ST c s res ctx r s' res' ctx'. unfold eret. intros [= <- <- <- <-]. reflexivity.
  - intros St ST b a s r s'. unfold eret. intros [= <- <-]. reflexivity.
  - intros r g t m [= <-]. apply lookup_insert_eq.
Qed.

(** A state that remembers nothing. *)
#[export] Instance null_state : State unit := {|
  get_storage_at _ _ := eret (Ok stark_default);
  get_nonce_at _ := eret (Ok (mk_new stark_default));
  get_class_hash_at _ := eret (Ok (mk_new stark_default));
  get_compiled_contract_class c := eret (Err (UndeclaredClassHash c));
  get_compiled_class_hash c := eret (Err (UndeclaredClassHash c));
  set_storage_at _ _ _ := eret tt;
  increment_nonce _ := eret (Ok tt);
  set_class_hash_at _ _ := eret (Ok tt);
  set_contract_class _ _ := eret (Ok tt);
  set_compiled_class_hash _ _ := eret (Ok tt);
|}.
#[export] Instance null_changes : StateChanges unit := {| count_state_changes _ := mk_scc 0 0 0 0 |}.

End ReferenceVm.
