(* ===== verification/Conversions.v ===== *)
(** * Conversions of transactions into their executable form

    Models [crates/primitives/transactions/src/conversions.rs].  The conversions
    of felts are the total [to_stark] and [to_new] of [Felt], which the source's
    [into] returns on every felt. *)
From S2P Require Import Prelude Bytes Deps Felt Hashers Transactions Blockifier.
Local Open Scope Z_scope.

Section conversions.
  Context `{SF : StarknetFf} `{SA : StarknetApi} `{SC : StarknetCrypto} {H : HasherT} `{BL : Blockifier}.

Definition vec_of_felt_to_signature (felts : list Felt252Wrapper) : list StarkFelt := map to_stark felts.
Definition vec_of_felt_to_calldata (felts : list Felt252Wrapper) : Calldata := map to_stark felts.

Definition declare_try_into_executable (d : DeclareTransaction) (chain_id : Felt252Wrapper)
    (contract_class : ContractClass) (offset_version : bool) : result TransactionExecutionError bDeclare :=
  let transaction_hash := to_new TransactionHashT (declare_compute_hash d chain_id offset_version) in
  let tx :=
    match d with
    | DeclareV0 t => StDeclareV0 {|
        std01_max_fee := dv0_max_fee t;
        std01_signature := vec_of_felt_to_signature (dv0_signature t);
        std01_nonce := to_new NonceT (dv0_nonce t);
        std01_class_hash := to_new ClassHashT (dv0_class_hash t);
        std01_sender_address := to_new ContractAddressT (dv0_sender_address t) |}
    | DeclareV1 t => StDeclareV1 {|
        std01_max_fee := dv1_max_fee t;
        std01_signature := vec_of_felt_to_signature (dv1_signature t);
        std01_nonce := to_new NonceT (dv1_nonce t);
        std01_class_hash := to_new ClassHashT (dv1_class_hash t);
        std01_sender_address := to_new ContractAddressT (dv1_sender_address t) |}
    | DeclareV2 t => StDeclareV2 {|
        std2_max_fee := dv2_max_fee t;
        std2_signature := vec_of_felt_to_signature (dv2_signature t);
        std2_nonce := to_new NonceT (dv2_nonce t);
        std2_class_hash := to_new ClassHashT (dv2_class_hash t);
        std2_compiled_class_hash := to_new CompiledClassHashT (dv2_compiled_class_hash t);
        std2_sender_address := to_new ContractAddressT (dv2_sender_address t) |}
    end in
  declare_new tx transaction_hash contract_class.

Definition invoke_into_executable (i : InvokeTransaction) (chain_id : Felt252Wrapper) (offset_version : bool)
  : bInvoke :=
  let transaction_hash := invoke_compute_hash i chain_id offset_version in
  {| bi_tx :=
       match i with
       | InvokeV0 t => StInvokeV0 {|
           sti0_max_fee := iv0_max_fee t;
           sti0_signature := vec_of_felt_to_signature (iv0_signature t);
           sti0_contract_address := to_new ContractAddressT (iv0_contract_address t);
           sti0_entry_point_selector := to_new EntryPointSelectorT (iv0_entry_point_selector t);
           sti0_calldata := vec_of_felt_to_calldata (iv0_calldata t) |}
       | InvokeV1 t => StInvokeV1 {|
           sti1_max_fee := iv1_max_fee t;
           sti1_signature := vec_of_felt_to_signature (iv1_signature t);
           sti1_nonce := to_new NonceT (iv1_nonce t);
           sti1_sender_address := to_new ContractAddressT (iv1_sender_address t);
           sti1_calldata := vec_of_felt_to_calldata (iv1_calldata t) |}
       end;
     bi_tx_hash := to_new TransactionHashT transaction_hash |}.

Definition deploy_account_into_executable (d : DeployAccountTransaction) (chain_id : Felt252Wrapper)
    (offset_version : bool) : bDeployAccount :=
  let account_address := get_account_address d in
  let transaction_hash :=
    mk_felt (compute_hash_given_contract_address d (felt0 chain_id) account_address offset_version) in
  {| bda_tx := {|
       stda_max_fee := da_max_fee d;
       stda_version := mk_new (stark_from_uint 1);
       stda_signature := vec_of_felt_to_signature (da_signature d);
       stda_nonce := to_new NonceT (da_nonce d);
       stda_class_hash := to_new ClassHashT (da_class_hash d);
       stda_contract_address_salt := to_new ContractAddressSaltT (da_contract_address_salt d);
       stda_constructor_calldata := vec_of_felt_to_calldata (da_constructor_calldata d) |};
     bda_tx_hash := to_new TransactionHashT transaction_hash;
     bda_contract_address := to_new ContractAddressT (mk_felt account_address) |}.

Definition l1_handler_into_executable (t : HandleL1MessageTransaction) (chain_id : Felt252Wrapper)
    (paid_fee_on_l1 : Z) (offset_version : bool) : bL1Handler :=
  let transaction_hash := l1_handler_compute_hash t chain_id offset_version in
  {| bl1_tx := {|
       stl1_version := mk_new (stark_from_uint 0);
       stl1_nonce := mk_new (stark_from_uint (l1_nonce t));
       stl1_contract_address := to_new ContractAddressT (l1_contract_address t);
       stl1_entry_point_selector := to_new EntryPointSelectorT (l1_entry_point_selector t);
       stl1_calldata := vec_of_felt_to_calldata (l1_calldata t) |};
     bl1_paid_fee_on_l1 := paid_fee_on_l1;
     bl1_tx_hash := to_new TransactionHashT transaction_hash |}.

End conversions.
