(* ===== verification/Broadcasted.v ===== *)
(** * Transactions at the RPC boundary

    Models [from_broadcasted_transactions.rs], [to_starknet_core_transaction.rs]
    and [utils.rs] of [crates/primitives/transactions/src]: what a user submits
    becomes a transaction of the sequencer, and a transaction becomes what the RPC
    shows.  Decompression, JSON, the Sierra compiler and the class hashes are
    third-party code and are operations of a class; the records of starknet-core
    and cairo-lang that the sources build or take apart are written out. *)
From S2P Require Import Prelude Bytes Deps Felt Hashers Transactions Blockifier.
From stdpp Require Import pretty.
Local Open Scope Z_scope.

(** ** Records of the libraries *)
Record EntryPoints (A : Type) := mk_eps { eps_constructor : list A; eps_external : list A; eps_l1_handler : list A }.
Arguments mk_eps {A}.
Arguments eps_constructor {A}.
Arguments eps_external {A}.
Arguments eps_l1_handler {A}.

(** [LegacyContractEntryPoint], [RawLegacyEntryPoint] (with the offset written as
    an integer) and the [EntryPoint] of starknet-api. *)
Record LegacyContractEntryPoint := mk_lcep { lcep_offset : Z; lcep_selector : FieldElement }.
Inductive LegacyEntrypointOffset := U64AsInt (n : Z) | U64AsHex (n : Z).
Record RawLegacyEntryPoint := mk_rlep { rlep_offset : LegacyEntrypointOffset; rlep_selector : FieldElement }.
Record EntryPoint := mk_ep { ep_selector : EntryPointSelector; ep_offset : Z }.

Record SierraEntryPoint := mk_sep { sep_selector : FieldElement; sep_function_idx : Z }.
(** [BigUint]s are non-negative integers. *)
Record ContractEntryPoint := mk_cent { cent_selector : Z; cent_function_idx : Z }.

Record SierraContractClass := mk_sierra {
  sierra_program : list Z;
  sierra_program_debug_info : option unit;
  contract_class_version : string;
  sierra_entry_points : EntryPoints ContractEntryPoint;
  sierra_abi : option unit;
}.
Record CasmContractEntryPoint := mk_casm_ep { cep_selector : Z; cep_offset : Z; cep_builtins : list string }.
Record CompiledClassEntrypoint := mk_compiled_ep {
  ccep_selector : FieldElement; ccep_offset : Z; ccep_builtins : list string }.

(** [CompiledClass]; its hints are left empty by the source. *)
Record CompiledClass := mk_compiled {
  cc_prime : string;
  cc_compiler_version : string;
  cc_bytecode : list FieldElement;
  cc_entry_points : EntryPoints CompiledClassEntrypoint;
}.

#[export] Instance EntryPointType_eq_dec : EqDecision EntryPointType.
Proof. solve_decision. Defined.
#[export] Instance EntryPointType_countable : Countable EntryPointType.
Proof.
  refine (inj_countable' (fun t => match t with EPConstructor => 0 | EPExternal => 1 | EPL1Handler => 2 end)%nat
            (fun n => match n with 0%nat => EPConstructor | 1%nat => EPExternal | _ => EPL1Handler end) _).
  by intros [].
Defined.

(** The operations of the libraries. *)
Class ClassTools `{CC : ContractClassI} := {
  (** The ABI entries of the RPC, and those a class is hashed with. *)
  RpcAbiEntry : Type;
  RawAbiEntry : Type;
  abi_entry_into : RpcAbiEntry -> RawAbiEntry;
  (** The program as JSON describes it for the hash, and as the machine loads it. *)
  LegacyProgram : Type;
  Program : Type;
  gz_read_to_end : list byte -> option (list byte);
  legacy_program_from_slice : list byte -> option LegacyProgram;
  legacy_class_hash : LegacyProgram -> list RawAbiEntry -> EntryPoints RawLegacyEntryPoint -> option FieldElement;
  program_from_bytes : list byte -> option Program;
  contract_class_v0 : Program -> gmap EntryPointType (list EntryPoint) -> ContractClass;
  (** Sierra classes; [casm_rest] is what only [ContractClassV1::try_from] reads. *)
  CasmRest : Type;
  CompilationError : Type;
  into_casm : SierraContractClass -> bool ->
    result CompilationError (Z * string * list Z * EntryPoints CasmContractEntryPoint * CasmRest);
  compiled_class_hash : CompiledClass -> option FieldElement;
  contract_class_v1 : Z * string * list Z * EntryPoints CasmContractEntryPoint * CasmRest -> option ContractClass;
}.

(** [CompressedLegacyContractClass] and [FlattenedSierraClass]; the hash of the
    latter is a method of starknet-core, kept with the class it is computed from. *)
Record CompressedLegacyContractClass `{ClassTools} := mk_clcc {
  clcc_program : list byte;
  clcc_entry_points : EntryPoints LegacyContractEntryPoint;
  clcc_abi : option (list RpcAbiEntry);
}.
Record FlattenedSierraClass := mk_fsc {
  fsc_program : list FieldElement;
  fsc_version : string;
  fsc_entry_points : EntryPoints SierraEntryPoint;
  fsc_abi : string;
}.
Class SierraHash := { sierra_class_hash : FlattenedSierraClass -> FieldElement }.

(** ** Submitted transactions *)
Record BroadcastedInvokeTransaction := mk_binv {
  binv_max_fee : FieldElement; binv_signature : list FieldElement; binv_nonce : FieldElement;
  binv_sender_address : FieldElement; binv_calldata : list FieldElement; binv_is_query : bool }.
Record BroadcastedDeclareTransactionV1 `{ClassTools} := mk_bdec1 {
  bdec1_max_fee : FieldElement; bdec1_signature : list FieldElement; bdec1_nonce : FieldElement;
  bdec1_contract_class : CompressedLegacyContractClass; bdec1_sender_address : FieldElement; bdec1_is_query : bool }.
Record BroadcastedDeclareTransactionV2 := mk_bdec2 {
  bdec2_max_fee : FieldElement; bdec2_signature : list FieldElement; bdec2_nonce : FieldElement;
  bdec2_contract_class : FlattenedSierraClass; bdec2_sender_address : FieldElement;
  bdec2_compiled_class_hash : FieldElement; bdec2_is_query : bool }.
Inductive BroadcastedDeclareTransaction `{ClassTools} :=
| BDeclareV1 (tx : BroadcastedDeclareTransactionV1)
| BDeclareV2 (tx : BroadcastedDeclareTransactionV2).
Record BroadcastedDeployAccountTransaction := mk_bdep {
  bdep_max_fee : FieldElement; bdep_signature : list FieldElement; bdep_nonce : FieldElement;
  bdep_contract_address_salt : FieldElement; bdep_constructor_calldata : list FieldElement;
  bdep_class_hash : FieldElement; bdep_is_query : bool }.
Inductive BroadcastedTransaction `{ClassTools} :=
| BInvoke (tx : BroadcastedInvokeTransaction)
| BDeclare (tx : BroadcastedDeclareTransaction)
| BDeployAccount (tx : BroadcastedDeployAccountTransaction).

Inductive ConversionError :=
| MaxFeeTooBig | ProgramDecompressionFailed | ProgramDeserializationFailed | ClassHashComputationFailed
| CasmContractClassConversionFailed | InvalidCompiledClassHash | SierraCompilationFailed
| UnsuportedTransactionVersion.

(** A conversion that may fail or panic. *)
Abbreviation conversion A := (outcome (result ConversionError A)).
Definition conv_bind {A B} (m : conversion A) (f : A -> conversion B) : conversion B :=
  let! r := m in match r with Ok a => f a | Err e => Ret (Err e) end.
Notation "x <-c m ;; k" := (conv_bind m (fun x => k)) (at level 100, m at next level, right associativity) : madara_scope.

(** The vectors are reinterpreted in place: [Felt252Wrapper] is a transparent
    wrapper. *)
Definition cast_vec_of_field_elements (data : list FieldElement) : list Felt252Wrapper := map mk_felt data.
Definition cast_vec_of_felt_252_wrappers (data : list Felt252Wrapper) : list FieldElement := map felt0 data.

Definition eps_map {A B} (f : A -> B) (e : EntryPoints A) : EntryPoints B :=
  mk_eps (map f (eps_constructor e)) (map f (eps_external e)) (map f (eps_l1_handler e)).

Definition to_raw_legacy_entry_point (entry_point : LegacyContractEntryPoint) : RawLegacyEntryPoint :=
  mk_rlep (U64AsInt (lcep_offset entry_point)) (lcep_selector entry_point).
Definition to_raw_legacy_entry_points (entry_points : EntryPoints LegacyContractEntryPoint)
  : EntryPoints RawLegacyEntryPoint := eps_map to_raw_legacy_entry_point entry_points.

Section conversions.
  Context `{SF : StarknetFf} `{CT : ClassTools} {SH : SierraHash}.

Definition CasmContractClass : Type := Z * string * list Z * EntryPoints CasmContractEntryPoint * CasmRest.

(** [BigInt::from_bytes_be(Sign::Plus, ..).to_biguint().unwrap()]. *)
Definition field_element_to_big_uint (value : FieldElement) : Z := be_val (arr (to_bytes_be value)).

(** [u64] to [usize]. *)
Definition sierra_entry_point_to_contract_entry_point (value : SierraEntryPoint) : ContractEntryPoint :=
  mk_cent (field_element_to_big_uint (sep_selector value)) (sep_function_idx value).
Definition entry_points_by_type_to_contract_entry_points (value : EntryPoints SierraEntryPoint)
  : EntryPoints ContractEntryPoint := eps_map sierra_entry_point_to_contract_entry_point value.

Definition flattened_sierra_to_casm_contract_class (flattened_sierra : FlattenedSierraClass)
  : result CompilationError CasmContractClass :=
  into_casm {| sierra_program := map field_element_to_big_uint (fsc_program flattened_sierra);
               sierra_program_debug_info := None;
               contract_class_version := fsc_version flattened_sierra;
               sierra_entry_points := entry_points_by_type_to_contract_entry_points (fsc_entry_points flattened_sierra);
               sierra_abi := None |} false.

(** [BigUint::to_bytes_be] has no leading zero, and one byte for zero; the
    [unwrap] panics on values outside the field. *)
Definition biguint_to_bytes_be (value : Z) : list byte := be_bytes (Z.to_nat (Z.log2 value / 8 + 1)) value.
Definition biguint_to_field_element (value : Z) : outcome FieldElement :=
  unwrap (from_byte_slice_be (biguint_to_bytes_be value)).

Definition casm_entry_point_to_compiled_entry_point (value : CasmContractEntryPoint)
  : outcome CompiledClassEntrypoint :=
  let! selector := biguint_to_field_element (cep_selector value) in
  Ret (mk_compiled_ep selector (cep_offset value) (cep_builtins value)).
Definition casm_entry_points_to_compiled_entry_points (value : EntryPoints CasmContractEntryPoint)
  : outcome (EntryPoints CompiledClassEntrypoint) :=
  let! external := traverse casm_entry_point_to_compiled_entry_point (eps_external value) in
  let! l1_handler := traverse casm_entry_point_to_compiled_entry_point (eps_l1_handler value) in
  let! constructor := traverse casm_entry_point_to_compiled_entry_point (eps_constructor value) in
  Ret (mk_eps constructor external l1_handler).

Definition casm_contract_class_to_compiled_class (casm_contract_class : CasmContractClass) : outcome CompiledClass :=
  let '(prime, compiler_version, bytecode, entry_points, _) := casm_contract_class in
  let! bytecode := traverse biguint_to_field_element bytecode in
  let! entry_points := casm_entry_points_to_compiled_entry_points entry_points in
  Ret (mk_compiled (pretty (Z.to_N prime)) compiler_version bytecode entry_points).

Definition get_casm_cotract_class_hash (casm_contract_class : CasmContractClass) : outcome FieldElement :=
  let! compiled_class := casm_contract_class_to_compiled_class casm_contract_class in
  unwrap_opt (compiled_class_hash compiled_class).

Definition to_entry_point (entry_point : LegacyContractEntryPoint) : EntryPoint :=
  mk_ep (mk_new (mk_stark (to_bytes_be (lcep_selector entry_point)))) (lcep_offset entry_point).

Definition instantiate_blockifier_contract_class (contract_class : CompressedLegacyContractClass)
    (program_decompressed_bytes : list byte) : result ConversionError ContractClass :=
  let? program := ok_or (program_from_bytes program_decompressed_bytes) ProgramDeserializationFailed in
  let entry_points := clcc_entry_points contract_class in
  Ok (contract_class_v0 program
        (<[EPL1Handler := map to_entry_point (eps_l1_handler entry_points)]>
         (<[EPExternal := map to_entry_point (eps_external entry_points)]>
          (<[EPConstructor := map to_entry_point (eps_constructor entry_points)]> ∅)))).

Definition try_max_fee (max_fee : FieldElement) : result ConversionError Z := ok_or (u128_try_from_fe max_fee) MaxFeeTooBig.

Definition invoke_try_from (value : BroadcastedInvokeTransaction) : result ConversionError UserTransaction :=
  let? max_fee := try_max_fee (binv_max_fee value) in
  Ok (UInvoke (InvokeV1 {|
    iv1_max_fee := max_fee;
    iv1_signature := cast_vec_of_field_elements (binv_signature value);
    iv1_nonce := mk_felt (binv_nonce value);
    iv1_sender_address := mk_felt (binv_sender_address value);
    iv1_calldata := cast_vec_of_field_elements (binv_calldata value);
    iv1_offset_version := binv_is_query value |})).

Definition deploy_account_try_from (tx : BroadcastedDeployAccountTransaction) : result ConversionError UserTransaction :=
  let? max_fee := try_max_fee (bdep_max_fee tx) in
  Ok (UDeployAccount {|
    da_max_fee := max_fee;
    da_signature := cast_vec_of_field_elements (bdep_signature tx);
    da_nonce := mk_felt (bdep_nonce tx);
    da_contract_address_salt := mk_felt (bdep_contract_address_salt tx);
    da_constructor_calldata := cast_vec_of_field_elements (bdep_constructor_calldata tx);
    da_class_hash := mk_felt (bdep_class_hash tx);
    da_offset_version := bdep_is_query tx |}).

Definition declare_v1_try_from (value : BroadcastedDeclareTransactionV1) : result ConversionError UserTransaction :=
  let contract_class := bdec1_contract_class value in
  let? decompressed_bytes := ok_or (gz_read_to_end (clcc_program contract_class)) ProgramDecompressionFailed in
  let? program := ok_or (legacy_program_from_slice decompressed_bytes) ProgramDeserializationFailed in
  let abi := match clcc_abi contract_class with Some abi => map abi_entry_into abi | None => [] end in
  let? class_hash := ok_or (legacy_class_hash program abi (to_raw_legacy_entry_points (clcc_entry_points contract_class)))
                       ClassHashComputationFailed in
  let? max_fee := try_max_fee (bdec1_max_fee value) in
  let tx := DeclareV1 {|
    dv1_max_fee := max_fee;
    dv1_signature := cast_vec_of_field_elements (bdec1_signature value);
    dv1_nonce := mk_felt (bdec1_nonce value);
    dv1_class_hash := mk_felt class_hash;
    dv1_sender_address := mk_felt (bdec1_sender_address value);
    dv1_offset_version := bdec1_is_query value |} in
  let? contract_class := instantiate_blockifier_contract_class contract_class decompressed_bytes in
  Ok (UDeclare tx contract_class).

Definition declare_v2_try_from (value : BroadcastedDeclareTransactionV2) : conversion UserTransaction :=
  let contract_class := bdec2_contract_class value in
  max_fee <-c Ret (try_max_fee (bdec2_max_fee value));;
  let tx := DeclareV2 {|
    dv2_max_fee := max_fee;
    dv2_signature := cast_vec_of_field_elements (bdec2_signature value);
    dv2_nonce := mk_felt (bdec2_nonce value);
    dv2_class_hash := mk_felt (sierra_class_hash contract_class);
    dv2_sender_address := mk_felt (bdec2_sender_address value);
    dv2_compiled_class_hash := mk_felt (bdec2_compiled_class_hash value);
    dv2_offset_version := bdec2_is_query value |} in
  casm_contract_class <-c Ret (map_err (fun _ => SierraCompilationFailed)
                                 (flattened_sierra_to_casm_contract_class contract_class));;
  let! hash := get_casm_cotract_class_hash casm_contract_class in
  if bool_decide (hash <> bdec2_compiled_class_hash value) then Ret (Err InvalidCompiledClassHash)
  else
    contract_class <-c Ret (ok_or (contract_class_v1 casm_contract_class) CasmContractClassConversionFailed);;
    Ret (Ok (UDeclare tx contract_class)).

Definition declare_try_from (value : BroadcastedDeclareTransaction) : conversion UserTransaction :=
  match value with
  | BDeclareV1 tx => Ret (declare_v1_try_from tx)
  | BDeclareV2 tx => declare_v2_try_from tx
  end.

Definition user_try_from (tx : BroadcastedTransaction) : conversion UserTransaction :=
  match tx with
  | BInvoke tx => Ret (invoke_try_from tx)
  | BDeclare tx => declare_try_from tx
  | BDeployAccount tx => Ret (deploy_account_try_from tx)
  end.

(** ** [utils.rs]: compilation of the classes of starknet-api *)
Record ApiEntryPoint := mk_api_ep { api_selector : EntryPointSelector; api_function_idx : Z }.

(** [BigUint::from_bytes_be]; [usize] to [usize]. *)
Definition starknet_api_entry_point_to_contract_entry_point (value : ApiEntryPoint) : ContractEntryPoint :=
  mk_cent (stark_val (new0 (api_selector value))) (api_function_idx value).

Definition sierra_to_casm_contract_class (sierra_program : list StarkFelt)
    (entry_point_by_type : gmap EntryPointType (list ApiEntryPoint)) : result CompilationError CasmContractClass :=
  let points t := map starknet_api_entry_point_to_contract_entry_point (default [] (entry_point_by_type !! t)) in
  into_casm {| sierra_program := map stark_val sierra_program;
               sierra_program_debug_info := None;
               contract_class_version := "0.1.0";
               sierra_entry_points := mk_eps (points EPConstructor) (points EPExternal) (points EPL1Handler);
               sierra_abi := None |} false.

End conversions.

(** ** Displayed transactions: [starknet_core::types::Transaction] *)
Inductive CoreTransaction :=
| CoreDeclareV0 (transaction_hash max_fee : FieldElement) (signature : list FieldElement)
    (class_hash sender_address : FieldElement)
| CoreDeclareV1 (transaction_hash max_fee : FieldElement) (signature : list FieldElement)
    (nonce class_hash sender_address : FieldElement)
| CoreDeclareV2 (transaction_hash max_fee : FieldElement) (signature : list FieldElement)
    (nonce class_hash sender_address compiled_class_hash : FieldElement)
| CoreDeployAccount (transaction_hash max_fee : FieldElement) (signature : list FieldElement)
    (nonce contract_address_salt : FieldElement) (constructor_calldata : list FieldElement) (class_hash : FieldElement)
| CoreInvokeV0 (transaction_hash max_fee : FieldElement) (signature : list FieldElement)
    (contract_address entry_point_selector : FieldElement) (calldata : list FieldElement)
| CoreInvokeV1 (transaction_hash max_fee : FieldElement) (signature : list FieldElement)
    (nonce sender_address : FieldElement) (calldata : list FieldElement)
| CoreL1Handler (transaction_hash : FieldElement) (version nonce : Z)
    (contract_address entry_point_selector : FieldElement) (calldata : list FieldElement).

Definition to_starknet_core_tx `{SF : StarknetFf} (tx : Transaction) (transaction_hash : FieldElement) : CoreTransaction :=
  match tx with
  | TDeclare (DeclareV0 t) =>
      CoreDeclareV0 transaction_hash (fe_from_u128 (dv0_max_fee t)) (cast_vec_of_felt_252_wrappers (dv0_signature t))
        (felt0 (dv0_class_hash t)) (felt0 (dv0_sender_address t))
  | TDeclare (DeclareV1 t) =>
      CoreDeclareV1 transaction_hash (fe_from_u128 (dv1_max_fee t)) (cast_vec_of_felt_252_wrappers (dv1_signature t))
        (felt0 (dv1_nonce t)) (felt0 (dv1_class_hash t)) (felt0 (dv1_sender_address t))
  | TDeclare (DeclareV2 t) =>
      CoreDeclareV2 transaction_hash (fe_from_u128 (dv2_max_fee t)) (cast_vec_of_felt_252_wrappers (dv2_signature t))
        (felt0 (dv2_nonce t)) (felt0 (dv2_class_hash t)) (felt0 (dv2_sender_address t))
        (felt0 (dv2_compiled_class_hash t))
  | TDeployAccount t =>
      CoreDeployAccount transaction_hash (fe_from_u128 (da_max_fee t)) (cast_vec_of_felt_252_wrappers (da_signature t))
        (felt0 (da_nonce t)) (felt0 (da_contract_address_salt t))
        (cast_vec_of_felt_252_wrappers (da_constructor_calldata t)) (felt0 (da_class_hash t))
  | TInvoke (InvokeV0 t) =>
      CoreInvokeV0 transaction_hash (fe_from_u128 (iv0_max_fee t)) (cast_vec_of_felt_252_wrappers (iv0_signature t))
        (felt0 (iv0_contract_address t)) (felt0 (iv0_entry_point_selector t))
        (cast_vec_of_felt_252_wrappers (iv0_calldata t))
  | TInvoke (InvokeV1 t) =>
      CoreInvokeV1 transaction_hash (fe_from_u128 (iv1_max_fee t)) (cast_vec_of_felt_252_wrappers (iv1_signature t))
        (felt0 (iv1_nonce t)) (felt0 (iv1_sender_address t)) (cast_vec_of_felt_252_wrappers (iv1_calldata t))
  | TL1Handler t =>
      CoreL1Handler transaction_hash 0 (l1_nonce t) (felt0 (l1_contract_address t)) (felt0 (l1_entry_point_selector t))
        (cast_vec_of_felt_252_wrappers (l1_calldata t))
  end.

(** ** Properties *)

(** The transaction a user transaction is stored as. *)
Definition stored_tx `{ContractClassI} (u : UserTransaction) : Transaction :=
  match u with UDeclare tx _ => TDeclare tx | UDeployAccount tx => TDeployAccount tx | UInvoke tx => TInvoke tx end.

(** A conversion that succeeds: each step of it did. *)
Ltac conv_ok H :=
  repeat match type of H with
  | result_bind ?m _ = Ok _ => let E := fresh "E" in destruct m eqn:E; cbn [result_bind] in H; [|discriminate H]
  | conv_bind _ _ = _ => unfold conv_bind in H; cbn [outcome_bind] in H
  | outcome_bind ?m _ = Ret (Ok _) => let E := fresh "E" in destruct m eqn:E; cbn [outcome_bind] in H; [|discriminate H]
  | match ?m with Ok _ => _ | Err _ => _ end = Ret (Ok _) => let E := fresh "E" in destruct m eqn:E; [|discriminate H]
  end.

Lemma conv_bind_ok {A B} (m : conversion A) (f : A -> conversion B) b :
  conv_bind m f = Ret (Ok b) -> exists a, m = Ret (Ok a) /\ f a = Ret (Ok b).
Proof. unfold conv_bind. destruct m as [[a|e]|]; cbn; [eauto|done|done]. Qed.

Section roundtrip.
  Context `{SF : StarknetFf} {SFL : StarknetFfLaws} `{CT : ClassTools} {SH : SierraHash}.

Lemma cast_roundtrip l : cast_vec_of_felt_252_wrappers (cast_vec_of_field_elements l) = l.
Proof. unfold cast_vec_of_felt_252_wrappers, cast_vec_of_field_elements. rewrite map_map. apply map_id. Qed.

Lemma try_max_fee_spec f :
  try_max_fee f = if bval f <=? u128_max then Ok (bval f) else Err MaxFeeTooBig.
Proof. unfold try_max_fee. rewrite u128_try_from_fe_spec. by destruct (bval f <=? u128_max). Qed.

Lemma try_max_fee_shown f n : try_max_fee f = Ok n -> fe_from_u128 n = f.
Proof.
  rewrite try_max_fee_spec. destruct (bval f <=? u128_max) eqn:E; [|done]. intros [= <-]. zbool.
  apply bounded_eq. pose proof (bounded_range _ f). apply fe_from_u128_val. unfold u128_max in *. lia.
Qed.

(** The kind of a converted transaction. *)
Lemma invoke_converts t u : invoke_try_from t = Ok u -> exists tx, u = UInvoke tx.
Proof. unfold invoke_try_from. intros Hu. conv_ok Hu. simplify_eq. eauto. Qed.
Lemma deploy_converts t u : deploy_account_try_from t = Ok u -> exists tx, u = UDeployAccount tx.
Proof. unfold deploy_account_try_from. intros Hu. conv_ok Hu. simplify_eq. eauto. Qed.
Lemma declare_converts t u : declare_try_from t = Ret (Ok u) -> exists tx cls, u = UDeclare tx cls.
Proof.
  destruct t as [t|t]; cbn [declare_try_from]; unfold declare_v1_try_from, declare_v2_try_from; intros Hu; cbv zeta in Hu.
  - injection Hu as Hu. conv_ok Hu. simplify_eq. eauto.
  - conv_ok Hu. case_bool_decide; [done|]. conv_ok Hu. simplify_eq. eauto.
Qed.

(** The fee a submitted transaction offers. *)
Definition offered_fee (b : BroadcastedTransaction) : FieldElement :=
  match b with
  | BInvoke t => binv_max_fee t
  | BDeployAccount t => bdep_max_fee t
  | BDeclare (BDeclareV1 t) => bdec1_max_fee t
  | BDeclare (BDeclareV2 t) => bdec2_max_fee t
  end.

(** What the RPC is to show for a submitted transaction: every field as the user
    signed it.  The class hash of a declared class is computed, not submitted. *)
Definition shown_as (b : BroadcastedTransaction) (h : FieldElement) (shown : CoreTransaction) : Prop :=
  match b with
  | BInvoke t =>
      shown = CoreInvokeV1 h (binv_max_fee t) (binv_signature t) (binv_nonce t) (binv_sender_address t) (binv_calldata t)
  | BDeployAccount t =>
      shown = CoreDeployAccount h (bdep_max_fee t) (bdep_signature t) (bdep_nonce t) (bdep_contract_address_salt t)
                (bdep_constructor_calldata t) (bdep_class_hash t)
  | BDeclare (BDeclareV1 t) =>
      exists bytes program class_hash,
        gz_read_to_end (clcc_program (bdec1_contract_class t)) = Some bytes
        /\ legacy_program_from_slice bytes = Some program
        /\ legacy_class_hash program (from_option (map abi_entry_into) [] (clcc_abi (bdec1_contract_class t)))
             (to_raw_legacy_entry_points (clcc_entry_points (bdec1_contract_class t))) = Some class_hash
        /\ shown = CoreDeclareV1 h (bdec1_max_fee t) (bdec1_signature t) (bdec1_nonce t) class_hash (bdec1_sender_address t)
  | BDeclare (BDeclareV2 t) =>
      shown = CoreDeclareV2 h (bdec2_max_fee t) (bdec2_signature t) (bdec2_nonce t)
                (sierra_class_hash (bdec2_contract_class t)) (bdec2_sender_address t) (bdec2_compiled_class_hash t)
      /\ exists casm, flattened_sierra_to_casm_contract_class (bdec2_contract_class t) = Ok casm
           /\ get_casm_cotract_class_hash casm = Ret (bdec2_compiled_class_hash t)
  end.
Definition is_query_of (b : BroadcastedTransaction) : bool :=
  match b with
  | BInvoke t => binv_is_query t
  | BDeployAccount t => bdep_is_query t
  | BDeclare (BDeclareV1 t) => bdec1_is_query t
  | BDeclare (BDeclareV2 t) => bdec2_is_query t
  end.

Lemma accepted_fee b u : user_try_from b = Ret (Ok u) -> bval (offered_fee b) < 2 ^ 128.
Proof.
  assert (Hok : forall f n, try_max_fee f = Ok n -> bval f < 2 ^ 128).
  { intros f n. rewrite try_max_fee_spec. unfold u128_max. destruct (bval f <=? _) eqn:E; [|done]. zbool. lia. }
  destruct b as [t|[t|t]|t]; cbn [user_try_from declare_try_from offered_fee]; [intros [= H]..|intros H|intros [= H]];
    [unfold invoke_try_from in H|unfold declare_v1_try_from in H|unfold declare_v2_try_from in H
    |unfold deploy_account_try_from in H]; conv_ok H; eauto.
Qed.

Lemma accepted_query b u : user_try_from b = Ret (Ok u) -> user_offset_version u = is_query_of b.
Proof.
  destruct b as [t|[t|t]|t]; cbn [user_try_from declare_try_from is_query_of]; [intros [= H]..|intros H|intros [= H]];
    [unfold invoke_try_from in H|unfold declare_v1_try_from in H|unfold declare_v2_try_from in H
    |unfold deploy_account_try_from in H]; conv_ok H; try (by simplify_eq).
  case_bool_decide; [done|]. conv_ok H. by simplify_eq.
Qed.

Lemma declare_v2_shown t u h :
  declare_v2_try_from t = Ret (Ok u) -> shown_as (BDeclare (BDeclareV2 t)) h (to_starknet_core_tx (stored_tx u) h).
Proof.
  unfold declare_v2_try_from. intros H. conv_ok H.
  destruct (flattened_sierra_to_casm_contract_class (bdec2_contract_class t)) as [casm|] eqn:Ec; [|done].
  cbn [map_err] in *. simplify_eq.
  match type of H with (if bool_decide ?p then _ else _) = _ => destruct (bool_decide_reflect p) as [|Hne]; [done|] end.
  conv_ok H. simplify_eq.
  apply dec_stable in Hne as ->. simpl. rewrite !cast_roundtrip. erewrite try_max_fee_shown by eassumption. eauto.
Qed.

Lemma accepted_shown b u h :
  user_try_from b = Ret (Ok u) -> shown_as b h (to_starknet_core_tx (stored_tx u) h).
Proof.
  destruct b as [t|[t|t]|t]; cbn [user_try_from declare_try_from]; [intros [= H]..|apply declare_v2_shown|intros [= H]].
  - unfold invoke_try_from in H. conv_ok H. simplify_eq. simpl. rewrite !cast_roundtrip.
    by erewrite try_max_fee_shown by eassumption.
  - unfold declare_v1_try_from in H. conv_ok H. simplify_eq. simpl. rewrite !cast_roundtrip.
    erewrite try_max_fee_shown by eassumption.
    repeat match goal with E : ok_or ?o _ = Ok _ |- _ => destruct o eqn:?; [|done]; cbn in E; simplify_eq end.
    eexists _, _, _. split_and!; [done|eassumption| |done]. destruct (clcc_abi _); done.
  - unfold deploy_account_try_from in H. conv_ok H. simplify_eq. simpl. rewrite !cast_roundtrip.
    by erewrite try_max_fee_shown by eassumption.
Qed.

(** A submitted transaction that is accepted is shown as it was submitted.
    Its fee fits 128 bits, the query flag becomes the version offset, and the RPC
    view of the stored transaction has every field the user signed, with the
    class hash computed from the class; the class of a version-2 declare compiled
    to code with the very hash that was signed.  An offered fee beyond 128 bits is
    never accepted, and is the only reason to refuse an invoke or a deploy. *)
Theorem submitted_is_shown b h :
  (forall u, user_try_from b = Ret (Ok u) ->
     bval (offered_fee b) < 2 ^ 128
     /\ shown_as b h (to_starknet_core_tx (stored_tx u) h)
     /\ user_offset_version u = is_query_of b)
  /\ (forall e, (forall d, b <> BDeclare d) ->
        user_try_from b = Ret (Err e) <-> e = MaxFeeTooBig /\ 2 ^ 128 <= bval (offered_fee b)).
Proof.
  split.
  - intros u Hu. split_and!; [by eapply accepted_fee|by apply accepted_shown|by apply accepted_query].
  - intros e Hd. destruct b as [t|d|t]; [|by destruct (Hd d)|];
      cbn [user_try_from offered_fee]; unfold invoke_try_from, deploy_account_try_from; rewrite try_max_fee_spec;
      unfold u128_max; destruct (_ <=? _) eqn:E; zbool; cbn [result_bind]; split; try done; try (intros [_ ?]; lia);
      try (by intros [-> _]); intros [= <-]; split; [done|lia|done|lia].
Qed.

End roundtrip.

(** ** Witness *)
Module BroadcastWitness.
Export Deps.Reference ReferenceVm.

(** Libraries that accept every class: the program is its bytes, and the compiler
    returns a class with one instruction. *)
#[export] Instance tools : ClassTools := {|
  RpcAbiEntry := unit; RawAbiEntry := unit; abi_entry_into := id;
  LegacyProgram := list byte; Program := list byte;
  gz_read_to_end l := Some l;
  legacy_program_from_slice l := Some l;
  legacy_class_hash _ _ _ := Some fe_one;
  program_from_bytes l := Some l;
  contract_class_v0 p _ := length p;
  CasmRest := unit; CompilationError := unit;
  into_casm s _ := Ok (P, "2"%string, [1], mk_eps [] [mk_casm_ep 3 4 []] [], tt);
  compiled_class_hash _ := Some fe_one;
  contract_class_v1 _ := Some 0%nat;
|}.
#[export] Instance sierra_hash : SierraHash := {| sierra_class_hash _ := fe_one |}.

Definition w_declare : BroadcastedTransaction :=
  BDeclare (BDeclareV2 (mk_bdec2 fe_one [fe_one] fe_zero (mk_fsc [fe_one] "0.1.0" (mk_eps [] [] []) "") fe_one fe_one true)).

End BroadcastWitness.
Import BroadcastWitness.

Lemma submitted_is_shown_witness :
  exists u, user_try_from w_declare = Ret (Ok u) /\ shown_as w_declare fe_one (to_starknet_core_tx (stored_tx u) fe_one)
    /\ user_offset_version u = true.
Proof.
  destruct (submitted_is_shown w_declare fe_one) as [H _].
  eexists. split; [vm_compute; reflexivity|]. destruct (H _ ltac:(vm_compute; reflexivity)) as (_ & H1 & H2).
  split; [exact H1|exact H2].
Defined.
