(* ===== verification/Fee.v ===== *)
(** * [mp-fee]: fee computation and charging

    Models [crates/primitives/fee/src/lib.rs].  [FixedU128] of [sp-arithmetic]
    is an interface over its 128-bit inner integer, in units of 10^-18. *)
From S2P Require Import Prelude Bytes Deps Felt Hashers Transactions Blockifier.
Local Open Scope Z_scope.

(** ** [sp_arithmetic::FixedU128] *)
Definition FIXED_DIV : Z := 10 ^ 18.

Class FixedPoint := {
  fx_checked_from_integer : Z -> option Z;
  fx_mul : Z -> Z -> Z;
  fx_add : Z -> Z -> Z;
  fx_ceil : Z -> Z;
  fx_checked_mul_int : Z -> Z -> option Z;
}.

(** What the operations return when the exact result is representable;
    [checked_*] return [None] when it is not. *)
Class FixedPointLaws `{FX : FixedPoint} : Prop := {
  fx_checked_from_integer_spec : forall n, 0 <= n < 2 ^ 128 ->
    fx_checked_from_integer n = if n * FIXED_DIV <? 2 ^ 128 then Some (n * FIXED_DIV) else None;
  fx_mul_exact : forall a b c, 0 <= a -> 0 <= b -> a * b = c * FIXED_DIV -> c < 2 ^ 128 -> fx_mul a b = c;
  fx_add_spec : forall a b, 0 <= a -> 0 <= b -> a + b < 2 ^ 128 -> fx_add a b = a + b;
  fx_ceil_spec : forall a, 0 <= a -> (a + FIXED_DIV - 1) / FIXED_DIV * FIXED_DIV < 2 ^ 128 ->
    fx_ceil a = (a + FIXED_DIV - 1) / FIXED_DIV * FIXED_DIV;
  fx_checked_mul_int_spec : forall a n, 0 <= a < 2 ^ 128 -> 0 <= n < 2 ^ 128 ->
    fx_checked_mul_int a n = if a * n / FIXED_DIV <? 2 ^ 128 then Some (a * n / FIXED_DIV) else None;
}.

(** ** Constants *)
Definition INITIAL_GAS : Z := u64_max.

Definition VM_RESOURCE_FEE_COSTS : list (string * Z) :=
  [("n_steps", 10000000000000000);
   ("pedersen_builtin", 320000000000000000);
   ("range_check_builtin", 160000000000000000);
   ("ecdsa_builtin", 20480000000000000000);
   ("bitwise_builtin", 640000000000000000);
   ("poseidon_builtin", 320000000000000000);
   ("ec_op_builtin", 10240000000000000000)]%string.

Definition vm_resource_fee_costs : gmap string Z := list_to_map VM_RESOURCE_FEE_COSTS.

Definition TRANSFER_SELECTOR_HASH : list byte :=
  map byte_of
    [0; 131; 175; 211; 244; 202; 237; 198; 238; 191; 68; 36; 111; 229; 78; 56; 201; 94; 49; 121; 165;
     236; 158; 168; 23; 64; 236; 165; 180; 130; 209; 46].
Definition TRANSFER_SELECTOR_ARRAY : array 32 := mk_array (n := 32) TRANSFER_SELECTOR_HASH eq_refl.

Record ResourcePrice := mk_rp { price_in_strk : option Z; price_in_wei : Z }.

#[export] Instance ResourcePrice_eq_dec : EqDecision ResourcePrice.
Proof. solve_decision. Defined.

(** [From<ResourcePrice> for CoreResourcePrice]: the wei price is truncated to
    64 bits. *)
Definition CoreResourcePrice_from (item : ResourcePrice) : option Z * Z :=
  (price_in_strk item, wrap 64 (price_in_wei item)).

(** ** Fee computation *)
Section fee.
  Context `{FX : FixedPoint}.

(** [remove(GAS_USAGE).expect(..)]. *)
Definition extract_l1_gas_and_vm_usage (resources : ResourcesMapping) : outcome (Z * ResourcesMapping) :=
  match resources !! GAS_USAGE with
  | Some l1_gas_usage => Ret (l1_gas_usage, delete GAS_USAGE resources)
  | None => Panic
  end.

(** The closure of the [map], and the [try_fold] with [max]. *)
Definition vm_cost (key : string) (value : Z) : outcome (result TransactionExecutionError Z) :=
  match fx_checked_from_integer value with
  | None => Ret (Err FixedPointConversion)
  | Some v =>
      match vm_resource_fee_costs !! key with
      | Some cost => Ret (Ok (fx_mul cost v))
      | None => Panic
      end
  end.

Fixpoint vm_cost_max (accum : Z) (l : list (string * Z)) : outcome (result TransactionExecutionError Z) :=
  match l with
  | [] => Ret (Ok accum)
  | (key, value) :: l' =>
      match vm_cost key value with
      | Ret (Ok v) => vm_cost_max (Z.max v accum) l'
      | Ret (Err e) => Ret (Err e)
      | Panic => Panic
      end
  end.

Definition calculate_l1_gas_by_vm_usage (vm_resource_usage : ResourcesMapping)
  : outcome (result TransactionExecutionError Z) :=
  if existsb (fun kv => negb (bool_decide (is_Some (vm_resource_fee_costs !! fst kv)))) (map_to_list vm_resource_usage)
  then Ret (Err CairoResourcesNotContainedInFeeCosts)
  else vm_cost_max 0 (map_to_list vm_resource_usage).

Definition calculate_tx_fee (resources : ResourcesMapping) (block_context : BlockContext)
  : outcome (result TransactionExecutionError Z) :=
  let! (l1_gas_usage, vm_resources) := extract_l1_gas_and_vm_usage resources in
  let! r := calculate_l1_gas_by_vm_usage vm_resources in
  match r with
  | Err e => Ret (Err e)
  | Ok l1_gas_by_vm_usage =>
      match fx_checked_from_integer l1_gas_usage with
      | None => Ret (Err FixedPointConversion)
      | Some g =>
          let total_l1_gas_usage := fx_add g l1_gas_by_vm_usage in
          Ret (ok_or (fx_checked_mul_int (fx_ceil total_l1_gas_usage) (bctx_gas_price block_context))
                     FixedPointConversion)
      end
  end.

End fee.

(** ** Charging *)
Section charge.
  Context `{FX : FixedPoint} `{SA : StarknetApi} `{BL : Blockifier}.
  Context {St : Type} `{ST : !State St} `{SCH : !StateChanges St}.

Definition compute_transaction_resources (execute_call_info validate_call_info : option CallInfo)
    (execution_resources : ExecutionResources) (tx_type : TransactionType)
    (l1_handler_payload_size : option Z) : effr St TransactionExecutionError ResourcesMapping :=
  fun state =>
    let state_changes_count := count_state_changes state in
    let non_optional_call_infos := omap id [execute_call_info; validate_call_info] in
    Ret (let? l1_gas_usage :=
           calculate_l1_gas_usage non_optional_call_infos state_changes_count l1_handler_payload_size in
         calculate_tx_resources execution_resources l1_gas_usage tx_type, state).

Definition fee_transfer_call (block_context : BlockContext) (account_tx_context : AccountTransactionContext)
    (actual_fee : Z) (selector : StarkFelt) : CallEntryPoint := {|
  cep_class_hash := None;
  cep_code_address := None;
  cep_entry_point_type := EPExternal;
  cep_entry_point_selector := mk_new selector;
  cep_calldata := [new0 (bctx_sequencer_address block_context); stark_from_uint actual_fee; stark_from_uint 0];
  cep_storage_address := bctx_fee_token_address block_context;
  cep_caller_address := actx_sender_address account_tx_context;
  cep_call_type := CTCall;
  cep_initial_gas := INITIAL_GAS;
|}.

Definition execute_fee_transfer (block_context : BlockContext) (account_tx_context : AccountTransactionContext)
    (actual_fee : Z) : effr St TransactionExecutionError CallInfo :=
  let max_fee := actx_max_fee account_tx_context in
  if max_fee <? actual_fee then eret (Err (FeeTransferError max_fee actual_fee))
  else
    selector <-- elift (unwrap_opt (stark_new TRANSFER_SELECTOR_ARRAY));;
    fun state =>
      let context := context_new block_context account_tx_context (bctx_invoke_tx_max_n_steps block_context) in
      match call_execute (fee_transfer_call block_context account_tx_context actual_fee selector)
              (state, resources_default, context) with
      | Ret (r, (state', _, _)) => Ret (map_err EntryPointError r, state')
      | Panic => Panic
      end.

Definition charge_fee (block_context : BlockContext) (account_tx_context : AccountTransactionContext)
    (resources : ResourcesMapping) (disable_transaction_fee disable_fee_charge is_query : bool)
  : effr St TransactionExecutionError (Z * option CallInfo) :=
  if disable_transaction_fee then eret (Ok (0, None))
  else
    actual_fee <-? elift (calculate_tx_fee resources block_context);;
    if disable_fee_charge || is_query then eret (Ok (actual_fee, None))
    else
      fee_transfer_call_info <-? execute_fee_transfer block_context account_tx_context actual_fee;;
      eret (Ok (actual_fee, Some fee_transfer_call_info)).

End charge.

(** ** Specification of the fee *)

(** The weight of one Cairo resource in units of 10^-18 gas, and the heaviest. *)
Definition vm_weight (kv : string * Z) : Z := default 0 (vm_resource_fee_costs !! fst kv) * snd kv.
Definition heaviest (vm : ResourcesMapping) : Z := foldr Z.max 0 (map vm_weight (map_to_list vm)).

(** Gas of the transaction rounded up to an integer, times the gas price. *)
Definition fee_spec (l1_gas : Z) (vm : ResourcesMapping) (gas_price : Z) : Z :=
  (l1_gas * FIXED_DIV + heaviest vm + FIXED_DIV - 1) / FIXED_DIV * gas_price.

(** Usages the fixed-point arithmetic represents exactly: up to 2^58 units. *)
Definition usage_bound : Z := 2 ^ 58.
Definition usage_ok (vm : ResourcesMapping) : Prop :=
  map_Forall (fun k v => is_Some (vm_resource_fee_costs !! k) /\ 0 <= v < usage_bound) vm.

Lemma usage_ok_list vm :
  usage_ok vm ->
  Forall (fun kv => is_Some (vm_resource_fee_costs !! fst kv) /\ 0 <= snd kv < usage_bound) (map_to_list vm).
Proof.
  intros Hok. apply map_Forall_to_list in Hok. eapply Forall_impl; [|exact Hok]. by intros [k v].
Qed.

Lemma costs_bound k c : vm_resource_fee_costs !! k = Some c -> 0 <= c <= 20480000000000000000.
Proof.
  intros Hc. apply elem_of_list_to_map_2 in Hc.
  assert (Hall : Forall (fun kv => 0 <= snd kv <= 20480000000000000000) VM_RESOURCE_FEE_COSTS)
    by (repeat constructor; simpl; lia).
  rewrite Forall_forall in Hall. apply list_elem_of_In in Hc. exact (Hall _ Hc).
Qed.

Section fee_lemmas.
  Context `{FX : FixedPoint} {FXL : FixedPointLaws}.

Lemma vm_cost_exact k v :
  is_Some (vm_resource_fee_costs !! k) -> 0 <= v < usage_bound ->
  vm_cost k v = Ret (Ok (vm_weight (k, v))) /\ 0 <= vm_weight (k, v) < 2 ^ 123.
Proof.
  intros [c Hc] Hv. pose proof (costs_bound _ _ Hc) as Hb. unfold vm_cost, vm_weight, usage_bound in *.
  cbn [fst snd]. rewrite Hc. cbn [default from_option id].
  assert (v < 2 ^ 128) by lia.
  rewrite fx_checked_from_integer_spec by lia. unfold FIXED_DIV.
  destruct (v * 10 ^ 18 <? 2 ^ 128) eqn:E; [|zbool; lia].
  assert (0 <= c * v) by (apply Z.mul_nonneg_nonneg; lia).
  assert (c * v <= 20480000000000000000 * 2 ^ 58) by (apply Z.mul_le_mono_nonneg; lia).
  rewrite (fx_mul_exact _ _ (c * v)); [split; [done|lia]|lia|lia|unfold FIXED_DIV; lia|lia].
Qed.

Lemma vm_cost_max_exact acc l :
  Forall (fun kv => is_Some (vm_resource_fee_costs !! fst kv) /\ 0 <= snd kv < usage_bound) l ->
  vm_cost_max acc l = Ret (Ok (Z.max (foldr Z.max 0 (map vm_weight l)) acc)) \/ acc < 0.
Proof.
  intros Hl. destruct (decide (0 <= acc)) as [Ha|]; [left|right; lia]. revert acc Ha.
  induction Hl as [|[k v] l [Hk Hv] Hl IH]; intros acc Ha; simpl; [do 2 f_equal; lia|].
  destruct (vm_cost_exact k v Hk Hv) as [-> Hw]. rewrite IH by lia. do 2 f_equal. lia.
Qed.

Lemma heaviest_bound vm : usage_ok vm -> 0 <= heaviest vm < 2 ^ 123.
Proof.
  intros Hok. unfold heaviest.
  pose proof (usage_ok_list _ Hok) as Hl.
  induction Hl as [|[k v] l [Hk Hv] Hl IH]; simpl; [lia|].
  destruct (vm_cost_exact k v Hk Hv) as [_ Hw]. lia.
Qed.

Lemma calculate_l1_gas_exact vm :
  usage_ok vm -> calculate_l1_gas_by_vm_usage vm = Ret (Ok (heaviest vm)).
Proof.
  intros Hok. pose proof (heaviest_bound vm Hok) as Hb.
  pose proof (usage_ok_list _ Hok) as Hl.
  unfold calculate_l1_gas_by_vm_usage. destruct (existsb _ _) eqn:He.
  - apply existsb_exists in He as (kv & Hin & Hn). rewrite Forall_forall in Hl.
    destruct (Hl kv Hin) as [Hs _]. rewrite bool_decide_true in Hn by done. done.
  - destruct (vm_cost_max_exact 0 _ Hl) as [->|]; [|lia]. do 2 f_equal. unfold heaviest in *. lia.
Qed.

(** The fee of a transaction is the L1 gas it uses plus the gas of its
    heaviest Cairo resource, rounded up to a whole unit of gas and multiplied
    by the gas price, exactly; it is an error only when that product does not
    fit 128 bits, when a resource has no known cost, and a panic only when the
    L1 gas entry is missing. *)
Theorem calculate_tx_fee_exact (resources : ResourcesMapping) (bc : BlockContext) (gas : Z) :
  0 <= bctx_gas_price bc < 2 ^ 128 ->
  (resources !! GAS_USAGE = None -> calculate_tx_fee resources bc = Panic)
  /\ (resources !! GAS_USAGE = Some gas ->
      (exists k, k <> GAS_USAGE /\ is_Some (resources !! k) /\ vm_resource_fee_costs !! k = None) ->
      calculate_tx_fee resources bc = Ret (Err CairoResourcesNotContainedInFeeCosts))
  /\ (resources !! GAS_USAGE = Some gas -> 0 <= gas < usage_bound -> usage_ok (delete GAS_USAGE resources) ->
      let fee := fee_spec gas (delete GAS_USAGE resources) (bctx_gas_price bc) in
      calculate_tx_fee resources bc = Ret (if fee <? 2 ^ 128 then Ok fee else Err FixedPointConversion)).
Proof.
  intros Hp. unfold calculate_tx_fee, extract_l1_gas_and_vm_usage. split_and!.
  - by intros ->.
  - intros -> (k & Hk & [v Hv] & Hc). cbn [outcome_bind]. unfold calculate_l1_gas_by_vm_usage.
    replace (existsb _ _) with true; [done|]. symmetry. apply existsb_exists. exists (k, v). split.
    + apply list_elem_of_In, elem_of_map_to_list. by rewrite lookup_delete_ne.
    + cbn [fst]. rewrite Hc, bool_decide_false; [done|]. by intros [? ?].
  - intros -> Hg Hok. cbn [outcome_bind].
    pose proof (heaviest_bound _ Hok) as Hb. rewrite (calculate_l1_gas_exact _ Hok). cbn [outcome_bind].
    set (h := heaviest (delete GAS_USAGE resources)) in *. unfold usage_bound in Hg.
    rewrite fx_checked_from_integer_spec by lia. unfold FIXED_DIV at 1 2.
    destruct (gas * 10 ^ 18 <? 2 ^ 128) eqn:E; [|zbool; lia].
    rewrite fx_add_spec by lia.
    assert (Hc : 0 <= (gas * 10 ^ 18 + h + FIXED_DIV - 1) / FIXED_DIV * FIXED_DIV < 2 ^ 128).
    { unfold FIXED_DIV. pose proof (Z.mul_div_le (gas * 10 ^ 18 + h + 10 ^ 18 - 1) (10 ^ 18) ltac:(lia)).
      assert (0 <= (gas * 10 ^ 18 + h + 10 ^ 18 - 1) / 10 ^ 18) by (apply Z.div_pos; lia). lia. }
    rewrite fx_ceil_spec by lia. rewrite fx_checked_mul_int_spec by lia.
    unfold fee_spec. fold h. change (gas * FIXED_DIV) with (gas * 10 ^ 18).
    set (q := (gas * 10 ^ 18 + h + FIXED_DIV - 1) / FIXED_DIV) in *.
    replace (q * FIXED_DIV * bctx_gas_price bc / FIXED_DIV) with (q * bctx_gas_price bc).
    + by destruct (q * bctx_gas_price bc <? 2 ^ 128).
    + rewrite <- Z.mul_assoc, (Z.mul_comm FIXED_DIV), Z.mul_assoc, Z.div_mul; [done|]. unfold FIXED_DIV. lia.
Qed.

End fee_lemmas.

Section charge_lemmas.
  Context `{FX : FixedPoint} `{SA : StarknetApi} `{BL : Blockifier} {BLL : BlockifierLaws}.
  Context {St : Type} {ST : State St} {SCH : StateChanges St}.

Lemma execute_fee_transfer_inv bc actx fee (s : St) r s' :
  execute_fee_transfer bc actx fee s = Ret (r, s') ->
  reaches s s'
  /\ (forall ci, r = Ok ci ->
        fee <= actx_max_fee actx
        /\ exists selector res' ctx',
             stark_new TRANSFER_SELECTOR_ARRAY = Some selector
             /\ call_execute (fee_transfer_call bc actx fee selector)
                  (s, resources_default, context_new bc actx (bctx_invoke_tx_max_n_steps bc))
                = Ret (Ok ci, (s', res', ctx'))).
Proof.
  unfold execute_fee_transfer. destruct (actx_max_fee actx <? fee) eqn:Hf.
  - unfold eret. intros [= <- <-]. by split.
  - unfold ebind, elift. destruct (stark_new TRANSFER_SELECTOR_ARRAY) as [sel|]; [|done]. cbn [unwrap_opt].
    destruct (call_execute _ _) as [[r0 [[s0 res0] ctx0]]|] eqn:Hc; [|done]. intros [= <- <-].
    split; [by eapply call_execute_reaches|]. intros ci Hr. destruct r0 as [ci0|]; [|done].
    injection Hr as ->. zbool. split; [done|]. eauto 10.
Qed.

(** Charging a fee.  With fees disabled nothing is computed or transferred;
    in query mode or with charging disabled the fee is computed and the state
    is left alone; otherwise the transaction succeeds only when the computed
    fee does not exceed its maximal fee, and the state change is exactly one
    call of the fee token's transfer entry point, from the sender to the
    sequencer, for that fee. *)
Theorem charge_fee_cases (bc : BlockContext) (actx : AccountTransactionContext) (res : ResourcesMapping)
    (no_fee no_charge query : bool) (s s' : St) (fee : Z) (info : option CallInfo) :
  charge_fee bc actx res no_fee no_charge query s = Ret (Ok (fee, info), s') ->
  if no_fee then fee = 0 /\ info = None /\ s' = s
  else calculate_tx_fee res bc = Ret (Ok fee)
       /\ if no_charge || query then info = None /\ s' = s
          else fee <= actx_max_fee actx
               /\ exists ci selector res' ctx',
                    info = Some ci
                    /\ stark_new TRANSFER_SELECTOR_ARRAY = Some selector
                    /\ call_execute
                         {| cep_class_hash := None; cep_code_address := None;
                            cep_entry_point_type := EPExternal;
                            cep_entry_point_selector := mk_new selector;
                            cep_calldata := [new0 (bctx_sequencer_address bc); stark_from_uint fee; stark_from_uint 0];
                            cep_storage_address := bctx_fee_token_address bc;
                            cep_caller_address := actx_sender_address actx;
                            cep_call_type := CTCall; cep_initial_gas := 2 ^ 64 - 1 |}
                         (s, resources_default, context_new bc actx (bctx_invoke_tx_max_n_steps bc))
                       = Ret (Ok ci, (s', res', ctx')).
Proof.
  unfold charge_fee. destruct no_fee; [unfold eret; by intros [= <- <- <-]|].
  unfold etry, ebind, elift. destruct (calculate_tx_fee res bc) as [[f|e]|]; [|done|done].
  destruct (no_charge || query); [unfold eret; by intros [= <- <- <-]|].
  destruct (execute_fee_transfer bc actx f s) as [[[ci|e] s1]|] eqn:Ht; [|done|done].
  unfold eret. intros [= <- <- <-]. apply execute_fee_transfer_inv in Ht as [_ Ht].
  destruct (Ht ci eq_refl) as (Hle & sel & r' & c' & Hs & Hc). split; [done|]. split; [done|].
  by exists ci, sel, r', c'.
Qed.

End charge_lemmas.

(** ** Witnesses *)
Module FeeReference.

(** Exact arithmetic on the inner integers. *)
#[export] Instance fixed : FixedPoint := {|
  fx_checked_from_integer n := if n * FIXED_DIV <? 2 ^ 128 then Some (n * FIXED_DIV) else None;
  fx_mul a b := a * b / FIXED_DIV;
  fx_add a b := a + b;
  fx_ceil a := (a + FIXED_DIV - 1) / FIXED_DIV * FIXED_DIV;
  fx_checked_mul_int a n := if a * n / FIXED_DIV <? 2 ^ 128 then Some (a * n / FIXED_DIV) else None;
|}.
#[export] Instance fixed_laws : FixedPointLaws (FX := fixed).
Proof.
  constructor; simpl; try done.
  intros a b c _ _ -> _. apply Z.div_mul. unfold FIXED_DIV. lia.
Qed.

Definition w_block_context : BlockContext :=
  mk_bctx [] 1 0 (mk_new stark_default) ∅ (mk_new stark_default) 1000000 1000000 10 50.

End FeeReference.
Import Deps.Reference ReferenceVm FeeReference.

Lemma calculate_tx_fee_exact_witness :
  calculate_tx_fee {[ GAS_USAGE := 3; "n_steps"%string := 250 ]} w_block_context = Ret (Ok 60).
Proof.
  destruct (calculate_tx_fee_exact {[ GAS_USAGE := 3; "n_steps"%string := 250 ]} w_block_context 3)
    as (_ & _ & H); [vm_compute; split; congruence|].
  rewrite H; [vm_compute; reflexivity|reflexivity|vm_compute; split; congruence|].
  unfold usage_ok. apply (bool_decide_eq_true_1 _). vm_compute. reflexivity.
Defined.

Definition w_actx : AccountTransactionContext :=
  mk_actx (mk_new stark_default) 100 (mk_new stark_default) [] (mk_new stark_default) (mk_new stark_default).

Lemma charge_fee_cases_witness : 60 <= actx_max_fee w_actx.
Proof.
  assert (He : exists ci, charge_fee (St := unit) w_block_context w_actx
            {[ GAS_USAGE := 3; "n_steps"%string := 250 ]} false false false tt = Ret (Ok (60, Some ci), tt))
    by (eexists; vm_compute; reflexivity).
  destruct He as [ci He].
  destruct (charge_fee_cases _ _ _ _ _ _ _ _ _ _ He) as (_ & Hle & _). exact Hle.
Defined.
