(* ===== verification/Execution.v ===== *)
(** * [mp-transactions]: validation and execution of transactions

    Models [crates/primitives/transactions/src/execution.rs]: account contexts,
    calldata, nonce handling, the balance check, [validate_tx_inner],
    [execute_inner] of the four transaction kinds, fee handling and [execute].
    The traits of the source are type classes over the transaction type; the
    code is generic in the state, as in the source. *)
From S2P Require Import Prelude Bytes Deps Felt Hashers Transactions Blockifier Fee.
Local Open Scope Z_scope.

Record ExecutionConfig := mk_xcfg {
  is_query : bool;
  offset_version : bool;
  disable_transaction_fee : bool;
  disable_fee_charge : bool;
  disable_nonce_validation : bool;
  disable_validation : bool;
}.

Definition set_offset_version (c : ExecutionConfig) (value : bool) : ExecutionConfig :=
  mk_xcfg (is_query c) value (disable_transaction_fee c) (disable_fee_charge c)
    (disable_nonce_validation c) (disable_validation c).

Record ValidateExecuteCallInfo := mk_veci {
  veci_validate_call_info : option CallInfo;
  veci_execute_call_info : option CallInfo;
  veci_revert_error : option string;
}.

Definition new_accepted (validate_call_info execute_call_info : option CallInfo) : ValidateExecuteCallInfo :=
  mk_veci validate_call_info execute_call_info None.
Definition new_reverted (validate_call_info : option CallInfo) (revert_error : string) : ValidateExecuteCallInfo :=
  mk_veci validate_call_info None (Some revert_error).

(** ** Traits *)
Class GetAccountTransactionContext (T : Type) := {
  get_account_transaction_context : T -> bool -> outcome AccountTransactionContext }.
Class GetTransactionCalldata (T : Type) := { calldata : T -> Calldata }.
Class GetTxType (T : Type) := { tx_type : TransactionType }.
Arguments tx_type T {_}.

Section traits.
  Context `{SF : StarknetFf} `{SA : StarknetApi} `{BL : Blockifier}.

(** The conversion of the version back to a felt may panic on a non-canonical
    [StarkFelt]. *)
Definition apply_simulate_tx_version_offset (v : TransactionVersion) : outcome TransactionVersion :=
  let! f := felt_from_stark (new0 v) in
  felt_into_new TransactionVersionT (mk_felt (fe_add (felt0 f) SIMULATE_TX_VERSION_OFFSET)).

Definition context_version (v : TransactionVersion) (offset_version : bool) : outcome TransactionVersion :=
  if offset_version then apply_simulate_tx_version_offset v else Ret v.

#[export] Instance declare_account_context : GetAccountTransactionContext bDeclare := {|
  get_account_transaction_context t offset_version :=
    let! version := context_version (mk_new (stark_from_uint (st_declare_version (bd_tx t)))) offset_version in
    Ret {| actx_transaction_hash := bd_tx_hash t;
           actx_max_fee := st_declare_max_fee (bd_tx t);
           actx_version := version;
           actx_signature := st_declare_signature (bd_tx t);
           actx_nonce := st_declare_nonce (bd_tx t);
           actx_sender_address := st_declare_sender_address (bd_tx t) |} |}.

#[export] Instance deploy_account_context : GetAccountTransactionContext bDeployAccount := {|
  get_account_transaction_context t offset_version :=
    let! version := context_version (stda_version (bda_tx t)) offset_version in
    Ret {| actx_transaction_hash := bda_tx_hash t;
           actx_max_fee := stda_max_fee (bda_tx t);
           actx_version := version;
           actx_signature := stda_signature (bda_tx t);
           actx_nonce := stda_nonce (bda_tx t);
           actx_sender_address := bda_contract_address t |} |}.

#[export] Instance invoke_account_context : GetAccountTransactionContext bInvoke := {|
  get_account_transaction_context t offset_version :=
    let v := match bi_tx t with StInvokeV0 _ => stark_from_uint 0 | StInvokeV1 _ => stark_from_uint 1 end in
    let! version := context_version (mk_new v) offset_version in
    let nonce := match bi_tx t with StInvokeV0 _ => mk_new stark_default | StInvokeV1 tx => sti1_nonce tx end in
    let sender_address :=
      match bi_tx t with StInvokeV0 tx => sti0_contract_address tx | StInvokeV1 tx => sti1_sender_address tx end in
    Ret {| actx_transaction_hash := bi_tx_hash t;
           actx_max_fee := st_invoke_max_fee (bi_tx t);
           actx_version := version;
           actx_signature := st_invoke_signature (bi_tx t);
           actx_nonce := nonce;
           actx_sender_address := sender_address |} |}.

#[export] Instance l1_handler_account_context : GetAccountTransactionContext bL1Handler := {|
  get_account_transaction_context t offset_version :=
    let! version := context_version (stl1_version (bl1_tx t)) offset_version in
    Ret {| actx_transaction_hash := bl1_tx_hash t;
           actx_max_fee := 0;
           actx_version := version;
           actx_signature := [];
           actx_nonce := stl1_nonce (bl1_tx t);
           actx_sender_address := stl1_contract_address (bl1_tx t) |} |}.

#[export] Instance declare_calldata : GetTransactionCalldata bDeclare := {|
  calldata t := [new0 (st_declare_class_hash (bd_tx t))] |}.
#[export] Instance deploy_account_calldata' : GetTransactionCalldata bDeployAccount := {|
  calldata t :=
    new0 (stda_class_hash (bda_tx t)) :: new0 (stda_contract_address_salt (bda_tx t))
      :: stda_constructor_calldata (bda_tx t) |}.
#[export] Instance invoke_calldata' : GetTransactionCalldata bInvoke := {|
  calldata t := st_invoke_calldata (bi_tx t) |}.
#[export] Instance l1_handler_calldata : GetTransactionCalldata bL1Handler := {|
  calldata t := stl1_calldata (bl1_tx t) |}.

#[export] Instance declare_tx_type : GetTxType bDeclare := {| tx_type := Declare' |}.
#[export] Instance deploy_account_tx_type : GetTxType bDeployAccount := {| tx_type := DeployAccount' |}.
#[export] Instance invoke_tx_type : GetTxType bInvoke := {| tx_type := InvokeFunction |}.
#[export] Instance l1_handler_tx_type : GetTxType bL1Handler := {| tx_type := L1Handler' |}.

End traits.

(** [trait Validate]: the name of the validation entry point. *)
Class Validate `{Blockifier} (T : Type) := { VALIDATE_TX_ENTRY_POINT_NAME : string }.
Arguments VALIDATE_TX_ENTRY_POINT_NAME {_ _ _} T {_}.

#[export] Instance invoke_validate `{Blockifier} : Validate bInvoke := {|
  VALIDATE_TX_ENTRY_POINT_NAME := VALIDATE_ENTRY_POINT_NAME |}.
#[export] Instance declare_validate `{Blockifier} : Validate bDeclare := {|
  VALIDATE_TX_ENTRY_POINT_NAME := VALIDATE_DECLARE_ENTRY_POINT_NAME |}.
#[export] Instance deploy_account_validate `{Blockifier} : Validate bDeployAccount := {|
  VALIDATE_TX_ENTRY_POINT_NAME := VALIDATE_DEPLOY_ENTRY_POINT_NAME |}.
#[export] Instance l1_handler_validate `{Blockifier} : Validate bL1Handler := {|
  VALIDATE_TX_ENTRY_POINT_NAME := VALIDATE_ENTRY_POINT_NAME |}.

(** [AccountTransactionContext::is_v0]. *)
Definition is_v0 `{StarknetApi} (a : AccountTransactionContext) : bool :=
  bool_decide (actx_version a = mk_new (stark_from_uint 0)).

(** ** Validation and the steps of execution *)
Section steps.
  Context `{SF : StarknetFf} `{SA : StarknetApi} `{FX : FixedPoint} `{BL : Blockifier}.
  Context {St : Type} {ST : State St} {SCH : StateChanges St}.

Definition TX_INITIAL_AVAILABLE_GAS : Z := INITIAL_GAS_COST - TRANSACTION_GAS_COST.

Definition validate_call (T : Type) {VT : Validate T} (storage_address : ContractAddress) (cd : Calldata)
    (remaining_gas : Z) : CallEntryPoint := {|
  cep_entry_point_type := EPExternal;
  cep_entry_point_selector := selector_from_name (VALIDATE_TX_ENTRY_POINT_NAME T);
  cep_calldata := cd;
  cep_class_hash := None;
  cep_code_address := None;
  cep_storage_address := storage_address;
  cep_caller_address := mk_new stark_default;
  cep_call_type := CTCall;
  cep_initial_gas := remaining_gas;
|}.

Definition validate_tx_inner (T : Type) {VT : Validate T} (cd : Calldata)
  : effr (vm St) TransactionExecutionError (option CallInfo) :=
  fun v =>
    if is_v0 (context_account (vm_context v)) then Ret (Ok None, v)
    else
      let storage_address := actx_sender_address (context_account (vm_context v)) in
      match call_execute (validate_call T storage_address cd (vm_gas v))
              (vm_state v, vm_resources v, vm_context v) with
      | Panic => Panic
      | Ret (Err e, (s, r, c)) => Ret (Err (ValidateTransactionError e), mk_vm s r (vm_gas v) c)
      | Ret (Ok info, (s, r, c)) =>
          match verify_no_calls_to_other_contracts info VALIDATE_ENTRY_POINT_NAME with
          | Err e => Ret (Err e, mk_vm s r (vm_gas v) c)
          | Ok _ => Ret (Ok (Some info), mk_vm s r (update_remaining_gas (vm_gas v) info) c)
          end
      end.

(** The public [validate_tx]; its last argument is used as the version offset. *)
Definition validate_tx (T : Type) {VT : Validate T} `{GetAccountTransactionContext T} `{GetTransactionCalldata T}
    (t : T) (block_context : BlockContext) (validate_tx : bool)
  : effr (St * ExecutionResources * Z) TransactionExecutionError (option CallInfo) :=
  account_tx_context <-- elift (get_account_transaction_context t validate_tx);;
  fun '(s, r, g) =>
    match validate_tx_inner T (calldata t)
            (mk_vm s r g (context_new block_context account_tx_context (bctx_invoke_tx_max_n_steps block_context))) with
    | Ret (res, v) => Ret (res, (vm_state v, vm_resources v, vm_gas v))
    | Panic => Panic
    end.

Definition handle_nonce (account_tx_context : AccountTransactionContext)
  : effr St TransactionExecutionError unit :=
  if bool_decide (actx_version account_tx_context = mk_new (stark_from_uint 0)) then eret (Ok tt)
  else
    let address := actx_sender_address account_tx_context in
    current_nonce <-? emap_err TxStateError (get_nonce_at address);;
    if bool_decide (current_nonce <> actx_nonce account_tx_context)
    then eret (Err (InvalidNonce address current_nonce (actx_nonce account_tx_context)))
    else
      emap_err TxStateError (increment_nonce address) ;;?
      eret (Ok tt).

Definition check_fee_balance (block_context : BlockContext) (account_tx_context : AccountTransactionContext)
    (execution_config : ExecutionConfig) : effr St TransactionExecutionError unit :=
  let max_fee := actx_max_fee account_tx_context in
  if negb (max_fee =? 0) && negb (disable_fee_charge execution_config)
     && negb (disable_transaction_fee execution_config) && negb (is_query execution_config)
  then
    balance <-? emap_err TxStateError (get_fee_token_balance block_context (actx_sender_address account_tx_context));;
    let '(balance_low, balance_high) := balance in
    if (stark_val balance_high <=? stark_val (stark_from_uint 0))
       && (stark_val balance_low <? stark_val (stark_from_uint max_fee))
    then eret (Err (MaxFeeExceedsBalance max_fee balance_low balance_high))
    else eret (Ok tt)
  else eret (Ok tt).

Definition handle_nonce_and_check_fee_balance (block_context : BlockContext)
    (account_tx_context : AccountTransactionContext) (execution_config : ExecutionConfig)
  : effr St TransactionExecutionError unit :=
  (if negb (disable_nonce_validation execution_config) then handle_nonce account_tx_context else eret (Ok tt)) ;;?
  check_fee_balance block_context account_tx_context execution_config.

(** The default [handle_fee]. *)
Definition default_handle_fee (T : Type) `{GetTxType T} (execute_call_info validate_call_info : option CallInfo)
    (execution_resources : ExecutionResources) (block_context : BlockContext)
    (account_tx_context : AccountTransactionContext) (execution_config : ExecutionConfig)
  : effr St TransactionExecutionError (Z * option CallInfo * ResourcesMapping) :=
  actual_resources <-? compute_transaction_resources execute_call_info validate_call_info execution_resources
                         (tx_type T) None;;
  fee <-? charge_fee block_context account_tx_context actual_resources
            (disable_transaction_fee execution_config) (disable_fee_charge execution_config)
            (is_query execution_config);;
  let '(actual_fee, fee_transfer_call_info) := fee in
  eret (Ok (actual_fee, fee_transfer_call_info, actual_resources)).

(** The [handle_fee] of an L1 handler; the payload size is computed on [usize]. *)
Definition l1_handler_handle_fee (t : bL1Handler) (execute_call_info validate_call_info : option CallInfo)
    (execution_resources : ExecutionResources) (block_context : BlockContext)
  : effr St TransactionExecutionError (Z * option CallInfo * ResourcesMapping) :=
  let l1_handler_payload_size := wsub 64 (zlen (stl1_calldata (bl1_tx t))) 1 in
  actual_resources <-? compute_transaction_resources execute_call_info validate_call_info execution_resources
                         L1Handler' (Some l1_handler_payload_size);;
  actual_fee <-? elift (calculate_tx_fee actual_resources block_context);;
  let paid_fee := bl1_paid_fee_on_l1 t in
  if paid_fee =? 0 then eret (Err (InsufficientL1Fee paid_fee actual_fee))
  else eret (Ok (0, None, actual_resources)).

End steps.

(** ** [trait Execute] *)
Class Execute `{BL : Blockifier} (St : Type) {ST : State St} {SCH : StateChanges St} (T : Type) := {
  execute_inner : T -> BlockContext -> AccountTransactionContext -> bool ->
    effr (St * ExecutionResources * Z) TransactionExecutionError ValidateExecuteCallInfo;
  handle_fee : T -> option CallInfo -> option CallInfo -> ExecutionResources -> BlockContext ->
    AccountTransactionContext -> ExecutionConfig ->
    effr St TransactionExecutionError (Z * option CallInfo * ResourcesMapping);
}.

Section execute.
  Context `{SF : StarknetFf} `{SA : StarknetApi} `{FX : FixedPoint} `{BL : Blockifier}.
  Context {St : Type} {ST : State St} {SCH : StateChanges St}.

(** Runs a body on a fresh entry-point execution context, as each
    [execute_inner] does first. *)
Definition with_context {A} (block_context : BlockContext) (account_tx_context : AccountTransactionContext)
    (body : effr (vm St) TransactionExecutionError A)
  : effr (St * ExecutionResources * Z) TransactionExecutionError A :=
  fun '(s, r, g) =>
    match body (mk_vm s r g (context_new block_context account_tx_context
                               (bctx_invoke_tx_max_n_steps block_context))) with
    | Ret (res, v) => Ret (res, (vm_state v, vm_resources v, vm_gas v))
    | Panic => Panic
    end.

(** Execution that reports a failure as a revert instead of an error. *)
Definition run_revertible (x : Executable) (validate_call_info : option CallInfo)
  : effr (vm St) TransactionExecutionError ValidateExecuteCallInfo :=
  fun v =>
    match run_execute x v with
    | Panic => Panic
    | Ret (Ok execute_call_info, v') => Ret (Ok (new_accepted validate_call_info execute_call_info), v')
    | Ret (Err _, v') => Ret (Ok (new_reverted validate_call_info (error_trace (vm_context v'))), v')
    end.

Definition run_or_fail (x : Executable) (validate_call_info : option CallInfo)
  : effr (vm St) TransactionExecutionError ValidateExecuteCallInfo :=
  execute_call_info <-? run_execute x;;
  eret (Ok (new_accepted validate_call_info execute_call_info)).

Definition invoke_execute_inner (t : bInvoke) (block_context : BlockContext)
    (account_tx_context : AccountTransactionContext) (disable_validation : bool)
  : effr (St * ExecutionResources * Z) TransactionExecutionError ValidateExecuteCallInfo :=
  with_context block_context account_tx_context
    (validate_call_info <-? (if negb disable_validation then validate_tx_inner bInvoke (calldata t)
                             else eret (Ok None));;
     match bi_tx t with
     | StInvokeV0 _ => run_or_fail (XInvoke t) validate_call_info
     | StInvokeV1 _ => run_revertible (XInvoke t) validate_call_info
     end).

Definition declare_execute_inner (t : bDeclare) (block_context : BlockContext)
    (account_tx_context : AccountTransactionContext) (disable_validation : bool)
  : effr (St * ExecutionResources * Z) TransactionExecutionError ValidateExecuteCallInfo :=
  with_context block_context account_tx_context
    (validate_call_info <-? (if negb disable_validation then validate_tx_inner bDeclare (calldata t)
                             else eret (Ok None));;
     match bd_tx t with
     | StDeclareV0 _ => run_or_fail (XDeclare t) validate_call_info
     | StDeclareV1 _ | StDeclareV2 _ => run_revertible (XDeclare t) validate_call_info
     end).

Definition deploy_account_execute_inner (t : bDeployAccount) (block_context : BlockContext)
    (account_tx_context : AccountTransactionContext) (disable_validation : bool)
  : effr (St * ExecutionResources * Z) TransactionExecutionError ValidateExecuteCallInfo :=
  with_context block_context account_tx_context
    (execute_call_info <-? run_execute (XDeployAccount t);;
     validate_call_info <-? (if negb disable_validation then validate_tx_inner bDeployAccount (calldata t)
                             else eret (Ok None));;
     eret (Ok (new_accepted validate_call_info execute_call_info))).

Definition l1_handler_execute_inner (t : bL1Handler) (block_context : BlockContext)
    (account_tx_context : AccountTransactionContext) (_disable_validation : bool)
  : effr (St * ExecutionResources * Z) TransactionExecutionError ValidateExecuteCallInfo :=
  with_context block_context account_tx_context (run_or_fail (XL1Handler t) None).

#[export] Instance invoke_execute : Execute St bInvoke := {|
  execute_inner := invoke_execute_inner;
  handle_fee _ e v r b a c := default_handle_fee bInvoke e v r b a c |}.
#[export] Instance declare_execute : Execute St bDeclare := {|
  execute_inner := declare_execute_inner;
  handle_fee _ e v r b a c := default_handle_fee bDeclare e v r b a c |}.
#[export] Instance deploy_account_execute : Execute St bDeployAccount := {|
  execute_inner := deploy_account_execute_inner;
  handle_fee _ e v r b a c := default_handle_fee bDeployAccount e v r b a c |}.
#[export] Instance l1_handler_execute : Execute St bL1Handler := {|
  execute_inner := l1_handler_execute_inner;
  handle_fee t e v r b _ _ := l1_handler_handle_fee t e v r b |}.

(** [Execute::execute]. *)
Definition execute {T : Type} `{!GetAccountTransactionContext T} `{!Execute St T} (t : T)
    (block_context : BlockContext) (execution_config : ExecutionConfig)
  : effr St TransactionExecutionError TransactionExecutionInfo :=
  account_tx_context <-- elift (get_account_transaction_context t (offset_version execution_config));;
  handle_nonce_and_check_fee_balance block_context account_tx_context execution_config ;;?
  fun state =>
    match execute_inner t block_context account_tx_context (disable_validation execution_config)
            (state, resources_default, TX_INITIAL_AVAILABLE_GAS) with
    | Panic => Panic
    | Ret (Err e, (state', _, _)) => Ret (Err e, state')
    | Ret (Ok info, (state', execution_resources, _)) =>
        (fees <-? handle_fee t (veci_execute_call_info info) (veci_validate_call_info info)
                    execution_resources block_context account_tx_context execution_config;;
         let '(actual_fee, fee_transfer_call_info, actual_resources) := fees in
         eret (Ok {| tei_validate_call_info := veci_validate_call_info info;
                     tei_execute_call_info := veci_execute_call_info info;
                     tei_fee_transfer_call_info := fee_transfer_call_info;
                     tei_actual_fee := actual_fee;
                     tei_actual_resources := actual_resources;
                     tei_revert_error := veci_revert_error info |})) state'
    end.

End execute.

(** ** Framing: execution only calls methods of the state, and only the nonce check
    increments a nonce *)
Section frame.
  Context `{SF : StarknetFf} `{SA : StarknetApi} `{FX : FixedPoint} `{BL : Blockifier} {BLL : BlockifierLaws}.
  Context {St : Type} {ST : State St} {SCH : StateChanges St}.

(** The same relation on the larger states. *)
Definition vm_reaches (v v' : vm St) : Prop := reaches (vm_state v) (vm_state v').
Definition run_reaches (x x' : St * ExecutionResources * Z) : Prop := reaches (x.1.1) (x'.1.1).

#[local] Instance vm_reaches_preorder : PreOrder vm_reaches.
Proof. split; [intros v; unfold vm_reaches; reflexivity|]. intros x y z H1 H2. unfold vm_reaches in *. by etransitivity. Qed.

Lemma within_get_nonce_at a : within reaches (get_nonce_at (S := St) a).
Proof. intros s r s' H. apply rtc_once. by eapply call_get_nonce_at. Qed.

Lemma within_increment_nonce a : within transacts (increment_nonce (S := St) a).
Proof. intros s r s' H. apply rtc_once. by eapply tx_increment_nonce. Qed.

Lemma within_transacts {A} (m : eff St A) : within reaches m -> within transacts m.
Proof. intros Hm s r s' H. by eapply reaches_transacts, Hm. Qed.

Lemma within_get_fee_token_balance b a : within reaches (get_fee_token_balance (St := St) b a).
Proof. intros s r s' H. by eapply get_fee_token_balance_reaches. Qed.

Lemma within_execute_fee_transfer bc actx fee : within reaches (execute_fee_transfer (St := St) bc actx fee).
Proof. intros s r s' H. by apply execute_fee_transfer_inv in H as [? _]. Qed.

Lemma within_compute_resources e v r t p : within reaches (compute_transaction_resources (St := St) e v r t p).
Proof. intros s a s'. unfold compute_transaction_resources. intros [= _ <-]. reflexivity. Qed.

#[local] Hint Resolve within_get_nonce_at within_increment_nonce within_get_fee_token_balance
  within_execute_fee_transfer within_compute_resources : within.

Lemma within_handle_nonce actx : within transacts (handle_nonce (St := St) actx).
Proof.
  assert (Hget : forall a, within transacts (get_nonce_at (S := St) a)) by (intros a; apply within_transacts, within_get_nonce_at).
  unfold handle_nonce. auto 10 with within typeclass_instances.
Qed.

Lemma within_charge_fee bc actx res a b c : within reaches (charge_fee (St := St) bc actx res a b c).
Proof. unfold charge_fee. auto 10 with within typeclass_instances. Qed.

Lemma within_check_fee_balance bc actx cfg : within reaches (check_fee_balance (St := St) bc actx cfg).
Proof.
  unfold check_fee_balance. apply within_if; [|auto with within typeclass_instances].
  apply within_try; [apply _|auto with within typeclass_instances|]. intros [lo hi].
  auto with within typeclass_instances.
Qed.

#[local] Hint Resolve within_handle_nonce within_charge_fee within_check_fee_balance : within.

Lemma within_nonce_and_balance bc actx cfg :
  within transacts (handle_nonce_and_check_fee_balance (St := St) bc actx cfg).
Proof.
  pose proof (within_transacts _ (within_check_fee_balance bc actx cfg)) as Hcheck.
  unfold handle_nonce_and_check_fee_balance. auto 10 with within typeclass_instances.
Qed.

Lemma within_default_handle_fee (T : Type) `{!GetTxType T} e v r b a c :
  within reaches (default_handle_fee (St := St) T e v r b a c).
Proof.
  unfold default_handle_fee. apply within_try; [apply _|auto with within|]. intros res.
  apply within_try; [apply _|auto with within|]. intros [fee info]. auto with within typeclass_instances.
Qed.

Lemma within_l1_handle_fee t e v r b : within reaches (l1_handler_handle_fee (St := St) t e v r b).
Proof. unfold l1_handler_handle_fee. auto 10 with within typeclass_instances. Qed.

Lemma within_run_execute x : within vm_reaches (run_execute (St := St) x).
Proof. intros v r v' H. by eapply run_execute_reaches. Qed.

Lemma within_validate_tx_inner (T : Type) {VT : Validate T} cd :
  within vm_reaches (validate_tx_inner (St := St) T cd).
Proof.
  intros v r v'. unfold validate_tx_inner, vm_reaches. destruct (is_v0 _); [intros [= <- <-]; reflexivity|].
  destruct (call_execute _ _) as [[[info|e] [[s r0] c]]|] eqn:Hc; [| |done].
  - destruct (verify_no_calls_to_other_contracts _ _); intros [= <- <-]; by eapply call_execute_reaches.
  - intros [= <- <-]. by eapply call_execute_reaches.
Qed.

Lemma within_run_revertible x i : within vm_reaches (run_revertible (St := St) x i).
Proof.
  intros v r v'. unfold run_revertible. destruct (run_execute x v) as [[[e|e] v1]|] eqn:Hr; [| |done];
    intros [= <- <-]; by apply within_run_execute in Hr.
Qed.

#[local] Hint Resolve within_default_handle_fee within_l1_handle_fee within_run_execute
  within_validate_tx_inner within_run_revertible : within.

Lemma within_run_or_fail x i : within vm_reaches (run_or_fail (St := St) x i).
Proof. unfold run_or_fail. auto with within typeclass_instances. Qed.

#[local] Hint Resolve within_run_or_fail : within.

Lemma within_with_context {A} bc actx (m : effr (vm St) TransactionExecutionError A) :
  within vm_reaches m -> within run_reaches (with_context bc actx m).
Proof.
  intros Hm [[s r] g] a [[s' r'] g']. unfold with_context, run_reaches. simpl.
  destruct (m _) as [[x v]|] eqn:E; [|done]. intros [= <- <- <- <-]. by apply Hm in E.
Qed.

Lemma within_execute_inner_invoke t bc actx dv : within run_reaches (invoke_execute_inner (St := St) t bc actx dv).
Proof.
  apply within_with_context, within_try; [apply _|auto with within typeclass_instances|].
  intros i. destruct (bi_tx t); auto with within.
Qed.

Lemma within_execute_inner_declare t bc actx dv : within run_reaches (declare_execute_inner (St := St) t bc actx dv).
Proof.
  apply within_with_context, within_try; [apply _|auto with within typeclass_instances|].
  intros i. destruct (bd_tx t); auto with within.
Qed.

Lemma within_execute_inner_deploy t bc actx dv :
  within run_reaches (deploy_account_execute_inner (St := St) t bc actx dv).
Proof. apply within_with_context. auto 10 with within typeclass_instances. Qed.

Lemma within_execute_inner_l1 t bc actx dv : within run_reaches (l1_handler_execute_inner (St := St) t bc actx dv).
Proof. apply within_with_context. auto with within. Qed.

(** What a transaction kind owes for [execute] to be framed. *)
Class FramedExecute (T : Type) `{!Execute St T} : Prop := {
  framed_inner : forall t bc actx dv, within run_reaches (execute_inner (T := T) t bc actx dv);
  framed_fee : forall t e v r b a c, within reaches (handle_fee (T := T) t e v r b a c);
}.
#[export] Instance framed_invoke : FramedExecute bInvoke.
Proof. split; intros; [apply within_execute_inner_invoke|apply within_default_handle_fee]. Qed.
#[export] Instance framed_declare : FramedExecute bDeclare.
Proof. split; intros; [apply within_execute_inner_declare|apply within_default_handle_fee]. Qed.
#[export] Instance framed_deploy_account : FramedExecute bDeployAccount.
Proof. split; intros; [apply within_execute_inner_deploy|apply within_default_handle_fee]. Qed.
#[export] Instance framed_l1_handler : FramedExecute bL1Handler.
Proof. split; intros; [apply within_execute_inner_l1|apply within_l1_handle_fee]. Qed.

(** Everything [execute] does to the state, on success and on error, is a
    sequence of calls of the state's methods. *)
Lemma within_execute {T : Type} `{!GetAccountTransactionContext T} `{!Execute St T} `{!FramedExecute T}
    (t : T) bc cfg : within transacts (execute (St := St) t bc cfg).
Proof.
  unfold execute. apply within_bind; [apply _|auto with within typeclass_instances|]. intros actx.
  apply within_try; [apply _|apply within_nonce_and_balance|]. intros _ s r s'.
  destruct (execute_inner _ _ _ _ _) as [[[info|e] [[s1 r1] g1]]|] eqn:Hi; [| |done].
  - intros H. transitivity s1; [exact (reaches_transacts _ _ (framed_inner _ _ _ _ _ _ _ Hi))|]. revert H.
    apply (within_try transacts); [apply within_transacts, framed_fee|]. intros [[fee fi] res]. auto with within typeclass_instances.
  - intros [= <- <-]. exact (reaches_transacts _ _ (framed_inner _ _ _ _ _ _ _ Hi)).
Qed.

End frame.

(** ** Properties *)
Section properties.
  Context `{SF : StarknetFf} `{SA : StarknetApi} `{FX : FixedPoint} `{BL : Blockifier} {BLL : BlockifierLaws}.
  Context {St : Type} {ST : State St} {SCH : StateChanges St}.

(** The transaction kinds that keep the default [handle_fee]. *)
Class DefaultFee (T : Type) `{!Execute St T} `{!GetTxType T} : Prop := {
  default_fee : forall (t : T) e v r b a c, handle_fee t e v r b a c = default_handle_fee T e v r b a c }.
#[export] Instance default_fee_invoke : DefaultFee bInvoke.
Proof. split. reflexivity. Qed.
#[export] Instance default_fee_declare : DefaultFee bDeclare.
Proof. split. reflexivity. Qed.
#[export] Instance default_fee_deploy : DefaultFee bDeployAccount.
Proof. split. reflexivity. Qed.

(** A successful [execute], taken apart. *)
Lemma execute_ok_inv {T : Type} `{!GetAccountTransactionContext T} `{!Execute St T}
    (t : T) bc cfg s info s' :
  execute (St := St) t bc cfg s = Ret (Ok info, s') ->
  exists actx s1 veci s2 res g,
    get_account_transaction_context t (offset_version cfg) = Ret actx
    /\ handle_nonce_and_check_fee_balance bc actx cfg s = Ret (Ok tt, s1)
    /\ execute_inner t bc actx (disable_validation cfg) (s1, resources_default, TX_INITIAL_AVAILABLE_GAS)
       = Ret (Ok veci, (s2, res, g))
    /\ handle_fee t (veci_execute_call_info veci) (veci_validate_call_info veci) res bc actx cfg s2
       = Ret (Ok (tei_actual_fee info, tei_fee_transfer_call_info info, tei_actual_resources info), s')
    /\ tei_execute_call_info info = veci_execute_call_info veci
    /\ tei_validate_call_info info = veci_validate_call_info veci
    /\ tei_revert_error info = veci_revert_error veci.
Proof.
  unfold execute. unfold ebind at 1. unfold elift.
  destruct (get_account_transaction_context t _) as [actx|]; [|done].
  unfold etry at 1. unfold ebind at 1.
  destruct (handle_nonce_and_check_fee_balance bc actx cfg s) as [[[[]|e] s1]|] eqn:Hn; [|done|done].
  destruct (execute_inner _ _ _ _ _) as [[[veci|e] [[s2 res] g]]|] eqn:Hi; [|done|done].
  unfold etry, ebind.
  destruct (handle_fee _ _ _ _ _ _ _ s2) as [[[[[fee fi] ar]|e] s3]|] eqn:Hf; [|done|done].
  unfold eret. intros [= <- <-]. exists actx, s1, veci, s2, res, g. by rewrite Hf.
Qed.

Lemma handle_nonce_inv (actx : AccountTransactionContext) (s s1 : St) (current : Nonce) r s2 :
  actx_version actx <> mk_new (stark_from_uint 0) ->
  get_nonce_at (actx_sender_address actx) s = Ret (Ok current, s1) ->
  handle_nonce actx s = Ret (r, s2) ->
  if bool_decide (current <> actx_nonce actx)
  then r = Err (InvalidNonce (actx_sender_address actx) current (actx_nonce actx)) /\ s2 = s1
  else r = Ok tt -> increment_nonce (actx_sender_address actx) s1 = Ret (Ok tt, s2).
Proof.
  intros Hver Hn. unfold handle_nonce. rewrite bool_decide_false by done.
  unfold etry, emap_err, ebind. rewrite Hn. unfold eret. cbn [map_err].
  destruct (bool_decide (current <> actx_nonce actx)); [by intros [= <- <-]|].
  destruct (increment_nonce _ s1) as [[[[]|e] s3]|]; cbn [map_err]; [by intros [= <- <-]| |done].
  by intros [= <- <-].
Qed.

(** A transaction that succeeds passed the nonce check, and everything after the
    increment starts from the incremented state. *)
Lemma execute_ok_nonce {T : Type} `{!GetAccountTransactionContext T} `{!Execute St T} `{!FramedExecute T}
    (t : T) bc cfg actx (s s1 : St) current info s' :
  disable_nonce_validation cfg = false ->
  get_account_transaction_context t (offset_version cfg) = Ret actx ->
  actx_version actx <> mk_new (stark_from_uint 0) ->
  get_nonce_at (actx_sender_address actx) s = Ret (Ok current, s1) ->
  execute t bc cfg s = Ret (Ok info, s') ->
  current = actx_nonce actx
  /\ exists s2, increment_nonce (actx_sender_address actx) s1 = Ret (Ok tt, s2) /\ reaches s2 s'.
Proof.
  intros Hv Hc Hver Hn He.
  apply execute_ok_inv in He as (actx' & sa & veci & sb & res & g & Hc' & Hh & Hi & Hf & _).
  assert (actx' = actx) as -> by congruence.
  unfold handle_nonce_and_check_fee_balance in Hh. rewrite Hv in Hh. cbn [negb] in Hh.
  unfold etry, ebind in Hh. destruct (handle_nonce actx s) as [[[[]|e] s2]|] eqn:Hhn; [|done|done].
  pose proof (handle_nonce_inv _ _ _ _ _ _ Hver Hn Hhn) as Hnonce. case_bool_decide; [by destruct Hnonce|].
  split; [by destruct (decide (current = actx_nonce actx))|].
  exists s2. split; [by apply Hnonce|].
  transitivity sa; [by eapply within_check_fee_balance|].
  transitivity sb; [exact (framed_inner _ _ _ _ _ _ _ Hi)|exact (framed_fee _ _ _ _ _ _ _ _ _ _ Hf)].
Qed.

(** The nonce gate.  With nonce validation on and a transaction version
    other than zero, a transaction whose nonce is not the sender's is refused
    with [InvalidNonce] carrying both nonces, before anything else happens to
    the state; and a transaction succeeds only when its nonce is the sender's,
    in which case the nonce is incremented before validation, execution and
    fee transfer, which then act on the incremented state. *)
Theorem execute_nonce_gate {T : Type} `{!GetAccountTransactionContext T} `{!Execute St T} `{!FramedExecute T}
    (t : T) (bc : BlockContext) (cfg : ExecutionConfig) (actx : AccountTransactionContext)
    (s s1 : St) (current : Nonce) :
  disable_nonce_validation cfg = false ->
  get_account_transaction_context t (offset_version cfg) = Ret actx ->
  actx_version actx <> mk_new (stark_from_uint 0) ->
  get_nonce_at (actx_sender_address actx) s = Ret (Ok current, s1) ->
  (current <> actx_nonce actx ->
   execute t bc cfg s = Ret (Err (InvalidNonce (actx_sender_address actx) current (actx_nonce actx)), s1))
  /\ (forall info s', execute t bc cfg s = Ret (Ok info, s') ->
      current = actx_nonce actx
      /\ exists s2, increment_nonce (actx_sender_address actx) s1 = Ret (Ok tt, s2) /\ reaches s2 s').
Proof.
  intros Hv Hc Hver Hn. split; [|intros info s'; by apply execute_ok_nonce].
  intros Hne. unfold execute. unfold ebind at 1. unfold elift. rewrite Hc.
  unfold handle_nonce_and_check_fee_balance. rewrite Hv. cbn [negb].
  unfold handle_nonce. rewrite bool_decide_false by done.
  unfold etry, emap_err, ebind. rewrite Hn. unfold eret. cbn [map_err]. by rewrite bool_decide_true.
Qed.

(** C35: fees of user transactions.  A user transaction that executes
    successfully, reverted or not, is charged by exactly one call, made on the
    state its execution left and as the last thing that happens to it: the
    transfer entry point of the fee token, called by the sender with the
    sequencer, the actual fee and zero as arguments.  That fee is the one
    computed from the resources used and is at most the maximal fee.  With fees
    disabled the fee is zero and nothing is transferred; in a query, or with
    charging disabled, the fee is computed and nothing is transferred.  An L1
    handler is never charged and succeeds only if some fee was paid on L1. *)
Theorem execute_fee_limit {T : Type} `{!GetAccountTransactionContext T} `{!Execute St T} `{!GetTxType T}
    `{!DefaultFee T} (t : T) (l : bL1Handler) (bc : BlockContext) (cfg : ExecutionConfig) (s s' : St)
    (info : TransactionExecutionInfo) :
  (execute t bc cfg s = Ret (Ok info, s') ->
   exists actx s1 veci s2 res g,
     get_account_transaction_context t (offset_version cfg) = Ret actx
     /\ handle_nonce_and_check_fee_balance bc actx cfg s = Ret (Ok tt, s1)
     /\ execute_inner t bc actx (disable_validation cfg) (s1, resources_default, TX_INITIAL_AVAILABLE_GAS)
        = Ret (Ok veci, (s2, res, g))
     /\ if disable_transaction_fee cfg then tei_actual_fee info = 0 /\ tei_fee_transfer_call_info info = None /\ s' = s2
        else calculate_tx_fee (tei_actual_resources info) bc = Ret (Ok (tei_actual_fee info))
             /\ if disable_fee_charge cfg || is_query cfg then tei_fee_transfer_call_info info = None /\ s' = s2
                else tei_actual_fee info <= actx_max_fee actx
                     /\ exists ci selector res' ctx',
                          tei_fee_transfer_call_info info = Some ci
                          /\ stark_new TRANSFER_SELECTOR_ARRAY = Some selector
                          /\ call_execute
                               {| cep_class_hash := None; cep_code_address := None;
                                  cep_entry_point_type := EPExternal;
                                  cep_entry_point_selector := mk_new selector;
                                  cep_calldata := [new0 (bctx_sequencer_address bc);
                                                   stark_from_uint (tei_actual_fee info); stark_from_uint 0];
                                  cep_storage_address := bctx_fee_token_address bc;
                                  cep_caller_address := actx_sender_address actx;
                                  cep_call_type := CTCall; cep_initial_gas := 2 ^ 64 - 1 |}
                               (s2, resources_default, context_new bc actx (bctx_invoke_tx_max_n_steps bc))
                             = Ret (Ok ci, (s', res', ctx')))
  /\ (execute l bc cfg s = Ret (Ok info, s') ->
      bl1_paid_fee_on_l1 l <> 0 /\ tei_actual_fee info = 0 /\ tei_fee_transfer_call_info info = None).
Proof.
  split; intros He; apply execute_ok_inv in He as (actx & s1 & veci & s2 & res & g & Hc & Hn & Hi & Hf & _).
  - exists actx, s1, veci, s2, res, g. do 3 (split; [done|]).
    rewrite default_fee in Hf. unfold default_handle_fee, etry, ebind in Hf.
    destruct (compute_transaction_resources _ _ _ _ _ s2) as [[[ar|e] sc]|] eqn:Hr; [|done|done].
    unfold compute_transaction_resources in Hr. injection Hr as _ <-.
    destruct (charge_fee _ _ _ _ _ _ s2) as [[[[fee fi]|e] sd]|] eqn:Hch; [|done|done].
    unfold eret in Hf. injection Hf as -> -> -> ->. by apply charge_fee_cases in Hch.
  - cbn [handle_fee l1_handler_execute] in Hf. unfold l1_handler_handle_fee, etry, ebind in Hf.
    destruct (compute_transaction_resources _ _ _ _ _ s2) as [[[ar|e] sc]|]; [|done|done].
    unfold elift in Hf. destruct (calculate_tx_fee ar bc) as [[fee|e]|]; [|done|done].
    destruct (bl1_paid_fee_on_l1 l =? 0) eqn:Hp; unfold eret in Hf; simplify_eq. zbool. done.
Qed.

(** A reverted invoke keeps the writes of the failed run: when the entry
    point of a version-1 invoke fails after validation, [execute_inner]
    reports a revert with the context's error trace and no call info, and the
    state it returns is the one the failed execution left behind, not the one
    it started from. *)
Theorem reverted_invoke_keeps_writes (t : bInvoke) (tx : stInvokeV1) (bc : BlockContext)
    (actx : AccountTransactionContext) (s : St) (res : ExecutionResources) (gas : Z) (v' : vm St)
    (e : TransactionExecutionError) :
  bi_tx t = StInvokeV1 tx ->
  run_execute (XInvoke t) (mk_vm s res gas (context_new bc actx (bctx_invoke_tx_max_n_steps bc))) = Ret (Err e, v') ->
  execute_inner t bc actx true (s, res, gas)
  = Ret (Ok {| veci_validate_call_info := None; veci_execute_call_info := None;
               veci_revert_error := Some (error_trace (vm_context v')) |},
         (vm_state v', vm_resources v', vm_gas v')).
Proof.
  intros Ht Hr. cbn [execute_inner invoke_execute]. unfold invoke_execute_inner, with_context. cbn [negb].
  unfold etry, ebind, eret at 1. rewrite Ht. unfold run_revertible. by rewrite Hr.
Qed.

End properties.

(** ** Witnesses *)
Module ExecutionWitness.
Import Deps.Reference ReferenceVm FeeReference.

(** A state of one storage cell. *)
#[export] Instance cell_state : State (option StarkFelt) := {|
  get_storage_at _ _ := eret (Ok stark_default);
  get_nonce_at _ := eret (Ok (mk_new stark_default));
  get_class_hash_at _ := eret (Ok (mk_new stark_default));
  get_compiled_contract_class c := eret (Err (UndeclaredClassHash c));
  get_compiled_class_hash c := eret (Err (UndeclaredClassHash c));
  set_storage_at _ _ v := eput (fun _ => Some v);
  increment_nonce _ := eret (Ok tt);
  set_class_hash_at _ _ := eret (Ok tt);
  set_contract_class _ _ := eret (Ok tt);
  set_compiled_class_hash _ _ := eret (Ok tt);
|}.
#[export] Instance cell_changes : StateChanges (option StarkFelt) := {| count_state_changes _ := mk_scc 0 0 0 0 |}.

Definition w_tx (nonce : Z) (cd : Calldata) : stInvokeV1 :=
  mk_sti1 100 [] (mk_new (stark_from_uint nonce)) (mk_new (stark_from_uint 9)) cd.
Definition w_invoke_tx (nonce : Z) (cd : Calldata) : bInvoke := mk_bi (StInvokeV1 (w_tx nonce cd)) (mk_new stark_default).
Definition w_config : ExecutionConfig := mk_xcfg false false false false false false.
Definition w_context (nonce : Z) : AccountTransactionContext :=
  mk_actx (mk_new stark_default) 100 (mk_new (stark_from_uint 1)) [] (mk_new (stark_from_uint nonce))
    (mk_new (stark_from_uint 9)).

Lemma execute_nonce_gate_witness :
  execute (w_invoke_tx 5 []) w_block_context w_config (None : option StarkFelt)
  = Ret (Err (InvalidNonce (mk_new (stark_from_uint 9)) (mk_new stark_default) (mk_new (stark_from_uint 5))), None).
Proof.
  apply (execute_nonce_gate (w_invoke_tx 5 []) w_block_context w_config (w_context 5) None None (mk_new stark_default));
    try reflexivity; intros H; vm_compute in H; discriminate H.
Defined.

Lemma execute_fee_limit_witness :
  exists info, execute (w_invoke_tx 0 [stark_default]) w_block_context w_config (None : option StarkFelt)
               = Ret (Ok info, Some (stark_from_uint 7)) /\ tei_actual_fee info <= 100.
Proof.
  assert (He : exists info, execute (w_invoke_tx 0 [stark_default]) w_block_context w_config (None : option StarkFelt)
               = Ret (Ok info, Some (stark_from_uint 7))) by (eexists; vm_compute; reflexivity).
  destruct He as [info He]. exists info. split; [exact He|].
  destruct (execute_fee_limit (w_invoke_tx 0 [stark_default])
              (mk_bl1 (mk_stl1 (mk_new stark_default) (mk_new stark_default) (mk_new stark_default)
                         (mk_new stark_default) []) 0 (mk_new stark_default))
              w_block_context w_config None (Some (stark_from_uint 7)) info) as [H _].
  destruct (H He) as (actx & s1 & veci & s2 & res & g & Hc & _ & _ & _ & Hle & _). injection Hc as <-. exact Hle.
Defined.

Lemma reverted_invoke_keeps_writes_witness :
  execute_inner (w_invoke_tx 0 []) w_block_context (w_context 0) true (None : option StarkFelt, resources_default, 0)
  = Ret (Ok {| veci_validate_call_info := None; veci_execute_call_info := None;
               veci_revert_error := Some "entry point failed"%string |},
         (Some (stark_from_uint 7), resources_default, 0)).
Proof.
  exact (reverted_invoke_keeps_writes (w_invoke_tx 0 []) (w_tx 0 []) w_block_context (w_context 0)
           (None : option StarkFelt) resources_default 0
           (mk_vm (Some (stark_from_uint 7)) resources_default 0
              (context_new w_block_context (w_context 0) 1000000)) (OtherExecutionError 0) eq_refl eq_refl).
Defined.

End ExecutionWitness.
