(* ===== verification/Parametric.v ===== *)
(** * Representation independence of execution

    The execution code is generic in the state it runs on: all it knows of the
    state are the methods of the [State] trait.  Hence two states whose methods
    behave alike cannot be told apart by an execution.  This file has the
    relation [agree] with its rules, the law that says this of the third-party
    machine, and the theorem that it holds of [execute]. *)
From S2P Require Import Prelude Bytes Deps Felt Hashers Transactions Blockifier Fee Execution.
Local Open Scope Z_scope.

(** ** Computations that agree

    Run on related states, both panic, or both return the same value and related
    states. *)
Definition rel_outcome {S1 S2 A} (R : S1 -> S2 -> Prop) (m1 : outcome (A * S1)) (m2 : outcome (A * S2)) : Prop :=
  match m1, m2 with
  | Ret (a1, s1), Ret (a2, s2) => a1 = a2 /\ R s1 s2
  | Panic, Panic => True
  | _, _ => False
  end.
Definition agree {S1 S2 A} (R : S1 -> S2 -> Prop) (m1 : eff S1 A) (m2 : eff S2 A) : Prop :=
  forall s1 s2, R s1 s2 -> rel_outcome R (m1 s1) (m2 s2).

Create HintDb agree.

Section agree.
  Context {S1 S2 : Type} (R : S1 -> S2 -> Prop).

Lemma agree_ret {A} (a : A) : agree R (eret a) (eret a).
Proof. by intros s1 s2. Qed.

Lemma agree_lift {A} (m : outcome A) : agree R (elift m) (elift m).
Proof. intros s1 s2 Hs. unfold elift. by destruct m. Qed.

Lemma agree_bind {A B} (m1 : eff S1 A) (m2 : eff S2 A) (f1 : A -> eff S1 B) (f2 : A -> eff S2 B) :
  agree R m1 m2 -> (forall a, agree R (f1 a) (f2 a)) -> agree R (ebind m1 f1) (ebind m2 f2).
Proof.
  intros Hm Hf s1 s2 Hs. specialize (Hm s1 s2 Hs). unfold ebind.
  destruct (m1 s1) as [[a1 t1]|], (m2 s2) as [[a2 t2]|]; try done. destruct Hm as [-> Ht]. by apply Hf.
Qed.

Lemma agree_try {E A B} (m1 : effr S1 E A) (m2 : effr S2 E A) (f1 : A -> effr S1 E B) (f2 : A -> effr S2 E B) :
  agree R m1 m2 -> (forall a, agree R (f1 a) (f2 a)) -> agree R (etry m1 f1) (etry m2 f2).
Proof. intros Hm Hf. apply agree_bind; [done|]. intros [a|e]; [apply Hf|apply agree_ret]. Qed.

Lemma agree_map_err {E F A} (g : E -> F) (m1 : effr S1 E A) (m2 : effr S2 E A) :
  agree R m1 m2 -> agree R (emap_err g m1) (emap_err g m2).
Proof. intros Hm. apply agree_bind; [done|]. intros. apply agree_ret. Qed.

Lemma agree_if {A} (b : bool) (m1 n1 : eff S1 A) (m2 n2 : eff S2 A) :
  agree R m1 m2 -> agree R n1 n2 -> agree R (if b then m1 else n1) (if b then m2 else n2).
Proof. by destruct b. Qed.

Lemma agree_get {A} (f1 : S1 -> A) (f2 : S2 -> A) :
  (forall s1 s2, R s1 s2 -> f1 s1 = f2 s2) -> agree R (eget f1) (eget f2).
Proof. intros Hf s1 s2 Hs. by split; [apply Hf|]. Qed.

Lemma agree_put (f1 : S1 -> S1) (f2 : S2 -> S2) :
  (forall s1 s2, R s1 s2 -> R (f1 s1) (f2 s2)) -> agree R (eput f1) (eput f2).
Proof. intros Hf s1 s2 Hs. by split; [|apply Hf]. Qed.

(** Running related computations on related states. *)
Lemma agree_run {A} (m1 : eff S1 A) (m2 : eff S2 A) s1 s2 a t1 :
  agree R m1 m2 -> R s1 s2 -> m1 s1 = Ret (a, t1) -> exists t2, m2 s2 = Ret (a, t2) /\ R t1 t2.
Proof.
  intros Hm Hs H1. specialize (Hm s1 s2 Hs). rewrite H1 in Hm. destruct (m2 s2) as [[a2 t2]|]; [|done].
  destruct Hm as [-> Ht]. eauto.
Qed.

End agree.

#[export] Hint Resolve agree_ret agree_lift agree_bind agree_try agree_map_err agree_if agree_put : agree.

(** ** States that behave alike *)
Record state_agree `{CC : ContractClassI} {S1 S2 : Type} {ST1 : State S1} {ST2 : State S2} (R : S1 -> S2 -> Prop) : Prop := {
  sa_get_storage_at : forall a k, agree R (get_storage_at a k) (get_storage_at a k);
  sa_get_nonce_at : forall a, agree R (get_nonce_at a) (get_nonce_at a);
  sa_get_class_hash_at : forall a, agree R (get_class_hash_at a) (get_class_hash_at a);
  sa_get_compiled_contract_class : forall c, agree R (get_compiled_contract_class c) (get_compiled_contract_class c);
  sa_get_compiled_class_hash : forall c, agree R (get_compiled_class_hash c) (get_compiled_class_hash c);
  sa_set_storage_at : forall a k v, agree R (set_storage_at a k v) (set_storage_at a k v);
  sa_increment_nonce : forall a, agree R (increment_nonce a) (increment_nonce a);
  sa_set_class_hash_at : forall a c, agree R (set_class_hash_at a c) (set_class_hash_at a c);
  sa_set_contract_class : forall c cc, agree R (set_contract_class c cc) (set_contract_class c cc);
  sa_set_compiled_class_hash : forall c k, agree R (set_compiled_class_hash c k) (set_compiled_class_hash c k);
}.

(** The relation lifted to the larger states of the machine. *)
Definition vm_rel `{BlockifierTypes} {S1 S2} (R : S1 -> S2 -> Prop) (v1 : vm S1) (v2 : vm S2) : Prop :=
  R (vm_state v1) (vm_state v2) /\ vm_resources v1 = vm_resources v2 /\ vm_gas v1 = vm_gas v2
  /\ vm_context v1 = vm_context v2.
Definition triple_rel {S1 S2 A B} (R : S1 -> S2 -> Prop) (x1 : S1 * A * B) (x2 : S2 * A * B) : Prop :=
  R (fst (fst x1)) (fst (fst x2)) /\ snd (fst x1) = snd (fst x2) /\ snd x1 = snd x2.

(** The machine is a generic function over [S: State], so it treats states that
    behave alike in the same way. *)
Class BlockifierParametric `{BL : Blockifier} : Prop := {
  run_execute_parametric : forall (S1 S2 : Type) {ST1 : State S1} {ST2 : State S2} (R : S1 -> S2 -> Prop),
    state_agree R -> forall x, agree (vm_rel R) (run_execute x) (run_execute x);
  call_execute_parametric : forall (S1 S2 : Type) {ST1 : State S1} {ST2 : State S2} (R : S1 -> S2 -> Prop),
    state_agree R -> forall c, agree (triple_rel R) (call_execute c) (call_execute c);
  get_fee_token_balance_parametric : forall (S1 S2 : Type) {ST1 : State S1} {ST2 : State S2} (R : S1 -> S2 -> Prop),
    state_agree R -> forall b a, agree R (get_fee_token_balance b a) (get_fee_token_balance b a);
}.

(** ** Execution on states that behave alike *)
Section execution.
  Context `{SF : StarknetFf} `{SA : StarknetApi} `{FX : FixedPoint} `{BL : Blockifier} {BP : BlockifierParametric}.
  Context {S1 S2 : Type} {ST1 : State S1} {ST2 : State S2} {SC1 : StateChanges S1} {SC2 : StateChanges S2}.
  Context (R : S1 -> S2 -> Prop) (HR : state_agree R).
  Context (HC : forall s1 s2, R s1 s2 -> count_state_changes s1 = count_state_changes s2).

Lemma agree_compute_resources e v r t p :
  agree R (compute_transaction_resources e v r t p) (compute_transaction_resources e v r t p).
Proof. intros s1 s2 Hs. unfold compute_transaction_resources. rewrite (HC _ _ Hs). done. Qed.

Lemma agree_execute_fee_transfer bc actx fee :
  agree R (execute_fee_transfer bc actx fee) (execute_fee_transfer bc actx fee).
Proof.
  unfold execute_fee_transfer. apply agree_if; [apply agree_ret|]. apply agree_bind; [apply agree_lift|].
  intros sel s1 s2 Hs. set (ctx := context_new _ _ _). set (c := fee_transfer_call _ _ _ _).
  pose proof (call_execute_parametric _ _ R HR c (s1, resources_default, ctx) (s2, resources_default, ctx)
                (conj Hs (conj eq_refl eq_refl))) as H.
  destruct (call_execute c (s1, _, _)) as [[r1 [[t1 x1] y1]]|], (call_execute c (s2, _, _)) as [[r2 [[t2 x2] y2]]|];
    try done. by destruct H as [-> [H _]].
Qed.

#[local] Hint Resolve agree_compute_resources agree_execute_fee_transfer : agree.

Lemma agree_charge_fee bc actx res a b c : agree R (charge_fee bc actx res a b c) (charge_fee bc actx res a b c).
Proof. unfold charge_fee. auto 10 with agree. Qed.

Lemma agree_handle_nonce actx : agree R (handle_nonce actx) (handle_nonce actx).
Proof.
  unfold handle_nonce. apply agree_if; [apply agree_ret|].
  apply agree_try; [apply agree_map_err, (sa_get_nonce_at _ HR)|]. intros n.
  apply agree_if; [apply agree_ret|]. apply agree_try; [apply agree_map_err, (sa_increment_nonce _ HR)|].
  intros. apply agree_ret.
Qed.

Lemma agree_check_fee_balance bc actx cfg : agree R (check_fee_balance bc actx cfg) (check_fee_balance bc actx cfg).
Proof.
  unfold check_fee_balance. apply agree_if; [|apply agree_ret].
  apply agree_try; [by apply agree_map_err, get_fee_token_balance_parametric|]. intros [lo hi].
  apply agree_if; apply agree_ret.
Qed.

#[local] Hint Resolve agree_charge_fee agree_handle_nonce agree_check_fee_balance : agree.

Lemma agree_nonce_and_balance bc actx cfg :
  agree R (handle_nonce_and_check_fee_balance bc actx cfg) (handle_nonce_and_check_fee_balance bc actx cfg).
Proof. unfold handle_nonce_and_check_fee_balance. auto with agree. Qed.

Lemma agree_default_handle_fee (T : Type) `{!GetTxType T} e v r b a c :
  agree R (default_handle_fee T e v r b a c) (default_handle_fee T e v r b a c).
Proof.
  unfold default_handle_fee. apply agree_try; [apply agree_compute_resources|]. intros res.
  apply agree_try; [apply agree_charge_fee|]. intros [fee info]. apply agree_ret.
Qed.

Lemma agree_l1_handle_fee t e v r b : agree R (l1_handler_handle_fee t e v r b) (l1_handler_handle_fee t e v r b).
Proof. unfold l1_handler_handle_fee. auto 10 with agree. Qed.

Lemma agree_run_execute x : agree (vm_rel R) (run_execute x) (run_execute x).
Proof. by apply run_execute_parametric. Qed.

Lemma agree_validate_tx_inner (T : Type) {VT : Validate T} cd :
  agree (vm_rel R) (validate_tx_inner T cd) (validate_tx_inner T cd).
Proof.
  intros [s1 x g y] [s2 x2 g2 y2] (Hs & Hx & Hg & Hy). simpl in *. subst. unfold validate_tx_inner. simpl.
  destruct (is_v0 _); [done|]. set (c := validate_call _ _ _ _).
  pose proof (call_execute_parametric _ _ R HR c (s1, x2, y2) (s2, x2, y2) (conj Hs (conj eq_refl eq_refl))) as H.
  destruct (call_execute c (s1, _, _)) as [[r1 [[t1 a1] b1]]|], (call_execute c (s2, _, _)) as [[r2 [[t2 a2] b2]]|];
    try done. destruct H as [-> (H & Ha & Hb)]. simpl in *. subst.
  destruct r2 as [info|e]; [|done]. by destruct (verify_no_calls_to_other_contracts _ _).
Qed.

Lemma agree_run_revertible x i : agree (vm_rel R) (run_revertible x i) (run_revertible x i).
Proof.
  intros v1 v2 Hv. pose proof (agree_run_execute x v1 v2 Hv) as H. unfold run_revertible.
  destruct (run_execute x v1) as [[r1 w1]|], (run_execute x v2) as [[r2 w2]|]; try done.
  destruct H as [-> Hw]. destruct r2; [done|]. split; [by destruct Hw as (_ & _ & _ & ->)|done].
Qed.

#[local] Hint Resolve agree_default_handle_fee agree_l1_handle_fee agree_run_execute agree_validate_tx_inner
  agree_run_revertible : agree.

Lemma agree_run_or_fail x i : agree (vm_rel R) (run_or_fail x i) (run_or_fail x i).
Proof. unfold run_or_fail. auto with agree. Qed.

#[local] Hint Resolve agree_run_or_fail : agree.

Lemma agree_with_context {A} bc actx (m1 : effr (vm S1) TransactionExecutionError A) (m2 : effr (vm S2) TransactionExecutionError A) :
  agree (vm_rel R) m1 m2 -> agree (triple_rel R) (with_context bc actx m1) (with_context bc actx m2).
Proof.
  intros Hm [[s1 r] g] [[s2 r2] g2] (Hs & Hr & Hg). simpl in *. subst. unfold with_context.
  set (ctx := context_new _ _ _).
  specialize (Hm (mk_vm s1 r2 g2 ctx) (mk_vm s2 r2 g2 ctx) (conj Hs (conj eq_refl (conj eq_refl eq_refl)))).
  destruct (m1 _) as [[a1 v1]|], (m2 _) as [[a2 v2]|]; try done. by destruct Hm as [-> (? & ? & ? & ?)].
Qed.

(** What a transaction kind owes for [execute] to be representation
    independent. *)
Class AgreeExecute (T : Type) {E1 : Execute S1 T} {E2 : Execute S2 T} : Prop := {
  agree_inner : forall (t : T) bc actx dv,
    agree (triple_rel R) (execute_inner (St := S1) t bc actx dv) (execute_inner (St := S2) t bc actx dv);
  agree_fee : forall (t : T) e v r b a c,
    agree R (handle_fee (St := S1) t e v r b a c) (handle_fee (St := S2) t e v r b a c);
}.
#[export] Instance agree_invoke : AgreeExecute bInvoke.
Proof.
  split; intros; [|apply agree_default_handle_fee]. apply agree_with_context, agree_try; [auto with agree|].
  intros i. destruct (bi_tx t); auto with agree.
Qed.
#[export] Instance agree_declare : AgreeExecute bDeclare.
Proof.
  split; intros; [|apply agree_default_handle_fee]. apply agree_with_context, agree_try; [auto with agree|].
  intros i. destruct (bd_tx t); auto with agree.
Qed.
#[export] Instance agree_deploy_account : AgreeExecute bDeployAccount.
Proof. split; intros; [|apply agree_default_handle_fee]. apply agree_with_context. auto 10 with agree. Qed.
#[export] Instance agree_l1_handler : AgreeExecute bL1Handler.
Proof. split; intros; [|apply agree_l1_handle_fee]. apply agree_with_context. auto with agree. Qed.

Lemma agree_execute {T : Type} `{!GetAccountTransactionContext T} {E1 : Execute S1 T} {E2 : Execute S2 T}
    {AE : AgreeExecute T} (t : T) bc cfg : agree R (execute (St := S1) t bc cfg) (execute (St := S2) t bc cfg).
Proof.
  unfold execute. apply agree_bind; [apply agree_lift|]. intros actx.
  apply agree_try; [apply agree_nonce_and_balance|]. intros _ s1 s2 Hs.
  set (x := resources_default). set (g := TX_INITIAL_AVAILABLE_GAS). set (dv := disable_validation cfg).
  pose proof (agree_inner t bc actx dv (s1, x, g) (s2, x, g) (conj Hs (conj eq_refl eq_refl))) as H.
  destruct (execute_inner t bc actx dv (s1, x, g)) as [[r1 [[t1 x1] g1]]|],
    (execute_inner t bc actx dv (s2, x, g)) as [[r2 [[t2 x2] g2]]|];
    try done. destruct H as [-> (H & Hx & Hg)]. simpl in *. subst.
  destruct r2 as [info|e]; [|done]. revert t1 t2 H.
  apply (agree_try R); [apply agree_fee|]. intros [[fee fi] res]. apply agree_ret.
Qed.

End execution.

(** The reference machine is parametric. *)
#[export] Instance reference_parametric : BlockifierParametric (BL := ReferenceVm.blockifier).
Proof.
  constructor.
  - intros S1 S2 ST1 ST2 R HR x. destruct x as [t|t|t|t]; try apply agree_ret.
    apply agree_bind; [|intros; apply agree_ret]. intros v1 v2 (Hs & Hv). unfold on_state.
    pose proof (sa_set_storage_at _ HR (ReferenceVm.invoke_sender (bi_tx t)) (mk_new stark_default)
                  (stark_from_uint (StarknetApi := Deps.Reference.api) 7) _ _ Hs) as H.
    destruct (set_storage_at _ _ _ (vm_state v1)) as [[[] w1]|], (set_storage_at _ _ _ (vm_state v2)) as [[[] w2]|];
      try done. by destruct H as [_ H].
  - intros. apply agree_ret.
  - intros. apply agree_ret.
Qed.
