(* ===== verification/Block.v ===== *)
(** * [mp-block] and [mp-digest-log]

    Models [crates/primitives/block/src] (header, its hash, blocks) and
    [crates/primitives/digest-log/src/lib.rs] (finding the Starknet block in the
    digest of the wrapping Substrate block). *)
From S2P Require Import Prelude Bytes Deps Felt Hashers Transactions ComputeHash Blockifier Fee.
Local Open Scope Z_scope.

(** ** Header *)
Record Header := mk_header {
  h_parent_block_hash : StarkFelt;
  h_block_number : Z;
  h_sequencer_address : ContractAddress;
  h_block_timestamp : Z;
  h_transaction_count : Z;
  h_event_count : Z;
  h_protocol_version : Z;
  h_l1_gas_price : ResourcePrice;
  h_extra_data : option U256;
}.

#[export] Instance Header_eq_dec : EqDecision Header.
Proof. solve_decision. Defined.

(** [Header::default()]. *)
Definition header_default : Header :=
  mk_header stark_default 0 (mk_new stark_default) 0 0 0 0 (mk_rp None 0) None.

Definition into_block_context (h : Header) (fee_token_address : ContractAddress) (chain_id : list byte)
  : BlockContext := {|
  bctx_chain_id := chain_id;
  bctx_block_number := h_block_number h;
  bctx_block_timestamp := h_block_timestamp h;
  bctx_sequencer_address := h_sequencer_address h;
  bctx_vm_resource_fee_cost := ∅;
  bctx_fee_token_address := fee_token_address;
  bctx_invoke_tx_max_n_steps := 1000000;
  bctx_validate_max_n_steps := 1000000;
  bctx_gas_price := 10;
  bctx_max_recursion_depth := 50;
|}.

Section hash.
  Context `{SF : StarknetFf} `{SA : StarknetApi} `{PT : PrimitiveTypes} {H : HasherT}.

(** The data that [Header::hash] hashes; converting the [StarkFelt] fields and
    the counters may panic. *)
Definition header_data (h : Header) : outcome (list Felt252Wrapper) :=
  let! sequencer := felt_from_stark (new0 (h_sequencer_address h)) in
  let! transaction_count := felt_from_u128 (h_transaction_count h) in
  let! event_count := felt_from_u128 (h_event_count h) in
  let! parent := felt_from_stark (h_parent_block_hash h) in
  Ret [felt_from_u64 (h_block_number h); sequencer; felt_from_u64 (h_block_timestamp h);
       transaction_count; event_count; felt_from_u64 (h_protocol_version h); ZERO; parent].

Definition header_hash (h : Header) : outcome Felt252Wrapper :=
  let! data := header_data h in Ret (compute_hash_on_wrappers data).

End hash.

(** ** Block *)
Record Block := mk_block { b_header : Header; b_transactions : list Transaction }.

#[export] Instance Block_eq_dec : EqDecision Block.
Proof. solve_decision. Defined.

Definition block_default : Block := mk_block header_default [].

Definition transactions_hashes `{StarknetFf} `{StarknetCrypto} `{HasherT} (b : Block) (chain_id : Felt252Wrapper)
  : list Felt252Wrapper :=
  map (fun tx => tx_compute_hash tx chain_id false) (b_transactions b).

(** [BlockTag] and [BlockId]. *)
Inductive BlockTag := Latest | PendingTag.
Inductive BlockId := BIHash (h : Felt252Wrapper) | BINumber (n : Z) | BITag (t : BlockTag).

(** ** Digest *)

(** [sp_runtime::generic::DigestItem]. *)
Inductive DigestItem :=
| DIOther (data : list byte)
| DIConsensus (engine : list byte) (data : list byte)
| DISeal (engine : list byte) (data : list byte)
| DIPreRuntime (engine : list byte) (data : list byte)
| DIRuntimeEnvironmentUpdated.

Definition MADARA_ENGINE_ID : list byte := bytes_of "mada".

Inductive Log := LogBlock (b : Block).
Inductive FindLogError := NotLog | MultipleLogs.

#[export] Instance Log_eq_dec : EqDecision Log.
Proof. solve_decision. Defined.

(** The derived SCALE codec of [Log]. *)
Class LogCodec := {
  log_encode : Log -> list byte;
  log_decode : list byte -> option Log;
}.
Class LogCodecLaws `{LC : LogCodec} : Prop := {
  log_decode_encode : forall l, log_decode (log_encode l) = Some l;
}.

Section digest.
  Context `{LC : LogCodec}.

(** [DigestItem::try_to] at the consensus identifier of Madara. *)
Definition try_to_log (item : DigestItem) : option Log :=
  match item with
  | DIConsensus engine data => if bool_decide (engine = MADARA_ENGINE_ID) then log_decode data else None
  | _ => None
  end.

(** The loop of [_find_log]. *)
Fixpoint find_log_loop (found : option Log) (logs : list DigestItem) : result FindLogError Log :=
  match logs with
  | [] => ok_or found NotLog
  | log :: logs' =>
      match try_to_log log, found with
      | Some _, Some _ => Err MultipleLogs
      | Some l, None => find_log_loop (Some l) logs'
      | None, _ => find_log_loop found logs'
      end
  end.

Definition find_log (digest : list DigestItem) : result FindLogError Log := find_log_loop None digest.

Definition find_starknet_block (digest : list DigestItem) : result FindLogError Block :=
  result_map (fun log => match log with LogBlock b => b end) (find_log digest).

Definition ensure_log (digest : list DigestItem) : result FindLogError unit :=
  result_map (fun _ => tt) (find_log digest).

(** The item that carries a block. *)
Definition block_digest (b : Block) : DigestItem := DIConsensus MADARA_ENGINE_ID (log_encode (LogBlock b)).

End digest.

(** ** Properties *)
Definition stark_canonical (s : StarkFelt) : Prop := stark_val s < P.

(** A header whose integers fit their types and whose felts are canonical. *)
Record header_wf (h : Header) : Prop := mk_header_wf {
  hwf_parent : stark_canonical (h_parent_block_hash h);
  hwf_sequencer : stark_canonical (new0 (h_sequencer_address h));
  hwf_number : in_width 64 (h_block_number h) = true;
  hwf_timestamp : in_width 64 (h_block_timestamp h) = true;
  hwf_txs : in_width 128 (h_transaction_count h) = true;
  hwf_events : in_width 128 (h_event_count h) = true;
  hwf_protocol : in_width 8 (h_protocol_version h) = true;
}.

(** The part of a header that its hash covers. *)
Definition header_payload (h : Header) : Z * ContractAddress * Z * Z * Z * Z * StarkFelt :=
  (h_block_number h, h_sequencer_address h, h_block_timestamp h, h_transaction_count h, h_event_count h,
   h_protocol_version h, h_parent_block_hash h).

Section header_lemmas.
  Context `{SF : StarknetFf} {SFL : StarknetFfLaws} `{SA : StarknetApi} {SAL : StarknetApiLaws}.
  Context `{PT : PrimitiveTypes} {PTL : PrimitiveTypesLaws} {H : HasherT}.

Lemma felt_from_stark_ret s : stark_canonical s -> exists f, felt_from_stark s = Ret f /\ felt_val f = stark_val s.
Proof.
  intros Hs. unfold felt_from_stark. destruct (felt_try_from_slice (arr (stark_bytes s))) as [f|e] eqn:Hf.
  - exists f. split; [done|]. apply felt_try_from_slice_ok in Hf as [_ Hv]. by symmetry.
  - apply felt_try_from_slice_err in Hf. rewrite arr_length in Hf. unfold stark_canonical, stark_val in Hs.
    destruct Hf as [[? _]|(_ & ? & _)]; lia.
Qed.

Lemma to_stark_canonical f : stark_canonical (to_stark f).
Proof. unfold stark_canonical, stark_val, to_stark. simpl. rewrite felt_to_array_val. apply felt_range. Qed.

Lemma stark_default_canonical : stark_canonical stark_default.
Proof. unfold stark_canonical. vm_compute. reflexivity. Qed.

(** The data of a well-formed header, by value. *)
Lemma header_data_ret h : header_wf h ->
  exists data, header_data h = Ret data
  /\ map felt_val data = [h_block_number h; stark_val (new0 (h_sequencer_address h)); h_block_timestamp h;
                          h_transaction_count h; h_event_count h; h_protocol_version h; 0;
                          stark_val (h_parent_block_hash h)].
Proof.
  intros [Hp Hs Hn Ht Hx He Hv]. apply in_width_spec in Hn, Ht, Hx, He, Hv.
  destruct (felt_from_stark_ret _ Hp) as (fp & Ep & Vp). destruct (felt_from_stark_ret _ Hs) as (fs & Es & Vs).
  destruct (felt_from_u128_ret _ Hx) as (fx & Ex & Vx). destruct (felt_from_u128_ret _ He) as (fe & Ee & Ve).
  eexists. split; [unfold header_data; by rewrite Es, Ex, Ee, Ep|].
  assert (2 ^ 8 < 2 ^ 64) by reflexivity.
  cbn [map]. rewrite Vp, Vs, Vx, Ve, !felt_from_u64_val by lia. reflexivity.
Qed.

Lemma felt_vals_inj l1 l2 : map felt_val l1 = map felt_val l2 -> l1 = l2.
Proof.
  revert l2. induction l1 as [|x l1 IH]; intros [|y l2]; simpl; try done.
  intros [= Hx Hl]. f_equal; [by apply felt_eq|auto].
Qed.

Lemma header_hash_ret h : header_wf h -> exists f, header_hash h = Ret f.
Proof.
  intros Hw. destruct (header_data_ret h Hw) as (d & Hd & _). unfold header_hash. rewrite Hd. by eexists.
Qed.

(** C36: the block hash.  On well-formed headers the hash is computed without
    panic; it does not depend on the gas price nor on the extra data; and two
    headers with the same hash agree on number, sequencer, timestamp,
    transaction and event counts, protocol version and parent hash, unless
    their element lists are a collision of the hash function. *)
Theorem header_hash_commits (h1 h2 : Header) :
  header_wf h1 -> header_wf h2 ->
  exists d1 d2,
    header_data h1 = Ret d1 /\ header_data h2 = Ret d2
    /\ header_hash h1 = Ret (compute_hash_on_wrappers d1)
    /\ header_hash h2 = Ret (compute_hash_on_wrappers d2)
    /\ (header_payload h1 = header_payload h2 -> header_hash h1 = header_hash h2)
    /\ (header_hash h1 = header_hash h2 ->
        header_payload h1 = header_payload h2
        \/ (d1 <> d2 /\ compute_hash_on_wrappers d1 = compute_hash_on_wrappers d2)).
Proof.
  intros W1 W2. destruct (header_data_ret h1 W1) as (d1 & D1 & V1).
  destruct (header_data_ret h2 W2) as (d2 & D2 & V2). exists d1, d2.
  unfold header_hash. rewrite D1, D2. split_and!; try done.
  - intros Hp. unfold header_payload in Hp.
    injection Hp as E1 E2 E3 E4 E5 E6 E7. rewrite E1, E2, E3, E4, E5, E6, E7, <- V2 in V1.
    apply felt_vals_inj in V1. by subst.
  - intros [= Hh]. destruct (decide (d1 = d2)) as [->|Hne]; [left|right; by split].
    rewrite V1 in V2. injection V2 as E1 E2 E3 E4 E5 E6 E7. unfold header_payload.
    apply stark_val_inj in E2, E7. destruct (h_sequencer_address h1), (h_sequencer_address h2).
    simpl in E2. congruence.
Qed.

End header_lemmas.

Section digest_lemmas.
  Context `{LC : LogCodec} {LCL : LogCodecLaws}.

Lemma find_log_loop_spec found logs :
  find_log_loop found logs =
  match found, omap try_to_log logs with
  | None, [] => Err NotLog
  | None, [l] => Ok l
  | Some l, [] => Ok l
  | _, _ => Err MultipleLogs
  end.
Proof.
  revert found. induction logs as [|x logs IH]; intros found; cbn [find_log_loop omap list_omap];
    [by destruct found|].
  destruct (try_to_log x) as [l|] eqn:Hx.
  - destruct found as [l'|]; [done|]. rewrite IH. by destruct (omap try_to_log logs).
  - apply IH.
Qed.

Lemma find_log_spec logs :
  find_log logs = match omap try_to_log logs with [] => Err NotLog | [l] => Ok l | _ => Err MultipleLogs end.
Proof. unfold find_log. rewrite find_log_loop_spec. by destruct (omap try_to_log logs) as [|? []]. Qed.

Lemma try_to_log_block b : try_to_log (block_digest b) = Some (LogBlock b).
Proof. unfold try_to_log, block_digest. by rewrite bool_decide_true, log_decode_encode. Qed.

(** Reading the Starknet block back from a digest.  A block deposited in a
    digest whose other items are not Madara logs is found again, wherever it
    stands; with no Madara log the answer is [NotLog], with two or more it is
    [MultipleLogs], and [ensure_log] succeeds exactly when there is one. *)
Theorem digest_block_roundtrip (pre post : list DigestItem) (b : Block) (logs : list DigestItem) :
  (omap try_to_log pre = [] -> omap try_to_log post = [] ->
   find_starknet_block (pre ++ block_digest b :: post) = Ok b)
  /\ (find_log logs = Err NotLog <-> omap try_to_log logs = [])
  /\ (find_log logs = Err MultipleLogs <-> (2 <= length (omap try_to_log logs))%nat)
  /\ (ensure_log logs = Ok tt <-> exists l, omap try_to_log logs = [l]).
Proof.
  split_and!.
  - intros H1 H2. unfold find_starknet_block. rewrite find_log_spec, omap_app, H1.
    cbn [omap list_omap app]. rewrite try_to_log_block. cbn in H2 |- *. by rewrite H2.
  - rewrite find_log_spec. destruct (omap try_to_log logs) as [|? []]; done.
  - rewrite find_log_spec. destruct (omap try_to_log logs) as [|? []]; simpl; split; (done || lia).
  - unfold ensure_log. rewrite find_log_spec.
    destruct (omap try_to_log logs) as [|l []]; simpl; split; try done; [by intros []|eauto|by intros []].
Qed.

End digest_lemmas.

(** ** Witnesses

    A codec for [Log] that meets the law: blocks are countable, and a code is
    written one bit per byte. *)
Module BlockWitness.
Import Deps.Reference.

Definition iv0_tuple (t : InvokeTransactionV0) :=
  (iv0_max_fee t, iv0_signature t, iv0_contract_address t, iv0_entry_point_selector t, iv0_calldata t).
Definition iv1_tuple (t : InvokeTransactionV1) :=
  (iv1_max_fee t, iv1_signature t, iv1_nonce t, iv1_sender_address t, iv1_calldata t, iv1_offset_version t).
Definition dv0_tuple (t : DeclareTransactionV0) :=
  (dv0_max_fee t, dv0_signature t, dv0_nonce t, dv0_class_hash t, dv0_sender_address t).
Definition dv1_tuple (t : DeclareTransactionV1) :=
  (dv1_max_fee t, dv1_signature t, dv1_nonce t, dv1_class_hash t, dv1_sender_address t, dv1_offset_version t).
Definition dv2_tuple (t : DeclareTransactionV2) :=
  (dv2_max_fee t, dv2_signature t, dv2_nonce t, dv2_class_hash t, dv2_sender_address t,
   dv2_compiled_class_hash t, dv2_offset_version t).
Definition da_tuple (t : DeployAccountTransaction) :=
  (da_max_fee t, da_signature t, da_nonce t, da_contract_address_salt t, da_constructor_calldata t,
   da_class_hash t, da_offset_version t).
Definition l1_tuple (t : HandleL1MessageTransaction) :=
  (l1_nonce t, l1_contract_address t, l1_entry_point_selector t, l1_calldata t).

Definition tx_sum (t : Transaction) :=
  match t with
  | TInvoke (InvokeV0 t) => inl (inl (iv0_tuple t))
  | TInvoke (InvokeV1 t) => inl (inr (iv1_tuple t))
  | TDeclare (DeclareV0 t) => inr (inl (inl (dv0_tuple t)))
  | TDeclare (DeclareV1 t) => inr (inl (inr (dv1_tuple t)))
  | TDeclare (DeclareV2 t) => inr (inr (inl (dv2_tuple t)))
  | TDeployAccount t => inr (inr (inr (inl (da_tuple t))))
  | TL1Handler t => inr (inr (inr (inr (l1_tuple t))))
  end.
Definition sum_tx x : Transaction :=
  match x with
  | inl (inl (a, b, c, d, e)) => TInvoke (InvokeV0 (mk_iv0 a b c d e))
  | inl (inr (a, b, c, d, e, f)) => TInvoke (InvokeV1 (mk_iv1 a b c d e f))
  | inr (inl (inl (a, b, c, d, e))) => TDeclare (DeclareV0 (mk_dv0 a b c d e))
  | inr (inl (inr (a, b, c, d, e, f))) => TDeclare (DeclareV1 (mk_dv1 a b c d e f))
  | inr (inr (inl (a, b, c, d, e, f, g))) => TDeclare (DeclareV2 (mk_dv2 a b c d e f g))
  | inr (inr (inr (inl (a, b, c, d, e, f, g)))) => TDeployAccount (mk_da a b c d e f g)
  | inr (inr (inr (inr (a, b, c, d)))) => TL1Handler (mk_l1 a b c d)
  end.

#[export] Program Instance Transaction_countable : Countable Transaction := inj_countable' tx_sum sum_tx _.
Next Obligation. by intros [[[]|[]|[]]|[]|[[]|[]]|[]]. Qed.

Definition header_tuple (h : Header) :=
  (h_parent_block_hash h, h_block_number h, h_sequencer_address h, h_block_timestamp h, h_transaction_count h,
   h_event_count h, h_protocol_version h, (price_in_strk (h_l1_gas_price h), price_in_wei (h_l1_gas_price h)),
   h_extra_data h).
Definition tuple_header x : Header :=
  let '(a, b, c, d, e, f, g, (p, q), i) := x in mk_header a b c d e f g (mk_rp p q) i.

#[export] Program Instance Header_countable : Countable Header := inj_countable' header_tuple tuple_header _.
Next Obligation. by intros [? ? ? ? ? ? ? [] ?]. Qed.

#[export] Program Instance Log_countable : Countable Log :=
  inj_countable' (fun l => let 'LogBlock b := l in (b_header b, b_transactions b))
    (fun x => LogBlock (mk_block x.1 x.2)) _.
Next Obligation. by intros [[]]. Qed.

Fixpoint pos_bytes (p : positive) : list byte :=
  match p with
  | xH => []
  | xO p' => x00 :: pos_bytes p'
  | xI p' => x01 :: pos_bytes p'
  end.
Fixpoint bytes_pos (l : list byte) : positive :=
  match l with
  | [] => xH
  | x00 :: l' => xO (bytes_pos l')
  | _ :: l' => xI (bytes_pos l')
  end.

Lemma bytes_pos_bytes p : bytes_pos (pos_bytes p) = p.
Proof. induction p; simpl; congruence. Qed.

#[export] Instance log_codec : LogCodec := {|
  log_encode l := pos_bytes (encode l);
  log_decode d := decode (bytes_pos d);
|}.
#[export] Instance log_codec_laws : LogCodecLaws (LC := log_codec).
Proof. constructor. intros l. simpl. rewrite bytes_pos_bytes. apply decode_encode. Qed.

End BlockWitness.
Import Deps.Reference BlockWitness.

Lemma header_hash_commits_witness :
  header_hash (H := PedersenHasher) header_default
  = header_hash (H := PedersenHasher) (mk_header stark_default 0 (mk_new stark_default) 0 0 0 0 (mk_rp (Some 3) 8) None).
Proof.
  assert (W : forall g, header_wf (mk_header stark_default 0 (mk_new stark_default) 0 0 0 0 g None))
    by (intros g; constructor; reflexivity).
  destruct (header_hash_commits (H := PedersenHasher) header_default
              (mk_header stark_default 0 (mk_new stark_default) 0 0 0 0 (mk_rp (Some 3) 8) None)
              (W _) (W _)) as (d1 & d2 & _ & _ & _ & _ & He & _).
  apply He. reflexivity.
Defined.

Lemma digest_block_roundtrip_witness :
  find_starknet_block [DIPreRuntime (bytes_of "aura") [x01]; block_digest block_default] = Ok block_default.
Proof.
  destruct (digest_block_roundtrip [DIPreRuntime (bytes_of "aura") [x01]] [] block_default []) as [H _].
  apply H; reflexivity.
Defined.
