(* ===== verification/CallTrace.v ===== *)
(** * Collecting the events and messages of a call tree

    [emit_events_in_call_info] and [aggregate_messages_in_call_info] of
    [crates/pallets/starknet/src/lib.rs] walk the tree of a [CallInfo] with the
    same loop: take the items of the current call as long as their orders are
    consecutive, then descend into the next inner call, and repeat.  This file
    models the loop once, for any kind of ordered item, and proves that on the
    call tree of any execution it returns the items in the order in which they
    were produced. *)
From S2P Require Import Prelude Bytes Deps Felt Blockifier.
Local Open Scope Z_scope.

Section walk.
  (** The ordered items of one call. *)
  Context {I : Type} (items : CallExecution -> list (Z * I)).

(** The inner part of the loop: the items with sequential orders.  Returns what
    was taken, what remains and the next expected order. *)
Fixpoint drain (evs : list (Z * I)) (next_order : Z) : list I * list (Z * I) * Z :=
  match evs with
  | (order, x) :: evs' =>
      if order =? next_order then
        let '(taken, rest, n) := drain evs' (next_order + 1) in (x :: taken, rest, n)
      else ([], evs, next_order)
  | [] => ([], [], next_order)
  end.

(** The whole loop: the items taken, each with the storage address of its call,
    and the next expected order. *)
Fixpoint walk (ci : CallInfo) (next_order : Z) {struct ci} : list (ContractAddress * I) * Z :=
  let 'mk_ci call execution inner_calls := ci in
  let tag := map (pair (cep_storage_address call)) in
  let '(taken, rest, n) := drain (items execution) next_order in
  let fix visit (inner : list CallInfo) (evs : list (Z * I)) (n : Z) {struct inner} :=
    match inner with
    | [] => ([], n)
    | c :: inner' =>
        let '(out1, n1) := walk c n in
        let '(taken, rest, n2) := drain evs n1 in
        let '(out2, n3) := visit inner' rest n2 in
        (out1 ++ tag taken ++ out2, n3)
    end in
  let '(out, n') := visit inner_calls rest n in
  (tag taken ++ out, n').

(** The visit of the inner calls, as a function of its own. *)
Fixpoint visit (addr : ContractAddress) (inner : list CallInfo) (evs : list (Z * I)) (n : Z) {struct inner}
  : list (ContractAddress * I) * Z :=
  match inner with
  | [] => ([], n)
  | c :: inner' =>
      let '(out1, n1) := walk c n in
      let '(taken, rest, n2) := drain evs n1 in
      let '(out2, n3) := visit addr inner' rest n2 in
      (out1 ++ map (pair addr) taken ++ out2, n3)
  end.

(** A round of the loop from given remaining items and inner calls. *)
Definition rounds (addr : ContractAddress) (inner : list CallInfo) (evs : list (Z * I)) (n : Z)
  : list (ContractAddress * I) * Z :=
  let '(taken, rest, n1) := drain evs n in
  let '(out, n2) := visit addr inner rest n1 in
  (map (pair addr) taken ++ out, n2).

Lemma walk_rounds ci n :
  walk ci n = rounds (cep_storage_address (ci_call ci)) (ci_inner_calls ci) (items (ci_execution ci)) n.
Proof.
  destruct ci as [call execution inner]. unfold rounds. cbn [walk ci_call ci_execution ci_inner_calls].
  destruct (drain _ n) as [[taken rest] n1].
  match goal with |- context [?f inner rest n1] => set (g := f) end.
  assert (Hg : forall inner evs n, g inner evs n = visit (cep_storage_address call) inner evs n).
  { induction inner0 as [|c inner0 IH]; intros evs m; [reflexivity|]. cbn. fold g.
    destruct (walk c m) as [o1 m1]. destruct (drain evs m1) as [[t r] m2]. by rewrite IH. }
  by rewrite Hg.
Qed.

(** ** Executions *)

(** What a call does, in time order: produce an item or make an inner call. *)
#[warnings="-register-all"]
Inductive trace := Trace (call : CallEntryPoint) (steps : list step)
with step := Produce (x : I) | Inner (t : trace).

Definition trace_call (t : trace) : CallEntryPoint := let 'Trace c _ := t in c.

(** Number of items produced. *)
Fixpoint count (t : trace) : Z :=
  let 'Trace _ steps := t in
  (fix go (l : list step) : Z :=
     match l with [] => 0 | Produce _ :: l' => 1 + go l' | Inner t' :: l' => count t' + go l' end) steps.
Fixpoint counts (l : list step) : Z :=
  match l with [] => 0 | Produce _ :: l' => 1 + counts l' | Inner t' :: l' => count t' + counts l' end.

(** The items in the order produced, each with the storage address of its call. *)
Fixpoint produced (t : trace) : list (ContractAddress * I) :=
  let 'Trace call steps := t in
  (fix go (l : list step) : list (ContractAddress * I) :=
     match l with
     | [] => []
     | Produce x :: l' => (cep_storage_address call, x) :: go l'
     | Inner t' :: l' => produced t' ++ go l'
     end) steps.
Fixpoint produced_steps (addr : ContractAddress) (l : list step) : list (ContractAddress * I) :=
  match l with
  | [] => []
  | Produce x :: l' => (addr, x) :: produced_steps addr l'
  | Inner t' :: l' => produced t' ++ produced_steps addr l'
  end.

(** The call's own items numbered by a counter shared with the inner calls. *)
Fixpoint own_items (l : list step) (c : Z) : list (Z * I) :=
  match l with
  | [] => []
  | Produce x :: l' => (c, x) :: own_items l' (c + 1)
  | Inner t' :: l' => own_items l' (c + count t')
  end.

(** [records t c ci]: [ci] is the call information of an execution with trace
    [t] whose counter started at [c]. *)
Inductive records : trace -> Z -> CallInfo -> Prop :=
| records_intro call steps execution inner c :
    items execution = own_items steps c ->
    records_steps steps c inner ->
    records (Trace call steps) c (mk_ci call execution inner)
with records_steps : list step -> Z -> list CallInfo -> Prop :=
| records_nil c : records_steps [] c []
| records_produce x l c inner : records_steps l (c + 1) inner -> records_steps (Produce x :: l) c inner
| records_inner t l c ci inner :
    records t c ci -> records_steps l (c + count t) inner -> records_steps (Inner t :: l) c (ci :: inner).

Scheme records_mind := Induction for records Sort Prop
with records_steps_mind := Induction for records_steps Sort Prop.

Lemma count_unfold call steps : count (Trace call steps) = counts steps.
Proof.
  cbn [count]. induction steps as [|[x|t] l IH]; cbn [counts]; [done| |]; by rewrite IH.
Qed.

Lemma produced_unfold call steps :
  produced (Trace call steps) = produced_steps (cep_storage_address call) steps.
Proof.
  cbn [produced]. induction steps as [|[x|t] l IH]; cbn [produced_steps]; [done| |]; by rewrite IH.
Qed.

(** Counts are not negative, by induction on the nested type. *)
Fixpoint count_nonneg (t : trace) : 0 <= count t.
Proof.
  destruct t as [call steps]. rewrite count_unfold.
  induction steps as [|[x|t] l IH]; cbn [counts]; [lia|lia|]. pose proof (count_nonneg t). lia.
Defined.

Lemma counts_nonneg l : 0 <= counts l.
Proof. induction l as [|[x|t] l IH]; cbn [counts]; [lia|lia|]. pose proof (count_nonneg t). lia. Qed.

Lemma own_items_order l c : Forall (fun kx => c <= fst kx) (own_items l c).
Proof.
  revert c. induction l as [|[x|t] l IH]; intros c; cbn [own_items]; [constructor| |].
  - constructor; [simpl; lia|]. eapply Forall_impl; [|apply IH]. simpl. intros [k y]. simpl. lia.
  - eapply Forall_impl; [|apply (IH (c + count t))]. pose proof (count_nonneg t). intros [k y]. simpl. lia.
Qed.

Lemma drain_later evs n : Forall (fun kx => n < fst kx) evs -> drain evs n = ([], evs, n).
Proof. destruct 1 as [|[k x] evs Hk _]; [done|]. cbn. simpl in Hk. destruct (k =? n) eqn:E; [zbool; lia|done]. Qed.

Lemma drain_idem evs n t r m : drain evs n = (t, r, m) -> drain r m = ([], r, m).
Proof.
  revert n t. induction evs as [|[k x] evs IH]; intros n t; cbn [drain]; [by intros [= <- <- <-]|].
  destruct (k =? n) eqn:E.
  - destruct (drain evs (n + 1)) as [[t' r'] m'] eqn:D. intros [= <- <- <-]. by eapply IH.
  - intros [= <- <- <-]. cbn [drain]. by rewrite E.
Qed.

(** A call tree without items yields nothing and leaves the order alone. *)
Lemma silent_records :
  (forall t c ci, records t c ci -> count t = 0 -> forall n, walk ci n = ([], n)).
Proof.
  apply (records_mind
    (fun t c ci _ => count t = 0 -> forall n, walk ci n = ([], n))
    (fun l c inner _ => counts l = 0 -> own_items l c = [] /\ forall addr n, visit addr inner [] n = ([], n))).
  - intros call steps execution inner c He _ IH Hc n. rewrite count_unfold in Hc.
    destruct (IH Hc) as [Ho Hv]. rewrite walk_rounds. unfold rounds. cbn [ci_call ci_execution ci_inner_calls].
    rewrite He, Ho. cbn [drain]. by rewrite Hv.
  - done.
  - intros x l c inner _ _ Hc. cbn [counts] in Hc. pose proof (counts_nonneg l). lia.
  - intros t l c ci inner _ IH1 _ IH2 Hc. cbn [counts] in Hc.
    pose proof (counts_nonneg l). pose proof (count_nonneg t).
    destruct (IH2 ltac:(lia)) as [Ho Hv]. cbn [own_items]. split; [done|]. intros addr n.
    cbn [visit]. rewrite IH1 by lia. cbn [drain]. by rewrite Hv.
Qed.

(** Skipping an inner call that takes nothing at the current order. *)
Lemma rounds_skip addr ci inner evs n :
  (forall m, walk ci m = ([], m)) -> rounds addr (ci :: inner) evs n = rounds addr inner evs n.
Proof.
  intros Hw. unfold rounds. destruct (drain evs n) as [[t r] m] eqn:D. cbn [visit]. rewrite Hw.
  apply drain_idem in D. rewrite D. by destruct (visit addr inner r m).
Qed.

Lemma rounds_first addr ci inner evs n out n' :
  drain evs n = ([], evs, n) -> walk ci n = (out, n') ->
  rounds addr (ci :: inner) evs n = (out ++ fst (rounds addr inner evs n'), snd (rounds addr inner evs n')).
Proof.
  intros Hd Hw. unfold rounds. rewrite Hd. cbn [visit]. rewrite Hw.
  destruct (drain evs n') as [[t r] m]. by destruct (visit addr inner r m).
Qed.

(** The walk returns the items of the execution in production order. *)
Lemma walk_records t c ci : records t c ci -> walk ci c = (produced t, c + count t).
Proof.
  revert t c ci. apply (records_mind
    (fun t c ci _ => walk ci c = (produced t, c + count t))
    (fun l c inner _ => forall addr,
       rounds addr inner (own_items l c) c = (produced_steps addr l, c + counts l))).
  - intros call steps execution inner c He _ IH. rewrite walk_rounds. cbn [ci_call ci_execution ci_inner_calls].
    by rewrite He, IH, produced_unfold, count_unfold.
  - intros c addr. cbn. by rewrite Z.add_0_r.
  - intros x l c inner _ IH addr. specialize (IH addr). unfold rounds in *. cbn [own_items drain].
    rewrite Z.eqb_refl. destruct (drain (own_items l (c + 1)) (c + 1)) as [[t r] m].
    destruct (visit addr inner r m) as [o k]. cbn [produced_steps counts map app]. injection IH as <- ->.
    f_equal. lia.
  - intros t l c ci inner Hr IH1 _ IH2 addr. cbn [own_items produced_steps counts].
    destruct (decide (count t = 0)) as [Hz|Hz].
    + assert (Hs : forall m, walk ci m = ([], m)) by (by eapply silent_records).
      rewrite rounds_skip by done. rewrite Hs in IH1. injection IH1 as <- _.
      rewrite Hz, Z.add_0_r in IH2 |- *. rewrite IH2. cbn [app]. f_equal.
    + pose proof (count_nonneg t).
      rewrite (rounds_first _ _ _ _ _ (produced t) (c + count t)); [| |done].
      * rewrite IH2. cbn [fst snd]. f_equal. lia.
      * apply drain_later. eapply Forall_impl; [|apply own_items_order]. intros [k y]. simpl. lia.
Qed.

End walk.
