(* ===== verification/PalletStorage.v ===== *)
(** * The Starknet pallet: storage and the [blockifier] state adapter

    The storage items of [crates/pallets/starknet/src/lib.rs], the parts of
    [frame_system] and of the timestamp provider that the pallet reads, and the
    adapter of [blockifier_state_adapter.rs] that presents the storage to
    [blockifier] as a [State]. *)
From S2P Require Import Prelude Bytes Deps Felt Hashers Transactions Blockifier Fee Block.
Local Open Scope Z_scope.

(** ** Configuration *)
Class Config := {
  SystemHash :: HasherT;
  L1GasPrice : ResourcePrice;
  TransactionLongevity : Z;
  DisableTransactionFee : bool;
  DisableNonceValidation : bool;
  InvokeTxMaxNSteps : Z;
  ValidateMaxNSteps : Z;
  ProtocolVersion : Z;
  ChainId : Felt252Wrapper;
  MaxRecursionDepth : Z;
  ProgramHash : Felt252Wrapper;
}.

(** [starknet_api::transaction::{Event, MessageToL1}]. *)
Record StarknetEvent := mk_sev { sev_from_address : ContractAddress; sev_content : EventContent }.
Record MessageToL1 := mk_mtl1 {
  mtl1_from_address : ContractAddress; mtl1_to_address : EthAddress; mtl1_payload : list StarkFelt }.

(** ** Storage

    The items grouped by who writes them.  [ContractsStateRoots] and
    [PendingStorageChanges] are declared by the source and never used. *)

(** Written through the state adapter. *)
Record World `{ContractClassI} := mk_world {
  contract_class_hashes : gmap ContractAddress ClassHash;
  contract_classes : gmap ClassHash ContractClass;
  compiled_class_hashes : gmap ClassHash CompiledClassHash;
  nonces : gmap ContractAddress Nonce;
  storage_view : gmap (ContractAddress * StorageKey) StarkFelt;
}.

(** Written by the pallet itself. *)
Record Ledger := mk_ledger {
  pending : list Transaction;
  pending_hashes : list TransactionHash;
  tx_events : gmap TransactionHash (list StarknetEvent);
  tx_messages : gmap TransactionHash (list MessageToL1);
  tx_revert_error : gmap TransactionHash string;
  block_hash : gmap Z Felt252Wrapper;
  last_known_eth_block : option Z;
  fee_token_address : ContractAddress;
  sequencer_address : ContractAddress;
  seq_addr_update : option bool;
  l1_messages : gset Nonce;
}.

(** The version of the storage layout, which the genesis build writes. *)
Inductive StarknetStorageSchemaVersion := Undefined | V1.

#[export] Instance SchemaVersion_eq_dec : EqDecision StarknetStorageSchemaVersion.
Proof. solve_decision. Defined.

(** [frame_system]: block number, digest of the block being built, events; the
    time in milliseconds; and the unhashed value under [PALLET_STARKNET_SCHEMA]. *)
Record System := mk_system {
  sys_block_number : Z;
  sys_digest : list DigestItem;
  sys_events : list StarknetEvent;
  sys_now : Z;
  sys_schema : option StarknetStorageSchemaVersion;
}.

Record Pallet `{ContractClassI} := mk_pallet { world : World; ledger : Ledger; system : System }.

Section setters.
  Context `{CC : ContractClassI}.

Definition set_world (f : World -> World) (p : Pallet) : Pallet := mk_pallet _ (f (world p)) (ledger p) (system p).
Definition set_ledger (f : Ledger -> Ledger) (p : Pallet) : Pallet := mk_pallet _ (world p) (f (ledger p)) (system p).
Definition set_system (f : System -> System) (p : Pallet) : Pallet := mk_pallet _ (world p) (ledger p) (f (system p)).

Definition set_contract_class_hashes f (w : World) : World :=
  mk_world _ (f (contract_class_hashes w)) (contract_classes w) (compiled_class_hashes w) (nonces w) (storage_view w).
Definition set_contract_classes f (w : World) : World :=
  mk_world _ (contract_class_hashes w) (f (contract_classes w)) (compiled_class_hashes w) (nonces w) (storage_view w).
Definition set_compiled_class_hashes f (w : World) : World :=
  mk_world _ (contract_class_hashes w) (contract_classes w) (f (compiled_class_hashes w)) (nonces w) (storage_view w).
Definition set_nonces f (w : World) : World :=
  mk_world _ (contract_class_hashes w) (contract_classes w) (compiled_class_hashes w) (f (nonces w)) (storage_view w).
Definition set_storage_view f (w : World) : World :=
  mk_world _ (contract_class_hashes w) (contract_classes w) (compiled_class_hashes w) (nonces w) (f (storage_view w)).

(** The getters of the storage items, with the default of a [ValueQuery]. *)
Definition nonce (p : Pallet) (a : ContractAddress) : Nonce := default (mk_new stark_default) (nonces (world p) !! a).
Definition storage (p : Pallet) (k : ContractAddress * StorageKey) : StarkFelt :=
  default stark_default (storage_view (world p) !! k).
Definition contract_class_hash_by_address (p : Pallet) (a : ContractAddress) : ClassHash :=
  default (mk_new stark_default) (contract_class_hashes (world p) !! a).

End setters.

(** ** [BlockifierStateAdapter] *)
Record Adapter := mk_adapter {
  storage_update : gmap (ContractAddress * StorageKey) StarkFelt;
  class_hash_update : Z;
  compiled_class_hash_update : Z;
}.

Definition adapter_default : Adapter := mk_adapter ∅ 0 0.

(** The adapter writes directly to the pallet's storage, so a state of the
    [State] trait is the adapter together with the pallet. *)
Abbreviation AdapterState := (Adapter * Pallet)%type.

Section adapter.
  Context `{SF : StarknetFf} `{SA : StarknetApi} `{CC : ContractClassI}.

Definition on_world (f : World -> World) : eff AdapterState unit := eput (fun '(a, p) => (a, set_world f p)).

Definition adapter_set_storage_at (a : ContractAddress) (key : StorageKey) (value : StarkFelt)
  : eff AdapterState unit :=
  eput (fun '(ad, p) =>
    (mk_adapter (<[(a, key) := value]> (storage_update ad)) (class_hash_update ad) (compiled_class_hash_update ad),
     set_world (set_storage_view (insert (a, key) value)) p)).

Definition adapter_increment_nonce (a : ContractAddress) : effr AdapterState StateError unit :=
  current_nonce <-- eget (fun s => nonce (snd s) a);;
  current_nonce <-- elift (felt_from_stark (new0 current_nonce));;
  new_nonce <-- elift (felt_into_new NonceT (mk_felt (fe_add (felt0 current_nonce) fe_one)));;
  on_world (set_nonces (insert a new_nonce));;;
  eret (Ok tt).

Definition adapter_set_class_hash_at (a : ContractAddress) (class_hash : ClassHash)
  : effr AdapterState StateError unit :=
  eput (fun '(ad, p) =>
    (mk_adapter (storage_update ad) (wadd 64 (class_hash_update ad) 1) (compiled_class_hash_update ad),
     set_world (set_contract_class_hashes (insert a class_hash)) p));;;
  eret (Ok tt).

Definition adapter_set_contract_class (class_hash : ClassHash) (contract_class : ContractClass)
  : effr AdapterState StateError unit :=
  on_world (set_contract_classes (insert class_hash contract_class));;;
  eret (Ok tt).

Definition adapter_set_compiled_class_hash (class_hash : ClassHash) (compiled_class_hash : CompiledClassHash)
  : effr AdapterState StateError unit :=
  eput (fun '(ad, p) =>
    (mk_adapter (storage_update ad) (class_hash_update ad) (wadd 64 (compiled_class_hash_update ad) 1),
     set_world (set_compiled_class_hashes (insert class_hash compiled_class_hash)) p));;;
  eret (Ok tt).

#[export] Instance adapter_state : State AdapterState := {|
  get_storage_at a key := eget (fun s => Ok (storage (snd s) (a, key)));
  get_nonce_at a := eget (fun s => Ok (nonce (snd s) a));
  get_class_hash_at a := eget (fun s => Ok (contract_class_hash_by_address (snd s) a));
  get_compiled_contract_class c :=
    eget (fun s => ok_or (contract_classes (world (snd s)) !! c) (UndeclaredClassHash c));
  get_compiled_class_hash c :=
    eget (fun s => ok_or (compiled_class_hashes (world (snd s)) !! c) (UndeclaredClassHash c));
  set_storage_at := adapter_set_storage_at;
  increment_nonce := adapter_increment_nonce;
  set_class_hash_at := adapter_set_class_hash_at;
  set_contract_class := adapter_set_contract_class;
  set_compiled_class_hash := adapter_set_compiled_class_hash;
|}.

Definition adapter_count_state_changes (s : AdapterState) : StateChangesCount :=
  let keys := map fst (map_to_list (storage_update (fst s))) in
  let n_contract_updated := zlen (remove_dups (map fst keys)) in
  {| n_modified_contracts := n_contract_updated;
     n_storage_updates := zlen keys;
     n_class_hash_updates := class_hash_update (fst s);
     n_compiled_class_hash_updates := compiled_class_hash_update (fst s) |}.

#[export] Instance adapter_state_changes : StateChanges AdapterState := {|
  count_state_changes := adapter_count_state_changes |}.

End adapter.

(** ** What execution can do to the storage *)
Section evolution.
  Context `{SF : StarknetFf} {SFL : StarknetFfLaws} `{SA : StarknetApi} {SAL : StarknetApiLaws}.
  Context `{CC : ContractClassI}.

(** Every stored nonce is a canonical felt. *)
Definition nonces_canonical (p : Pallet) : Prop :=
  map_Forall (fun _ n => stark_canonical (new0 n)) (nonces (world p)).

(** The value of an account's nonce. *)
Definition nonce_val (p : Pallet) (a : ContractAddress) : Z := stark_val (new0 (nonce p a)).

(** Execution leaves the ledger and the system alone and keeps nonces canonical. *)
Record evolves (p p' : Pallet) : Prop := mk_evolves {
  ev_ledger : ledger p' = ledger p;
  ev_system : system p' = system p;
  ev_canonical : nonces_canonical p -> nonces_canonical p';
}.

Lemma nonce_canonical p a : nonces_canonical p -> stark_canonical (new0 (nonce p a)).
Proof.
  intros Hc. unfold nonce. destruct (nonces (world p) !! a) as [n|] eqn:E; cbn [default].
  - exact (Hc _ _ E).
  - apply stark_default_canonical.
Qed.

Lemma nonce_val_range p a : nonces_canonical p -> 0 <= nonce_val p a < P.
Proof. intros Hc. split; [apply be_val_nonneg|exact (nonce_canonical p a Hc)]. Qed.

Lemma evolves_same_nonces p p' :
  ledger p' = ledger p -> system p' = system p -> nonces (world p') = nonces (world p) -> evolves p p'.
Proof.
  intros Hl Hs Hn. assert (Hc : nonces_canonical p -> nonces_canonical p')
    by (unfold nonces_canonical; by rewrite Hn).
  by constructor.
Qed.

#[export] Instance evolves_preorder : PreOrder evolves.
Proof.
  split.
  - intros p. by apply evolves_same_nonces.
  - intros p q r [L1 S1 C1] [L2 S2 C2]. constructor; [congruence|congruence|auto].
Qed.

(** The increment of a nonce: no panic on canonical nonces, and exactly one more,
    modulo the field size. *)
Lemma increment_nonce_spec (ad : Adapter) (p : Pallet) a :
  nonces_canonical p ->
  exists f, increment_nonce a (ad, p) = Ret (Ok tt, (ad, set_world (set_nonces (insert a (to_new NonceT f))) p))
  /\ felt_val f = (nonce_val p a + 1) mod P.
Proof.
  intros Hc. destruct (felt_from_stark_ret _ (nonce_canonical p a Hc)) as (g & Hg & Vg).
  exists (mk_felt (fe_add (felt0 g) fe_one)). split.
  - cbn [increment_nonce adapter_state]. unfold adapter_increment_nonce, ebind, eget, elift. cbn [snd].
    rewrite Hg, felt_into_new_ret. reflexivity.
  - unfold felt_val, nonce_val. cbn [felt0]. rewrite fe_add_val. unfold felt_val in Vg. by rewrite Vg.
Qed.

Lemma evolves_increment p a f :
  evolves p (set_world (set_nonces (insert a (to_new NonceT f))) p).
Proof.
  constructor; [done|done|]. intros Hc. apply map_Forall_insert_2; [apply to_stark_canonical|exact Hc].
Qed.

Lemma increment_evolves a (s s' : AdapterState) r :
  increment_nonce a s = Ret (r, s') -> nonces_canonical (snd s) -> evolves (snd s) (snd s').
Proof.
  destruct s as [ad p]. intros H Hn. destruct (increment_nonce_spec ad p a Hn) as (f & Hf & Vf).
  rewrite Hf in H. simplify_eq. by apply evolves_increment.
Qed.

(** Contract code leaves the nonces alone too. *)
Definition quiet (p p' : Pallet) : Prop :=
  ledger p' = ledger p /\ system p' = system p /\ nonces (world p') = nonces (world p).

Lemma state_call_quiet (s s' : AdapterState) : state_call s s' -> quiet (snd s) (snd s').
Proof.
  intros Hc. destruct Hc;
    repeat match goal with s : prod Adapter Pallet |- _ => destruct s end;
    match goal with H : _ = Ret (_, _) |- _ => revert H end;
    cbn; unfold adapter_set_storage_at, adapter_set_class_hash_at, adapter_set_contract_class,
      adapter_set_compiled_class_hash, on_world, eget, eput, eret, ebind; cbn;
    intros; by simplify_eq.
Qed.

Lemma reaches_quiet (s s' : AdapterState) : reaches s s' -> quiet (snd s) (snd s').
Proof.
  induction 1 as [s|s s1 s' Hc _ (L & S & N)]; [done|]. apply state_call_quiet in Hc as (L1 & S1 & N1).
  split_and!; congruence.
Qed.

Lemma transacts_evolves (s s' : AdapterState) :
  transacts s s' -> nonces_canonical (snd s) -> evolves (snd s) (snd s').
Proof.
  induction 1 as [s|s s1 s' Hc _ IH]; intros Hn; [reflexivity|].
  assert (He : evolves (snd s) (snd s1)).
  { destruct Hc as [s s1 Hc|a s r s1 Hc]; [|by eapply increment_evolves].
    apply state_call_quiet in Hc as (? & ? & ?). by apply evolves_same_nonces. }
  etransitivity; [exact He|]. apply IH. by apply (ev_canonical _ _ He).
Qed.

End evolution.
