(* ===== verification/DictState.v ===== *)
(** * The state reader over dictionaries

    Models [crates/primitives/state/src/lib.rs]: [DictStateReader], which answers
    the queries of blockifier from hash maps.  It answers as the pallet does on the
    same contents, but for compiled class hashes, which it does not keep. *)
From S2P Require Import Prelude Bytes Deps Felt Transactions Blockifier PalletStorage.
Local Open Scope Z_scope.

Record DictStateReader `{ContractClassI} := mk_dict {
  dict_storage_view : gmap (ContractAddress * StorageKey) StarkFelt;
  address_to_nonce : gmap ContractAddress Nonce;
  address_to_class_hash : gmap ContractAddress ClassHash;
  class_hash_to_class : gmap ClassHash ContractClass;
}.

Section reader.
  Context {CC : ContractClassI}.

Definition dict_default : DictStateReader := mk_dict _ ∅ ∅ ∅ ∅.

Definition dict_get_storage_at (contract_address : ContractAddress) (key : StorageKey)
  : effr DictStateReader StateError StarkFelt :=
  eget (fun r => Ok (default stark_default (dict_storage_view r !! (contract_address, key)))).

Definition dict_get_nonce_at (contract_address : ContractAddress) : effr DictStateReader StateError Nonce :=
  eget (fun r => Ok (default (mk_new stark_default) (address_to_nonce r !! contract_address))).

Definition dict_get_compiled_contract_class (class_hash : ClassHash) : effr DictStateReader StateError ContractClass :=
  eget (fun r => match class_hash_to_class r !! class_hash with
                 | Some contract_class => Ok contract_class
                 | None => Err (UndeclaredClassHash class_hash)
                 end).

Definition dict_get_compiled_class_hash (class_hash : ClassHash) : effr DictStateReader StateError CompiledClassHash :=
  eret (Ok (mk_new stark_default)).

Definition dict_get_class_hash_at (contract_address : ContractAddress) : effr DictStateReader StateError ClassHash :=
  eget (fun r => Ok (default (mk_new stark_default) (address_to_class_hash r !! contract_address))).

(** The dictionaries with the contents of a pallet. *)
Definition dict_of_world (w : World) : DictStateReader :=
  mk_dict _ (storage_view w) (nonces w) (contract_class_hashes w) (contract_classes w).

End reader.

(** A query on two states: the same answer, and neither state changes. *)
Definition same_answer {S T E A} (m : effr S E A) (s : S) (m' : effr T E A) (t : T) : Prop :=
  exists r, m s = Ret (r, s) /\ m' t = Ret (r, t).

(** On the contents of a pallet the reader gives the answers of the pallet's state
    adapter, undeclared classes included.  The compiled class hash is the exception: the
    adapter reports an undeclared class, the reader answers zero for every class. *)
Theorem dict_reader_agrees `{SF : StarknetFf} `{SA : StarknetApi} `{CC : ContractClassI} (ad : Adapter) (p : Pallet)
    (a : ContractAddress) (key : StorageKey) (c : ClassHash) :
  let r := dict_of_world (world p) in
  same_answer (get_storage_at a key) (ad, p) (dict_get_storage_at a key) r
  /\ same_answer (get_nonce_at a) (ad, p) (dict_get_nonce_at a) r
  /\ same_answer (get_class_hash_at a) (ad, p) (dict_get_class_hash_at a) r
  /\ same_answer (get_compiled_contract_class c) (ad, p) (dict_get_compiled_contract_class c) r
  /\ (same_answer (get_compiled_class_hash c) (ad, p) (dict_get_compiled_class_hash c) r
      <-> compiled_class_hashes (world p) !! c = Some (mk_new stark_default)).
Proof.
  intros r. unfold same_answer. split_and!; [by eexists..| |].
  - cbn. unfold dict_get_compiled_contract_class, eget. cbn. eexists. split; [done|].
    by destruct (contract_classes (world p) !! c).
  - cbn. unfold dict_get_compiled_class_hash, eret, eget. cbn. split.
    + intros (x & [= <-] & [= Hx]). by destruct (compiled_class_hashes (world p) !! c) as [h|]; [injection Hx as ->|].
    + intros ->. by eexists.
Qed.
