(* ===== verification/Pallet.v ===== *)
(** * The Starknet pallet: dispatchables, blocks and genesis

    Models the hooks, calls and internal functions of
    [crates/pallets/starknet/src/lib.rs] over the storage of [PalletStorage],
    [execution_config.rs], and the dispatch and block steps that FRAME drives
    them with. *)
From S2P Require Import Prelude Bytes Deps Felt Hashers Transactions ComputeHash Blockifier Conversions Fee.
From S2P Require Import Execution Block CallTrace PalletStorage.
Local Open Scope Z_scope.

(** ** Setters of the ledger *)
Definition set_pending f (l : Ledger) : Ledger :=
  mk_ledger (f (pending l)) (pending_hashes l) (tx_events l) (tx_messages l) (tx_revert_error l) (block_hash l)
    (last_known_eth_block l) (fee_token_address l) (sequencer_address l) (seq_addr_update l) (l1_messages l).
Definition set_pending_hashes f (l : Ledger) : Ledger :=
  mk_ledger (pending l) (f (pending_hashes l)) (tx_events l) (tx_messages l) (tx_revert_error l) (block_hash l)
    (last_known_eth_block l) (fee_token_address l) (sequencer_address l) (seq_addr_update l) (l1_messages l).
Definition set_tx_events f (l : Ledger) : Ledger :=
  mk_ledger (pending l) (pending_hashes l) (f (tx_events l)) (tx_messages l) (tx_revert_error l) (block_hash l)
    (last_known_eth_block l) (fee_token_address l) (sequencer_address l) (seq_addr_update l) (l1_messages l).
Definition set_tx_messages f (l : Ledger) : Ledger :=
  mk_ledger (pending l) (pending_hashes l) (tx_events l) (f (tx_messages l)) (tx_revert_error l) (block_hash l)
    (last_known_eth_block l) (fee_token_address l) (sequencer_address l) (seq_addr_update l) (l1_messages l).
Definition set_tx_revert_error f (l : Ledger) : Ledger :=
  mk_ledger (pending l) (pending_hashes l) (tx_events l) (tx_messages l) (f (tx_revert_error l)) (block_hash l)
    (last_known_eth_block l) (fee_token_address l) (sequencer_address l) (seq_addr_update l) (l1_messages l).
Definition set_block_hash f (l : Ledger) : Ledger :=
  mk_ledger (pending l) (pending_hashes l) (tx_events l) (tx_messages l) (tx_revert_error l) (f (block_hash l))
    (last_known_eth_block l) (fee_token_address l) (sequencer_address l) (seq_addr_update l) (l1_messages l).
Definition set_last_known_eth_block v (l : Ledger) : Ledger :=
  mk_ledger (pending l) (pending_hashes l) (tx_events l) (tx_messages l) (tx_revert_error l) (block_hash l)
    v (fee_token_address l) (sequencer_address l) (seq_addr_update l) (l1_messages l).
Definition set_fee_token_address v (l : Ledger) : Ledger :=
  mk_ledger (pending l) (pending_hashes l) (tx_events l) (tx_messages l) (tx_revert_error l) (block_hash l)
    (last_known_eth_block l) v (sequencer_address l) (seq_addr_update l) (l1_messages l).
Definition put_sequencer_address v (l : Ledger) : Ledger :=
  mk_ledger (pending l) (pending_hashes l) (tx_events l) (tx_messages l) (tx_revert_error l) (block_hash l)
    (last_known_eth_block l) (fee_token_address l) v (seq_addr_update l) (l1_messages l).
Definition set_seq_addr_update v (l : Ledger) : Ledger :=
  mk_ledger (pending l) (pending_hashes l) (tx_events l) (tx_messages l) (tx_revert_error l) (block_hash l)
    (last_known_eth_block l) (fee_token_address l) (sequencer_address l) v (l1_messages l).
Definition set_l1_messages f (l : Ledger) : Ledger :=
  mk_ledger (pending l) (pending_hashes l) (tx_events l) (tx_messages l) (tx_revert_error l) (block_hash l)
    (last_known_eth_block l) (fee_token_address l) (sequencer_address l) (seq_addr_update l) (f (l1_messages l)).

(** ** Errors and calls *)
Inductive PalletError :=
| AccountNotDeployed | TransactionExecutionFailed | ClassHashAlreadyDeclared | ContractClassHashUnknown
| ContractClassAlreadyAssociated | ContractClassMustBeSpecified | AccountAlreadyDeployed
| ContractAddressAlreadyAssociated | InvalidContractClass | TooManyEmittedStarknetEvents | StateReaderError
| EmitEventError | StateDiffError | ContractNotFound | TransactionConversionError | SequencerAddressNotValid
| InvalidContractClassForThisDeclareVersion | Unimplemented | MissingRevertReason | MissingCallInfo
| FailedToCreateATransactionalStorageExecution | L1MessageAlreadyExecuted | MissingL1GasUsage.

Inductive DispatchError := BadOrigin | PErr (e : PalletError).

#[export] Instance PalletError_eq_dec : EqDecision PalletError.
Proof. solve_decision. Defined.

(** The origin of an extrinsic. *)
Inductive Origin := OriginNone | OriginSigned | OriginRoot.

Inductive Call `{ContractClassI} :=
| set_sequencer_address (addr : array 32)
| invoke (tx : InvokeTransaction)
| declare (tx : DeclareTransaction) (contract_class : ContractClass)
| deploy_account (tx : DeployAccountTransaction)
| consume_l1_message (tx : HandleL1MessageTransaction) (paid_fee_on_l1 : Z).

(** ** [RuntimeExecutionConfigBuilder] *)
Record SimulationFlags := mk_sf { skip_validate : bool; skip_fee_charge : bool }.

Inductive SimulationFlag := SkipValidate | SkipFeeCharge.

(** The loop over the flags, which stops once both are set. *)
Fixpoint simulation_flags_loop (skip_validate skip_fee_charge : bool) (flags : list SimulationFlag)
  : SimulationFlags :=
  match flags with
  | [] => mk_sf skip_validate skip_fee_charge
  | flag :: flags' =>
      let skip_validate := match flag with SkipValidate => true | SkipFeeCharge => skip_validate end in
      let skip_fee_charge := match flag with SkipFeeCharge => true | SkipValidate => skip_fee_charge end in
      if skip_validate && skip_fee_charge then mk_sf skip_validate skip_fee_charge
      else simulation_flags_loop skip_validate skip_fee_charge flags'
  end.
Definition SimulationFlags_from (flags : list SimulationFlag) : SimulationFlags :=
  simulation_flags_loop false false flags.

Definition config_new `{Config} : ExecutionConfig := {|
  is_query := false;
  disable_fee_charge := false;
  disable_validation := false;
  disable_nonce_validation := DisableNonceValidation;
  disable_transaction_fee := DisableTransactionFee;
  offset_version := false;
|}.
Definition with_query_mode (c : ExecutionConfig) : ExecutionConfig :=
  mk_xcfg true (offset_version c) (disable_transaction_fee c) (disable_fee_charge c)
    (disable_nonce_validation c) (disable_validation c).
Definition with_simulation_mode (f : SimulationFlags) (c : ExecutionConfig) : ExecutionConfig :=
  mk_xcfg (is_query c) (offset_version c) (disable_transaction_fee c) (skip_fee_charge f)
    (disable_nonce_validation c) (skip_validate f).
Definition with_disable_nonce_validation (c : ExecutionConfig) : ExecutionConfig :=
  mk_xcfg (is_query c) (offset_version c) (disable_transaction_fee c) (disable_fee_charge c)
    true (disable_validation c).
Definition with_offset_version (c : ExecutionConfig) : ExecutionConfig :=
  mk_xcfg (is_query c) true (disable_transaction_fee c) (disable_fee_charge c)
    (disable_nonce_validation c) (disable_validation c).

(** ** Internal functions *)
Section internal.
  Context `{SF : StarknetFf} `{SA : StarknetApi} `{PT : PrimitiveTypes} `{SC : StarknetCrypto}.
  Context `{FX : FixedPoint} `{LC : LogCodec} `{BL : Blockifier} {CFG : Config}.

(** [T::TimestampProvider::now().unique_saturated_into() / 1000] on [u64]. *)
Definition block_timestamp (p : Pallet) : Z := Z.min u64_max (sys_now (system p)) / 1000.

(** The block number, saturated to [u64]. *)
Definition block_number (p : Pallet) : Z := Z.min u64_max (sys_block_number (system p)).

Definition chain_id_str : list byte := arr (to_bytes_be (felt0 ChainId)).

Definition get_block_context (p : Pallet) : BlockContext := {|
  bctx_block_number := block_number p;
  bctx_block_timestamp := block_timestamp p;
  bctx_chain_id := chain_id_str;
  bctx_sequencer_address := sequencer_address (ledger p);
  bctx_fee_token_address := fee_token_address (ledger p);
  bctx_vm_resource_fee_cost := ∅;
  bctx_invoke_tx_max_n_steps := InvokeTxMaxNSteps;
  bctx_validate_max_n_steps := ValidateMaxNSteps;
  bctx_gas_price := price_in_wei L1GasPrice;
  bctx_max_recursion_depth := MaxRecursionDepth;
|}.

(** [Self::block_hash(n - 1)], zero for a missing entry. *)
Definition parent_block_hash (p : Pallet) (current_block_number : Z) : Felt252Wrapper :=
  if current_block_number =? 0 then ZERO else default ZERO (block_hash (ledger p) !! (current_block_number - 1)).

Definition transaction_count (p : Pallet) : Z := zlen (pending (ledger p)).
Definition event_count (p : Pallet) : Z :=
  foldr (fun kv acc => zlen (snd kv) + acc) 0 (map_to_list (tx_events (ledger p))).

(** [transaction_hashes.iter().flat_map(TxEvents::take)]. *)
Fixpoint take_events (hashes : list TransactionHash) (m : gmap TransactionHash (list StarknetEvent))
  : list StarknetEvent * gmap TransactionHash (list StarknetEvent) :=
  match hashes with
  | [] => ([], m)
  | h :: hashes' =>
      let '(evs, m') := take_events hashes' (delete h m) in (default [] (m !! h) ++ evs, m')
  end.

(** [frame_system::Pallet::deposit_log]. *)
Definition deposit_log (item : DigestItem) (s : System) : System :=
  mk_system (sys_block_number s) (sys_digest s ++ [item]) (sys_events s) (sys_now s) (sys_schema s).

(** [frame_system::Pallet::deposit_event], which ignores events of block zero. *)
Definition deposit_event (e : StarknetEvent) (s : System) : System :=
  if sys_block_number s =? 0 then s
  else mk_system (sys_block_number s) (sys_digest s) (sys_events s ++ [e]) (sys_now s) (sys_schema s).

(** The header and block that [store_block] builds. *)
Definition new_block (p : Pallet) (block_number : Z) : Block :=
  let transactions := pending (ledger p) in
  let events := fst (take_events (pending_hashes (ledger p)) (tx_events (ledger p))) in
  mk_block
    (mk_header (to_stark (parent_block_hash p block_number)) block_number (sequencer_address (ledger p))
       (block_timestamp p) (zlen transactions) (zlen events) ProtocolVersion L1GasPrice None)
    transactions.

Definition store_block (block_number : Z) : eff Pallet unit :=
  p <-- eget id;;
  eassert (length (pending (ledger p)) =? length (pending_hashes (ledger p)))%nat;;;
  eput (set_ledger (set_tx_events (fun m => snd (take_events (pending_hashes (ledger p)) m))));;;
  let block := new_block p block_number in
  blockhash <-- elift (header_hash (b_header block));;
  eput (set_ledger (set_block_hash (insert block_number blockhash)));;;
  eput (set_ledger (set_pending (fun _ => [])));;;
  eput (set_ledger (set_pending_hashes (fun _ => [])));;;
  eput (set_system (deposit_log (DIConsensus MADARA_ENGINE_ID (log_encode (LogBlock block))))).

(** The items of a call, in the form [CallTrace] walks them. *)
Definition call_events (x : CallExecution) : list (Z * EventContent) :=
  map (fun e => (oe_order e, oe_event e)) (cx_events x).
Definition call_messages (x : CallExecution) : list (Z * MessageContent) :=
  map (fun m => (om_order m, om_message m)) (cx_l2_to_l1_messages x).

(** [TxEvents::append], [TxMessages::append]. *)
Definition append_value {A} (h : TransactionHash) (x : A) (m : gmap TransactionHash (list A))
  : gmap TransactionHash (list A) := <[h := default [] (m !! h) ++ [x]]> m.

(** What [emit_events_in_call_info] does for one event. *)
Definition emit_event (tx_hash : TransactionHash) (p : Pallet) (x : ContractAddress * EventContent) : Pallet :=
  let event := mk_sev (fst x) (snd x) in
  set_ledger (set_tx_events (append_value tx_hash event)) (set_system (deposit_event event) p).

Definition emit_events_in_call_info (tx_hash : TransactionHash) (call_info : CallInfo) (next_order : Z)
  : eff Pallet Z :=
  fun p => let '(events, next_order') := walk call_events call_info next_order in
           Ret (next_order', fold_left (emit_event tx_hash) events p).

Definition store_message (tx_hash : TransactionHash) (p : Pallet) (x : ContractAddress * MessageContent) : Pallet :=
  set_ledger (set_tx_messages (append_value tx_hash
    (mk_mtl1 (fst x) (mc_to_address (snd x)) (mc_payload (snd x))))) p.

Definition aggregate_messages_in_call_info (tx_hash : TransactionHash) (call_info : CallInfo) (next_order : Z)
  : eff Pallet Z :=
  fun p => let '(messages, next_order') := walk call_messages call_info next_order in
           Ret (next_order', fold_left (store_message tx_hash) messages p).

Definition emit_and_store_opt (tx_hash : TransactionHash) (call_info : option CallInfo) : eff Pallet unit :=
  match call_info with
  | Some call_info =>
      emit_events_in_call_info tx_hash call_info 0 ;;;
      aggregate_messages_in_call_info tx_hash call_info 0 ;;;
      eret tt
  | None => eret tt
  end.

Definition emit_and_store_tx_and_fees_events (tx_hash : TransactionHash)
    (execute_call_info fee_transfer_call_info : option CallInfo) : eff Pallet unit :=
  emit_and_store_opt tx_hash execute_call_info ;;;
  emit_and_store_opt tx_hash fee_transfer_call_info.

Definition store_transaction (tx_hash : TransactionHash) (tx : Transaction) (revert_reason : option string)
  : eff Pallet unit :=
  eput (set_ledger (set_pending (fun l => l ++ [tx])));;;
  eput (set_ledger (set_pending_hashes (fun l => l ++ [tx_hash])));;;
  eput (set_ledger (set_tx_revert_error (partial_alter (fun _ => revert_reason) tx_hash))).

Definition is_l1_message_executed (p : Pallet) (n : Nonce) : bool := bool_decide (n ∈ l1_messages (ledger p)).

(** ** Dispatchables *)
Definition ensure_none (o : Origin) : effr Pallet DispatchError unit :=
  eret (match o with OriginNone => Ok tt | _ => Err BadOrigin end).

Definition ensure (b : bool) (e : PalletError) : effr Pallet DispatchError unit :=
  eret (if b then Ok tt else Err (PErr e)).

(** [transaction.execute(&mut BlockifierStateAdapter::default(), ..)] with the
    error mapped to [TransactionExecutionFailed]. *)
Definition execute_tx {T : Type} `{!GetAccountTransactionContext T} `{!Execute AdapterState T} (t : T)
    (cfg : ExecutionConfig) : effr Pallet DispatchError TransactionExecutionInfo :=
  fun p =>
    match execute t (get_block_context p) cfg (adapter_default, p) with
    | Ret (r, (_, p')) => Ret (map_err (fun _ => PErr TransactionExecutionFailed) r, p')
    | Panic => Panic
    end.

(** The end of the four transaction calls. *)
Definition record_tx (tx_hash : TransactionHash) (tx : Transaction) (infos : TransactionExecutionInfo)
  : effr Pallet DispatchError unit :=
  emit_and_store_tx_and_fees_events tx_hash (tei_execute_call_info infos) (tei_fee_transfer_call_info infos);;;
  store_transaction tx_hash tx (tei_revert_error infos);;;
  eret (Ok tt).

Definition set_sequencer_address_call (addr : array 32) : effr Pallet DispatchError unit :=
  p <-- eget id;;
  (if 1 <? block_number p then eassert (negb (bool_decide (is_Some (seq_addr_update (ledger p))))) else eret tt);;;
  addr <-? eret (ok_or (stark_new addr) (PErr SequencerAddressNotValid));;
  ensure (patricia_check addr) SequencerAddressNotValid ;;?
  eput (set_ledger (put_sequencer_address (mk_new addr)));;;
  eput (set_ledger (set_seq_addr_update (Some true)));;;
  eret (Ok tt).

Definition invoke_call (input_transaction : InvokeTransaction) : effr Pallet DispatchError unit :=
  p <-- eget id;;
  let transaction := invoke_into_executable input_transaction ChainId false in
  let sender_address :=
    match bi_tx transaction with
    | StInvokeV0 tx => sti0_contract_address tx
    | StInvokeV1 tx => sti1_sender_address tx
    end in
  ensure (bool_decide (is_Some (contract_class_hashes (world p) !! sender_address))) AccountNotDeployed ;;?
  tx_execution_infos <-? execute_tx transaction config_new;;
  record_tx (bi_tx_hash transaction) (TInvoke input_transaction) tx_execution_infos.

Definition declare_call (input_transaction : DeclareTransaction) (contract_class : ContractClass)
  : effr Pallet DispatchError unit :=
  p <-- eget id;;
  transaction <-? eret (map_err (fun _ => PErr InvalidContractClassForThisDeclareVersion)
                          (declare_try_into_executable input_transaction ChainId contract_class false));;
  ensure (bool_decide (contract_classes (world p) !! st_declare_class_hash (bd_tx transaction) = None))
    ClassHashAlreadyDeclared ;;?
  ensure (bool_decide (is_Some (contract_class_hashes (world p) !! st_declare_sender_address (bd_tx transaction))))
    AccountNotDeployed ;;?
  tx_execution_infos <-? execute_tx transaction config_new;;
  record_tx (bd_tx_hash transaction) (TDeclare input_transaction) tx_execution_infos.

Definition deploy_account_call (input_transaction : DeployAccountTransaction) : effr Pallet DispatchError unit :=
  p <-- eget id;;
  let transaction := deploy_account_into_executable input_transaction ChainId false in
  ensure (bool_decide (contract_class_hashes (world p) !! bda_contract_address transaction = None))
    AccountAlreadyDeployed ;;?
  tx_execution_infos <-? execute_tx transaction config_new;;
  record_tx (bda_tx_hash transaction) (TDeployAccount input_transaction) tx_execution_infos.

Definition consume_l1_message_call (input_transaction : HandleL1MessageTransaction) (paid_fee_on_l1 : Z)
  : effr Pallet DispatchError unit :=
  p <-- eget id;;
  let transaction := l1_handler_into_executable input_transaction ChainId paid_fee_on_l1 false in
  let nonce := stl1_nonce (bl1_tx transaction) in
  ensure (negb (is_l1_message_executed p nonce)) L1MessageAlreadyExecuted ;;?
  eput (set_ledger (set_l1_messages (union {[ nonce ]})));;;
  tx_execution_infos <-? execute_tx transaction config_new;;
  record_tx (bl1_tx_hash transaction) (TL1Handler input_transaction) tx_execution_infos.

Definition call_body (c : Call) : effr Pallet DispatchError unit :=
  match c with
  | set_sequencer_address addr => set_sequencer_address_call addr
  | invoke tx => invoke_call tx
  | declare tx cc => declare_call tx cc
  | deploy_account tx => deploy_account_call tx
  | consume_l1_message tx fee => consume_l1_message_call tx fee
  end.

(** Dispatch of a call.  Every call starts with [ensure_none]; FRAME runs a
    dispatchable in a storage layer and discards its writes when it returns an
    error. *)
Definition dispatch (o : Origin) (c : Call) : effr Pallet DispatchError unit :=
  fun p =>
    match (ensure_none o ;;? call_body c) p with
    | Ret (Ok tt, p') => Ret (Ok tt, p')
    | Ret (Err e, _) => Ret (Err e, p)
    | Panic => Panic
    end.

(** ** Hooks *)
Definition on_finalize : eff Pallet unit :=
  update <-- eget (fun p => default false (seq_addr_update (ledger p)));;
  eput (set_ledger (set_seq_addr_update None));;;
  eassert update ;;;
  p <-- eget id;;
  store_block (block_number p).

(** [frame_system] at the start of a block: the number goes up, digest and events
    are reset, the time inherent is set. *)
Definition initialize_block (digest : list DigestItem) (now : Z) (p : Pallet) : Pallet :=
  set_system (fun s => mk_system (sys_block_number s + 1) digest [] now (sys_schema s)) p.

(** ** Genesis *)
Record GenesisConfig := mk_genesis {
  gen_contracts : list (ContractAddress * ClassHash);
  gen_sierra_to_casm_class_hash : list (ClassHash * ClassHash);
  gen_contract_classes : list (ClassHash * ContractClass);
  gen_storage : list ((ContractAddress * StorageKey) * StarkFelt);
  gen_fee_token_address : ContractAddress;
}.

(** Empty storage at block zero. *)
Definition empty_pallet (now : Z) : Pallet :=
  mk_pallet _ (mk_world _ ∅ ∅ ∅ ∅ ∅)
    (mk_ledger [] [] ∅ ∅ ∅ ∅ None (mk_new stark_default) (mk_new stark_default) None ∅)
    (mk_system 0 [] [] now None).

Fixpoint efor_ {S A} (f : A -> eff S unit) (l : list A) : eff S unit :=
  match l with [] => eret tt | x :: l' => f x ;;; efor_ f l' end.

(** [frame_support::storage::unhashed::put] under [PALLET_STARKNET_SCHEMA]. *)
Definition put_schema (v : StarknetStorageSchemaVersion) (s : System) : System :=
  mk_system (sys_block_number s) (sys_digest s) (sys_events s) (sys_now s) (Some v).

Definition has_class (p : Pallet) (c : ClassHash) : bool := bool_decide (is_Some (contract_classes (world p) !! c)).

Definition genesis_build (g : GenesisConfig) : eff Pallet unit :=
  store_block 0 ;;;
  eput (set_system (put_schema V1)) ;;;
  efor_ (fun '(class_hash, contract_class) =>
           eput (set_world (set_contract_classes (insert class_hash contract_class)))) (gen_contract_classes g) ;;;
  efor_ (fun '(sierra, casm) =>
           p <-- eget id;; eassert (has_class p sierra) ;;;
           eput (set_world (set_compiled_class_hashes (insert sierra (mk_new (new0 casm))))))
        (gen_sierra_to_casm_class_hash g) ;;;
  efor_ (fun '(address, class_hash) =>
           p <-- eget id;; eassert (has_class p class_hash) ;;;
           eput (set_world (set_contract_class_hashes (insert address class_hash)))) (gen_contracts g) ;;;
  efor_ (fun '(key, value) => eput (set_world (set_storage_view (insert key value)))) (gen_storage g) ;;;
  eput (set_ledger (set_last_known_eth_block None)) ;;;
  eput (set_ledger (set_fee_token_address (gen_fee_token_address g))) ;;;
  eput (set_ledger (set_seq_addr_update (Some true))).

(** ** Read-only queries *)
Definition pallet_get_storage_at (contract_address : ContractAddress) (key : StorageKey) (p : Pallet)
  : result DispatchError StarkFelt :=
  if bool_decide (is_Some (contract_class_hashes (world p) !! contract_address))
  then Ok (storage p (contract_address, key)) else Err (PErr ContractNotFound).

Definition config_hash (p : Pallet) : outcome StarkFelt :=
  let! version := unwrap (from_byte_slice_be (bytes_of "StarknetOsConfig1")) in
  let! fee_token := felt_from_stark (new0 (fee_token_address (ledger p))) in
  Ret (to_stark (mk_felt (H_compute_hash_on_elements [version; felt0 ChainId; felt0 fee_token]))).

(** [call_contract]: the call runs on the live storage, and the changes it makes
    there are the caller's to discard. *)
Definition call_contract (address : ContractAddress) (function_selector : EntryPointSelector) (cd : Calldata)
  : effr Pallet DispatchError (list Felt252Wrapper) :=
  p <-- eget id;;
  let block_context := get_block_context p in
  class_hash <-? eret (ok_or (contract_class_hashes (world p) !! address) (PErr ContractNotFound));;
  let entrypoint := {|
    cep_class_hash := Some class_hash; cep_code_address := None; cep_entry_point_type := EPExternal;
    cep_entry_point_selector := function_selector; cep_calldata := cd; cep_storage_address := address;
    cep_caller_address := mk_new stark_default; cep_call_type := CTCall; cep_initial_gas := INITIAL_GAS |} in
  fun p =>
    match call_execute entrypoint
            ((adapter_default, p), resources_default,
             context_new block_context actx_default (bctx_invoke_tx_max_n_steps block_context)) with
    | Ret (Ok v, (_, p', _, _)) =>
        let! r := traverse felt_from_stark (cx_retdata (ci_execution v)) in Ret (Ok r, p')
    | Ret (Err _, (_, p', _, _)) => Ret (Err (PErr TransactionExecutionFailed), p')
    | Panic => Panic
    end.

End internal.
