(* ===== verification/PalletEffects.v ===== *)
(** * What the pallet's calls do to the storage

    Functional summaries of the dispatchables of [Pallet]: the events a
    transaction emits, the ledger entries it appends, and the way a dispatched
    call decomposes into guards, execution and recording. *)
From S2P Require Import Prelude Bytes Deps Felt Hashers Transactions ComputeHash Blockifier Conversions Fee.
From S2P Require Import Execution Block CallTrace PalletStorage Pallet.
Local Open Scope Z_scope.

(** The events of an optional call, in the order [emit_events_in_call_info]
    emits them, and all events of a transaction. *)
Definition call_emits (c : option CallInfo) : list StarknetEvent :=
  match c with
  | Some ci => map (fun x => mk_sev (fst x) (snd x)) (fst (walk call_events ci 0))
  | None => []
  end.
Definition call_sends (c : option CallInfo) : list MessageToL1 :=
  match c with
  | Some ci => map (fun x => mk_mtl1 (fst x) (mc_to_address (snd x)) (mc_payload (snd x)))
                 (fst (walk call_messages ci 0))
  | None => []
  end.
Definition tx_emits (i : TransactionExecutionInfo) : list StarknetEvent :=
  call_emits (tei_execute_call_info i) ++ call_emits (tei_fee_transfer_call_info i).
Definition tx_sends (i : TransactionExecutionInfo) : list MessageToL1 :=
  call_sends (tei_execute_call_info i) ++ call_sends (tei_fee_transfer_call_info i).

(** Appending a list under one hash: an absent entry stays absent when there is
    nothing to append. *)
Definition append_values {A} (h : TransactionHash) (xs : list A) (m : gmap TransactionHash (list A))
  : gmap TransactionHash (list A) := fold_left (fun m x => append_value h x m) xs m.

Definition deposit_events (es : list StarknetEvent) (s : System) : System := fold_left (fun s e => deposit_event e s) es s.

Section effects.
  Context `{CC : ContractClassI}.

(** A transaction recorded on top of a storage. *)
Definition recorded (h : TransactionHash) (tx : Transaction) (i : TransactionExecutionInfo) (p : Pallet) : Pallet :=
  let l := ledger p in
  mk_pallet _ (world p)
    (mk_ledger (pending l ++ [tx]) (pending_hashes l ++ [h]) (append_values h (tx_emits i) (tx_events l))
       (append_values h (tx_sends i) (tx_messages l))
       (partial_alter (fun _ => tei_revert_error i) h (tx_revert_error l)) (block_hash l)
       (last_known_eth_block l) (fee_token_address l) (sequencer_address l) (seq_addr_update l) (l1_messages l))
    (deposit_events (tx_emits i) (system p)).

Lemma emit_events_fold h evs p :
  fold_left (emit_event h) evs p =
  set_ledger (set_tx_events (append_values h (map (fun x => mk_sev (fst x) (snd x)) evs)))
    (set_system (deposit_events (map (fun x => mk_sev (fst x) (snd x)) evs)) p).
Proof.
  revert p. induction evs as [|x evs IH]; intros [w l s]; [by destruct l|]. cbn [fold_left]. rewrite IH.
  by destruct l.
Qed.

Lemma store_messages_fold h ms p :
  fold_left (store_message h) ms p =
  set_ledger (set_tx_messages (append_values h
    (map (fun x => mk_mtl1 (fst x) (mc_to_address (snd x)) (mc_payload (snd x))) ms))) p.
Proof.
  revert p. induction ms as [|x ms IH]; intros [w l s]; [by destruct l|]. cbn [fold_left]. rewrite IH.
  by destruct l.
Qed.

Lemma emit_and_store_opt_spec h c p :
  emit_and_store_opt h c p =
  Ret (tt, set_ledger (set_tx_messages (append_values h (call_sends c)))
             (set_ledger (set_tx_events (append_values h (call_emits c)))
                (set_system (deposit_events (call_emits c)) p))).
Proof.
  destruct c as [ci|]; cbn [emit_and_store_opt call_emits call_sends].
  - unfold ebind, emit_events_in_call_info, aggregate_messages_in_call_info, eret.
    destruct (walk call_events ci 0) as [evs n1]. rewrite emit_events_fold.
    destruct (walk call_messages ci 0) as [ms n2]. by rewrite store_messages_fold.
  - unfold eret. destruct p as [w [] s]. reflexivity.
Qed.

Lemma append_values_app {A} h (xs ys : list A) m :
  append_values h ys (append_values h xs m) = append_values h (xs ++ ys) m.
Proof. unfold append_values. by rewrite fold_left_app. Qed.

Lemma deposit_events_app xs ys s : deposit_events ys (deposit_events xs s) = deposit_events (xs ++ ys) s.
Proof. unfold deposit_events. by rewrite fold_left_app. Qed.

Lemma record_tx_spec h tx i p : record_tx h tx i p = Ret (Ok tt, recorded h tx i p).
Proof.
  unfold record_tx, emit_and_store_tx_and_fees_events, store_transaction, ebind, eput, eret.
  rewrite !emit_and_store_opt_spec. destruct p as [w l s]. destruct l. unfold recorded, tx_emits, tx_sends.
  rewrite <- !append_values_app, <- !deposit_events_app. reflexivity.
Qed.

Lemma append_values_lookup {A} h (xs : list A) m k :
  append_values h xs m !! k =
  if bool_decide (k = h /\ xs <> []) then Some (default [] (m !! h) ++ xs) else m !! k.
Proof.
  revert m. induction xs as [|x xs IH]; intros m; cbn [append_values fold_left].
  - rewrite bool_decide_false; [done|]. by intros [_ ?].
  - fold (append_values h xs (append_value h x m)). rewrite IH. unfold append_value.
    destruct (decide (k = h)) as [->|Hne].
    + rewrite (bool_decide_true (h = h /\ x :: xs <> [])) by done. rewrite lookup_insert_eq.
      cbn [default from_option id]. rewrite <- app_assoc.
      destruct (decide (xs = [])) as [->|Hx]; [by rewrite bool_decide_false by (by intros [_ ?])|].
      by rewrite bool_decide_true.
    + rewrite !bool_decide_false by (by intros [? _]). by rewrite lookup_insert_ne.
Qed.

Lemma deposit_events_spec es s :
  sys_block_number (deposit_events es s) = sys_block_number s
  /\ sys_digest (deposit_events es s) = sys_digest s
  /\ sys_now (deposit_events es s) = sys_now s
  /\ sys_schema (deposit_events es s) = sys_schema s
  /\ (sys_block_number s <> 0 -> sys_events (deposit_events es s) = sys_events s ++ es).
Proof.
  revert s. induction es as [|e es IH]; intros s; cbn [deposit_events fold_left];
    [split_and!; try done; by rewrite app_nil_r|].
  destruct (IH (deposit_event e s)) as (H1 & H2 & H3 & H5 & H4). fold (deposit_events es (deposit_event e s)).
  rewrite H1, H2, H3, H5. unfold deposit_event in *. destruct (sys_block_number s =? 0) eqn:E; zbool; [done|].
  cbn [sys_block_number sys_digest sys_now sys_events sys_schema] in *. split_and!; try done.
  intros _. rewrite H4 by done. by rewrite <- app_assoc.
Qed.

(** ** Taking the events of a block *)

(** Number of events in the map. *)
Definition events_total (m : gmap TransactionHash (list StarknetEvent)) : Z :=
  map_fold (fun _ evs acc => zlen evs + acc) 0 m.

Lemma events_total_empty : events_total ∅ = 0.
Proof. unfold events_total. by rewrite map_fold_empty. Qed.

Lemma events_total_delete m h evs : m !! h = Some evs -> events_total m = zlen evs + events_total (delete h m).
Proof.
  intros Hm. unfold events_total.
  apply (map_fold_delete_L (fun _ evs acc => zlen evs + acc)); [|done].
  intros. lia.
Qed.

Lemma events_total_append m h es : events_total (append_values h es m) = events_total m + zlen es.
Proof.
  destruct es as [|e es]; [change (events_total m = events_total m + 0); lia|].
  set (l := e :: es). assert (Hl : append_values h l m !! h = Some (default [] (m !! h) ++ l))
    by (rewrite append_values_lookup, bool_decide_true by done; done).
  rewrite (events_total_delete _ _ _ Hl).
  assert (Hd : delete h (append_values h l m) = delete h m).
  { apply map_eq. intros k. destruct (decide (k = h)) as [->|Hne]; [by rewrite !lookup_delete_eq|].
    rewrite !lookup_delete_ne, append_values_lookup, bool_decide_false by (done || by intros [? _]). done. }
  rewrite Hd, zlen_app. destruct (m !! h) as [evs|] eqn:Hm; cbn [default from_option id].
  - rewrite (events_total_delete _ _ _ Hm). lia.
  - rewrite delete_id by done. change (zlen ([] : list StarknetEvent)) with 0. lia.
Qed.

(** Taking the events of all hashes that occur in the map empties it, and yields
    each event once, even when a hash is listed twice. *)
Lemma take_events_all hs m :
  (forall h, is_Some (m !! h) -> h ∈ hs) ->
  snd (take_events hs m) = ∅ /\ zlen (fst (take_events hs m)) = events_total m.
Proof.
  revert m. induction hs as [|h hs IH]; intros m Hd; cbn [take_events].
  - assert (m = ∅) as -> by (apply map_empty; intros k; destruct (m !! k) eqn:E; [|done];
      exfalso; apply (not_elem_of_nil k), Hd; eauto).
    by rewrite events_total_empty.
  - destruct (take_events hs (delete h m)) as [evs m'] eqn:Ht. cbn [fst snd].
    destruct (IH (delete h m)) as [H1 H2].
    + intros k Hk. destruct (decide (k = h)) as [->|Hne]; [by rewrite lookup_delete_eq in Hk; destruct Hk|].
      rewrite lookup_delete_ne in Hk by done. apply Hd, elem_of_cons in Hk as [?|?]; done.
    + rewrite Ht in H1, H2. cbn [fst snd] in H1, H2. split; [done|]. rewrite zlen_app, H2.
      destruct (m !! h) as [l|] eqn:Hm; cbn [default from_option id].
      * by rewrite (events_total_delete _ _ _ Hm).
      * rewrite delete_id by done. done.
Qed.

End effects.

(** ** Dispatched calls, taken apart *)
Section dispatch.
  Context `{SF : StarknetFf} {SFL : StarknetFfLaws} `{SA : StarknetApi} {SAL : StarknetApiLaws}.
  Context `{PT : PrimitiveTypes} `{SC : StarknetCrypto} `{FX : FixedPoint} `{LC : LogCodec}.
  Context `{BL : Blockifier} {BLL : BlockifierLaws} {CFG : Config}.

(** The transaction a call carries, and the hash it is recorded under. *)
Definition call_tx (c : Call) : option Transaction :=
  match c with
  | set_sequencer_address _ => None
  | invoke tx => Some (TInvoke tx)
  | declare tx _ => Some (TDeclare tx)
  | deploy_account tx => Some (TDeployAccount tx)
  | consume_l1_message tx _ => Some (TL1Handler tx)
  end.

Definition tx_key (tx : Transaction) : TransactionHash := to_new TransactionHashT (tx_compute_hash tx ChainId false).

(** The nonce under which an L1 message is remembered. *)
Definition l1_key (t : HandleL1MessageTransaction) : Nonce := mk_new (stark_from_uint (l1_nonce t)).

(** The storage a transaction executes on: an L1 handler has its message marked
    first. *)
Definition prepared (c : Call) (p : Pallet) : Pallet :=
  match c with
  | consume_l1_message t _ => set_ledger (set_l1_messages (union {[ l1_key t ]})) p
  | _ => p
  end.

Lemma execute_tx_evolves {T : Type} `{!GetAccountTransactionContext T} `{!Execute AdapterState T}
    `{!FramedExecute T} (t : T) cfg p r p' :
  execute_tx t cfg p = Ret (r, p') -> nonces_canonical p -> evolves p p'.
Proof.
  unfold execute_tx. destruct (execute _ _ _ _) as [[r0 [ad p0]]|] eqn:He; [|done]. intros [= <- <-] Hn.
  exact (transacts_evolves _ _ (within_execute _ _ _ _ _ _ He) Hn).
Qed.

(** The common shape of the four transaction calls: guards, execution, record. *)
Lemma guarded_tx_inv {T : Type} `{!GetAccountTransactionContext T} `{!Execute AdapterState T} `{!FramedExecute T}
    (t : T) h tx p p' :
  (infos <-? execute_tx t config_new;; record_tx h tx infos) p = Ret (Ok tt, p') -> nonces_canonical p ->
  exists p1 infos, execute_tx t config_new p = Ret (Ok infos, p1) /\ evolves p p1 /\ p' = recorded h tx infos p1.
Proof.
  unfold etry, ebind. destruct (execute_tx t config_new p) as [[[infos|e] p1]|] eqn:He; [|done|done].
  rewrite record_tx_spec. intros [= <-] Hn. exists p1, infos. split_and!; [done| |done].
  by eapply execute_tx_evolves.
Qed.

Lemma ensure_inv {A} b e (k : effr Pallet DispatchError A) p a p' :
  (ensure b e ;;? k) p = Ret (Ok a, p') -> b = true /\ k p = Ret (Ok a, p').
Proof. unfold etry, ebind, ensure, eret. by destruct b. Qed.

Lemma dispatch_ok o c p p' :
  dispatch o c p = Ret (Ok tt, p') -> o = OriginNone /\ call_body c p = Ret (Ok tt, p').
Proof.
  unfold dispatch, etry, ebind, ensure_none, eret. destruct o; [|done|done].
  by destruct (call_body c p) as [[[[]|e] p1]|].
Qed.

Lemma dispatch_err o c p e p' : dispatch o c p = Ret (Err e, p') -> p' = p.
Proof. unfold dispatch. destruct ((ensure_none o ;;? call_body c) p) as [[[[]|e1] p1]|]; by intros [= ]. Qed.

(** A transaction that is dispatched successfully. *)
Lemma dispatch_tx_inv o c tx p p' :
  call_tx c = Some tx -> dispatch o c p = Ret (Ok tt, p') -> nonces_canonical p ->
  exists p1 infos,
    evolves (prepared c p) p1 /\ p' = recorded (tx_key tx) tx infos p1
    /\ (forall t fee, c = consume_l1_message t fee -> l1_key t ∉ l1_messages (ledger p)).
Proof.
  intros Hc Hd Hn. apply dispatch_ok in Hd as [_ Hb].
  destruct c as [addr|t|t cl|t|t fee]; simpl in Hc; simplify_eq; cbn [call_body] in Hb.
  - unfold invoke_call, ebind at 1, eget in Hb. apply ensure_inv in Hb as [_ Hb].
    destruct (guarded_tx_inv _ _ _ _ _ Hb Hn) as (p1 & infos & _ & He & ->). exists p1, infos. done.
  - unfold declare_call, ebind at 1, eget in Hb.
    destruct (declare_try_into_executable t ChainId cl false) as [d|e] eqn:Hd.
    + change (map_err _ (Ok d)) with (Ok (E := DispatchError) d) in Hb.
      unfold etry at 1, ebind at 1, eret at 1 in Hb.
      apply ensure_inv in Hb as [_ Hb]. apply ensure_inv in Hb as [_ Hb].
      destruct (guarded_tx_inv _ _ _ _ _ Hb Hn) as (p1 & infos & _ & He & ->). exists p1, infos.
      split_and!; [done| |done]. f_equal. unfold declare_try_into_executable in Hd.
      apply declare_new_ok in Hd as ->. done.
    + done.
  - unfold deploy_account_call, ebind at 1, eget in Hb. apply ensure_inv in Hb as [_ Hb].
    destruct (guarded_tx_inv _ _ _ _ _ Hb Hn) as (p1 & infos & _ & He & ->). exists p1, infos. done.
  - unfold consume_l1_message_call, ebind at 1, eget in Hb. apply ensure_inv in Hb as [Hf Hb].
    unfold ebind at 1, eput in Hb.
    destruct (guarded_tx_inv _ _ _ _ _ Hb Hn) as (p1 & infos & _ & He & ->). exists p1, infos.
    split_and!; [done|done|]. intros t0 fee0 [= <- <-]. unfold is_l1_message_executed in Hf.
    apply negb_true_iff, bool_decide_eq_false in Hf. exact Hf.
Qed.

(** The inherent that is dispatched successfully. *)
Lemma dispatch_seq_inv o addr p p' :
  dispatch o (set_sequencer_address addr) p = Ret (Ok tt, p') ->
  (1 < block_number p -> seq_addr_update (ledger p) = None)
  /\ exists a, stark_new addr = Some a /\ patricia_check a = true
     /\ p' = set_ledger (set_seq_addr_update (Some true)) (set_ledger (put_sequencer_address (mk_new a)) p).
Proof.
  intros Hd. apply dispatch_ok in Hd as [_ Hb]. cbn [call_body] in Hb.
  unfold set_sequencer_address_call, ebind at 1, eget in Hb. cbn [id] in Hb. unfold ebind at 1 in Hb.
  assert (Ha : (1 < block_number p -> seq_addr_update (ledger p) = None)
    /\ (addr0 <-? eret (ok_or (stark_new addr) (PErr SequencerAddressNotValid));;
        ensure (patricia_check addr0) SequencerAddressNotValid ;;?
        eput (set_ledger (put_sequencer_address (mk_new addr0)));;;
        eput (set_ledger (set_seq_addr_update (Some true)));;; eret (Ok tt)) p = Ret (Ok tt, p')).
  { destruct (1 <? block_number p) eqn:E; zbool.
    - unfold eassert in Hb. case_bool_decide as Hs; [done|]. split; [|exact Hb]. intros _.
      destruct (seq_addr_update (ledger p)); [by destruct Hs|done].
    - unfold eret at 1 in Hb. split; [lia|exact Hb]. }
  destruct Ha as [H1 H2]. split; [done|]. destruct (stark_new addr) as [a|]; [|done].
  unfold etry at 1, ebind at 1, eret at 1 in H2. cbn [ok_or] in H2. apply ensure_inv in H2 as [Hp H2].
  exists a. split_and!; [done|done|]. unfold ebind, eput, eret in H2. by simplify_eq.
Qed.

End dispatch.
