(* ===== verification/PalletProperties.v ===== *)
(** * Properties of the pallet's operations

    Theorems about single operations of the pallet: the order of emitted events
    and messages, the progress of account nonces, the guards of the calls, the
    state adapter, and the execution configurations. *)
From S2P Require Import Prelude Bytes Deps Felt Hashers Transactions ComputeHash Blockifier Conversions Fee.
From S2P Require Import Execution Block CallTrace PalletStorage Pallet PalletEffects.
Local Open Scope Z_scope.

Section properties.
  Context `{SF : StarknetFf} {SFL : StarknetFfLaws} `{SA : StarknetApi} {SAL : StarknetApiLaws}.
  Context `{PT : PrimitiveTypes} `{SC : StarknetCrypto} `{FX : FixedPoint} `{LC : LogCodec}.
  Context `{BL : Blockifier} {BLL : BlockifierLaws} {CFG : Config}.

(** C2: events and messages come out in the order of execution.  For the call
    information of any execution, in which a call produces items and makes
    inner calls in some order and a counter shared by the whole tree numbers
    the items, [emit_events_in_call_info] appends to the transaction's events
    exactly the items of the tree in the order they were produced, each with
    the address of the contract that produced it, and returns their number;
    [aggregate_messages_in_call_info] does the same for messages to L1. *)
Theorem events_in_execution_order (h : TransactionHash) (p : Pallet) (ci : CallInfo)
    (te : trace (I := EventContent)) (tm : trace (I := MessageContent)) :
  (records call_events te 0 ci ->
   exists p', emit_events_in_call_info h ci 0 p = Ret (count te, p')
   /\ default [] (tx_events (ledger p') !! h)
      = default [] (tx_events (ledger p) !! h) ++ map (fun x => mk_sev (fst x) (snd x)) (produced te)
   /\ world p' = world p /\ tx_messages (ledger p') = tx_messages (ledger p))
  /\ (records call_messages tm 0 ci ->
      exists p', aggregate_messages_in_call_info h ci 0 p = Ret (count tm, p')
      /\ default [] (tx_messages (ledger p') !! h)
         = default [] (tx_messages (ledger p) !! h)
           ++ map (fun x => mk_mtl1 (fst x) (mc_to_address (snd x)) (mc_payload (snd x))) (produced tm)
      /\ world p' = world p /\ tx_events (ledger p') = tx_events (ledger p)).
Proof.
  assert (Hd : forall A (l : list A) m, default [] (append_values h l m !! h) = default [] (m !! h) ++ l).
  { intros A l m. rewrite append_values_lookup. case_bool_decide as Hb; [done|].
    destruct l; [by rewrite app_nil_r|by destruct Hb]. }
  split; intros Hr; apply walk_records in Hr.
  - unfold emit_events_in_call_info. rewrite Hr, emit_events_fold. eexists. split; [done|]. split; [|done].
    apply Hd.
  - unfold aggregate_messages_in_call_info. rewrite Hr, store_messages_fold. eexists. split; [done|]. split; [|done].
    apply Hd.
Qed.

(** ** Nonces *)

(** The account and nonce of the transactions that carry one. *)
Definition tx_account (tx : Transaction) : option (Felt252Wrapper * Felt252Wrapper) :=
  match tx with
  | TInvoke (InvokeV1 t) => Some (iv1_sender_address t, iv1_nonce t)
  | TDeclare (DeclareV1 t) => Some (dv1_sender_address t, dv1_nonce t)
  | TDeclare (DeclareV2 t) => Some (dv2_sender_address t, dv2_nonce t)
  | TDeployAccount t => Some (account_address t, da_nonce t)
  | _ => None
  end.

Lemma stark_from_uint_nonzero n : 0 < n < 2 ^ 128 -> stark_from_uint n <> stark_from_uint 0.
Proof.
  intros Hn H. apply (f_equal stark_val) in H. unfold stark_val in H.
  rewrite !stark_from_uint_val in H by lia. lia.
Qed.

Lemma stark_val_to_stark f : stark_val (to_stark f) = felt_val f.
Proof. apply felt_to_array_val. Qed.

Lemma execute_tx_nonce {T : Type} `{!GetAccountTransactionContext T} `{!Execute AdapterState T} `{!FramedExecute T}
    (t : T) p p1 infos actx v n :
  DisableNonceValidation = false -> nonces_canonical p ->
  execute_tx t config_new p = Ret (Ok infos, p1) ->
  get_account_transaction_context t false = Ret actx ->
  actx_version actx = mk_new (stark_from_uint v) -> 0 < v < 2 ^ 128 -> actx_nonce actx = to_new NonceT n ->
  nonce_val p (actx_sender_address actx) = felt_val n
  /\ nonce_val p1 (actx_sender_address actx) = (felt_val n + 1) mod P
  /\ forall b, b <> actx_sender_address actx -> nonce p1 b = nonce p b.
Proof.
  intros Hd Hc Hx Hctx Hv Hr Hn. revert Hx. unfold execute_tx.
  destruct (execute _ _ _ _) as [[r0 [ad p0]]|] eqn:He; [|done]. intros Heq.
  assert (Hr0 : r0 = Ok infos /\ p0 = p1) by (destruct r0; by simplify_eq/=). destruct Hr0 as [-> ->]. clear Heq.
  set (a := actx_sender_address actx) in *.
  destruct (execute_ok_nonce t (get_block_context p) config_new actx (adapter_default, p) (adapter_default, p)
              (nonce p a) infos (ad, p1)) as [Hcur (s2 & Hi & Hreach)]; try done.
  { rewrite Hv. intros Heq. injection Heq. by apply stark_from_uint_nonzero. }
  destruct (increment_nonce_spec adapter_default p a Hc) as (f & Hf & Vf).
  fold a in Hi. rewrite Hf in Hi. simplify_eq.
  assert (Hval : nonce_val p a = felt_val n).
  { unfold nonce_val. rewrite Hcur, Hn. apply stark_val_to_stark. }
  destruct (reaches_quiet _ _ Hreach) as (_ & _ & Hq). cbn [snd world set_world set_nonces nonces] in Hq.
  split; [done|]. unfold nonce_val, nonce. rewrite Hq. split.
  - rewrite lookup_insert_eq. cbn [default from_option id to_new new0]. by rewrite stark_val_to_stark, Vf, Hval.
  - intros b Hb. by rewrite lookup_insert_ne.
Qed.

(** Applies [execute_tx_nonce] to a transaction with version [v] and nonce [n]. *)
Ltac account_nonce Hv Hn Hx v n :=
  match type of Hx with
  | execute_tx ?t _ ?p = Ret (Ok ?infos, ?p1) =>
      let H := fresh in
      assert (H : exists actx, get_account_transaction_context t false = Ret actx) by (eexists; reflexivity);
      destruct H as [actx H]; pose proof (execute_tx_nonce t p p1 infos actx v n Hv Hn Hx H) as Hnonce;
      injection H as <-; apply Hnonce; [reflexivity|lia|reflexivity]
  end.

(** A dispatched account transaction carried the stored nonce and incremented it. *)
Lemma dispatch_nonce (c : Call) (tx : Transaction) (p p' : Pallet) (a n : Felt252Wrapper) :
  DisableNonceValidation = false -> nonces_canonical p ->
  call_tx c = Some tx -> tx_account tx = Some (a, n) ->
  dispatch OriginNone c p = Ret (Ok tt, p') ->
  nonce_val p (to_new ContractAddressT a) = felt_val n
  /\ nonce_val p' (to_new ContractAddressT a) = (felt_val n + 1) mod P
  /\ forall b, b <> to_new ContractAddressT a -> nonce p' b = nonce p b.
Proof.
  intros Hv Hn Hc Ha Hd. apply dispatch_ok in Hd as [_ Hb].
  destruct c as [addr|t|t cl|t|t fee]; simpl in Hc; simplify_eq; cbn [call_body] in Hb; simpl in Ha.
  - unfold invoke_call, ebind at 1, eget in Hb. apply ensure_inv in Hb as [_ Hb].
    destruct (guarded_tx_inv _ _ _ _ _ Hb Hn) as (p1 & infos & Hx & _ & ->). destruct t as [t|t]; [done|].
    injection Ha as <- <-. account_nonce Hv Hn Hx 1 (iv1_nonce t).
  - unfold declare_call, ebind at 1, eget in Hb.
    destruct (declare_try_into_executable t ChainId cl false) as [d|e] eqn:Hd; [|done].
    change (map_err _ (Ok d)) with (Ok (E := DispatchError) d) in Hb. unfold etry at 1, ebind at 1, eret at 1 in Hb.
    apply ensure_inv in Hb as [_ Hb]. apply ensure_inv in Hb as [_ Hb].
    destruct (guarded_tx_inv _ _ _ _ _ Hb Hn) as (p1 & infos & Hx & _ & ->).
    unfold declare_try_into_executable in Hd. apply declare_new_ok in Hd as ->.
    destruct t as [t|t|t]; [done| |]; injection Ha as <- <-.
    + account_nonce Hv Hn Hx 1 (dv1_nonce t).
    + account_nonce Hv Hn Hx 2 (dv2_nonce t).
  - unfold deploy_account_call, ebind at 1, eget in Hb. apply ensure_inv in Hb as [_ Hb].
    destruct (guarded_tx_inv _ _ _ _ _ Hb Hn) as (p1 & infos & Hx & _ & ->). injection Ha as <- <-.
    account_nonce Hv Hn Hx 1 (da_nonce t).
Qed.

(** C33: every accepted account transaction uses up its nonce.  With nonce
    validation on, an invoke of version 1, a declare of version 1 or 2 or a
    deploy-account that is dispatched successfully carried exactly the nonce
    stored for its account; afterwards that nonce is one higher, in the field, and
    every other nonce is what it was.  Contract code does not write nonces, which is
    a law of the virtual machine. *)
Theorem nonce_advances (c : Call) (tx : Transaction) (p p' : Pallet) (a n : Felt252Wrapper) :
  DisableNonceValidation = false -> nonces_canonical p ->
  call_tx c = Some tx -> tx_account tx = Some (a, n) ->
  dispatch OriginNone c p = Ret (Ok tt, p') ->
  nonce_val p (to_new ContractAddressT a) = felt_val n
  /\ nonce_val p' (to_new ContractAddressT a) = (felt_val n + 1) mod P
  /\ forall b, b <> to_new ContractAddressT a -> nonce p' b = nonce p b.
Proof. apply dispatch_nonce. Qed.

(** ** The state adapter *)

(** A sequence of storage writes through the adapter. *)
Definition Writes : Type := list ((ContractAddress * StorageKey) * StarkFelt).

Definition write_all (ws : Writes) : eff AdapterState unit :=
  fold_right (fun w k => set_storage_at (fst (fst w)) (snd (fst w)) (snd w) ;;; k) (eret tt) ws.

(** The last value written to each key. *)
Definition last_writes (ws : Writes)
  : gmap (ContractAddress * StorageKey) StarkFelt :=
  fold_left (fun m w => <[fst w := snd w]> m) ws ∅.

Lemma last_writes_from (ws : Writes) (m : gmap (ContractAddress * StorageKey) StarkFelt) :
  fold_left (fun m w => <[fst w := snd w]> m) ws m = last_writes ws ∪ m.
Proof.
  unfold last_writes. induction ws as [|w ws IH] using rev_ind; cbn [fold_left]; [by rewrite (left_id_L ∅ (∪))|].
  rewrite !fold_left_app. cbn [fold_left]. by rewrite IH, insert_union_l.
Qed.

Lemma write_all_spec (ws : Writes) (ad : Adapter) (p : Pallet) :
  write_all ws (ad, p)
  = Ret (tt, (mk_adapter (last_writes ws ∪ storage_update ad) (class_hash_update ad) (compiled_class_hash_update ad),
              set_world (set_storage_view (union (last_writes ws))) p)).
Proof.
  revert ad p. induction ws as [|[[a k] v] ws IH]; intros ad p.
  - cbn. unfold last_writes. cbn [fold_left]. rewrite (left_id_L ∅ (∪)). destruct ad, p as [w l s].
    unfold eret, set_world, set_storage_view. cbn. rewrite (left_id_L ∅ (∪)). by destruct w.
  - cbn [write_all fold_right]. unfold ebind. cbn [set_storage_at adapter_state fst snd].
    unfold adapter_set_storage_at, eput. fold (write_all ws). rewrite IH.
    cbn [storage_update class_hash_update compiled_class_hash_update].
    assert (Hu : forall m, last_writes ws ∪ <[(a, k) := v]> m = last_writes ((a, k, v) :: ws) ∪ m).
    { intros m. rewrite <- !last_writes_from. reflexivity. }
    rewrite Hu. do 3 f_equal. unfold set_world, set_storage_view. cbn. by rewrite Hu.
Qed.

(** The adapter behaves as a map over the storage and counts the changes.
    After any sequence of writes through a fresh adapter, a read returns the
    last value written to its key, and the stored value for every other key;
    the reported storage updates are the number of distinct keys written and
    the reported modified contracts the number of distinct contracts, however
    often each was written. *)
Theorem adapter_storage_map (ws : Writes) (p : Pallet)
    (a : ContractAddress) (k : StorageKey) :
  exists s', write_all ws (adapter_default, p) = Ret (tt, s')
  /\ get_storage_at a k s' = Ret (Ok (default (storage p (a, k)) (last_writes ws !! (a, k))), s')
  /\ n_storage_updates (count_state_changes s') = Z.of_nat (size (last_writes ws))
  /\ n_modified_contracts (count_state_changes s')
     = Z.of_nat (size (set_map fst (dom (last_writes ws)) : gset ContractAddress))
  /\ n_class_hash_updates (count_state_changes s') = 0.
Proof.
  rewrite write_all_spec. eexists. split; [done|]. cbn [adapter_default storage_update].
  rewrite (right_id_L ∅ (∪)). split_and!.
  - cbn [get_storage_at adapter_state]. unfold eget, storage. cbn [snd world set_world set_storage_view storage_view].
    rewrite lookup_union. destruct (last_writes ws !! (a, k)); by destruct (storage_view (world p) !! (a, k)).
  - cbn [count_state_changes adapter_state_changes adapter_count_state_changes n_storage_updates fst storage_update].
    unfold zlen. rewrite length_map. by rewrite length_map_to_list.
  - cbn [count_state_changes adapter_state_changes adapter_count_state_changes n_modified_contracts fst storage_update].
    unfold zlen. f_equal. rewrite <- (size_list_to_set (C := gset ContractAddress)) by apply NoDup_remove_dups.
    f_equal. apply set_eq. intros x. rewrite elem_of_list_to_set, elem_of_remove_dups, list_elem_of_fmap, elem_of_map.
    split.
    + intros (kk & -> & Hk). apply list_elem_of_fmap in Hk as ([k0 v0] & -> & Hk). apply elem_of_map_to_list in Hk.
      exists k0. split; [done|]. by apply elem_of_dom_2 in Hk.
    + intros (kk & -> & Hk). apply elem_of_dom in Hk as [v Hv]. exists kk. split; [done|].
      apply list_elem_of_fmap. exists (kk, v). split; [done|]. by apply elem_of_map_to_list.
  - reflexivity.
Qed.

End properties.
