(* ===== verification/Chain.v ===== *)
(** * The chain: blocks built by the pallet

    The pallet as a state machine: genesis, then for each block an
    initialization, any sequence of dispatched calls, successful or not, and a
    finalization that seals a Starknet block in the digest.  Invariants of all
    reachable states, by induction on the steps, and the theorems that follow:
    the blocks form a hash chain, headers count what the block contains, hashes
    and transactions stay aligned, L1 messages are consumed once, and a block
    with its sequencer address set always finalizes. *)
From S2P Require Import Prelude Bytes Deps Felt Hashers Transactions ComputeHash Blockifier Conversions Fee.
From S2P Require Import Execution Block CallTrace PalletStorage Pallet PalletEffects.
Local Open Scope Z_scope.

(** Between blocks, or in the middle of one. *)
Inductive Phase := Idle | Building.

(** The phase, the storage, and the Starknet blocks sealed so far, oldest first. *)
Record Chain `{ContractClassI} := mk_chain { phase : Phase; state : Pallet; sealed : list Block }.

Section chain.
  Context `{SF : StarknetFf} {SFL : StarknetFfLaws} `{SA : StarknetApi} {SAL : StarknetApiLaws}.
  Context `{PT : PrimitiveTypes} {PTL : PrimitiveTypesLaws} `{SC : StarknetCrypto}.
  Context `{FX : FixedPoint} `{LC : LogCodec} {LCL : LogCodecLaws}.
  Context `{BL : Blockifier} {BLL : BlockifierLaws} {CFG : Config}.

(** The block sealed by a step is the one read back from the digest. *)
Inductive step : Chain -> Chain -> Prop :=
| step_initialize p bs digest now :
    omap try_to_log digest = [] ->
    in_width 64 now = true ->
    sys_block_number (system p) + 1 < 2 ^ 32 ->
    step (mk_chain _ Idle p bs) (mk_chain _ Building (initialize_block digest now p) bs)
| step_dispatch p bs o c r p' :
    dispatch o c p = Ret (r, p') ->
    step (mk_chain _ Building p bs) (mk_chain _ Building p' bs)
| step_finalize p bs p' b :
    on_finalize p = Ret (tt, p') ->
    find_starknet_block (sys_digest (system p')) = Ok b ->
    step (mk_chain _ Building p bs) (mk_chain _ Idle p' (bs ++ [b])).

Inductive initial : Chain -> Prop :=
| initial_genesis g now p b :
    in_width 64 now = true ->
    genesis_build g (empty_pallet now) = Ret (tt, p) ->
    find_starknet_block (sys_digest (system p)) = Ok b ->
    initial (mk_chain _ Idle p [b]).

Inductive reachable : Chain -> Prop :=
| reachable_initial c : initial c -> reachable c
| reachable_step c c' : reachable c -> step c c' -> reachable c'.

(** ** The invariant *)

(** Block [i] of the chain: its number, its hash in the storage, its link to the
    previous block, and its transaction count. *)
Record linked (bs : list Block) (hashes : gmap Z Felt252Wrapper) (i : nat) (b : Block) : Prop := mk_linked {
  lk_number : h_block_number (b_header b) = Z.of_nat i;
  lk_hash : exists h, hashes !! Z.of_nat i = Some h /\ header_hash (b_header b) = Ret h;
  lk_parent : match i with
              | O => h_parent_block_hash (b_header b) = to_stark ZERO
              | S j => exists b' h', bs !! j = Some b' /\ header_hash (b_header b') = Ret h'
                       /\ h_parent_block_hash (b_header b) = to_stark h'
              end;
  lk_count : h_transaction_count (b_header b) = zlen (b_transactions b);
}.

(** The L1 messages consumed by a list of transactions. *)
Definition l1_keys (txs : list Transaction) : list Nonce :=
  omap (fun t => match t with TL1Handler m => Some (l1_key m) | _ => None end) txs.

Definition chain_txs (c : Chain) : list Transaction :=
  concat (map b_transactions (sealed c)) ++ pending (ledger (state c)).

Record chain_inv (c : Chain) : Prop := mk_chain_inv {
  ci_linked : forall i b, sealed c !! i = Some b -> linked (sealed c) (block_hash (ledger (state c))) i b;
  ci_length : zlen (sealed c) = sys_block_number (system (state c)) + (match phase c with Idle => 1 | Building => 0 end);
  ci_number : 0 <= sys_block_number (system (state c)) < 2 ^ 32;
  ci_now : in_width 64 (sys_now (system (state c))) = true;
  ci_hashes : pending_hashes (ledger (state c)) = map tx_key (pending (ledger (state c)));
  ci_events : forall h, is_Some (tx_events (ledger (state c)) !! h) -> h ∈ pending_hashes (ledger (state c));
  ci_canonical : nonces_canonical (state c);
  ci_sequencer : stark_canonical (new0 (sequencer_address (ledger (state c))));
  ci_l1_once : NoDup (l1_keys (chain_txs c));
  ci_l1_marked : forall n, n ∈ l1_keys (chain_txs c) -> n ∈ l1_messages (ledger (state c));
  ci_idle : phase c = Idle ->
    pending (ledger (state c)) = [] /\ tx_events (ledger (state c)) = ∅
    /\ (seq_addr_update (ledger (state c)) = if sys_block_number (system (state c)) =? 0 then Some true else None);
  ci_building : phase c = Building ->
    1 <= sys_block_number (system (state c))
    /\ omap try_to_log (sys_digest (system (state c))) = []
    /\ zlen (sys_events (system (state c))) = events_total (tx_events (ledger (state c)));
  ci_schema : sys_schema (system (state c)) = Some V1;
}.

(** ** Sealing a block *)
Definition with_block (p : Pallet) (n : Z) (h : Felt252Wrapper) : Pallet :=
  let l := ledger p in
  mk_pallet _ (world p)
    (mk_ledger [] [] (snd (take_events (pending_hashes l) (tx_events l))) (tx_messages l) (tx_revert_error l)
       (<[n := h]> (block_hash l)) (last_known_eth_block l) (fee_token_address l) (sequencer_address l)
       (seq_addr_update l) (l1_messages l))
    (deposit_log (block_digest (new_block p n)) (system p)).

Lemma store_block_inv n p p' :
  store_block n p = Ret (tt, p') ->
  length (pending (ledger p)) = length (pending_hashes (ledger p))
  /\ exists h, header_hash (b_header (new_block p n)) = Ret h /\ p' = with_block p n h.
Proof.
  unfold store_block, ebind, eget, eassert, eput, elift. cbn [id].
  destruct (_ =? _)%nat eqn:E; [|done]. apply Nat.eqb_eq in E.
  destruct (header_hash (b_header (new_block p n))) as [h|]; [|done].
  intros [= <-]. split; [done|]. exists h. split; [done|]. destruct p as [w [] s]. reflexivity.
Qed.

Lemma on_finalize_spec p :
  on_finalize p =
  match seq_addr_update (ledger p) with
  | Some true => store_block (block_number p) (set_ledger (set_seq_addr_update None) p)
  | _ => Panic
  end.
Proof.
  unfold on_finalize, ebind, eget, eput, eassert.
  by destruct (seq_addr_update (ledger p)) as [[]|]; cbn [default from_option id].
Qed.

Lemma on_finalize_inv p p' :
  on_finalize p = Ret (tt, p') ->
  seq_addr_update (ledger p) = Some true
  /\ exists h, let q := set_ledger (set_seq_addr_update None) p in
       header_hash (b_header (new_block p (block_number p))) = Ret h /\ p' = with_block q (block_number p) h.
Proof.
  rewrite on_finalize_spec. destruct (seq_addr_update (ledger p)) as [[]|]; [|done|done].
  intros H. apply store_block_inv in H as [_ (h & Hh & ->)].
  split; [done|]. exists h. split; [exact Hh|]. reflexivity.
Qed.

(** The digest of a sealed block has the block, and only it. *)
Lemma sealed_digest p n h b :
  omap try_to_log (sys_digest (system p)) = [] ->
  find_starknet_block (sys_digest (system (with_block p n h))) = Ok b -> b = new_block p n.
Proof.
  intros Hd. unfold find_starknet_block. cbn [with_block system deposit_log sys_digest].
  rewrite find_log_spec, omap_app, Hd. cbn [omap list_omap app]. rewrite try_to_log_block.
  cbn [result_map]. by intros [= <-].
Qed.

Lemma find_sealed_block p n h :
  omap try_to_log (sys_digest (system p)) = [] ->
  find_starknet_block (sys_digest (system (with_block p n h))) = Ok (new_block p n).
Proof.
  intros Hd. unfold find_starknet_block. cbn [with_block system deposit_log sys_digest].
  rewrite find_log_spec, omap_app, Hd. cbn [omap list_omap app]. by rewrite try_to_log_block.
Qed.

(** Adding the next block keeps the links. *)
Lemma linked_extend bs (hashes : gmap Z Felt252Wrapper) b h :
  (forall i b, bs !! i = Some b -> linked bs hashes i b) ->
  linked (bs ++ [b]) (<[zlen bs := h]> hashes) (length bs) b ->
  forall i b', (bs ++ [b]) !! i = Some b' -> linked (bs ++ [b]) (<[zlen bs := h]> hashes) i b'.
Proof.
  intros Hold Hnew i b' Hi. destruct (decide (i < length bs)%nat) as [Hlt|Hge].
  - rewrite lookup_app_l in Hi by done. destruct (Hold _ _ Hi) as [L1 L2 L3 L4]. constructor; [done| | |done].
    + rewrite lookup_insert_ne; [done|]. unfold zlen. lia.
    + destruct i as [|j]; [done|]. destruct L3 as (b0 & h0 & Hb & Hrest). exists b0, h0. split; [|done].
      rewrite lookup_app_l; [done|]. lia.
  - rewrite lookup_app_r in Hi by lia. assert (i = length bs) as ->.
    { apply lookup_lt_Some in Hi. simpl in Hi. lia. }
    rewrite Nat.sub_diag in Hi. simpl in Hi. by simplify_eq.
Qed.

(** ** The invariant holds *)

(** The loops of the genesis build touch only classes, contracts and storage. *)
Definition same_ledger (p p' : Pallet) : Prop :=
  ledger p' = ledger p /\ system p' = system p /\ nonces (world p') = nonces (world p).

#[local] Instance same_ledger_preorder : PreOrder same_ledger.
Proof. split; [done|]. intros p q r (?&?&?) (?&?&?). split_and!; congruence. Qed.

Lemma within_efor_ {A} (f : A -> eff Pallet unit) l :
  (forall x, within same_ledger (f x)) -> within same_ledger (efor_ f l).
Proof.
  intros Hf. induction l as [|x l IH]; cbn [efor_]; [apply within_ret, _|].
  apply within_bind; [apply _|apply Hf|done].
Qed.

Lemma within_put_world f :
  (forall w, nonces (f w) = nonces w) -> within same_ledger (eput (set_world f)).
Proof. intros Hf p [] p'. unfold eput. intros [= <-]. split_and!; [done|done|apply Hf]. Qed.

Lemma within_checked_put c f :
  (forall w, nonces (f w) = nonces w) ->
  within same_ledger (p <-- eget id;; eassert (has_class p c) ;;; eput (set_world f)).
Proof.
  intros Hf. apply within_bind; [apply _|apply within_get, _|]. intros p.
  apply within_bind; [apply _|apply within_assert, _|]. intros _. by apply within_put_world.
Qed.

Lemma genesis_build_inv g p p' :
  genesis_build g p = Ret (tt, p') ->
  exists h w, header_hash (b_header (new_block p 0)) = Ret h
    /\ nonces w = nonces (world p)
    /\ p' = set_ledger (set_seq_addr_update (Some true))
              (set_ledger (set_fee_token_address (gen_fee_token_address g))
                (set_ledger (set_last_known_eth_block None) (set_world (fun _ => w) (set_system (put_schema V1) (with_block p 0 h))))).
Proof.
  unfold genesis_build. unfold ebind at 1. destruct (store_block 0 p) as [[[] p1]|] eqn:Hs; [|done].
  apply store_block_inv in Hs as [_ (h & Hh & ->)]. intros H.
  unfold ebind at 1, eput at 1 in H. set (q := set_system (put_schema V1) (with_block p 0 h)) in *.
  unfold ebind at 1 in H.
  destruct (efor_ _ (gen_contract_classes g) q) as [[[] q1]|] eqn:E1; [|done]. unfold ebind at 1 in H.
  destruct (efor_ _ (gen_sierra_to_casm_class_hash g) q1) as [[[] q2]|] eqn:E2; [|done]. unfold ebind at 1 in H.
  destruct (efor_ _ (gen_contracts g) q2) as [[[] q3]|] eqn:E3; [|done]. unfold ebind at 1 in H.
  destruct (efor_ _ (gen_storage g) q3) as [[[] q4]|] eqn:E4; [|done].
  assert (Hw : same_ledger q q4).
  { transitivity q1; [|transitivity q2; [|transitivity q3]];
      [revert E1|revert E2|revert E3|revert E4]; apply within_efor_; intros [? ?];
      (apply within_put_world || apply within_checked_put); done. }
  destruct Hw as (Hl & Hsys & Hn). unfold ebind, eput in H. simplify_eq.
  exists h, (world q4). split_and!; [done|done|]. destruct q4 as [w4 l4 s4]. cbn in Hl, Hsys. by subst.
Qed.

Lemma initial_inv c : initial c -> chain_inv c.
Proof.
  intros [g now p b Hnow Hg Hb]. apply genesis_build_inv in Hg as (h & w & Hh & Hn & ->).
  assert (b = new_block (empty_pallet now) 0) as -> by (by apply (sealed_digest _ _ h)).
  constructor; try done.
  - intros [|[|i]] b Hi; [|done|done]. injection Hi as <-. constructor; [done| |done|done].
    exists h. split; [|exact Hh]. apply lookup_insert_eq.
  - intros k [x Hx]. cbn in Hx. by rewrite lookup_empty in Hx.
  - unfold nonces_canonical. cbn [state world set_ledger set_world]. rewrite Hn. apply map_Forall_empty.
  - constructor.
  - intros n Hx. by apply not_elem_of_nil in Hx.
Qed.

Lemma initialize_inv p bs digest now :
  chain_inv (mk_chain _ Idle p bs) ->
  omap try_to_log digest = [] -> in_width 64 now = true -> sys_block_number (system p) + 1 < 2 ^ 32 ->
  chain_inv (mk_chain _ Building (initialize_block digest now p) bs).
Proof.
  intros [I1 I2 I3 I4 I5 I6 I7 I8 I9 I10 I11 I12 I13] Hd Hnow Hb. cbn in *.
  destruct (I11 eq_refl) as (Hp & He & _).
  constructor; cbn; try done; try lia.
  intros _. split_and!; [lia|done|]. by rewrite He, events_total_empty.
Qed.

Lemma l1_keys_app txs txs' : l1_keys (txs ++ txs') = l1_keys txs ++ l1_keys txs'.
Proof. apply omap_app. Qed.

(** A recorded transaction keeps the invariant. *)
Lemma recorded_inv c tx p p1 infos bs :
  chain_inv (mk_chain _ Building p bs) -> call_tx c = Some tx -> evolves (prepared c p) p1 ->
  (forall t fee, c = consume_l1_message t fee -> l1_key t ∉ l1_messages (ledger p)) ->
  chain_inv (mk_chain _ Building (recorded (tx_key tx) tx infos p1) bs).
Proof.
  intros [I1 I2 I3 I4 I5 I6 I7 I8 I9 I10 I11 I12 I13] Hc [El Es Ec] Hfresh. cbn [phase state sealed] in *.
  assert (Hsys : system p1 = system p) by (rewrite Es; by destruct c).
  assert (Hled : exists f, ledger p1 = set_l1_messages f (ledger p)
     /\ (forall n, n ∈ l1_messages (ledger p) -> n ∈ l1_messages (ledger p1))
     /\ (forall n, n ∈ l1_keys [tx] -> n ∈ l1_messages (ledger p1) /\ n ∉ l1_messages (ledger p))).
  { rewrite El. destruct c; simpl in Hc; simplify_eq; cbn [prepared];
      try (exists id; split_and!; [by destruct (ledger p)|done|by intros n ?%not_elem_of_nil]).
    eexists. split; [reflexivity|]. cbn [ledger set_ledger set_l1_messages l1_messages]. split; [intros n ?; apply elem_of_union; by right|].
    intros n Hn. apply list_elem_of_singleton in Hn as ->. split; [apply elem_of_union; left; by apply elem_of_singleton|]. by eapply Hfresh. }
  destruct Hled as (f & Hl & Hmono & Hnew).
  destruct (deposit_events_spec (tx_emits infos) (system p)) as (D1 & D2 & D3 & D5 & D4).
  destruct (I12 eq_refl) as (B1 & B2 & B3).
  assert (Htx : chain_txs (mk_chain _ Building (recorded (tx_key tx) tx infos p1) bs)
                = chain_txs (mk_chain _ Building p bs) ++ [tx]).
  { unfold chain_txs. cbn [sealed state recorded ledger pending]. by rewrite Hl, <- app_assoc. }
  constructor; cbn [phase state sealed recorded ledger system world block_hash pending pending_hashes tx_events
                    sequencer_address seq_addr_update l1_messages]; rewrite ?Hsys, ?D1, ?D2, ?D3, ?D5; try done.
  - by rewrite Hl.
  - rewrite Hl. cbn [set_l1_messages pending pending_hashes]. by rewrite I5, map_app.
  - intros h. rewrite append_values_lookup, Hl. cbn [set_l1_messages tx_events pending_hashes].
    rewrite elem_of_app, list_elem_of_singleton. case_bool_decide as Hb; intros Hs;
      [right; by destruct Hb|left; by apply I6].
  - apply Ec. by destruct c.
  - by rewrite Hl.
  - rewrite Htx, l1_keys_app. apply list.NoDup_app. split_and!; [done| |].
    + intros n Hn Hn'. apply Hnew in Hn' as [_ Hn']. by apply Hn', I10.
    + destruct tx; cbn; repeat constructor; by apply not_elem_of_nil.
  - intros n. rewrite Htx, l1_keys_app, elem_of_app. intros [Hn|Hn]; [by apply Hmono, I10|by apply Hnew].
  - intros _. split_and!; [done|done|]. rewrite D4 by lia. rewrite zlen_app, B3, events_total_append, Hl. done.
Qed.

Lemma dispatch_inv o c r p p' bs :
  chain_inv (mk_chain _ Building p bs) -> dispatch o c p = Ret (r, p') -> chain_inv (mk_chain _ Building p' bs).
Proof.
  intros I Hd. destruct r as [[]|e]; [|by apply dispatch_err in Hd as ->].
  destruct (call_tx c) as [tx|] eqn:Hc.
  - destruct (dispatch_tx_inv _ _ _ _ _ Hc Hd) as (p1 & infos & He & -> & Hf); [apply I|].
    by eapply recorded_inv.
  - destruct c; try done. apply dispatch_seq_inv in Hd as (_ & a & _ & Hp & ->).
    destruct I. constructor; try done. apply patricia_check_bound in Hp. unfold stark_canonical.
    cbn [state ledger set_ledger set_seq_addr_update put_sequencer_address sequencer_address new0].
    assert (2 ^ 251 < P) by reflexivity. lia.
Qed.

(** What a call adds to the transactions of the chain: its transaction, if it succeeds. *)
Lemma dispatch_txs o c r p p' bs :
  nonces_canonical p -> dispatch o c p = Ret (r, p') ->
  chain_txs (mk_chain _ Building p' bs) = chain_txs (mk_chain _ Building p bs) ++
    match r with Ok _ => option_list (call_tx c) | Err _ => [] end.
Proof.
  intros Hn Hd. unfold chain_txs. cbn [sealed state]. rewrite <- app_assoc. f_equal.
  destruct r as [[]|e]; [|apply dispatch_err in Hd as ->; by rewrite app_nil_r]. destruct (call_tx c) as [tx|] eqn:Hc.
  - destruct (dispatch_tx_inv _ _ _ _ _ Hc Hd Hn) as (p1 & infos & [El _ _] & -> & _). cbn [recorded ledger pending].
    rewrite El. by destruct c.
  - destruct c; try done. apply dispatch_seq_inv in Hd as (_ & a & _ & _ & ->). by rewrite app_nil_r.
Qed.

(** Sealing a block moves its transactions, and none is lost. *)
Lemma finalize_txs p bs p' b :
  chain_inv (mk_chain _ Building p bs) -> on_finalize p = Ret (tt, p') ->
  find_starknet_block (sys_digest (system p')) = Ok b ->
  chain_txs (mk_chain _ Idle p' (bs ++ [b])) = chain_txs (mk_chain _ Building p bs).
Proof.
  intros I Hf Hb. apply on_finalize_inv in Hf as [_ (h & _ & ->)]. destruct (ci_building _ I eq_refl) as (_ & B2 & _).
  apply sealed_digest in Hb as ->; [|done]. unfold chain_txs. cbn [sealed state with_block ledger pending].
  rewrite map_app, concat_app, app_nil_r. cbn [map concat]. by rewrite app_nil_r.
Qed.

(** The block number as the code reads it. *)
Lemma block_number_inv c : chain_inv c -> block_number (state c) = sys_block_number (system (state c)).
Proof. intros I. pose proof (ci_number _ I). unfold block_number, u64_max. lia. Qed.

Lemma finalize_inv p bs p' b :
  chain_inv (mk_chain _ Building p bs) -> on_finalize p = Ret (tt, p') ->
  find_starknet_block (sys_digest (system p')) = Ok b -> chain_inv (mk_chain _ Idle p' (bs ++ [b])).
Proof.
  intros I Hf Hb. pose proof (block_number_inv _ I) as Hn. cbn [state] in Hn. pose proof I as I0. pose proof Hf as Hf0.
  apply on_finalize_inv in Hf as [_ (h & Hh & ->)].
  destruct I as [I1 I2 I3 I4 I5 I6 I7 I8 I9 I10 I11 I12 I13]. cbn [phase state sealed] in *.
  destruct (I12 eq_refl) as (B1 & B2 & B3). rewrite Z.add_0_r in I2. rewrite Hn in *.
  set (q := set_ledger (set_seq_addr_update None) p) in *.
  assert (b = new_block q (sys_block_number (system p))) as -> by (by apply (sealed_digest _ _ h)).
  destruct (take_events_all (pending_hashes (ledger p)) (tx_events (ledger p)) I6) as [T1 _].
  assert (Htx : chain_txs (mk_chain _ Idle (with_block q (sys_block_number (system p)) h)
      (bs ++ [new_block q (sys_block_number (system p))])) = chain_txs (mk_chain _ Building p bs)).
  { by apply (finalize_txs p bs _ _ I0 Hf0). }
  constructor; cbn [phase state sealed]; rewrite ?Htx; try done.
  - cbn [with_block ledger block_hash]. rewrite <- I2. apply linked_extend; [done|].
    destruct (length bs) as [|j] eqn:Hlen; [unfold zlen in I2; lia|].
    destruct (lookup_lt_is_Some_2 bs j) as [b' Hb']; [lia|].
    destruct (I1 _ _ Hb') as [_ (h' & Hm & Hh') _ _].
    constructor; [by rewrite <- Hlen| |exists b', h'; split_and!|done].
    + exists h. rewrite <- Hlen. split; [apply lookup_insert_eq|]. by rewrite I2.
    + rewrite lookup_app_l by lia. done.
    + done.
    + cbn [new_block b_header h_parent_block_hash]. unfold parent_block_hash.
      destruct (zlen bs =? 0) eqn:E; [zbool; unfold zlen in E; lia|].
      cbn [q ledger set_ledger set_seq_addr_update block_hash].
      replace (zlen bs - 1) with (Z.of_nat j) by (unfold zlen; lia). by rewrite Hm.
  - rewrite zlen_app. cbn [with_block q system set_ledger deposit_log sys_block_number].
    change (zlen [new_block q (sys_block_number (system p))]) with 1. lia.
  - intros k. cbn [with_block q ledger set_ledger set_seq_addr_update tx_events pending_hashes].
    rewrite T1. intros [x Hx]. by rewrite lookup_empty in Hx.
  - intros _. cbn [with_block q system ledger set_ledger set_seq_addr_update deposit_log sys_block_number
                   pending tx_events seq_addr_update pending_hashes].
    split_and!; [done|done|]. destruct (_ =? 0) eqn:E; [zbool; lia|done].
Qed.

Lemma reachable_inv c : reachable c -> chain_inv c.
Proof.
  induction 1 as [c Hi|c c' _ IH Hs]; [by apply initial_inv|].
  destruct Hs as [p bs digest now|p bs o cl r p' Hd|p bs p' b Hf Hb];
    [by apply initialize_inv|by eapply dispatch_inv|by eapply finalize_inv].
Qed.

(** A step keeps the transactions of the chain, in order. *)
Lemma step_txs c c' : chain_inv c -> step c c' -> chain_txs c `prefix_of` chain_txs c'.
Proof.
  intros I Hs. destruct Hs as [p bs digest now|p bs o cl r p' Hd|p bs p' b Hf Hb].
  - by unfold chain_txs.
  - rewrite (dispatch_txs o cl r p p' bs); [by eexists|apply I|done].
  - by rewrite (finalize_txs p bs p' b).
Qed.

Lemma steps_reachable c c' : reachable c -> rtc step c c' -> reachable c'.
Proof. intros Hr. induction 1; [done|]. eauto using reachable_step. Qed.

Lemma steps_txs c c' : reachable c -> rtc step c c' -> chain_txs c `prefix_of` chain_txs c'.
Proof.
  intros Hr. induction 1 as [|c c1 c' Hs _ IH]; [done|]. etrans; [by apply step_txs; [apply reachable_inv|]|].
  apply IH. by eapply reachable_step.
Qed.

(** A step forgets no consumed L1 message and keeps nonces canonical, on any storage. *)
Lemma step_marks c c' :
  nonces_canonical (state c) -> step c c' ->
  nonces_canonical (state c') /\ l1_messages (ledger (state c)) ⊆ l1_messages (ledger (state c')).
Proof.
  intros Hn Hs. destruct Hs as [p bs digest now|p bs o cl r p' Hd|p bs p' b Hf Hb]; cbn [state] in *; [done| |].
  - destruct r as [[]|e]; [|by apply dispatch_err in Hd as ->]. destruct (call_tx cl) as [tx|] eqn:Hc.
    + destruct (dispatch_tx_inv _ _ _ _ _ Hc Hd Hn) as (p1 & infos & [El _ Ec] & -> & _).
      split; [apply Ec; by destruct cl|]. cbn [recorded ledger l1_messages]. rewrite El. destruct cl; cbn; set_solver.
    + destruct cl; try done. by apply dispatch_seq_inv in Hd as (_ & a & _ & _ & ->).
  - by apply on_finalize_inv in Hf as [_ (h & _ & ->)].
Qed.

Lemma steps_marks c c' :
  nonces_canonical (state c) -> rtc step c c' -> l1_messages (ledger (state c)) ⊆ l1_messages (ledger (state c')).
Proof.
  intros Hn. induction 1 as [|c c1 c' Hs _ IH]; [done|]. destruct (step_marks _ _ Hn Hs) as [Hn1 Hl].
  etrans; [exact Hl|by apply IH].
Qed.

(** ** Theorems *)

(** C1: the sealed blocks form a hash chain.  In every reachable state, block
    [i] has number [i], its hash is the one the storage maps [i] to, its parent
    hash is the hash of block [i - 1] (zero for the genesis block), and its
    header counts its transactions; the storage has sealed exactly the blocks
    up to the current number; and between blocks no pending transaction, hash
    or event is left over. *)
Theorem chain_integrity (c : Chain) :
  reachable c ->
  (forall i b, sealed c !! i = Some b -> linked (sealed c) (block_hash (ledger (state c))) i b)
  /\ zlen (sealed c) = sys_block_number (system (state c)) + (match phase c with Idle => 1 | Building => 0 end)
  /\ (phase c = Idle -> pending (ledger (state c)) = [] /\ pending_hashes (ledger (state c)) = []
                        /\ tx_events (ledger (state c)) = ∅).
Proof.
  intros Hr. apply reachable_inv in Hr. split; [apply Hr|]. split; [apply Hr|]. intros Hp.
  destruct (ci_idle _ Hr Hp) as (H1 & H2 & _). rewrite (ci_hashes _ Hr), H1. done.
Qed.

Lemma new_block_wf c :
  chain_inv c -> phase c = Building -> in_width 8 ProtocolVersion = true ->
  in_width 128 (zlen (pending (ledger (state c)))) = true -> in_width 128 (zlen (sys_events (system (state c)))) = true ->
  let b := new_block (state c) (block_number (state c)) in
  header_wf (b_header b) /\ h_event_count (b_header b) = zlen (sys_events (system (state c))).
Proof.
  intros I Hp Hv Ht He. destruct (ci_building _ I Hp) as (B1 & B2 & B3).
  destruct (take_events_all _ _ (ci_events _ I)) as [_ T2]. rewrite <- B3 in T2.
  pose proof (block_number_inv _ I) as Hn. pose proof (ci_number _ I). pose proof (ci_now _ I) as Hw.
  apply in_width_spec in Hw. split.
  - constructor; cbn [new_block b_header h_parent_block_hash h_sequencer_address h_block_number
      h_block_timestamp h_transaction_count h_event_count h_protocol_version].
    + apply to_stark_canonical.
    + apply I.
    + rewrite Hn. apply in_width_spec. lia.
    + apply in_width_spec. unfold block_timestamp, u64_max. split; [apply Z.div_pos; lia|].
      apply Z.div_lt_upper_bound; lia.
    + done.
    + by rewrite T2.
    + done.
  - exact T2.
Qed.

(** With the flag set, finalization seals the block. *)
Lemma finalize_seals c :
  chain_inv c -> header_wf (b_header (new_block (state c) (block_number (state c)))) ->
  seq_addr_update (ledger (state c)) = Some true ->
  exists h, on_finalize (state c)
            = Ret (tt, with_block (set_ledger (set_seq_addr_update None) (state c)) (block_number (state c)) h).
Proof.
  intros Hr Hw Hs. rewrite on_finalize_spec, Hs. destruct (header_hash_ret _ Hw) as [h Hh]. exists h.
  set (q := set_ledger (set_seq_addr_update None) (state c)).
  unfold store_block, ebind, eget, eassert, eput, elift. cbn [id].
  replace (_ =? _)%nat with true.
  - change (header_hash (b_header (new_block q (block_number (state c))))) with
      (header_hash (b_header (new_block (state c) (block_number (state c))))). rewrite Hh.
    destruct (state c) as [w [] s]. reflexivity.
  - symmetry. apply Nat.eqb_eq. cbn [q ledger set_ledger set_seq_addr_update pending pending_hashes].
    by rewrite (ci_hashes _ Hr), length_map.
Qed.

(** C3: a block always finalizes, once its sequencer address is set.  In any
    reachable state in the middle of a block, [on_finalize] panics exactly when
    the sequencer flag is not set: the assertion that transactions and hashes
    have the same length never fails and the header is always hashable.  The
    block it seals can be read back from the digest, holds the pending
    transactions, has the pending hashes as its transaction hashes, and counts
    exactly the Starknet events deposited in the block. *)
Theorem finalize_progress (c : Chain) :
  reachable c -> phase c = Building -> in_width 8 ProtocolVersion = true ->
  in_width 128 (zlen (pending (ledger (state c)))) = true ->
  in_width 128 (zlen (sys_events (system (state c)))) = true ->
  (seq_addr_update (ledger (state c)) <> Some true -> on_finalize (state c) = Panic)
  /\ (seq_addr_update (ledger (state c)) = Some true ->
      exists p' b, on_finalize (state c) = Ret (tt, p')
      /\ find_starknet_block (sys_digest (system p')) = Ok b
      /\ b_transactions b = pending (ledger (state c))
      /\ map (to_new TransactionHashT) (transactions_hashes b ChainId) = pending_hashes (ledger (state c))
      /\ h_event_count (b_header b) = zlen (sys_events (system (state c)))).
Proof.
  intros Hr Hp Hv Ht He. apply reachable_inv in Hr. destruct (ci_building _ Hr Hp) as (B1 & B2 & B3).
  destruct (new_block_wf c Hr Hp Hv Ht He) as [Hw Hc]. split; intros Hs.
  - rewrite on_finalize_spec. by destruct (seq_addr_update (ledger (state c))) as [[]|].
  - destruct (finalize_seals c Hr Hw Hs) as [h Hf].
    set (q := set_ledger (set_seq_addr_update None) (state c)) in *.
    exists (with_block q (block_number (state c)) h), (new_block q (block_number (state c))).
    split; [done|split; [by apply find_sealed_block|split; [done|split; [|done]]]].
    rewrite (ci_hashes _ Hr). unfold transactions_hashes. rewrite map_map. reflexivity.
Qed.

(** The sequencer address is set exactly once per block from block 2 on.
    A block from number 2 on starts with the flag cleared, so it cannot be
    finalized before the inherent; once the flag is set, a second inherent
    panics; and block 1 is exempt, because genesis leaves the flag set: there
    the flag is set from the start. *)
Theorem sequencer_address_once (c : Chain) (digest : list DigestItem) (now : Z) (addr : array 32) :
  reachable c ->
  (phase c = Idle ->
   seq_addr_update (ledger (initialize_block digest now (state c)))
   = if sys_block_number (system (state c)) =? 0 then Some true else None)
  /\ (phase c = Building -> 1 < sys_block_number (system (state c)) ->
      seq_addr_update (ledger (state c)) = Some true ->
      dispatch OriginNone (set_sequencer_address addr) (state c) = Panic)
  /\ (phase c = Building -> seq_addr_update (ledger (state c)) = None -> on_finalize (state c) = Panic).
Proof.
  intros Hr. apply reachable_inv in Hr. split_and!.
  - intros Hp. by destruct (ci_idle _ Hr Hp) as (_ & _ & ?).
  - intros Hp Hn Hs. unfold dispatch, etry, ebind at 1, ensure_none, eret at 1. cbn [call_body].
    unfold set_sequencer_address_call, ebind at 1, eget. cbn [id]. unfold ebind at 1.
    rewrite (block_number_inv _ Hr). apply Z.ltb_lt in Hn. rewrite Hn, Hs. unfold eassert.
    by rewrite bool_decide_true by eauto.
  - intros Hp Hs. by rewrite on_finalize_spec, Hs.
Qed.

(** C4: L1 messages are consumed at most once.  Over the whole history of a
    reachable chain, sealed blocks and the block being built together, no two
    L1 handler transactions carry the same nonce; and consuming a message whose
    nonce occurs in that history is refused with [L1MessageAlreadyExecuted],
    leaving the storage as it was. *)
Theorem l1_messages_once (c : Chain) (t : HandleL1MessageTransaction) (fee : Z) :
  reachable c ->
  NoDup (omap (fun x => match x with TL1Handler m => Some (l1_nonce m) | _ => None end) (chain_txs c))
  /\ (TL1Handler t ∈ chain_txs c ->
      dispatch OriginNone (consume_l1_message t fee) (state c) = Ret (Err (PErr L1MessageAlreadyExecuted), state c)).
Proof.
  intros Hr. apply reachable_inv in Hr. split.
  - pose proof (ci_l1_once _ Hr) as Hd. revert Hd. generalize (chain_txs c) as txs.
    induction txs as [|x txs IH]; [constructor|]. unfold l1_keys. cbn [omap list_omap].
    destruct x as [x|x|x|x]; try exact IH. intros Hd. apply list.NoDup_cons in Hd as [Hx Hd].
    apply list.NoDup_cons. split; [|by apply IH]. intros Hin. apply Hx. apply list_elem_of_omap in Hin as (y & Hy & Hn).
    apply list_elem_of_omap. exists y. split; [done|]. destruct y; try done. injection Hn as Hn. unfold l1_key. by rewrite Hn.
  - intros Hin. unfold dispatch, etry, ebind at 1, ensure_none, eret at 1. cbn [call_body].
    unfold consume_l1_message_call, ebind at 1, eget. cbn [id]. unfold etry, ebind, ensure, eret.
    unfold is_l1_message_executed. rewrite bool_decide_true; [done|].
    apply (ci_l1_marked _ Hr). apply list_elem_of_omap. by exists (TL1Handler t).
Qed.

End chain.
