(* ===== verification/ChainRun.v ===== *)
(** * Running the chain

    An executable driver for the block machine of [Chain], sound for its step
    relation, and concrete runs on the reference implementations that
    instantiate the theorems about the pallet and the chain. *)
From S2P Require Import Prelude Bytes Deps Felt Hashers Transactions ComputeHash Blockifier Conversions Fee.
From S2P Require Import Execution Block CallTrace PalletStorage Pallet PalletEffects PalletProperties Chain.
Local Open Scope Z_scope.

Section run.
  Context `{SF : StarknetFf} `{SA : StarknetApi} `{PT : PrimitiveTypes} `{SC : StarknetCrypto}.
  Context `{FX : FixedPoint} `{LC : LogCodec} `{BL : Blockifier} {CFG : Config}.

Inductive action :=
| AInitialize (digest : list DigestItem) (now : Z)
| ADispatch (o : Origin) (c : Call)
| AFinalize.

Definition act (c : Chain) (a : action) : option Chain :=
  match phase c, a with
  | Idle, AInitialize digest now =>
      if bool_decide (omap try_to_log digest = []) && in_width 64 now
         && (sys_block_number (system (state c)) + 1 <? 2 ^ 32)
      then Some (mk_chain _ Building (initialize_block digest now (state c)) (sealed c)) else None
  | Building, ADispatch o cl =>
      match dispatch o cl (state c) with
      | Ret (_, p') => Some (mk_chain _ Building p' (sealed c))
      | Panic => None
      end
  | Building, AFinalize =>
      match on_finalize (state c) with
      | Ret (_, p') =>
          match find_starknet_block (sys_digest (system p')) with
          | Ok b => Some (mk_chain _ Idle p' (sealed c ++ [b]))
          | Err _ => None
          end
      | Panic => None
      end
  | _, _ => None
  end.

Definition start (g : GenesisConfig) (now : Z) : option Chain :=
  if in_width 64 now then
    match genesis_build g (empty_pallet now) with
    | Ret (_, p) =>
        match find_starknet_block (sys_digest (system p)) with
        | Ok b => Some (mk_chain _ Idle p [b])
        | Err _ => None
        end
    | Panic => None
    end
  else None.

Fixpoint run (c : Chain) (l : list action) : option Chain :=
  match l with
  | [] => Some c
  | a :: l' => match act c a with Some c' => run c' l' | None => None end
  end.

Definition run_from (g : GenesisConfig) (now : Z) (l : list action) : option Chain :=
  match start g now with Some c => run c l | None => None end.

Lemma act_step c a c' : act c a = Some c' -> step c c'.
Proof.
  destruct c as [[] p bs], a as [digest now|o cl|]; cbn [act phase state sealed]; try done.
  - destruct (bool_decide _) eqn:E1; [|done]. destruct (in_width 64 now) eqn:E2; [|done].
    destruct (_ <? _) eqn:E3; [|done]. cbn. intros [= <-]. apply bool_decide_eq_true in E1. zbool.
    by constructor.
  - destruct (dispatch o cl p) as [[r p']|] eqn:E; [|done]. intros [= <-]. by econstructor.
  - destruct (on_finalize p) as [[[] p']|] eqn:E; [|done].
    destruct (find_starknet_block _) as [b|] eqn:Eb; [|done]. intros [= <-]. by econstructor.
Qed.

Lemma run_reachable c l c' : reachable c -> run c l = Some c' -> reachable c'.
Proof.
  revert c. induction l as [|a l IH]; intros c Hr; cbn [run]; [by intros [= <-]|].
  destruct (act c a) as [c1|] eqn:E; [|done]. apply IH. eapply reachable_step; [done|by eapply act_step].
Qed.

Lemma run_from_reachable g now l c : run_from g now l = Some c -> reachable c.
Proof.
  unfold run_from, start. destruct (in_width 64 now) eqn:E1; [|done].
  destruct (genesis_build g _) as [[[] p]|] eqn:E2; [|done].
  destruct (find_starknet_block _) as [b|] eqn:E3; [|done]. apply run_reachable. apply reachable_initial. by econstructor.
Qed.

End run.

(** ** Concrete runs *)
Module ChainWitness.
Export Deps.Reference ReferenceVm FeeReference BlockWitness.

#[export] Instance config : Config := {|
  SystemHash := PedersenHasher;
  L1GasPrice := mk_rp None 10;
  TransactionLongevity := 18446744073709551615;
  DisableTransactionFee := false;
  DisableNonceValidation := false;
  InvokeTxMaxNSteps := 1000000;
  ValidateMaxNSteps := 1000000;
  ProtocolVersion := 0;
  ChainId := felt_of_Z 5;
  MaxRecursionDepth := 50;
  ProgramHash := felt_of_Z 6;
|}.

Definition account : Felt252Wrapper := felt_of_Z 9.
Definition w_genesis : GenesisConfig :=
  mk_genesis [(to_new ContractAddressT account, to_new ClassHashT (felt_of_Z 1))] []
    [(to_new ClassHashT (felt_of_Z 1), 0%nat)] [] (to_new ContractAddressT (felt_of_Z 3)).

Definition w_invoke1 (nonce : Z) : InvokeTransaction :=
  InvokeV1 (mk_iv1 100 [] (felt_of_Z nonce) account [felt_of_Z 4] false).
Definition w_message (nonce : Z) : HandleL1MessageTransaction := mk_l1 nonce account (felt_of_Z 2) [felt_of_Z 8].

(** Two blocks and the beginning of a third: each sets the sequencer, executes an
    invoke and an L1 message; one call is refused. *)
Definition w_actions : list action :=
  [AInitialize [] 1000; ADispatch OriginNone (set_sequencer_address (be_array 32 222));
   ADispatch OriginNone (invoke (w_invoke1 0)); ADispatch OriginNone (consume_l1_message (w_message 1) 5); AFinalize;
   AInitialize [] 7000; ADispatch OriginNone (set_sequencer_address (be_array 32 222));
   ADispatch OriginNone (consume_l1_message (w_message 1) 5);
   ADispatch OriginNone (invoke (w_invoke1 1))].

Definition w_chain : Chain :=
  match run_from w_genesis 0 w_actions with Some c => c | None => mk_chain _ Idle (empty_pallet 0) [] end.

Lemma w_run : run_from w_genesis 0 w_actions = Some w_chain.
Proof.
  unfold w_chain. assert (H : is_Some (run_from w_genesis 0 w_actions)); [|by destruct H as [c ->]].
  apply (bool_decide_eq_true_1 _). vm_compute. reflexivity.
Qed.

Lemma w_reachable : reachable w_chain.
Proof. exact (run_from_reachable _ _ _ _ w_run). Qed.

End ChainWitness.
Import ChainWitness.

Lemma chain_integrity_witness :
  zlen (sealed w_chain) = 2
  /\ exists b0 b1 h0, sealed w_chain = [b0; b1] /\ header_hash (b_header b0) = Ret h0
     /\ h_parent_block_hash (b_header b1) = to_stark h0.
Proof.
  destruct (chain_integrity w_chain w_reachable) as (Hl & Hn & _).
  assert (H2 : zlen (sealed w_chain) = 2) by (rewrite Hn; vm_compute; reflexivity). split; [exact H2|].
  unfold zlen in H2. destruct (sealed w_chain) as [|b0 [|b1 [|b2 l]]]; simpl in H2; try (exfalso; lia).
  destruct (Hl 1%nat b1 eq_refl) as [_ _ (b & h & Hb & Hh & Hp) _]. simpl in Hb. injection Hb as <-.
  exists b0, b1, h. split; [reflexivity|]. split; assumption.
Defined.

Lemma finalize_progress_witness :
  exists p' b, on_finalize (state w_chain) = Ret (tt, p') /\ find_starknet_block (sys_digest (system p')) = Ok b
               /\ h_event_count (b_header b) = 2.
Proof.
  destruct (finalize_progress w_chain w_reachable) as [_ H];
    [vm_compute; reflexivity|vm_compute; reflexivity|vm_compute; reflexivity|vm_compute; reflexivity|].
  destruct H as (p' & b & H1 & H2 & _ & _ & H3); [vm_compute; reflexivity|].
  exists p', b. split; [exact H1|]. split; [exact H2|]. rewrite H3. vm_compute. reflexivity.
Defined.

Lemma sequencer_address_once_witness :
  dispatch OriginNone (set_sequencer_address (be_array 32 222)) (state w_chain) = Panic.
Proof.
  destruct (sequencer_address_once w_chain [] 0 (be_array 32 222) w_reachable) as (_ & H & _).
  apply H; vm_compute; reflexivity.
Defined.

Lemma l1_messages_once_witness :
  dispatch OriginNone (consume_l1_message (w_message 1) 9) (state w_chain)
  = Ret (Err (PErr L1MessageAlreadyExecuted), state w_chain).
Proof.
  destruct (l1_messages_once w_chain (w_message 1) 9 w_reachable) as (_ & H).
  apply H. apply (bool_decide_eq_true_1 _). vm_compute. reflexivity.
Defined.

Lemma nonce_advances_witness :
  nonce_val (state w_chain) (to_new ContractAddressT account) = 2.
Proof.
  assert (Hd : exists p', dispatch OriginNone (invoke (w_invoke1 2)) (state w_chain) = Ret (Ok tt, p')).
  { assert (H : match dispatch OriginNone (invoke (w_invoke1 2)) (state w_chain) with
                | Ret (Ok _, _) => true | _ => false end = true) by (vm_compute; reflexivity).
    destruct (dispatch OriginNone (invoke (w_invoke1 2)) (state w_chain)) as [[[[]|e] p']|];
      [exists p'; reflexivity|discriminate H|discriminate H]. }
  destruct Hd as [p' Hd].
  destruct (nonce_advances (invoke (w_invoke1 2)) (TInvoke (w_invoke1 2)) (state w_chain) p' account (felt_of_Z 2))
    as [H _]; [reflexivity|exact (ci_canonical _ (reachable_inv _ w_reachable))|reflexivity|reflexivity|exact Hd|].
  exact H.
Defined.

(** A call that produces an event, calls another contract that produces one, and
    produces a third. *)
Definition w_call (a : Z) : CallEntryPoint :=
  mk_cep None None EPExternal (mk_new stark_default) [] (mk_new (stark_from_uint a)) (mk_new stark_default) CTCall 0.
Definition w_event (n : Z) : EventContent := mk_ec [] [stark_from_uint n].
Definition w_trace : trace (I := EventContent) :=
  Trace (w_call 1) [Produce (w_event 10); Inner (Trace (w_call 2) [Produce (w_event 11)]); Produce (w_event 12)].
Definition w_call_info : CallInfo :=
  mk_ci (w_call 1) (mk_cx [] [mk_oe 0 (w_event 10); mk_oe 2 (w_event 12)] [] false 0)
    [mk_ci (w_call 2) (mk_cx [] [mk_oe 1 (w_event 11)] [] false 0) []].

Lemma events_in_execution_order_witness :
  exists p', emit_events_in_call_info (mk_new stark_default) w_call_info 0 (state w_chain) = Ret (3, p')
  /\ default [] (tx_events (ledger p') !! mk_new stark_default)
     = [mk_sev (mk_new (stark_from_uint 1)) (w_event 10); mk_sev (mk_new (stark_from_uint 2)) (w_event 11);
        mk_sev (mk_new (stark_from_uint 1)) (w_event 12)].
Proof.
  destruct (events_in_execution_order (mk_new stark_default) (state w_chain) w_call_info w_trace
              (Trace (w_call 1) [])) as [H _].
  destruct H as (p' & H1 & H2 & _).
  - repeat constructor.
  - exists p'. split; [exact H1|]. rewrite H2. vm_compute. reflexivity.
Defined.
