(* ===== verification/Validation.v ===== *)
(** * Admission to the transaction pool

    Models [crates/pallets/starknet/src/transaction_validation.rs], the
    [ValidateUnsigned] and [ProvideInherent] implementations of
    [crates/pallets/starknet/src/lib.rs], and the sequencer address inherent of
    [crates/primitives/sequencer-address/src/lib.rs]. *)
From S2P Require Import Prelude Bytes Deps Felt Hashers Transactions ComputeHash Blockifier Conversions Fee.
From S2P Require Import Execution Block CallTrace PalletStorage Pallet PalletEffects PalletProperties Chain ChainRun.
Local Open Scope Z_scope.

(** [sp_runtime::transaction_validity::InvalidTransaction], the variants the
    pallet returns. *)
Inductive InvalidTransaction := InvalidCall | Payment | Stale | BadProof.

#[export] Instance InvalidTransaction_eq_dec : EqDecision InvalidTransaction.
Proof. solve_decision. Defined.

Inductive TxPriorityInfo :=
| PInvokeV0
| PL1Handler (nonce : Felt252Wrapper)
| PRegularTxs (sender_address transaction_nonce sender_nonce : Felt252Wrapper).

(** [ValidTransaction]: a tag is the SCALE encoding of the builder's prefix
    followed by that of the pair. *)
Record ValidTransaction := mk_valid {
  vt_priority : Z;
  vt_requires : list (list byte);
  vt_provides : list (list byte);
  vt_longevity : Z;
  vt_propagate : bool;
}.

(** ** The sequencer address inherent *)
Definition DEFAULT_SEQUENCER_ADDRESS : array 32 := be_array 32 57005.

Inductive InherentError := WrongAddressFormat.

Record InherentDataProvider := mk_provider { provider_sequencer_address : array 32 }.

Definition provider_new (addr : array 32) : InherentDataProvider := mk_provider addr.

Definition provider_default : InherentDataProvider := mk_provider DEFAULT_SEQUENCER_ADDRESS.

(** [TryFrom<Vec<u8>> for InherentDataProvider]. *)
Definition provider_try_from (storage_val : list byte) : result InherentError InherentDataProvider :=
  match array_of_slice 32 storage_val with
  | Some addr => Ok (mk_provider addr)
  | None => Err WrongAddressFormat
  end.

Definition INHERENT_IDENTIFIER : list byte := bytes_of "seqaddr0".

(** The values a node puts in the inherent data, before they are encoded. *)
Inductive InherentValue := ValueAddress (address : array 32) | ValueU64 (n : Z).

(** [sp_inherents], with the providers of [sp_timestamp] and [sp_consensus_aura]:
    [get_address] is [get_data] at [InherentType].  Last, the codec of [InherentError]. *)
Class Inherents := {
  InherentData : Type;
  InherentsError : Type;
  Application : InherentError -> InherentsError;
  inherent_data_new : InherentData;
  put_data : list byte -> InherentValue -> effr InherentData InherentsError unit;
  get_address : list byte -> InherentData -> result InherentsError (option (array 32));
  timestamp_identifier : list byte;
  provide_timestamp : Z -> effr InherentData InherentsError unit;
  provide_slot : Z -> effr InherentData InherentsError unit;
  decode_inherent_error : list byte -> option InherentError;
}.

(** Inherent data holds one value per identifier, which is put once and read as it was
    put; the identifiers differ. *)
Class InherentsLaws `{IN : Inherents} (entries : InherentData -> gmap (list byte) InherentValue) (slot_identifier : list byte) : Prop := {
  entries_new : entries inherent_data_new = ∅;
  put_data_fresh : forall identifier value d, entries d !! identifier = None ->
    exists d', put_data identifier value d = Ret (Ok tt, d') /\ entries d' = <[identifier := value]> (entries d);
  get_address_present : forall identifier a d, entries d !! identifier = Some (ValueAddress a) ->
    get_address identifier d = Ok (Some a);
  get_address_absent : forall identifier d, entries d !! identifier = None -> get_address identifier d = Ok None;
  provide_timestamp_puts : forall n d, provide_timestamp n d = put_data timestamp_identifier (ValueU64 n) d;
  provide_slot_puts : forall n d, provide_slot n d = put_data slot_identifier (ValueU64 n) d;
  identifiers_differ : NoDup [INHERENT_IDENTIFIER; timestamp_identifier; slot_identifier];
}.

Section provider.
  Context {IN : Inherents}.

Definition sequencer_address_inherent_data (d : InherentData) : result InherentsError (option (array 32)) :=
  get_address INHERENT_IDENTIFIER d.

Definition provide_inherent_data (provider : InherentDataProvider) : effr InherentData InherentsError unit :=
  put_data INHERENT_IDENTIFIER (ValueAddress (provider_sequencer_address provider)).

Definition inherent_error_try_from (identifier data : list byte) : option InherentError :=
  if bool_decide (identifier = INHERENT_IDENTIFIER) then decode_inherent_error data else None.

Definition try_handle_error (identifier error : list byte) : option (result InherentsError unit) :=
  option_map (fun e => Err (Application e)) (inherent_error_try_from identifier error).

Lemma provide_then_get `{!InherentsLaws entries slot_identifier} provider d :
  entries d !! INHERENT_IDENTIFIER = None ->
  exists d', provide_inherent_data provider d = Ret (Ok tt, d')
    /\ sequencer_address_inherent_data d' = Ok (Some (provider_sequencer_address provider)).
Proof.
  intros Hd. destruct (put_data_fresh _ (ValueAddress (provider_sequencer_address provider)) d Hd) as (d' & Hp & He).
  exists d'. split; [exact Hp|]. apply get_address_present. rewrite He. apply lookup_insert_eq.
Qed.

End provider.

Section validation.
  Context `{SF : StarknetFf} `{SA : StarknetApi} `{PT : PrimitiveTypes} `{SC : StarknetCrypto}.
  Context `{FX : FixedPoint} `{LC : LogCodec} `{BL : Blockifier} {CFG : Config}.

Definition create_inherent {IN : Inherents} (data : InherentData) : outcome (option Call) :=
  let! inherent_data := unwrap (sequencer_address_inherent_data data) in
  Ret (Some (set_sequencer_address (default DEFAULT_SEQUENCER_ADDRESS inherent_data))).

Definition is_inherent (call : Call) : bool :=
  match call with set_sequencer_address _ => true | _ => false end.

(** ** [transaction_validation.rs] *)
Definition ensure_l1_message_not_executed (nonce : Nonce) : effr Pallet InvalidTransaction unit :=
  p <-- eget id;;
  eret (if bool_decide (nonce ∈ l1_messages (ledger p)) then Err Stale else Ok tt).

(** The comparisons of nonces are those of the field elements' values. *)
Definition validate_unsigned_tx_nonce (transaction : UserOrL1HandlerTransaction)
  : effr Pallet InvalidTransaction TxPriorityInfo :=
  match transaction with
  | User tx =>
      stored <-- eget (fun p => nonce p (to_new ContractAddressT (user_sender_address tx)));;
      sender_nonce <-- elift (felt_from_new stored);;
      match user_nonce tx with
      | None => eret (Ok PInvokeV0)
      | Some transaction_nonce =>
          if felt_val transaction_nonce <? felt_val sender_nonce then eret (Err Stale)
          else eret (Ok (PRegularTxs (user_sender_address tx) transaction_nonce sender_nonce))
      end
  | L1Handler tx _ =>
      ensure_l1_message_not_executed (mk_new (stark_from_uint (l1_nonce tx))) ;;?
      eret (Ok (PL1Handler (felt_from_u64 (l1_nonce tx))))
  end.

(** [validate_tx] on a fresh adapter, fresh resources and the initial gas. *)
Definition validate_on_adapter (T : Type) {VT : Validate T} `{GetAccountTransactionContext T}
    `{GetTransactionCalldata T} (t : T) : effr Pallet TransactionExecutionError (option CallInfo) :=
  fun p =>
    match validate_tx T t (get_block_context p) false ((adapter_default, p), resources_default, INITIAL_GAS_COST) with
    | Ret (r, ((_, p'), _, _)) => Ret (r, p')
    | Panic => Panic
    end.

(** An undeployed account whose first transaction follows its deployment. *)
Definition tolerate_undeployed (tx : UserTransaction) (validation_result : result TransactionExecutionError (option CallInfo))
  : result TransactionExecutionError (option CallInfo) :=
  match validation_result with
  | Err (ValidateTransactionError (UninitializedStorageAddress contract_address)) =>
      if bool_decide (new0 contract_address = to_stark (user_sender_address tx))
         && bool_decide (user_nonce tx = Some ONE)
      then Ok None else validation_result
  | _ => validation_result
  end.

Definition validate_unsigned_tx (transaction : UserOrL1HandlerTransaction) : effr Pallet InvalidTransaction unit :=
  match transaction with
  | User transaction =>
      validation_result <-?
        match transaction with
        | UDeployAccount _ => eret (Ok (Ok None))
        | UDeclare tx contract_class =>
            executable <-? eret (map_err (fun _ => BadProof) (declare_try_into_executable tx ChainId contract_class false));;
            r <-- validate_on_adapter bDeclare executable;;
            eret (Ok r)
        | UInvoke tx =>
            r <-- validate_on_adapter bInvoke (invoke_into_executable tx ChainId false);;
            eret (Ok r)
        end;;
      eret (result_map (fun _ => tt) (map_err (fun _ => BadProof) (tolerate_undeployed transaction validation_result)))
  | L1Handler _ fee => eret (if fee =? 0 then Err Payment else Ok tt)
  end.

(** ** [validate_unsigned] *)
Definition get_call_transaction (call : Call) : result unit UserOrL1HandlerTransaction :=
  match call with
  | invoke transaction => Ok (User (UInvoke transaction))
  | declare transaction contract_class => Ok (User (UDeclare transaction contract_class))
  | deploy_account transaction => Ok (User (UDeployAccount transaction))
  | consume_l1_message transaction paid_fee_on_l1 => Ok (L1Handler transaction paid_fee_on_l1)
  | set_sequencer_address _ => Err tt
  end.

(** The SCALE encoding of the prefix: its length as a compact integer, then the
    bytes of the string. *)
Definition tag_prefix : list byte := byte_of (4 * 8) :: bytes_of "starknet".

Definition tag (k : Felt252Wrapper * Felt252Wrapper) : list byte :=
  tag_prefix ++ felt_encode (fst k) ++ felt_encode (snd k).

Definition and_provides (k : Felt252Wrapper * Felt252Wrapper) (v : ValidTransaction) : ValidTransaction :=
  mk_valid (vt_priority v) (vt_requires v) (vt_provides v ++ [tag k]) (vt_longevity v) (vt_propagate v).
Definition and_requires (k : Felt252Wrapper * Felt252Wrapper) (v : ValidTransaction) : ValidTransaction :=
  mk_valid (vt_priority v) (vt_requires v ++ [tag k]) (vt_provides v) (vt_longevity v) (vt_propagate v).

Definition valid_transaction (tx_priority_info : TxPriorityInfo) : ValidTransaction :=
  let builder := mk_valid u64_max [] [] TransactionLongevity true in
  match tx_priority_info with
  | PRegularTxs sender_address transaction_nonce sender_nonce =>
      let builder := and_provides (sender_address, transaction_nonce) builder in
      if felt_val sender_nonce <? felt_val transaction_nonce
      then and_requires (sender_address, mk_felt (fe_sub (felt0 transaction_nonce) fe_one)) builder
      else builder
  | PL1Handler nonce => and_provides (ZERO, nonce) builder
  | PInvokeV0 => builder
  end.

Definition validate_unsigned (call : Call) : effr Pallet InvalidTransaction ValidTransaction :=
  transaction <-? eret (map_err (fun _ => InvalidCall) (get_call_transaction call));;
  tx_priority_info <-? validate_unsigned_tx_nonce transaction;;
  validate_unsigned_tx transaction ;;?
  eret (Ok (valid_transaction tx_priority_info)).

Definition pre_dispatch (_ : Call) : result unit unit := Ok tt.

End validation.

(** ** Properties *)
Section properties.
  Context `{SF : StarknetFf} {SFL : StarknetFfLaws} `{SA : StarknetApi} {SAL : StarknetApiLaws}.
  Context `{PT : PrimitiveTypes} `{SC : StarknetCrypto} {SCL : StarknetCryptoLaws} `{FX : FixedPoint}.
  Context `{LC : LogCodec} {LCL : LogCodecLaws} `{BL : Blockifier} {BLL : BlockifierLaws} {CFG : Config}.

Lemma felt_encode_inj f g : felt_encode f = felt_encode g -> f = g.
Proof.
  intros H. apply felt_eq. unfold felt_val.
  rewrite <- !to_bytes_be_val. unfold felt_encode in H. by rewrite H.
Qed.

Lemma tag_inj k k' : tag k = tag k' -> k = k'.
Proof.
  destruct k as [a n], k' as [a' n']. unfold tag. cbn [fst snd]. intros H. apply app_inv_head in H.
  apply app_inj_1 in H as [Ha Hn]; [|unfold felt_encode; by rewrite !arr_length].
  by rewrite (felt_encode_inj _ _ Ha), (felt_encode_inj _ _ Hn).
Qed.

(** The account and nonce under which the pool orders a call. *)
Definition pool_key (c : Call) : option (Felt252Wrapper * Felt252Wrapper) :=
  match get_call_transaction c with
  | Ok (User tx) => (fun n => (user_sender_address tx, n)) <$> user_nonce tx
  | _ => None
  end.

Lemma validate_unsigned_ok c p v p' :
  validate_unsigned c p = Ret (Ok v, p') ->
  exists tx info, get_call_transaction c = Ok tx
  /\ validate_unsigned_tx_nonce tx p = Ret (Ok info, p) /\ v = valid_transaction info.
Proof.
  unfold validate_unsigned, etry, ebind, eret. destruct (get_call_transaction c) as [tx|] eqn:E; simpl; [|done].
  destruct (validate_unsigned_tx_nonce tx p) as [[[info|e] p1]|] eqn:En; [|done|done].
  destruct (validate_unsigned_tx tx p1) as [[[u|e] p2]|] eqn:Ev; [|done|done]. intros [= <- <-].
  exists tx, info. split; [done|]. split; [|done]. rewrite En. do 2 f_equal. revert En.
  unfold validate_unsigned_tx_nonce, ensure_l1_message_not_executed, etry, ebind, eret, eget, elift.
  destruct tx as [tx|tx fee]; repeat case_match; intros; by simplify_eq.
Qed.

(** The tags of an accepted call. *)
Lemma validate_unsigned_regular c p v p' a n :
  validate_unsigned c p = Ret (Ok v, p') -> pool_key c = Some (a, n) -> nonces_canonical p ->
  nonce_val p (to_new ContractAddressT a) <= felt_val n
  /\ vt_provides v = [tag (a, n)]
  /\ (nonce_val p (to_new ContractAddressT a) < felt_val n ->
      vt_requires v = [tag (a, mk_felt (fe_sub (felt0 n) fe_one))])
  /\ (nonce_val p (to_new ContractAddressT a) = felt_val n -> vt_requires v = []).
Proof.
  intros Hv Hk Hc. apply validate_unsigned_ok in Hv as (tx & info & Ht & Hn & ->). unfold pool_key in Hk.
  rewrite Ht in Hk. destruct tx as [tx|tx fee]; [|done]. destruct (user_nonce tx) as [n'|] eqn:En; [|done].
  simplify_eq/=. revert Hn. unfold ebind, eget, elift.
  destruct (felt_from_stark_ret _ (nonce_canonical p (to_new ContractAddressT (user_sender_address tx)) Hc))
    as (f & Hf & Vf). unfold felt_from_new. rewrite Hf, En. fold (nonce_val p (to_new ContractAddressT (user_sender_address tx))) in Vf.
  rewrite <- Vf. destruct (_ <? _) eqn:E; [done|]. unfold eret. intros [= <-]. zbool.
  split; [lia|]. unfold valid_transaction.
  destruct (felt_val f <? felt_val n) eqn:E2; zbool; (split; [done|]); split; intros; try done; lia.
Qed.

Lemma validate_unsigned_provides c p v p' k :
  validate_unsigned c p = Ret (Ok v, p') -> nonces_canonical p -> tag k ∈ vt_provides v -> fst k <> ZERO ->
  pool_key c = Some k.
Proof.
  intros Hv Hc Ht Hk. destruct (pool_key c) as [[a n]|] eqn:Ek.
  - destruct (validate_unsigned_regular _ _ _ _ _ _ Hv Ek Hc) as (_ & Hp & _). rewrite Hp in Ht.
    apply list_elem_of_singleton, tag_inj in Ht. by subst.
  - apply validate_unsigned_ok in Hv as (tx & info & Hg & Hn & ->). unfold pool_key in Ek. rewrite Hg in Ek.
    exfalso. revert Hn. destruct tx as [tx|tx fee]; unfold validate_unsigned_tx_nonce, ebind, eget, elift, etry, eret.
    + destruct (user_nonce tx); [done|]. destruct (felt_from_new _); [|done]. intros [= <-]. by apply elem_of_nil in Ht.
    + unfold ensure_l1_message_not_executed, ebind, eget, eret. case_bool_decide; [done|]. intros [= <-].
      cbn [valid_transaction and_provides vt_provides app] in Ht. apply list_elem_of_singleton, tag_inj in Ht. by subst k.
Qed.

Lemma felt_pred_val n : 0 < felt_val n -> felt_val (mk_felt (fe_sub (felt0 n) fe_one)) = felt_val n - 1.
Proof.
  intros Hn. pose proof (felt_range n) as Hr. unfold felt_val in *. cbn [felt0]. rewrite fe_sub_val.
  change (bval fe_one) with 1. apply Z.mod_small. lia.
Qed.

(** What the pool lets through: each transaction comes after transactions that
    provide the tags it requires. *)
Definition ready_order (l : list ValidTransaction) : Prop :=
  forall i v t, l !! i = Some v -> t ∈ vt_requires v -> exists j w, (j < i)%nat /\ l !! j = Some w /\ t ∈ vt_provides w.

(** C34: the pool keeps the order of an account's transactions.  Take calls that
    [validate_unsigned] accepted at one state, in any order in which every
    required tag has been provided before.  Ahead of a call of account [a] (not
    the zero address) with nonce [n], the sequence has a call of the same account
    for each nonce from the stored one up to [n - 1]; and no accepted call has a
    nonce below the stored one. *)
Theorem pool_orders_nonces (p : Pallet) (l : list (Call * ValidTransaction)) (i : nat) (c : Call)
    (v : ValidTransaction) (a n : Felt252Wrapper) :
  nonces_canonical p ->
  (forall c v, (c, v) ∈ l -> exists p', validate_unsigned c p = Ret (Ok v, p')) ->
  ready_order (map snd l) ->
  l !! i = Some (c, v) -> pool_key c = Some (a, n) -> a <> ZERO ->
  nonce_val p (to_new ContractAddressT a) <= felt_val n
  /\ forall m, nonce_val p (to_new ContractAddressT a) <= m < felt_val n ->
     exists j c' v' n', (j < i)%nat /\ l !! j = Some (c', v') /\ pool_key c' = Some (a, n') /\ felt_val n' = m.
Proof.
  intros Hc Hacc Hord. revert c v n. induction (lt_wf i) as [i _ IH]. intros c v n Hi Hk Ha.
  destruct (Hacc c v) as [p' Hv]; [by eapply list_elem_of_lookup_2|].
  destruct (validate_unsigned_regular _ _ _ _ _ _ Hv Hk Hc) as (Hle & _ & Hreq & _). split; [done|].
  intros m Hm. set (n1 := mk_felt (fe_sub (felt0 n) fe_one)).
  assert (Hn1 : felt_val n1 = felt_val n - 1).
  { apply felt_pred_val. pose proof (nonce_val_range p (to_new ContractAddressT a) Hc). lia. }
  destruct (Hord i v (tag (a, n1))) as (j & w & Hji & Hj & Hw).
  { by rewrite list_lookup_fmap, Hi. }
  { rewrite Hreq by lia. apply list_elem_of_singleton. done. }
  rewrite list_lookup_fmap in Hj. destruct (l !! j) as [[c' w']|] eqn:Ej; [|done]. simpl in Hj. injection Hj as ->.
  destruct (Hacc c' w) as [p2 Hv2]; [by eapply list_elem_of_lookup_2|].
  pose proof (validate_unsigned_provides _ _ _ _ (a, n1) Hv2 Hc Hw Ha) as Hk'.
  destruct (decide (m = felt_val n1)) as [->|Hne]; [by exists j, c', w, n1|].
  destruct (IH j Hji c' w n1 Ej Hk' Ha) as [_ Hrec].
  destruct (Hrec m) as (j' & c2 & v2 & n2 & Hj' & H2); [lia|]. exists j', c2, v2, n2. split; [lia|done].
Qed.

Lemma bad_proof_not_stale {A B} (f : A -> B) (r : result TransactionExecutionError A) :
  result_map f (map_err (fun _ => BadProof) r) <> Err Stale.
Proof. by destruct r. Qed.

Lemma validate_unsigned_tx_not_stale tx p p' : validate_unsigned_tx tx p <> Ret (Err Stale, p').
Proof.
  unfold validate_unsigned_tx, etry, ebind, eret. intros H.
  destruct tx as [[tx cl|tx|tx]|tx fee]; simpl in H.
  - destruct (declare_try_into_executable tx ChainId cl false) as [d|]; simpl in H; [|done].
    destruct (validate_on_adapter bDeclare d p) as [[r p1]|]; [|done].
    injection H as H _. by apply bad_proof_not_stale in H.
  - done.
  - destruct (validate_on_adapter bInvoke _ p) as [[r p1]|]; [|done].
    injection H as H _. by apply bad_proof_not_stale in H.
  - by destruct (fee =? 0).
Qed.

Lemma validate_unsigned_stale c p p' :
  validate_unsigned c p = Ret (Err Stale, p') ->
  exists tx, get_call_transaction c = Ok tx /\ exists p1, validate_unsigned_tx_nonce tx p = Ret (Err Stale, p1).
Proof.
  unfold validate_unsigned, etry, ebind, eret. destruct (get_call_transaction c) as [tx|] eqn:E; simpl; [|done].
  destruct (validate_unsigned_tx_nonce tx p) as [[[info|e] p1]|] eqn:En; [| |done].
  - destruct (validate_unsigned_tx tx p1) as [[[u|e] p2]|] eqn:Ev; [done| |done]. intros [= -> ->]. exfalso.
    by apply validate_unsigned_tx_not_stale in Ev.
  - intros [= -> ->]. eauto.
Qed.

Lemma tx_account_user c tx a n :
  call_tx c = Some tx -> tx_account tx = Some (a, n) ->
  exists u, get_call_transaction c = Ok (User u) /\ user_sender_address u = a /\ user_nonce u = Some n.
Proof.
  destruct c as [addr|t|t cl|t|t fee]; intros [= <-]; try destruct t; intros [= <- <-]; eexists; (split; [done|]); done.
Qed.

(** A call refused as stale could not have been executed.  With nonce
    validation on, a version-1 invoke, a version-1 or -2 declare or a
    deploy-account that [validate_unsigned] refuses as [Stale] does not dispatch
    successfully at that state; an L1 message refused as [Stale] fails at dispatch
    with [L1MessageAlreadyExecuted] and leaves the storage as it was. *)
Theorem stale_never_dispatches (c : Call) (tx : Transaction) (p p' : Pallet) :
  DisableNonceValidation = false -> nonces_canonical p ->
  call_tx c = Some tx -> validate_unsigned c p = Ret (Err Stale, p') ->
  (is_Some (tx_account tx) -> forall p1, dispatch OriginNone c p <> Ret (Ok tt, p1))
  /\ (forall t fee, c = consume_l1_message t fee ->
      dispatch OriginNone c p = Ret (Err (PErr L1MessageAlreadyExecuted), p)).
Proof.
  intros Hd Hc Htx Hs. apply validate_unsigned_stale in Hs as (tx0 & Hg & p0 & Hn). split.
  - intros [[a n] Ha] p1 Hdis. destruct (dispatch_nonce _ _ _ _ _ _ Hd Hc Htx Ha Hdis) as [Hv _].
    destruct (felt_from_stark_ret _ (nonce_canonical p (to_new ContractAddressT a) Hc)) as (f & Hf & Vf).
    change (stark_val _) with (nonce_val p (to_new ContractAddressT a)) in Vf.
    destruct (tx_account_user _ _ _ _ Htx Ha) as (u & Hu & <- & Hun). rewrite Hu in Hg. injection Hg as <-.
    revert Hn. unfold validate_unsigned_tx_nonce, ebind, eget, elift, felt_from_new.
    rewrite Hf, Hun. destruct (_ <? _) eqn:E; [|done]. zbool. lia.
  - intros t fee ->. simpl in Hg. simplify_eq. unfold validate_unsigned_tx_nonce, ensure_l1_message_not_executed in Hn.
    unfold etry, ebind, eget, eret in Hn. case_bool_decide as Hin; [|done].
    unfold dispatch. simpl. unfold consume_l1_message_call, is_l1_message_executed, ensure, etry, ebind, eget, eret. simpl.
    rewrite bool_decide_true by exact Hin. done.
Qed.

(** The sequencer address inherent is what lets a block be finalized.  Bytes
    read from the node's storage give an inherent exactly when there are 32 of
    them.  On a block whose address is not set yet, the call built from the
    inherent stores the address and sets the flag that [on_finalize] checks when
    the address is a valid contract address; when it is not, the call fails with
    [SequencerAddressNotValid] and [on_finalize] panics.  The pool never accepts
    that call. *)
Theorem inherent_sets_sequencer {IN : Inherents} {held slot_identifier} {IL : InherentsLaws held slot_identifier} (p : Pallet) (stored : list byte) (addr : array 32) :
  seq_addr_update (ledger p) = None ->
  (is_ok (provider_try_from stored) = true <-> length stored = 32%nat)
  /\ (provider_try_from stored = Ok (mk_provider addr) ->
      (forall d, held d !! INHERENT_IDENTIFIER = None ->
       exists d', provide_inherent_data (mk_provider addr) d = Ret (Ok tt, d')
       /\ create_inherent d' = Ret (Some (set_sequencer_address addr)))
      /\ arr addr = stored
      /\ match stark_new addr with
         | Some s =>
             if patricia_check s then
               exists p', dispatch OriginNone (set_sequencer_address addr) p = Ret (Ok tt, p')
               /\ seq_addr_update (ledger p') = Some true /\ arr (stark_bytes (new0 (sequencer_address (ledger p')))) = stored
             else dispatch OriginNone (set_sequencer_address addr) p
                  = Ret (Err (PErr SequencerAddressNotValid), p) /\ on_finalize p = Panic
         | None => dispatch OriginNone (set_sequencer_address addr) p
                   = Ret (Err (PErr SequencerAddressNotValid), p) /\ on_finalize p = Panic
         end)
  /\ validate_unsigned (set_sequencer_address addr) p = Ret (Err InvalidCall, p).
Proof.
  intros Hs. split; [|split; [|done]].
  - unfold provider_try_from. destruct (array_of_slice 32 stored) as [a|] eqn:E; simpl.
    + apply array_of_slice_spec in E. rewrite <- E, arr_length. done.
    + apply array_of_slice_none in E. done.
  - unfold provider_try_from. destruct (array_of_slice 32 stored) as [a|] eqn:E; [|done]. intros [= <-].
    apply array_of_slice_spec in E. split.
    { intros d Hd. destruct (provide_then_get (mk_provider a) d Hd) as (d' & H1 & H2). exists d'. split; [done|].
      unfold create_inherent. by rewrite H2. }
    split; [done|].
    assert (Hf : on_finalize p = Panic).
    { unfold on_finalize, ebind, eget, eassert. by rewrite Hs. }
    assert (Hdis : dispatch OriginNone (set_sequencer_address a) p
      = match stark_new a with
        | Some s => if patricia_check s then
            Ret (Ok tt, set_ledger (set_seq_addr_update (Some true)) (set_ledger (put_sequencer_address (mk_new s)) p))
            else Ret (Err (PErr SequencerAddressNotValid), p)
        | None => Ret (Err (PErr SequencerAddressNotValid), p)
        end).
    { unfold dispatch. simpl. unfold set_sequencer_address_call, ensure, etry, ebind, eget, eret, eassert, eput. simpl.
      rewrite Hs. destruct (1 <? _); simpl; destruct (stark_new a) as [s|]; simpl; try done; by destruct (patricia_check s). }
    rewrite Hdis. destruct (stark_new a) as [s|] eqn:Es; [|done]. destruct (patricia_check s); [|done].
    eexists. split; [done|]. split; [done|]. simpl. by rewrite (stark_new_bytes _ _ Es).
Qed.

End properties.

(** ** Witnesses *)
Import ChainWitness.

(** Inherent data as a map. *)
Module InherentsReference.
Definition put_entry (identifier : list byte) (value : InherentValue) : effr (gmap (list byte) InherentValue) InherentError unit :=
  present <-- eget (fun d => d !! identifier);;
  match present with
  | Some _ => eret (Err WrongAddressFormat)
  | None => eput (insert identifier value) ;;; eret (Ok tt)
  end.

#[export] Instance map_inherents : Inherents := {|
  InherentData := gmap (list byte) InherentValue;
  InherentsError := InherentError;
  Application e := e;
  inherent_data_new := ∅;
  put_data := put_entry;
  get_address identifier d :=
    match d !! identifier with
    | Some (ValueAddress a) => Ok (Some a) | Some (ValueU64 _) => Err WrongAddressFormat | None => Ok None end;
  timestamp_identifier := bytes_of "timstap0";
  provide_timestamp n := put_entry (bytes_of "timstap0") (ValueU64 n);
  provide_slot n := put_entry (bytes_of "auraslot") (ValueU64 n);
  decode_inherent_error data := match data with [] => None | _ => Some WrongAddressFormat end;
|}.

#[export] Instance map_inherents_laws : InherentsLaws (IN := map_inherents) id (bytes_of "auraslot").
Proof.
  constructor; try done.
  - intros identifier value d Hd. exists (<[identifier := value]> d). split; [|done]. cbn. unfold put_entry, ebind, eget, eput, eret.
    unfold id in Hd. by rewrite Hd.
  - intros identifier a d Hd. unfold id in Hd. cbn in *. by rewrite Hd.
  - intros identifier d Hd. unfold id in Hd. cbn in *. by rewrite Hd.
  - apply (bool_decide_eq_true_1 _). vm_compute. reflexivity.
Qed.
End InherentsReference.
Import InherentsReference.

(** The tags of the invoke with nonce [n] of the account whose nonce is 2. *)
Definition w_valid (n : Z) : ValidTransaction :=
  valid_transaction (PRegularTxs account (felt_of_Z n) (felt_of_Z 2)).

Lemma w_validated n :
  match validate_unsigned (invoke (w_invoke1 n)) (state w_chain) with
  | Ret (Ok v, _) => bool_decide (vt_requires v = vt_requires (w_valid n) /\ vt_provides v = vt_provides (w_valid n)
       /\ vt_priority v = vt_priority (w_valid n) /\ vt_longevity v = vt_longevity (w_valid n) /\ vt_propagate v = vt_propagate (w_valid n))
  | _ => false end = true ->
  exists p', validate_unsigned (invoke (w_invoke1 n)) (state w_chain) = Ret (Ok (w_valid n), p').
Proof.
  destruct (validate_unsigned (invoke (w_invoke1 n)) (state w_chain)) as [[[v|e] p']|]; [|done|done].
  intros H%bool_decide_eq_true_1. exists p'. destruct v, (w_valid n); simpl in H.
  destruct H as (-> & -> & -> & -> & ->). reflexivity.
Qed.

Lemma pool_orders_nonces_witness :
  exists j c' v' n', (j < 1)%nat
  /\ [(invoke (w_invoke1 2), w_valid 2); (invoke (w_invoke1 3), w_valid 3)] !! j = Some (c', v')
  /\ pool_key c' = Some (account, n') /\ felt_val n' = 2.
Proof.
  destruct (pool_orders_nonces (state w_chain)
              [(invoke (w_invoke1 2), w_valid 2); (invoke (w_invoke1 3), w_valid 3)] 1
              (invoke (w_invoke1 3)) (w_valid 3) account (felt_of_Z 3)) as [_ H].
  - exact (ci_canonical _ (reachable_inv _ w_reachable)).
  - intros c v [[= -> ->]|[[= -> ->]|H]%elem_of_cons]%elem_of_cons.
    + apply w_validated. vm_compute. reflexivity.
    + apply w_validated. vm_compute. reflexivity.
    + exfalso. exact (not_elem_of_nil _ H).
  - intros [|[|i]] v t; [intros [= <-]; vm_compute; intros H; inversion H| |done].
    intros [= <-] Ht. exists 0%nat, (w_valid 2). split; [lia|]. split; [done|].
    apply list_elem_of_singleton in Ht as ->. apply (bool_decide_eq_true_1 _). vm_compute. reflexivity.
  - reflexivity.
  - reflexivity.
  - apply (bool_decide_eq_true_1 _). vm_compute. reflexivity.
  - apply (H 2). assert (Hn : nonce_val (state w_chain) (to_new ContractAddressT account) = 2) by (vm_compute; reflexivity).
    rewrite Hn. split; [lia|]. vm_compute. reflexivity.
Defined.

Lemma stale_never_dispatches_witness :
  (forall p1, dispatch OriginNone (invoke (w_invoke1 1)) (state w_chain) <> Ret (Ok tt, p1))
  /\ dispatch OriginNone (consume_l1_message (w_message 1) 5) (state w_chain)
     = Ret (Err (PErr L1MessageAlreadyExecuted), state w_chain).
Proof.
  assert (Hs : forall c, match validate_unsigned c (state w_chain) with Ret (Err Stale, _) => true | _ => false end = true ->
                         exists p', validate_unsigned c (state w_chain) = Ret (Err Stale, p')).
  { intros c. destruct (validate_unsigned c (state w_chain)) as [[[v|[]] p']|]; try done. intros _. by exists p'. }
  pose proof (ci_canonical _ (reachable_inv _ w_reachable)) as Hc. split.
  - destruct (Hs (invoke (w_invoke1 1))) as [p' Hp]; [vm_compute; reflexivity|].
    destruct (stale_never_dispatches (invoke (w_invoke1 1)) (TInvoke (w_invoke1 1)) (state w_chain) p') as [H _];
      [reflexivity|exact Hc|reflexivity|exact Hp|].
    apply H. exists (account, felt_of_Z 1). reflexivity.
  - destruct (Hs (consume_l1_message (w_message 1) 5)) as [p' Hp]; [vm_compute; reflexivity|].
    destruct (stale_never_dispatches (consume_l1_message (w_message 1) 5) (TL1Handler (w_message 1)) (state w_chain) p')
      as [_ H]; [reflexivity|exact Hc|reflexivity|exact Hp|].
    exact (H _ _ eq_refl).
Defined.

Lemma inherent_sets_sequencer_witness :
  exists p', dispatch OriginNone (set_sequencer_address DEFAULT_SEQUENCER_ADDRESS) (empty_pallet 0) = Ret (Ok tt, p')
  /\ seq_addr_update (ledger p') = Some true.
Proof.
  destruct (inherent_sets_sequencer (empty_pallet 0) (arr DEFAULT_SEQUENCER_ADDRESS) DEFAULT_SEQUENCER_ADDRESS eq_refl)
    as (_ & H & _).
  destruct H as (_ & _ & H); [unfold provider_try_from; rewrite array_of_slice_arr; reflexivity|].
  assert (Hn : exists s, stark_new DEFAULT_SEQUENCER_ADDRESS = Some s /\ patricia_check s = true).
  { assert (Hb : match stark_new DEFAULT_SEQUENCER_ADDRESS with Some s => patricia_check s | None => false end = true)
      by (vm_compute; reflexivity).
    destruct (stark_new DEFAULT_SEQUENCER_ADDRESS) as [s|]; [exists s; split; [reflexivity|exact Hb]|discriminate Hb]. }
  destruct Hn as (s & E1 & E2). rewrite E1, E2 in H. destruct H as (p' & H1 & H2 & _). exists p'. split; assumption.
Defined.
