(* ===== verification/Simulations.v ===== *)
(** * Simulation of transactions

    Models [crates/pallets/starknet/src/simulations.rs]: fee estimation,
    simulation and re-execution of transactions on a storage layer that is rolled
    back.  The main theorem is that re-execution, which the trace API is built
    on, reports exactly the executions that including the transactions recorded. *)
From S2P Require Import Prelude Bytes Deps Felt Hashers Transactions ComputeHash Blockifier Conversions Fee.
From S2P Require Import Execution Parametric Block CallTrace PalletStorage Pallet PalletEffects Chain ChainRun.
Local Open Scope Z_scope.

(** The result of a transaction that could not be executed, which carries no
    information. *)
Inductive PlaceHolderError := PlaceHolderErrorTypeForFailedStarknetExecution.

Section simulations.
  Context `{SF : StarknetFf} `{SA : StarknetApi} `{PT : PrimitiveTypes} `{SC : StarknetCrypto}.
  Context `{FX : FixedPoint} `{LC : LogCodec} `{BL : Blockifier} {CFG : Config}.

(** [with_transaction] with the outcome [Rollback]: the writes are discarded.  It
    fails when FRAME refuses another nested storage layer. *)
Definition with_rollback {A} (limit_reached : bool) (m : effr Pallet DispatchError A) : effr Pallet DispatchError A :=
  fun p =>
    if limit_reached then Ret (Err (PErr FailedToCreateATransactionalStorageExecution), p)
    else match m p with Ret (r, _) => Ret (r, p) | Panic => Panic end.

(** [.execute(&mut BlockifierStateAdapter::<T>::default(), ..)]. *)
Definition adapter_execute {T : Type} `{!GetAccountTransactionContext T} `{!Execute AdapterState T} (t : T)
    (block_context : BlockContext) (cfg : ExecutionConfig)
  : effr Pallet TransactionExecutionError TransactionExecutionInfo :=
  fun p =>
    match execute t block_context cfg (adapter_default, p) with
    | Ret (r, (_, p')) => Ret (r, p')
    | Panic => Panic
    end.

Definition execute_user_transaction (transaction : UserTransaction) (chain_id : Felt252Wrapper)
    (block_context : BlockContext) (execution_config : ExecutionConfig)
  : effr Pallet TransactionExecutionError TransactionExecutionInfo :=
  match transaction with
  | UDeclare tx contract_class =>
      exec <-? eret (declare_try_into_executable tx chain_id contract_class (declare_offset_version tx));;
      adapter_execute exec block_context execution_config
  | UDeployAccount tx =>
      adapter_execute (deploy_account_into_executable tx chain_id (da_offset_version tx)) block_context execution_config
  | UInvoke tx =>
      adapter_execute (invoke_into_executable tx chain_id (invoke_offset_version tx)) block_context execution_config
  end.

Definition is_reverted (i : TransactionExecutionInfo) : bool := bool_decide (is_Some (tei_revert_error i)).

(** [actual_fee.0 as u64] drops the upper half of the [u128]. *)
Definition fee_as_u64 (i : TransactionExecutionInfo) : Z := wrap 64 (tei_actual_fee i).

(** The [for] loop over the lazy iterator: a failure stops the executions. *)
Fixpoint estimate_loop (block_context : BlockContext) (execution_config : ExecutionConfig)
    (transactions : list UserTransaction) (fees : list (Z * Z)) : effr Pallet DispatchError (list (Z * Z)) :=
  match transactions with
  | [] => eret (Ok fees)
  | tx :: transactions' =>
      let execution_config := set_offset_version execution_config (user_offset_version tx) in
      r <-- execute_user_transaction tx ChainId block_context execution_config;;
      match r with
      | Err _ => eret (Err (PErr TransactionExecutionFailed))
      | Ok execution_info =>
          if is_reverted execution_info then eret (Err (PErr TransactionExecutionFailed))
          else
            match tei_actual_resources execution_info !! "l1_gas_usage"%string with
            | None => eret (Err (PErr MissingL1GasUsage))
            | Some l1_gas_usage =>
                estimate_loop block_context execution_config transactions'
                  (fees ++ [(fee_as_u64 execution_info, l1_gas_usage)])
            end
      end
  end.

Definition estimate_fee_inner (transactions : list UserTransaction) : effr Pallet DispatchError (list (Z * Z)) :=
  block_context <-- eget get_block_context;;
  estimate_loop block_context (with_query_mode config_new) transactions [].

Definition estimate_fee (limit_reached : bool) (transactions : list UserTransaction)
  : effr Pallet DispatchError (list (Z * Z)) := with_rollback limit_reached (estimate_fee_inner transactions).

(** [map] and [collect] into a vector: every transaction is executed. *)
Fixpoint simulate_loop (block_context : BlockContext) (execution_config : ExecutionConfig)
    (transactions : list UserTransaction) : eff Pallet (list (result PlaceHolderError TransactionExecutionInfo)) :=
  match transactions with
  | [] => eret []
  | tx :: transactions' =>
      let execution_config := set_offset_version execution_config (user_offset_version tx) in
      r <-- execute_user_transaction tx ChainId block_context execution_config;;
      rs <-- simulate_loop block_context execution_config transactions';;
      eret (map_err (fun _ => PlaceHolderErrorTypeForFailedStarknetExecution) r :: rs)
  end.

Definition simulate_transactions_inner (transactions : list UserTransaction) (simulation_flags : SimulationFlags)
  : effr Pallet DispatchError (list (result PlaceHolderError TransactionExecutionInfo)) :=
  block_context <-- eget get_block_context;;
  rs <-- simulate_loop block_context (with_simulation_mode simulation_flags config_new) transactions;;
  eret (Ok rs).

Definition simulate_transactions (limit_reached : bool) (transactions : list UserTransaction)
    (simulation_flags : SimulationFlags)
  : effr Pallet DispatchError (list (result PlaceHolderError TransactionExecutionInfo)) :=
  with_rollback limit_reached (simulate_transactions_inner transactions simulation_flags).

Definition estimate_message_fee_inner (message : HandleL1MessageTransaction)
  : effr Pallet DispatchError (Z * Z * Z) :=
  block_context <-- eget get_block_context;;
  r <-- adapter_execute (l1_handler_into_executable message ChainId u128_max true) block_context
          (with_disable_nonce_validation (with_query_mode config_new));;
  match r with
  | Err _ => eret (Err (PErr TransactionExecutionFailed))
  | Ok tx_execution_infos =>
      if is_reverted tx_execution_infos then eret (Err (PErr TransactionExecutionFailed))
      else
        match tei_actual_resources tx_execution_infos !! "l1_gas_usage"%string with
        | Some l1_gas_usage => eret (Ok (price_in_wei L1GasPrice, fee_as_u64 tx_execution_infos, l1_gas_usage))
        | None => eret (Err (PErr MissingL1GasUsage))
        end
  end.

Definition estimate_message_fee (limit_reached : bool) (message : HandleL1MessageTransaction)
  : effr Pallet DispatchError (Z * Z * Z) := with_rollback limit_reached (estimate_message_fee_inner message).

(** The closure of [re_execute_transactions_inner]; the errors are mapped by the
    loop. *)
Definition re_execute_one (block_context : BlockContext) (execution_config : ExecutionConfig)
    (user_or_l1_tx : UserOrL1HandlerTransaction)
  : effr Pallet TransactionExecutionError TransactionExecutionInfo :=
  match user_or_l1_tx with
  | User (UDeclare tx contract_class) =>
      executable <-? eret (declare_try_into_executable tx ChainId contract_class false);;
      adapter_execute executable block_context execution_config
  | User (UDeployAccount tx) =>
      adapter_execute (deploy_account_into_executable tx ChainId false) block_context execution_config
  | User (UInvoke tx) =>
      adapter_execute (invoke_into_executable tx ChainId false) block_context execution_config
  | L1Handler tx fee =>
      adapter_execute (l1_handler_into_executable tx ChainId fee false) block_context execution_config
  end.

(** [collect] into a [Result]: the first failure ends the iteration. *)
Fixpoint re_execute_loop (block_context : BlockContext) (execution_config : ExecutionConfig)
    (transactions : list UserOrL1HandlerTransaction)
  : effr Pallet PlaceHolderError (list TransactionExecutionInfo) :=
  match transactions with
  | [] => eret (Ok [])
  | tx :: transactions' =>
      info <-? emap_err (fun _ => PlaceHolderErrorTypeForFailedStarknetExecution)
                 (re_execute_one block_context execution_config tx);;
      infos <-? re_execute_loop block_context execution_config transactions';;
      eret (Ok (info :: infos))
  end.

Definition re_execute_transactions_inner (transactions : list UserOrL1HandlerTransaction)
  : effr Pallet DispatchError (result PlaceHolderError (list TransactionExecutionInfo)) :=
  block_context <-- eget get_block_context;;
  execution_infos <-- re_execute_loop block_context config_new transactions;;
  eret (Ok execution_infos).

Definition re_execute_transactions (limit_reached : bool) (transactions : list UserOrL1HandlerTransaction)
  : effr Pallet DispatchError (result PlaceHolderError (list TransactionExecutionInfo)) :=
  with_rollback limit_reached (re_execute_transactions_inner transactions).

End simulations.

(** ** Re-execution of included transactions *)
Section replay.
  Context `{SF : StarknetFf} {SFL : StarknetFfLaws} `{SA : StarknetApi} {SAL : StarknetApiLaws}.
  Context `{PT : PrimitiveTypes} `{SC : StarknetCrypto} `{FX : FixedPoint} `{LC : LogCodec}.
  Context `{BL : Blockifier} {BLL : BlockifierLaws} {BP : BlockifierParametric} {CFG : Config}.

(** The call that includes a transaction, and the transaction it records. *)
Definition call_of (t : UserOrL1HandlerTransaction) : Call :=
  match t with
  | User (UDeclare tx contract_class) => declare tx contract_class
  | User (UDeployAccount tx) => deploy_account tx
  | User (UInvoke tx) => invoke tx
  | L1Handler tx fee => consume_l1_message tx fee
  end.
Definition tx_of (t : UserOrL1HandlerTransaction) : Transaction :=
  match t with
  | User (UDeclare tx _) => TDeclare tx
  | User (UDeployAccount tx) => TDeployAccount tx
  | User (UInvoke tx) => TInvoke tx
  | L1Handler tx _ => TL1Handler tx
  end.

(** The transactions are dispatched one after the other, and each one's entry in
    the ledger is that of the execution [info]. *)
Inductive included : Pallet -> list UserOrL1HandlerTransaction -> list TransactionExecutionInfo -> Pallet -> Prop :=
| included_nil p : included p [] [] p
| included_cons p t ts info infos q p1 p2 :
    dispatch OriginNone (call_of t) p = Ret (Ok tt, p1) ->
    p1 = recorded (tx_key (tx_of t)) (tx_of t) info q ->
    ledger q = ledger (prepared (call_of t) p) -> system q = system p ->
    included p1 ts infos p2 ->
    included p (t :: ts) (info :: infos) p2.

(** Two storages that execution cannot tell apart. *)
Definition same_world (s1 s2 : AdapterState) : Prop := fst s1 = fst s2 /\ world (snd s1) = world (snd s2).

Ltac same_world_solve :=
  intros;
  match goal with
  | H : same_world ?s1 ?s2 |- _ =>
      let Hw := fresh "Hw" in
      destruct s1, s2, H as [? Hw]; simpl in *; subst;
      unfold same_world, storage, nonce, contract_class_hash_by_address; simpl; rewrite ?Hw; done
  end.

Lemma adapter_agree : state_agree same_world.
Proof.
  constructor; intros; simpl;
    unfold adapter_increment_nonce, adapter_set_storage_at, adapter_set_class_hash_at, adapter_set_contract_class,
      adapter_set_compiled_class_hash, on_world;
    repeat first [apply agree_get; same_world_solve | apply agree_put; same_world_solve | apply agree_bind; intros
                 | apply agree_ret | apply agree_lift].
Qed.

Lemma adapter_changes_agree (s1 s2 : AdapterState) : same_world s1 s2 -> count_state_changes s1 = count_state_changes s2.
Proof. intros [H _]. simpl. unfold adapter_count_state_changes. by rewrite H. Qed.

#[local] Instance same_invoke : AgreeExecute same_world bInvoke := agree_invoke _ adapter_agree adapter_changes_agree.
#[local] Instance same_declare : AgreeExecute same_world bDeclare := agree_declare _ adapter_agree adapter_changes_agree.
#[local] Instance same_deploy_account : AgreeExecute same_world bDeployAccount :=
  agree_deploy_account _ adapter_agree adapter_changes_agree.
#[local] Instance same_l1_handler : AgreeExecute same_world bL1Handler :=
  agree_l1_handler _ adapter_agree adapter_changes_agree.

Lemma adapter_execute_same {T : Type} `{!GetAccountTransactionContext T} {E : Execute AdapterState T}
    {AE : AgreeExecute same_world T} (t : T) bc cfg p q r p' :
  world p = world q -> adapter_execute t bc cfg p = Ret (r, p') ->
  exists q', adapter_execute t bc cfg q = Ret (r, q') /\ world p' = world q'.
Proof.
  intros Hw. unfold adapter_execute. destruct (execute _ _ _ (_, p)) as [[r1 [a1 p1]]|] eqn:E1; [|done].
  intros [= <- <-].
  destruct (agree_run _ _ _ (adapter_default, p) (adapter_default, q) _ _
              (agree_execute same_world adapter_agree t bc cfg) (conj eq_refl Hw) E1)
    as ([a2 q1] & -> & _ & Hq). by exists q1.
Qed.

(** The execution inside a dispatched call. *)
Lemma guarded_exec_inv {T : Type} `{!GetAccountTransactionContext T} `{!Execute AdapterState T} (t : T) h tx p p' :
  (infos <-? execute_tx t config_new;; record_tx h tx infos) p = Ret (Ok tt, p') ->
  exists p1 info, adapter_execute t (get_block_context p) config_new p = Ret (Ok info, p1) /\ p' = recorded h tx info p1.
Proof.
  unfold etry, ebind, execute_tx, adapter_execute.
  destruct (execute _ _ _ _) as [[[info|e] [a p1]]|]; cbn [map_err]; [|done|done].
  rewrite record_tx_spec. intros [= <-]. eauto.
Qed.

(** The declare conversion keeps the hash of the transaction. *)
Lemma declare_executable_hash tx cl d :
  declare_try_into_executable tx ChainId cl false = Ok d -> bd_tx_hash d = tx_key (TDeclare tx).
Proof. unfold declare_try_into_executable. by intros ->%declare_new_ok. Qed.

Lemma dispatch_exec_inv t p p' :
  dispatch OriginNone (call_of t) p = Ret (Ok tt, p') ->
  exists info q, re_execute_one (get_block_context (prepared (call_of t) p)) config_new t (prepared (call_of t) p)
                 = Ret (Ok info, q)
    /\ p' = recorded (tx_key (tx_of t)) (tx_of t) info q.
Proof.
  intros Hd. apply dispatch_ok in Hd as [_ Hb].
  destruct t as [[tx cl|tx|tx]|tx fee]; cbn [call_of call_body tx_of prepared re_execute_one] in *.
  - unfold declare_call, ebind at 1, eget in Hb.
    destruct (declare_try_into_executable tx ChainId cl false) as [d|e] eqn:Ed; [|done].
    change (map_err _ (Ok d)) with (Ok (E := DispatchError) d) in Hb. unfold etry at 1, ebind at 1, eret at 1 in Hb.
    apply ensure_inv in Hb as [_ Hb]. apply ensure_inv in Hb as [_ Hb].
    destruct (guarded_exec_inv _ _ _ _ _ Hb) as (p1 & info & He & ->). exists info, p1.
    rewrite (declare_executable_hash _ _ _ Ed). unfold etry, ebind, eret. by rewrite He.
  - unfold deploy_account_call, ebind at 1, eget in Hb. apply ensure_inv in Hb as [_ Hb].
    destruct (guarded_exec_inv _ _ _ _ _ Hb) as (p1 & info & He & ->). by exists info, p1.
  - unfold invoke_call, ebind at 1, eget in Hb. apply ensure_inv in Hb as [_ Hb].
    destruct (guarded_exec_inv _ _ _ _ _ Hb) as (p1 & info & He & ->). by exists info, p1.
  - unfold consume_l1_message_call, ebind at 1, eget in Hb. apply ensure_inv in Hb as [_ Hb].
    unfold ebind at 1, eput in Hb.
    destruct (guarded_exec_inv _ _ _ _ _ Hb) as (p1 & info & He & ->). by exists info, p1.
Qed.

Lemma re_execute_one_same bc cfg t p q r p' :
  world p = world q -> re_execute_one bc cfg t p = Ret (r, p') ->
  exists q', re_execute_one bc cfg t q = Ret (r, q') /\ world p' = world q'.
Proof.
  intros Hw. destruct t as [[tx cl|tx|tx]|tx fee]; cbn [re_execute_one];
    try (by apply adapter_execute_same).
  unfold etry, ebind, eret. destruct (declare_try_into_executable _ _ _ _) as [d|e];
    [by apply adapter_execute_same|]. intros [= <- <-]. by exists q.
Qed.

(** Executing leaves everything but the world alone. *)
Lemma re_execute_one_evolves bc cfg t p r p' :
  nonces_canonical p -> re_execute_one bc cfg t p = Ret (r, p') -> evolves p p'.
Proof.
  intros Hn.
  assert (Hx : forall (T : Type) (G : GetAccountTransactionContext T) (E : Execute AdapterState T) (FE : FramedExecute T)
    (x : T), adapter_execute x bc cfg p = Ret (r, p') -> evolves p p').
  { intros T G E FE x. unfold adapter_execute. destruct (execute _ _ _ _) as [[r0 [ad p0]]|] eqn:He; [|done].
    intros [= <- <-]. exact (transacts_evolves _ _ (within_execute _ _ _ _ _ _ He) Hn). }
  destruct t as [[tx cl|tx|tx]|tx fee]; cbn [re_execute_one]; try (by apply Hx, _).
  unfold etry, ebind, eret. destruct (declare_try_into_executable _ _ _ _); [by apply Hx, _|].
  intros [= <- <-]. reflexivity.
Qed.

(** The block context only depends on parts that recording keeps. *)
Lemma context_prepared c p : get_block_context (prepared c p) = get_block_context p.
Proof. by destruct c. Qed.

Lemma context_recorded h tx i p q :
  ledger q = ledger p -> system q = system p ->
  get_block_context (recorded h tx i q) = get_block_context p.
Proof.
  intros Hl Hs. unfold get_block_context, block_number, block_timestamp, recorded. cbn [system ledger].
  destruct (deposit_events_spec (tx_emits i) (system q)) as (-> & _ & -> & _ & _). rewrite Hs, <- Hl. done.
Qed.

Lemma world_prepared c p : world (prepared c p) = world p.
Proof. by destruct c. Qed.

Lemma prepared_canonical c p : nonces_canonical p -> nonces_canonical (prepared c p).
Proof. unfold nonces_canonical. by rewrite world_prepared. Qed.

(** One transaction: its inclusion and its re-execution on the same world. *)
Lemma replay_one t p p1 q :
  nonces_canonical p -> world q = world p -> dispatch OriginNone (call_of t) p = Ret (Ok tt, p1) ->
  exists info q0 q1,
    re_execute_one (get_block_context p) config_new t q = Ret (Ok info, q1)
    /\ p1 = recorded (tx_key (tx_of t)) (tx_of t) info q0
    /\ ledger q0 = ledger (prepared (call_of t) p) /\ system q0 = system p
    /\ world q1 = world p1 /\ nonces_canonical p1 /\ get_block_context p1 = get_block_context p.
Proof.
  intros Hn Hw Hd. destruct (dispatch_exec_inv _ _ _ Hd) as (info & q0 & He & ->). rewrite context_prepared in He.
  destruct (re_execute_one_evolves _ _ _ _ _ _ (prepared_canonical _ _ Hn) He) as [El Es Ec].
  destruct (re_execute_one_same _ _ _ _ q _ _ (eq_trans (world_prepared _ _) (eq_sym Hw)) He) as (q1 & H1 & Hq).
  assert (Hs : system (prepared (call_of t) p) = system p) by (by destruct (call_of t)).
  exists info, q0, q1. split_and!; [done|done|done|by rewrite Es|done|apply Ec; by apply prepared_canonical|].
  rewrite (context_recorded _ _ _ (prepared (call_of t) p)) by done. apply context_prepared.
Qed.

(** The storage a sequence of dispatches leads to. *)
Inductive dispatched : Pallet -> list UserOrL1HandlerTransaction -> Pallet -> Prop :=
| dispatched_nil p : dispatched p [] p
| dispatched_cons p t ts p1 p2 :
    dispatch OriginNone (call_of t) p = Ret (Ok tt, p1) -> dispatched p1 ts p2 -> dispatched p (t :: ts) p2.

Lemma replay_all ts p p' q :
  nonces_canonical p -> world q = world p -> dispatched p ts p' ->
  exists infos q', re_execute_loop (get_block_context p) config_new ts q = Ret (Ok infos, q')
    /\ world q' = world p' /\ included p ts infos p'.
Proof.
  intros Hn Hw Hd. revert Hn q Hw. induction Hd as [p|p t ts p1 p2 Hd _ IH]; intros Hn q Hw; cbn [re_execute_loop].
  { exists [], q. by split_and!; [..|constructor]. }
  destruct (replay_one t p p1 q Hn Hw Hd) as (info & q0 & q1 & H1 & Hp & Hl & Hs & Hq & Hc & Hctx).
  destruct (IH Hc q1 Hq) as (infos & q2 & H2 & Hw2 & Hi). rewrite Hctx in H2.
  exists (info :: infos), q2. unfold etry, emap_err, ebind, eret. rewrite H1. cbn [map_err]. rewrite H2.
  split_and!; [done|done|]. by econstructor.
Qed.

Lemma included_events p ts infos p' :
  included p ts infos p' -> sys_block_number (system p) <> 0 ->
  sys_events (system p') = sys_events (system p) ++ concat (map tx_emits infos)
  /\ pending (ledger p') = pending (ledger p) ++ map tx_of ts.
Proof.
  induction 1 as [p|p t ts info infos q p1 p2 _ -> Hl Hs _ IH]; intros Hb; simpl; [by rewrite !app_nil_r|].
  destruct (deposit_events_spec (tx_emits info) (system q)) as (Hn & _ & _ & _ & He).
  destruct IH as [-> ->]; cbn [recorded system ledger pending].
  { by rewrite Hn, Hs. }
  rewrite He, Hs, Hl by (by rewrite Hs). rewrite <- !app_assoc. by destruct (call_of t).
Qed.

(** C17: re-executing the transactions of a block on the storage the block started
    from reports exactly the executions that their inclusion recorded.  The
    re-execution succeeds on every transaction, leaves the storage as it was, and
    the infos it returns are those whose events, messages and revert reasons the
    dispatches wrote, transaction by transaction; in particular the events
    deposited in the block are those of the infos, in order. *)
Theorem re_execution_replays_block ts p p' :
  nonces_canonical p -> dispatched p ts p' ->
  exists infos,
    re_execute_transactions false ts p = Ret (Ok (Ok infos), p)
    /\ included p ts infos p'
    /\ (sys_block_number (system p) <> 0 ->
        sys_events (system p') = sys_events (system p) ++ concat (map tx_emits infos)).
Proof.
  intros Hn Hd. destruct (replay_all ts p p' p Hn eq_refl Hd) as (infos & q & Hr & _ & Hi).
  exists infos. split_and!; [|done|intros Hb; by apply (included_events _ _ _ _ Hi)].
  unfold re_execute_transactions, with_rollback, re_execute_transactions_inner, ebind, eget, eret. by rewrite Hr.
Qed.

End replay.

(** ** Fee estimation *)
Section estimation.
  Context `{SF : StarknetFf} {SFL : StarknetFfLaws} `{SA : StarknetApi} {SAL : StarknetApiLaws}.
  Context `{PT : PrimitiveTypes} `{SC : StarknetCrypto} `{FX : FixedPoint} `{LC : LogCodec}.
  Context `{BL : Blockifier} {BLL : BlockifierLaws} {CFG : Config}.

(** One transaction of an estimation. *)
Definition query_one (bc : BlockContext) (tx : UserTransaction)
  : effr Pallet TransactionExecutionError TransactionExecutionInfo :=
  execute_user_transaction tx ChainId bc (set_offset_version (with_query_mode config_new) (user_offset_version tx)).

(** The transactions run in turn, each on the storage its predecessor left, and
    none of them fails or reverts. *)
Inductive queried (bc : BlockContext) : Pallet -> list UserTransaction -> list TransactionExecutionInfo -> Pallet -> Prop :=
| queried_nil p : queried bc p [] [] p
| queried_cons p tx txs info infos p1 p2 :
    query_one bc tx p = Ret (Ok info, p1) -> is_reverted info = false ->
    queried bc p1 txs infos p2 -> queried bc p (tx :: txs) (info :: infos) p2.

(** What is reported for an execution: no fee is transferred, the fee is the one
    of its resources, and the gas usage is among them. *)
Record quoted (bc : BlockContext) (info : TransactionExecutionInfo) (quote : Z * Z) : Prop := {
  quoted_no_transfer : tei_fee_transfer_call_info info = None;
  quoted_fee :
    if DisableTransactionFee then tei_actual_fee info = 0
    else calculate_tx_fee (tei_actual_resources info) bc = Ret (Ok (tei_actual_fee info));
  quoted_gas : tei_actual_resources info !! GAS_USAGE = Some (snd quote);
  quoted_truncated : fst quote = wrap 64 (tei_actual_fee info);
}.

Lemma query_charge_fee bc actx res offset (s s' : AdapterState) fee info :
  let cfg := set_offset_version (with_query_mode config_new) offset in
  charge_fee bc actx res (disable_transaction_fee cfg) (disable_fee_charge cfg) (is_query cfg) s
  = Ret (Ok (fee, info), s') ->
  info = None /\ if DisableTransactionFee then fee = 0 else calculate_tx_fee res bc = Ret (Ok fee).
Proof.
  simpl. unfold charge_fee. destruct DisableTransactionFee; [by intros [= <- <- _]|].
  unfold etry, ebind, elift. destruct (calculate_tx_fee res bc) as [[f|e]|]; [|done|done].
  simpl. by intros [= <- <- _].
Qed.

Lemma adapter_execute_quoted {T : Type} `{!GetAccountTransactionContext T} `{!GetTxType T} {E : Execute AdapterState T}
    {DF : DefaultFee T} (t : T) bc offset p info p' :
  adapter_execute t bc (set_offset_version (with_query_mode config_new) offset) p = Ret (Ok info, p') ->
  exists gas, quoted bc info (fee_as_u64 info, gas).
Proof.
  unfold adapter_execute. destruct (execute _ _ _ _) as [[r [ad p1]]|] eqn:He; [|done]. intros [= -> <-].
  apply execute_ok_inv in He as (actx & s1 & veci & s2 & res & g & _ & _ & _ & Hf & _).
  rewrite default_fee in Hf. unfold default_handle_fee, etry, ebind, compute_transaction_resources in Hf.
  destruct (calculate_l1_gas_usage _ _ _) as [gas|e]; cbn [result_bind] in Hf; [|done].
  destruct (calculate_tx_resources res gas _) as [m|e] eqn:Hm; [|done].
  destruct (charge_fee _ _ _ _ _ _ _) as [[[[fee fi]|e] s3]|] eqn:Hc; [|done|done].
  unfold eret in Hf. injection Hf as Hfee Hfi Hres _. exists gas.
  apply query_charge_fee in Hc as [-> Hfee']. rewrite Hfee, Hres in Hfee'.
  constructor; [done|done| |done]. rewrite <- Hres. by eapply calculate_tx_resources_gas.
Qed.

Lemma query_one_quoted bc tx p info p' :
  query_one bc tx p = Ret (Ok info, p') -> exists gas, quoted bc info (fee_as_u64 info, gas).
Proof.
  unfold query_one. destruct tx as [tx cl|tx|tx]; cbn [execute_user_transaction user_offset_version];
    try (by apply adapter_execute_quoted).
  unfold etry, ebind, eret. destruct (declare_try_into_executable _ _ _ _); [|done]. by apply adapter_execute_quoted.
Qed.

(** The outcome of the loop, on success and on failure. *)
Lemma estimate_loop_spec bc offset txs fees p r p' :
  estimate_loop bc (set_offset_version (with_query_mode config_new) offset) txs fees p = Ret (r, p') ->
  match r with
  | Ok quotes => exists infos more, queried bc p txs infos p' /\ quotes = fees ++ more /\ Forall2 (quoted bc) infos more
  | Err e => e = PErr TransactionExecutionFailed
      /\ exists done tx rest infos p1 r1,
           txs = done ++ tx :: rest /\ queried bc p done infos p1 /\ query_one bc tx p1 = Ret (r1, p')
           /\ forall info, r1 = Ok info -> is_reverted info = true
  end.
Proof.
  revert offset fees p. induction txs as [|tx txs IH]; intros offset fees p; cbn [estimate_loop].
  { intros [= <- <-]. exists [], []. rewrite app_nil_r. split_and!; constructor. }
  unfold ebind. change (set_offset_version (set_offset_version (with_query_mode config_new) offset) (user_offset_version tx))
    with (set_offset_version (with_query_mode config_new) (user_offset_version tx)).
  fold (query_one bc tx). destruct (query_one bc tx p) as [[[info|e] p1]|] eqn:Hq; [| |done].
  2: { intros [= <- <-]. split; [done|]. exists [], tx, txs, [], p, (Err e). by split_and!; [|constructor| |]. }
  destruct (is_reverted info) eqn:Hrev.
  { intros [= <- <-]. split; [done|]. exists [], tx, txs, [], p, (Ok info).
    split_and!; [done|constructor|done|]. by intros i [= <-]. }
  destruct (query_one_quoted _ _ _ _ _ Hq) as [gas Hquote].
  change "l1_gas_usage"%string with GAS_USAGE. rewrite (quoted_gas _ _ _ Hquote). cbn [snd].
  intros Hrun. apply IH in Hrun. destruct r as [quotes|e].
  - destruct Hrun as (infos & more & Hin & -> & Hall). exists (info :: infos), ((fee_as_u64 info, gas) :: more).
    rewrite <- app_assoc. split_and!; [by econstructor|done|by constructor].
  - destruct Hrun as (-> & pre & tx' & rest & infos & p2 & r1 & -> & Hin & Hlast). split; [done|].
    exists (tx :: pre), tx', rest, (info :: infos), p2, r1. split_and!; [done|by econstructor|apply Hlast..].
Qed.

(** C29: fee estimation quotes what execution computes, and nothing else.  The
    storage is left as it was.  When a list of quotes is returned, the
    transactions were executed in turn without a failure or a revert, no fee was
    transferred, and each quote is the fee of the resources used, cut to 64 bits,
    with the L1 gas among those resources.  Otherwise the error is
    [TransactionExecutionFailed] (the missing gas usage never occurs) and it is
    due to the first transaction that fails or reverts after its predecessors. *)
Theorem estimate_fee_exact txs p r p' :
  estimate_fee false txs p = Ret (r, p') ->
  p' = p /\
  match r with
  | Ok quotes => exists infos q, queried (get_block_context p) p txs infos q /\ Forall2 (quoted (get_block_context p)) infos quotes
  | Err e => e = PErr TransactionExecutionFailed
      /\ exists done tx rest infos p1 r1 q,
           txs = done ++ tx :: rest /\ queried (get_block_context p) p done infos p1
           /\ query_one (get_block_context p) tx p1 = Ret (r1, q) /\ forall info, r1 = Ok info -> is_reverted info = true
  end.
Proof.
  unfold estimate_fee, with_rollback, estimate_fee_inner, ebind, eget.
  destruct (estimate_loop _ _ _ _ _) as [[r1 q]|] eqn:He; [|done]. intros [= -> <-]. split; [done|].
  apply (estimate_loop_spec _ false) in He. destruct r as [quotes|e].
  - destruct He as (infos & more & Hin & -> & Hall). by exists infos, q.
  - destruct He as (-> & pre & tx & rest & infos & p1 & r1 & He). split; [done|]. by exists pre, tx, rest, infos, p1, r1, q.
Qed.

(** An L1 handler is charged nothing on L2, and its estimation reports that charge:
    every fee quoted for a message is zero, whatever gas it uses. *)
Theorem message_fee_quote_zero limit_reached message p price fee gas p' :
  estimate_message_fee limit_reached message p = Ret (Ok (price, fee, gas), p') ->
  p' = p /\ price = price_in_wei L1GasPrice /\ fee = 0.
Proof.
  unfold estimate_message_fee, with_rollback, estimate_message_fee_inner, ebind, eget, eret. destruct limit_reached; [done|].
  destruct (adapter_execute _ _ _ _) as [[[info|e] p1]|] eqn:He; [|done|done].
  destruct (is_reverted info); [done|]. destruct (_ !! _); [|done]. intros [= <- <- _ <-]. split_and!; [done..|].
  revert He. unfold adapter_execute. destruct (execute _ _ _ _) as [[r [ad p2]]|] eqn:He; [|done]. intros [= -> _].
  apply execute_ok_inv in He as (actx & s1 & veci & s2 & res & g & _ & _ & _ & Hf & _). revert Hf. simpl.
  unfold l1_handler_handle_fee, etry, ebind, elift, compute_transaction_resources, eret.
  destruct (result_bind _ _); [|done]. destruct (calculate_tx_fee _ _) as [[]|]; [|done..].
  unfold fee_as_u64. destruct (_ =? 0); [done|]. by intros [= <- _ _ _].
Qed.

End estimation.

(** ** Witnesses *)
Import ChainWitness.

Fixpoint w_dispatch (p : Pallet) (ts : list UserOrL1HandlerTransaction) : option Pallet :=
  match ts with
  | [] => Some p
  | t :: ts' => match dispatch OriginNone (call_of t) p with Ret (Ok _, p1) => w_dispatch p1 ts' | _ => None end
  end.

Lemma w_dispatched ts p p' : w_dispatch p ts = Some p' -> dispatched p ts p'.
Proof.
  revert p. induction ts as [|t ts IH]; intros p; cbn [w_dispatch]; [intros [= <-]; constructor|].
  destruct (dispatch OriginNone (call_of t) p) as [[[[]|e] p1]|] eqn:Hd; [|done|done]. intros Hr.
  econstructor; [exact Hd|by apply IH].
Qed.

Definition w_txs : list UserOrL1HandlerTransaction := [User (UInvoke (w_invoke1 2)); L1Handler (w_message 2) 5].

Lemma re_execution_replays_block_witness :
  exists infos p', re_execute_transactions false w_txs (state w_chain) = Ret (Ok (Ok infos), state w_chain)
    /\ included (state w_chain) w_txs infos p'.
Proof.
  assert (H : is_Some (w_dispatch (state w_chain) w_txs)) by (apply (bool_decide_eq_true_1 _); vm_compute; reflexivity).
  destruct H as [p' H].
  destruct (re_execution_replays_block w_txs (state w_chain) p' (ci_canonical _ (reachable_inv _ w_reachable))
              (w_dispatched _ _ _ H)) as (infos & H1 & H2 & _).
  exists infos, p'. split; [exact H1|exact H2].
Defined.

(** An estimation of one invoke that succeeds. *)
Lemma estimate_fee_exact_witness :
  exists quotes infos q, estimate_fee false [UInvoke (w_invoke1 2)] (state w_chain) = Ret (Ok quotes, state w_chain)
    /\ queried (get_block_context (state w_chain)) (state w_chain) [UInvoke (w_invoke1 2)] infos q.
Proof.
  assert (H : match estimate_fee false [UInvoke (w_invoke1 2)] (state w_chain) with Ret (Ok _, _) => true | _ => false end
              = true) by (vm_compute; reflexivity).
  destruct (estimate_fee false [UInvoke (w_invoke1 2)] (state w_chain)) as [[[quotes|e] p']|] eqn:He;
    [|discriminate H|discriminate H].
  destruct (estimate_fee_exact _ _ _ _ He) as (-> & infos & q & Hq & _).
  exists quotes, infos, q. split; [reflexivity|exact Hq].
Defined.
