(* ===== verification/Runtime.v ===== *)
(** * The runtime API

    Models the implementation of [StarknetRuntimeApi] and
    [ConvertTransactionRuntimeApi] in [crates/runtime/src/lib.rs]: the functions
    the node calls on the state of a block.  Those that only forward to the pallet
    are its definitions. *)
From S2P Require Import Prelude Bytes Deps Felt Hashers Transactions ComputeHash Blockifier Conversions Fee.
From S2P Require Import Execution Block CallTrace PalletStorage Pallet PalletEffects.
Local Open Scope Z_scope.

(** The event records of [frame_system], and the calls of the runtime. *)
Inductive Phase := ApplyExtrinsic (idx : Z) | Finalization | Initialization.
Inductive RuntimeEvent := REStarknet (e : StarknetEvent) | REOther.
Inductive RuntimeCall `{ContractClassI} := RCStarknet (c : Call) | RCOther.

(** ** Events *)
Definition get_starknet_events_and_their_associated_tx_index (records : list (Phase * RuntimeEvent))
  : list (Z * StarknetEvent) :=
  omap (fun r => match r with (ApplyExtrinsic idx, REStarknet e) => Some (idx, e) | _ => None end) records.

(** The Starknet events with their phases. *)
Definition starknet_records (records : list (Phase * RuntimeEvent)) : list (Phase * StarknetEvent) :=
  omap (fun r => match r with (phase, REStarknet e) => Some (phase, e) | _ => None end) records.

(** [Iterator::skip_while] with the closure of the source. *)
Fixpoint skip_to_index (tx_index : Z) (l : list (Phase * StarknetEvent)) : list (Phase * StarknetEvent) :=
  match l with
  | [] => []
  | (ApplyExtrinsic idx, e) :: l' => if negb (tx_index =? idx) then skip_to_index tx_index l' else l
  | _ :: l' => skip_to_index tx_index l'
  end.

(** [Iterator::take_while]: a record of another phase panics. *)
Fixpoint take_at_index (tx_index : Z) (l : list (Phase * StarknetEvent)) : outcome (list StarknetEvent) :=
  match l with
  | [] => Ret []
  | (ApplyExtrinsic idx, e) :: l' =>
      if tx_index =? idx then let! es := take_at_index tx_index l' in Ret (e :: es) else Ret []
  | _ :: _ => Panic
  end.

Definition get_events_for_tx_by_index (tx_index : Z) (records : list (Phase * RuntimeEvent))
  : outcome (option (list StarknetEvent)) :=
  let! events := take_at_index tx_index (skip_to_index tx_index (starknet_records records)) in
  Ret (Some events).

(** ** Extrinsics *)
Section extrinsics.
  Context `{SF : StarknetFf} `{SA : StarknetApi} `{PT : PrimitiveTypes} `{SC : StarknetCrypto}.
  Context `{CC : ContractClassI} {CFG : Config}.

(** The Starknet transaction of an extrinsic. *)
Definition extrinsic_tx (xt : RuntimeCall) : option Transaction :=
  match xt with
  | RCStarknet (invoke t) => Some (TInvoke t)
  | RCStarknet (declare t _) => Some (TDeclare t)
  | RCStarknet (deploy_account t) => Some (TDeployAccount t)
  | RCStarknet (consume_l1_message t _) => Some (TL1Handler t)
  | _ => None
  end.

Definition extrinsic_filter (xts : list RuntimeCall) : list Transaction := omap extrinsic_tx xts.

(** The closure of [find]. *)
Definition extrinsic_has_hash (chain_id tx_hash : Felt252Wrapper) (xt : RuntimeCall) : bool :=
  match extrinsic_tx xt with
  | Some tx => bool_decide (tx_compute_hash tx chain_id false = tx_hash)
  | None => false
  end.

(** [enumerate().find(..)]. *)
Fixpoint find_extrinsic (i : Z) (p : RuntimeCall -> bool) (xts : list RuntimeCall) : option (Z * RuntimeCall) :=
  match xts with
  | [] => None
  | xt :: xts' => if p xt then Some (i, xt) else find_extrinsic (i + 1) p xts'
  end.

(** The [unreachable!] and the [expect] on the index are panics. *)
Definition get_index_and_tx_for_tx_hash (extrinsics : list RuntimeCall) (chain_id tx_hash : Felt252Wrapper)
  : outcome (option (Z * Transaction)) :=
  match find_extrinsic 0 (extrinsic_has_hash chain_id tx_hash) extrinsics with
  | None => Ret None
  | Some (tx_index, xt) =>
      let! transaction := unwrap_opt (extrinsic_tx xt) in
      if tx_index <=? u32_max then Ret (Some (tx_index, transaction)) else Panic
  end.

Definition convert_transaction (transaction : UserTransaction) : RuntimeCall :=
  RCStarknet (match transaction with
              | UDeclare tx contract_class => declare tx contract_class
              | UDeployAccount tx => deploy_account tx
              | UInvoke tx => invoke tx
              end).

Definition convert_l1_transaction (transaction : HandleL1MessageTransaction) (fee : Z) : RuntimeCall :=
  RCStarknet (consume_l1_message transaction fee).

Inductive StarknetTransactionExecutionError :=
| STContractNotFound | STClassAlreadyDeclared | STClassHashNotFound | STInvalidContractClass | STContractError.

Definition convert_error (error : DispatchError) : StarknetTransactionExecutionError :=
  match error with
  | PErr ContractNotFound => STContractNotFound
  | PErr ClassHashAlreadyDeclared => STClassAlreadyDeclared
  | PErr ContractClassHashUnknown => STClassHashNotFound
  | PErr InvalidContractClass => STInvalidContractClass
  | _ => STContractError
  end.

(** [ensure_l1_message_not_executed(&nonce).is_ok()]. *)
Definition l1_nonce_unused (nonce : Nonce) (p : Pallet) : bool := negb (is_l1_message_executed p nonce).

Definition get_tx_messages_to_l1 (tx_hash : TransactionHash) (p : Pallet) : list MessageToL1 :=
  default [] (tx_messages (ledger p) !! tx_hash).

Definition get_tx_execution_outcome (tx_hash : TransactionHash) (p : Pallet) : option string :=
  tx_revert_error (ledger p) !! tx_hash.

End extrinsics.

(** ** Properties *)

(** The records of a block: those of the initialization come first, the extrinsics
    follow in order, and no Starknet event is deposited by the finalization. *)
Definition index_of (r : Phase * RuntimeEvent) : option Z :=
  match fst r with ApplyExtrinsic idx => Some idx | _ => None end.
Inductive extrinsics_in_order : Z -> list (Phase * RuntimeEvent) -> Prop :=
| in_order_nil n : extrinsics_in_order n []
| in_order_cons n idx e l : n <= idx -> extrinsics_in_order idx l -> extrinsics_in_order n ((ApplyExtrinsic idx, e) :: l)
| in_order_final n l : Forall (fun r => r = (Finalization, REOther)) l -> extrinsics_in_order n l.
Definition block_records (l : list (Phase * RuntimeEvent)) : Prop :=
  exists init rest, l = init ++ rest /\ Forall (fun r => fst r = Initialization) init /\ extrinsics_in_order 0 rest.

(** The events of one extrinsic, by a search of all records. *)
Definition events_at (tx_index : Z) (records : list (Phase * RuntimeEvent)) : list StarknetEvent :=
  omap (fun x : Z * StarknetEvent => if tx_index =? fst x then Some (snd x) else None)
    (get_starknet_events_and_their_associated_tx_index records).

Lemma records_event ph e l : starknet_records ((ph, REStarknet e) :: l) = (ph, e) :: starknet_records l.
Proof. done. Qed.
Lemma records_other ph l : starknet_records ((ph, REOther) :: l) = starknet_records l.
Proof. done. Qed.
Lemma events_at_event i idx e l :
  events_at i ((ApplyExtrinsic idx, REStarknet e) :: l) = if i =? idx then e :: events_at i l else events_at i l.
Proof. unfold events_at. simpl. by destruct (i =? idx). Qed.
Lemma events_at_other i ph l : events_at i ((ph, REOther) :: l) = events_at i l.
Proof. by destruct ph. Qed.

#[local] Hint Rewrite records_event records_other events_at_event events_at_other : madara.

Lemma final_no_events i l : Forall (fun r => r = (Finalization, REOther)) l ->
  starknet_records l = [] /\ events_at i l = [].
Proof. induction 1 as [|r l -> _ [IH1 IH2]]; [done|]. split; [exact IH1|exact IH2]. Qed.

Lemma in_order_mono m n l : extrinsics_in_order n l -> m <= n -> extrinsics_in_order m l.
Proof. destruct 1; intros; econstructor; eauto; lia. Qed.

Lemma past_no_events i n l : extrinsics_in_order n l -> i < n -> events_at i l = [].
Proof.
  induction 1 as [n|n idx e l Hn _ IH|n l Hl]; intros Hi; [done| |by apply final_no_events].
  destruct e as [e|]; autorewrite with madara; [|apply IH; lia].
  destruct (i =? idx) eqn:E; zbool; [lia|]. apply IH. lia.
Qed.

Lemma take_in_order i n l : extrinsics_in_order n l -> i <= n ->
  take_at_index i (starknet_records l) = Ret (events_at i l).
Proof.
  induction 1 as [n|n idx e l Hn Hl IH|n l Hl]; intros Hi; [done| |].
  - destruct e as [e|]; autorewrite with madara; [|apply IH; lia]. cbn [take_at_index].
    destruct (i =? idx) eqn:E; zbool; [by rewrite IH by lia|].
    rewrite (past_no_events i idx) by (done || lia). done.
  - by destruct (final_no_events i l Hl) as [-> ->].
Qed.

Lemma skip_in_order i n l : extrinsics_in_order n l ->
  take_at_index i (skip_to_index i (starknet_records l)) = Ret (events_at i l).
Proof.
  induction 1 as [n|n idx e l Hn Hl IH|n l Hl]; [done| |].
  - destruct e as [e|]; autorewrite with madara; [|exact IH]. cbn [skip_to_index].
    destruct (i =? idx) eqn:E; cbn [negb]; [|exact IH]. cbn [take_at_index]. rewrite E. zbool.
    by rewrite (take_in_order i idx) by (done || lia).
  - by destruct (final_no_events i l Hl) as [-> ->].
Qed.

(** The events of a transaction are read with a skip and an early exit, which is the
    same as a search of all records of the block; the panic on a record of another
    phase is never reached. *)
Lemma events_by_index (tx_index : Z) records :
  block_records records -> get_events_for_tx_by_index tx_index records = Ret (Some (events_at tx_index records)).
Proof.
  intros (init & rest & -> & Hinit & Hrest). unfold get_events_for_tx_by_index.
  enough (Hskip : skip_to_index tx_index (starknet_records (init ++ rest)) = skip_to_index tx_index (starknet_records rest)
    /\ events_at tx_index (init ++ rest) = events_at tx_index rest)
    by (destruct Hskip as [-> ->]; by rewrite (skip_in_order _ _ _ Hrest)).
  induction Hinit as [|[ph e] init Hr _ [IH1 IH2]]; [done|]. simpl in Hr. subst ph. by destruct e.
Qed.

