(* ===== verification/Snos.v ===== *)
(** * The output of the Starknet OS and its encoding

    Models [crates/primitives/messages/src] (messages between L1 and L2) and
    [crates/primitives/snos-output/src] (the OS output, the [FeltReader] cursor
    and the [SnosCodec] encoding into felts). *)
From S2P Require Import Prelude Bytes Deps Felt Hashers Transactions ComputeHash Blockifier Fee Block PalletStorage.
Local Open Scope Z_scope.

(** [TryFrom<StarkFelt>] for [u64] and [EthAddress], of starknet-api: both accept
    the felts whose value fits. *)
Class StarkCasts := {
  u64_try_from_stark : StarkFelt -> option Z;
  eth_try_from_stark : StarkFelt -> option EthAddress;
}.
Class StarkCastsLaws `{CA : StarkCasts} : Prop := {
  u64_try_from_stark_spec : forall s,
    u64_try_from_stark s = if stark_val s <=? u64_max then Some (stark_val s) else None;
  eth_try_from_stark_spec : forall s,
    eth_try_from_stark s = if stark_val s <? 2 ^ 160 then Some (be_array 20 (stark_val s)) else None;
}.

(** ** Messages *)
Record MessageL2ToL1 := mk_m21 {
  m21_from_address : ContractAddress;
  m21_to_address : EthAddress;
  m21_payload : list StarkFelt;
}.

Record MessageL1ToL2 := mk_m12 {
  m12_from_address : ContractAddress;
  m12_to_address : ContractAddress;
  m12_nonce : Nonce;
  m12_selector : StarkFelt;
  m12_payload : list StarkFelt;
}.

(** Twelve zero bytes, then the twenty bytes of the address. *)
Definition eth_address_to_felt (eth_address : EthAddress) : StarkFelt := mk_stark (be_array 32 (be_val (arr eth_address))).

Definition m21_from_message (message : MessageToL1) : MessageL2ToL1 :=
  mk_m21 (mtl1_from_address message) (mtl1_to_address message) (mtl1_payload message).

(** [calldata.remove(0)] panics on empty calldata. *)
Definition m12_from_tx `{StarknetFf} `{StarknetApi} (tx : HandleL1MessageTransaction) : outcome MessageL1ToL2 :=
  match l1_calldata tx with
  | [] => Panic
  | from_address :: calldata =>
      Ret (mk_m12 (mk_new (to_stark from_address)) (to_new ContractAddressT (l1_contract_address tx))
             (mk_new (stark_from_uint (l1_nonce tx))) (to_stark (l1_entry_point_selector tx)) (map to_stark calldata))
  end.

Record StarknetOsOutput := mk_snos {
  prev_state_root : StarkFelt;
  new_state_root : StarkFelt;
  snos_block_number : StarkFelt;
  snos_block_hash : StarkFelt;
  snos_config_hash : StarkFelt;
  messages_to_l1 : list MessageL2ToL1;
  messages_to_l2 : list MessageL1ToL2;
}.

(** ** [FeltReader] *)
Inductive FeltReaderError := OutOfBounds | InvalidCast.

#[export] Instance FeltReaderError_eq_dec : EqDecision FeltReaderError.
Proof. solve_decision. Defined.

Record FeltReader := mk_reader { rd_data : list StarkFelt; rd_offset : nat }.

Definition reader_new (data : list StarkFelt) : FeltReader := mk_reader data 0.

Definition remaining_len (r : FeltReader) : nat := length (rd_data r) - rd_offset r.

Definition read : effr FeltReader FeltReaderError StarkFelt :=
  fun r =>
    match rd_data r !! rd_offset r with
    | None => Ret (Err OutOfBounds, r)
    | Some res => Ret (Ok res, mk_reader (rd_data r) (S (rd_offset r)))
    end.

(** The range [start..end] of a slice. *)
Definition slice {A} (l : list A) (start end_ : Z) : outcome (list A) :=
  if (start <=? end_) && (end_ <=? zlen l) then Ret (take (Z.to_nat (end_ - start)) (drop (Z.to_nat start) l))
  else Panic.

Section reader.
  Context `{CA : StarkCasts}.

(** The sum [start + segment_size] wraps around in [usize]. *)
Definition read_segment : effr FeltReader FeltReaderError (list StarkFelt) :=
  size <-? read;;
  segment_size <-? eret (ok_or (u64_try_from_stark size) InvalidCast);;
  fun r =>
    let start := Z.of_nat (rd_offset r) in
    if zlen (rd_data r) <? wadd 64 start segment_size then Ret (Err OutOfBounds, r)
    else
      let r' := mk_reader (rd_data r) (Z.to_nat (wadd 64 start segment_size)) in
      match slice (rd_data r) start (wadd 64 start segment_size) with
      | Ret s => Ret (Ok s, r')
      | Panic => Panic
      end.

End reader.

(** ** [SnosCodec] *)
Class SnosCodec (T : Type) := {
  size_in_felts : T -> nat;
  encode_to : T -> list StarkFelt -> list StarkFelt;
  decode : effr FeltReader FeltReaderError T;
}.

Definition into_encoded_vec {T} `{SnosCodec T} (x : T) : list StarkFelt := encode_to x [].

#[export] Instance stark_codec : SnosCodec StarkFelt := {|
  size_in_felts _ := 1%nat;
  encode_to x output := output ++ [x];
  decode := read;
|}.

(** [ContractAddress] and [Nonce], both wrappers of one felt that decoding does
    not check. *)
#[export] Instance newtype_codec t : SnosCodec (newtype t) := {|
  size_in_felts _ := 1%nat;
  encode_to x output := output ++ [new0 x];
  decode := x <-? read;; eret (Ok (mk_new x));
|}.

Section codec.
  Context `{SA : StarknetApi} `{CA : StarkCasts}.

#[export] Instance eth_codec : SnosCodec EthAddress := {|
  size_in_felts _ := 1%nat;
  encode_to x output := output ++ [eth_address_to_felt x];
  decode := x <-? read;; eret (ok_or (eth_try_from_stark x) InvalidCast);
|}.

(** The loop over a segment.  The fuel is the length of the segment;
    [decode_loop_fuel] shows that more fuel changes nothing. *)
Fixpoint decode_loop {T} `{SnosCodec T} (fuel : nat) (segment_reader : FeltReader) (elements : list T)
  : outcome (result FeltReaderError (list T)) :=
  if (0 <? remaining_len segment_reader)%nat then
    match fuel with
    | O => Panic
    | S fuel' =>
        match decode segment_reader with
        | Ret (Ok x, r') => decode_loop fuel' r' (elements ++ [x])
        | Ret (Err e, _) => Ret (Err e)
        | Panic => Panic
        end
    end
  else Ret (Ok elements).

(** A placeholder for the length is written first and replaced at the end. *)
Definition vec_encode_to {T} `{SnosCodec T} (self : list T) (output : list StarkFelt) : list StarkFelt :=
  let output := output ++ [stark_from_uint 0] in
  let output_len_before := length output in
  let output := fold_left (fun output elt => encode_to elt output) self output in
  let added_data := (length output - output_len_before)%nat in
  <[(output_len_before - 1)%nat := stark_from_uint (Z.of_nat added_data)]> output.

Definition vec_decode {T} `{SnosCodec T} : effr FeltReader FeltReaderError (list T) :=
  segment <-? read_segment;;
  elift (decode_loop (length segment) (reader_new segment) []).

#[export] Instance vec_codec {T} `{SnosCodec T} : SnosCodec (list T) := {|
  size_in_felts l := (1 + length l)%nat;
  encode_to := vec_encode_to;
  decode := vec_decode;
|}.

#[export] Instance m21_codec : SnosCodec MessageL2ToL1 := {|
  size_in_felts m :=
    (size_in_felts (m21_from_address m) + size_in_felts (m21_to_address m) + size_in_felts (m21_payload m))%nat;
  encode_to m output :=
    encode_to (m21_payload m) (encode_to (m21_to_address m) (encode_to (m21_from_address m) output));
  decode :=
    from_address <-? decode;;
    to_address <-? decode;;
    payload <-? decode;;
    eret (Ok (mk_m21 from_address to_address payload));
|}.

#[export] Instance m12_codec : SnosCodec MessageL1ToL2 := {|
  size_in_felts m :=
    (size_in_felts (m12_from_address m) + size_in_felts (m12_to_address m) + size_in_felts (m12_nonce m)
     + size_in_felts (m12_selector m) + size_in_felts (m12_payload m))%nat;
  encode_to m output :=
    encode_to (m12_payload m) (encode_to (m12_selector m) (encode_to (m12_nonce m)
      (encode_to (m12_to_address m) (encode_to (m12_from_address m) output))));
  decode :=
    from_address <-? decode;;
    to_address <-? decode;;
    nonce <-? decode;;
    selector <-? decode;;
    payload <-? decode;;
    eret (Ok (mk_m12 from_address to_address nonce selector payload));
|}.

#[export] Instance snos_codec : SnosCodec StarknetOsOutput := {|
  size_in_felts o :=
    (size_in_felts (prev_state_root o) + size_in_felts (new_state_root o) + size_in_felts (snos_block_number o)
     + size_in_felts (snos_block_hash o) + size_in_felts (snos_config_hash o) + size_in_felts (messages_to_l1 o)
     + size_in_felts (messages_to_l2 o))%nat;
  encode_to o output :=
    encode_to (messages_to_l2 o) (encode_to (messages_to_l1 o) (encode_to (snos_config_hash o)
      (encode_to (snos_block_hash o) (encode_to (snos_block_number o) (encode_to (new_state_root o)
        (encode_to (prev_state_root o) output))))));
  decode :=
    prev_state_root <-? decode;;
    new_state_root <-? decode;;
    block_number <-? decode;;
    block_hash <-? decode;;
    config_hash <-? decode;;
    messages_to_l1 <-? decode;;
    messages_to_l2 <-? decode;;
    eret (Ok (mk_snos prev_state_root new_state_root block_number block_hash config_hash messages_to_l1 messages_to_l2));
|}.

End codec.

(** ** Laws of a codec

    What the encodings of the components promise to one another. *)
Class SnosLaws (T : Type) {SC : SnosCodec T} : Prop := {
  encode_append : forall (x : T) output, encode_to x output = output ++ encode_to x [];
  encode_nonempty : forall x : T, encode_to x [] <> [];
  size_bound : forall x : T, (size_in_felts x <= length (encode_to x []))%nat;
  (** Decoding reads back what was encoded, and stops right behind it. *)
  decode_encode : forall (x : T) pre post,
    zlen (pre ++ encode_to x [] ++ post) < 2 ^ 64 ->
    decode (mk_reader (pre ++ encode_to x [] ++ post) (length pre))
    = Ret (Ok x, mk_reader (pre ++ encode_to x [] ++ post) (length pre + length (encode_to x [])));
  (** An encoding that is cut short is noticed. *)
  decode_truncated : forall (x : T) pre part rest,
    encode_to x [] = part ++ rest -> rest <> [] -> zlen (pre ++ encode_to x []) < 2 ^ 64 ->
    exists r, decode (mk_reader (pre ++ part) (length pre)) = Ret (Err OutOfBounds (A := T), r);
  (** A successful decoding moves forward. *)
  decode_progress : forall d off (x : T) r,
    zlen d < 2 ^ 64 -> decode (mk_reader d off) = Ret (Ok x, r) ->
    rd_data r = d /\ (off < rd_offset r <= length d)%nat;
}.

(** ** Codecs built from codecs *)
Section pair.
  Context {A B : Type} {CA : SnosCodec A} {CB : SnosCodec B} {LA : SnosLaws A} {LB : SnosLaws B}.

#[local] Instance pair_codec : SnosCodec (A * B) := {|
  size_in_felts x := (size_in_felts (fst x) + size_in_felts (snd x))%nat;
  encode_to x output := encode_to (snd x) (encode_to (fst x) output);
  decode := a <-? decode;; b <-? decode;; eret (Ok (a, b));
|}.

Lemma pair_encode (x : A * B) output :
  encode_to x output = output ++ encode_to (fst x) [] ++ encode_to (snd x) [].
Proof. simpl. rewrite encode_append, (encode_append (fst x)). by rewrite <- app_assoc. Qed.

Lemma pair_truncated (x : A * B) pre part rest :
  encode_to x [] = part ++ rest -> rest <> [] -> zlen (pre ++ encode_to x []) < 2 ^ 64 ->
  exists r, decode (mk_reader (pre ++ part) (length pre)) = Ret (Err OutOfBounds (A := A * B), r).
Proof.
  destruct x as [a b]. rewrite pair_encode. cbn [fst snd app]. intros He Hr Hl.
  cbn [decode pair_codec]. unfold etry, ebind, eret.
  destruct (decide (length part < length (encode_to a []))%nat) as [Hlt|Hge].
  - assert (Ha : exists rest', encode_to a [] = part ++ rest' /\ rest' <> []).
    { exists (drop (length part) (encode_to a [])). split.
      - apply (f_equal (take (length part))) in He. rewrite take_app_le, take_app_length in He by lia.
        rewrite <- He at 1. by rewrite take_drop.
      - intros Hn. apply (f_equal length) in Hn. rewrite length_drop in Hn. simpl in Hn. lia. }
    destruct Ha as (rest' & Ha & Hr'). destruct (decode_truncated a pre part rest' Ha Hr') as [r Hd].
    { revert Hl. unfold zlen. rewrite !length_app. lia. }
    rewrite Hd. by exists r.
  - assert (Hp : exists pb, part = encode_to a [] ++ pb /\ encode_to b [] = pb ++ rest).
    { exists (drop (length (encode_to a [])) part).
      pose proof (f_equal (take (length (encode_to a []))) He) as H1.
      rewrite take_app_length, take_app_le in H1 by lia.
      assert (H2 : part = encode_to a [] ++ drop (length (encode_to a [])) part)
        by (rewrite H1 at 1; by rewrite take_drop). split; [done|].
      rewrite H2, <- app_assoc in He. by apply app_inv_head in He. }
    destruct Hp as (pb & -> & Hb). rewrite decode_encode by (revert Hl; rewrite Hb; unfold zlen; rewrite !length_app; lia).
    rewrite app_assoc. replace (length pre + length (encode_to a []))%nat with (length (pre ++ encode_to a []))
      by (by rewrite length_app).
    destruct (decode_truncated b (pre ++ encode_to a []) pb rest Hb Hr) as [r Hd].
    { revert Hl. unfold zlen. rewrite !length_app. lia. }
    rewrite Hd. by exists r.
Qed.

#[local] Instance pair_laws : SnosLaws (A * B).
Proof.
  constructor.
  - intros x output. rewrite pair_encode, (pair_encode x []). done.
  - intros x. rewrite pair_encode. intros [_ [H _]%app_eq_nil]%app_eq_nil. by apply encode_nonempty in H.
  - intros [a b]. rewrite pair_encode, length_app. simpl. rewrite length_app.
    pose proof (size_bound a). pose proof (size_bound b). lia.
  - intros [a b] pre post. rewrite pair_encode. cbn [fst snd app]. rewrite <- app_assoc. intros Hl.
    cbn [decode pair_codec]. unfold etry, ebind, eret. rewrite decode_encode by done.
    rewrite (app_assoc pre). replace (length pre + length (encode_to a []))%nat with (length (pre ++ encode_to a []))
      by (by rewrite length_app).
    rewrite decode_encode by (by rewrite <- app_assoc). by rewrite !length_app, Nat.add_assoc.
  - exact pair_truncated.
  - intros d off [a b] r Hd. cbn [decode pair_codec]. unfold etry, ebind, eret.
    destruct (decode (mk_reader d off)) as [[[a'|] r1]|] eqn:E1; [|done|done].
    apply decode_progress in E1 as [H1 H2]; [|done]. destruct r1 as [d1 o1]; simpl in *; subst d1.
    destruct (decode (mk_reader d o1)) as [[[b'|] r2]|] eqn:E2; [|done|done].
    apply decode_progress in E2 as [H3 H4]; [|done]. intros [= <- <- <-]. split; [done|lia].
Qed.

End pair.

(** A record has the laws of the tuple of its fields. *)
Lemma laws_iso {A B : Type} {CA : SnosCodec A} {CB : SnosCodec B} {LB : SnosLaws B} (f : A -> B) (g : B -> A) :
  (forall x, g (f x) = x) ->
  (forall x, size_in_felts x = size_in_felts (f x)) ->
  (forall x output, encode_to x output = encode_to (f x) output) ->
  (forall r, decode r = (y <-? decode;; eret (Ok (g y))) r) -> SnosLaws A.
Proof.
  intros Hg Hs He Hd. constructor.
  - intros. rewrite !He. apply encode_append.
  - intros. rewrite He. apply encode_nonempty.
  - intros. rewrite He, Hs. apply size_bound.
  - intros x pre post. rewrite He, Hd. intros Hl. unfold etry, ebind, eret. by rewrite decode_encode, Hg.
  - intros x pre part rest. rewrite He, Hd. intros H1 H2 H3.
    destruct (decode_truncated (f x) pre part rest H1 H2 H3) as [r Hr]. exists r.
    unfold etry, ebind, eret. by rewrite Hr.
  - intros d off x r Hl. rewrite Hd. unfold etry, ebind, eret.
    destruct (decode (mk_reader d off)) as [[[y|] r1]|] eqn:E; [|done|done]. intros [= <- <-].
    by eapply decode_progress.
Qed.

Lemma read_app pre x post :
  read (mk_reader (pre ++ x :: post) (length pre)) = Ret (Ok x, mk_reader (pre ++ x :: post) (S (length pre))).
Proof. unfold read. simpl. by rewrite list_lookup_middle. Qed.

Lemma read_end pre : read (mk_reader pre (length pre)) = Ret (Err OutOfBounds, mk_reader pre (length pre)).
Proof. unfold read. simpl. by rewrite lookup_ge_None_2. Qed.

Lemma read_progress d off x r :
  read (mk_reader d off) = Ret (Ok x, r) -> r = mk_reader d (S off) /\ d !! off = Some x.
Proof. unfold read. simpl. destruct (d !! off) eqn:E; [|done]. by intros [= <- <-]. Qed.

(** Codecs of one felt. *)
Lemma felt_laws {A : Type} {CA : SnosCodec A} (f : A -> StarkFelt) (g : StarkFelt -> result FeltReaderError A) :
  (forall x, g (f x) = Ok x) -> (forall x : A, size_in_felts x = 1%nat) ->
  (forall x output, encode_to x output = output ++ [f x]) ->
  (forall r, decode r = (y <-? read;; eret (g y)) r) -> SnosLaws A.
Proof.
  intros Hg Hs He Hd. constructor.
  - intros. by rewrite !He.
  - intros. by rewrite He.
  - intros. by rewrite He, Hs.
  - intros x pre post _. rewrite He, Hd. unfold etry, ebind, eret. simpl. rewrite read_app, Hg. by rewrite Nat.add_1_r.
  - intros x pre part rest. rewrite He. simpl. intros H Hr _. rewrite Hd.
    destruct part as [|y part]; [|by destruct part, rest].
    rewrite app_nil_r. unfold etry, ebind, eret. rewrite read_end. by eexists.
  - intros d off x r _. rewrite Hd. unfold etry, ebind, eret.
    destruct (read (mk_reader d off)) as [[[y|] r1]|] eqn:E; [|done|done]. apply read_progress in E as [-> E].
    destruct (g y); intros [= <- <-]. simpl. apply lookup_lt_Some in E. split; [done|lia].
Qed.

#[export] Instance stark_laws : SnosLaws StarkFelt.
Proof.
  apply (felt_laws id Ok); try done. intros r. cbn [decode stark_codec]. unfold etry, ebind, eret.
  by destruct (read r) as [[[|] ?]|].
Qed.

#[export] Instance newtype_laws t : SnosLaws (newtype t).
Proof. by apply (felt_laws new0 (fun x => Ok (mk_new x))); [intros []| | |]. Qed.

Section laws.
  Context `{SA : StarknetApi} {SAL : StarknetApiLaws} `{CA : StarkCasts} {CAL : StarkCastsLaws}.

Lemma eth_roundtrip a : eth_try_from_stark (eth_address_to_felt a) = Some a.
Proof.
  pose proof (array_val_bound 20 a) as Hb. rewrite eth_try_from_stark_spec.
  assert (Hv : stark_val (eth_address_to_felt a) = be_val (arr a)).
  { unfold stark_val, eth_address_to_felt. cbn [stark_bytes]. apply be_array_val.
    change (256 ^ Z.of_nat 20) with (2 ^ 160) in Hb. change (256 ^ Z.of_nat 32) with (2 ^ 256). lia. }
  rewrite Hv. change (256 ^ Z.of_nat 20) with (2 ^ 160) in Hb. destruct (_ <? _) eqn:E; zbool; [|lia].
  by rewrite be_array_of_val.
Qed.

#[export] Instance eth_laws : SnosLaws EthAddress.
Proof.
  apply (felt_laws eth_address_to_felt (fun x => ok_or (eth_try_from_stark x) InvalidCast)); try done.
  intros x. by rewrite eth_roundtrip.
Qed.

(** The header of a segment holds its length. *)
Lemma header_val n : Z.of_nat n < 2 ^ 64 -> stark_val (stark_from_uint (Z.of_nat n)) = Z.of_nat n.
Proof. intros H. apply stark_from_uint_val. lia. Qed.

Lemma read_segment_ok pre body post :
  zlen (pre ++ stark_from_uint (zlen body) :: body ++ post) < 2 ^ 64 ->
  read_segment (mk_reader (pre ++ stark_from_uint (zlen body) :: body ++ post) (length pre))
  = Ret (Ok body, mk_reader (pre ++ stark_from_uint (zlen body) :: body ++ post) (length pre + S (length body))).
Proof.
  intros Hl. unfold read_segment, etry, ebind, eret. rewrite read_app.
  assert (Hn : zlen (pre ++ stark_from_uint (zlen body) :: body ++ post)
               = zlen pre + 1 + zlen body + zlen post)
    by (unfold zlen; rewrite length_app; simpl; rewrite length_app; lia).
  pose proof (zlen_nonneg pre). pose proof (zlen_nonneg body). pose proof (zlen_nonneg post).
  rewrite u64_try_from_stark_spec. unfold zlen at 1 2. rewrite header_val by (unfold zlen in *; lia).
  fold (zlen body). destruct (zlen body <=? u64_max) eqn:E; zbool; [|unfold u64_max in *; lia]. cbn [ok_or rd_offset rd_data].
  assert (Hw : wadd 64 (Z.of_nat (S (length pre))) (zlen body) = zlen pre + 1 + zlen body).
  { unfold wadd. rewrite wrap_small; unfold zlen in *; lia. }
  rewrite Hw, Hn. destruct (_ <? _) eqn:E2; zbool; [lia|]. unfold slice. rewrite Hn.
  destruct (Z.of_nat (S (length pre)) <=? zlen pre + 1 + zlen body) eqn:E3; zbool; [|unfold zlen in *; lia].
  destruct (_ <=? zlen pre + 1 + zlen body + zlen post) eqn:E4; zbool; [|lia]. simpl andb. cbv iota.
  replace (Z.to_nat (zlen pre + 1 + zlen body - Z.of_nat (S (length pre)))) with (length body) by (unfold zlen; lia).
  replace (Z.to_nat (Z.of_nat (S (length pre)))) with (length (pre ++ [stark_from_uint (zlen body)]))
    by (rewrite length_app; simpl; lia).
  do 3 f_equal; [|unfold zlen; lia]. 
  change (stark_from_uint (zlen body) :: body ++ post) with ([stark_from_uint (zlen body)] ++ body ++ post).
  rewrite (app_assoc pre), drop_app_length. apply take_app_length.
Qed.

Lemma read_segment_short pre pb (n : nat) :
  (length pb < n)%nat -> zlen pre + 1 + Z.of_nat n < 2 ^ 64 ->
  exists r, read_segment (mk_reader (pre ++ stark_from_uint (Z.of_nat n) :: pb) (length pre)) = Ret (Err OutOfBounds, r).
Proof.
  intros Hlt Hl. unfold read_segment, etry, ebind, eret. rewrite read_app.
  pose proof (zlen_nonneg pre). rewrite u64_try_from_stark_spec, header_val by lia.
  destruct (_ <=? u64_max) eqn:E; zbool; [|unfold u64_max in *; lia]. cbn [ok_or rd_offset rd_data].
  unfold wadd. rewrite wrap_small by (unfold zlen in *; lia).
  destruct (_ <? _) eqn:E2; zbool; [by eexists|]. exfalso. revert E2. unfold zlen. rewrite length_app. simpl. lia.
Qed.

Lemma read_segment_progress d off s r :
  read_segment (mk_reader d off) = Ret (Ok s, r) ->
  rd_data r = d /\ (off < rd_offset r <= length d)%nat /\ (length s <= length d)%nat.
Proof.
  unfold read_segment, etry, ebind, eret. destruct (read (mk_reader d off)) as [[[y|] r1]|] eqn:E; [|done|done].
  apply read_progress in E as [-> E]. destruct (u64_try_from_stark y) as [n|]; [|done]. cbn [ok_or rd_offset rd_data].
  set (w := wadd 64 _ _). destruct (zlen d <? w) eqn:E2; [done|]. zbool. unfold slice.
  destruct (Z.of_nat (S off) <=? w) eqn:E3; [|done]. destruct (w <=? zlen d) eqn:E4; [|done]. zbool. simpl.
  intros [= <- <-]. simpl. unfold zlen in *. split; [done|]. rewrite length_take, length_drop. lia.
Qed.

Section vec.
  Context {T : Type} {SC : SnosCodec T} {SL : SnosLaws T}.

Definition body (l : list T) : list StarkFelt := concat (map (fun x => encode_to x []) l).

Lemma fold_encode (l : list T) output : fold_left (fun output elt => encode_to elt output) l output = output ++ body l.
Proof.
  revert output. induction l as [|x l IH]; intros output; simpl; [by rewrite app_nil_r|].
  rewrite IH, encode_append. unfold body. simpl. by rewrite <- app_assoc.
Qed.

Lemma vec_encode_spec (l : list T) output :
  vec_encode_to l output = output ++ stark_from_uint (zlen (body l)) :: body l.
Proof.
  unfold vec_encode_to. rewrite fold_encode, !length_app. cbn [length].
  replace (length output + 1 + length (body l) - (length output + 1))%nat with (length (body l)) by lia.
  replace (length output + 1 - 1)%nat with (length output + 0)%nat by lia.
  rewrite <- app_assoc, insert_app_r. done.
Qed.

(** Fuel beyond what remains to be read changes nothing, so running out of fuel
    never shows. *)
Lemma decode_loop_fuel fuel fuel' d off (acc : list T) :
  zlen d < 2 ^ 64 -> (length d - off <= fuel)%nat -> (length d - off <= fuel')%nat ->
  decode_loop fuel (mk_reader d off) acc = decode_loop fuel' (mk_reader d off) acc.
Proof.
  intros Hl. revert fuel' off acc. induction fuel as [|fuel IH]; intros fuel' off acc H1 H2.
  - destruct fuel'; simpl; unfold remaining_len; simpl; by destruct (Nat.ltb_spec 0 (length d - off)); [lia|].
  - destruct fuel' as [|fuel']; simpl; unfold remaining_len; simpl;
      destruct (Nat.ltb_spec 0 (length d - off)); try done; try lia.
    destruct (decode (mk_reader d off)) as [[[x|e] [d' o']]|] eqn:E; try done.
    apply decode_progress in E as [Hd Ho]; [|done]. simpl in *. subst d'. apply IH; lia.
Qed.

Lemma decode_loop_body (l : list T) pre acc fuel :
  zlen (pre ++ body l) < 2 ^ 64 -> (length (body l) <= fuel)%nat ->
  decode_loop fuel (mk_reader (pre ++ body l) (length pre)) acc = Ret (Ok (acc ++ l)).
Proof.
  revert pre acc fuel. induction l as [|x l IH]; intros pre acc fuel Hl Hf.
  - destruct fuel; simpl; unfold remaining_len; simpl; rewrite !app_nil_r, Nat.sub_diag; done.
  - change (body (x :: l)) with (encode_to x [] ++ body l) in *. pose proof (encode_nonempty x) as Hne.
    rewrite length_app in Hf. destruct (encode_to x []) as [|e es] eqn:Ee; [done|]. rewrite <- Ee in *.
    assert (Hpos : (0 < length (encode_to x []))%nat) by (rewrite Ee; simpl; lia).
    destruct fuel as [|fuel]; [lia|]. cbn [decode_loop]. unfold remaining_len. cbn [rd_data rd_offset].
    destruct (Nat.ltb_spec 0 (length (pre ++ encode_to x [] ++ body l) - length pre)) as [_|Hz];
      [|rewrite !length_app in Hz; lia].
    rewrite decode_encode by done. rewrite app_assoc in *. rewrite <- length_app.
    rewrite IH; [by rewrite <- app_assoc|done|lia].
Qed.

Lemma body_length (l : list T) : (length l <= length (body l))%nat.
Proof.
  induction l as [|x l IH]; [done|]. change (body (x :: l)) with (encode_to x [] ++ body l). rewrite length_app.
  pose proof (encode_nonempty x). destruct (encode_to x []); [done|]. simpl. lia.
Qed.

#[export] Instance vec_laws : SnosLaws (list T).
Proof.
  constructor.
  - intros. cbn [encode_to vec_codec]. by rewrite !vec_encode_spec.
  - intros. cbn [encode_to vec_codec]. by rewrite vec_encode_spec.
  - intros l. cbn [encode_to size_in_felts vec_codec]. rewrite vec_encode_spec. simpl. pose proof (body_length l). lia.
  - intros l pre post. cbn [encode_to decode vec_codec]. rewrite vec_encode_spec. cbn [app length]. intros Hl.
    unfold vec_decode, etry, ebind. rewrite read_segment_ok by done. unfold elift, reader_new.
    rewrite (decode_loop_body l [] []); [done| |done].
    revert Hl. unfold zlen. rewrite length_app. simpl. rewrite length_app. lia.
  - intros l pre part rest. cbn [encode_to decode vec_codec]. rewrite vec_encode_spec. cbn [app]. intros He Hr Hl.
    unfold vec_decode, etry, ebind. destruct part as [|h pb].
    + rewrite app_nil_r. unfold read_segment, etry, ebind, eret. rewrite read_end. by eexists.
    + simpl in He. injection He as <- He.
      assert (Hlen : (length pb < length (body l))%nat).
      { rewrite He, length_app. destruct rest; [done|simpl; lia]. }
      destruct (read_segment_short pre pb (length (body l)) Hlen) as [r Hs].
      { revert Hl. unfold zlen. rewrite length_app. simpl. lia. }
      unfold zlen. rewrite Hs. by exists r.
  - intros d off l r Hl. cbn [decode vec_codec]. unfold vec_decode, etry, ebind.
    destruct (read_segment (mk_reader d off)) as [[[s|] r1]|] eqn:E; [|done|done].
    apply read_segment_progress in E as (H1 & H2 & _). unfold elift. destruct (decode_loop _ _ _) as [[|]|]; [|done|done].
    by intros [= _ <-].
Qed.

End vec.

(** Decoding a record field by field is decoding the tuple of its fields. *)
Ltac decode_fields :=
  intros ?; cbn [decode pair_codec m21_codec m12_codec snos_codec]; unfold etry, ebind, eret;
  repeat (match goal with |- context [decode ?r] => destruct (decode r) as [[[?|?] ?]|] end; try reflexivity).

#[local] Existing Instances pair_codec pair_laws.

#[export] Instance m21_laws : SnosLaws MessageL2ToL1.
Proof.
  apply (laws_iso (fun m => (m21_from_address m, (m21_to_address m, m21_payload m)))
           (fun y => mk_m21 (fst y) (fst (snd y)) (snd (snd y))));
    first [by intros [] | intros []; cbn; lia | done | decode_fields].
Qed.

#[export] Instance m12_laws : SnosLaws MessageL1ToL2.
Proof.
  apply (laws_iso (fun m => (m12_from_address m, (m12_to_address m, (m12_nonce m, (m12_selector m, m12_payload m)))))
           (fun '(a, (b, (c, (d, e)))) => mk_m12 a b c d e));
    first [by intros [] | intros []; cbn; lia | done | decode_fields].
Qed.

#[export] Instance snos_laws : SnosLaws StarknetOsOutput.
Proof.
  apply (laws_iso (fun o => (prev_state_root o, (new_state_root o, (snos_block_number o, (snos_block_hash o,
                     (snos_config_hash o, (messages_to_l1 o, messages_to_l2 o)))))))
           (fun '(a, (b, (c, (d, (e, (f, g)))))) => mk_snos a b c d e f g));
    first [by intros [] | intros []; cbn; lia | done | decode_fields].
Qed.

(** C37: the encoding of the OS output can be read back.  For every output whose
    encoding fits in memory, decoding the encoding, with anything before and
    after it, gives the output back and leaves the cursor right behind it; any
    proper prefix of the encoding is refused with [OutOfBounds]; and
    [size_in_felts] never exceeds the real size. *)
Theorem snos_roundtrip (o : StarknetOsOutput) (pre post part rest : list StarkFelt) :
  zlen (pre ++ into_encoded_vec o ++ post) < 2 ^ 64 ->
  decode (mk_reader (pre ++ into_encoded_vec o ++ post) (length pre))
  = Ret (Ok o, mk_reader (pre ++ into_encoded_vec o ++ post) (length pre + length (into_encoded_vec o)))
  /\ (into_encoded_vec o = part ++ rest -> rest <> [] ->
      exists r, decode (reader_new part) = Ret (Err OutOfBounds (A := StarknetOsOutput), r))
  /\ (size_in_felts o <= length (into_encoded_vec o))%nat.
Proof.
  intros Hl. unfold into_encoded_vec in *. split; [by apply decode_encode|]. split; [|apply size_bound].
  intros He Hr. apply (decode_truncated o [] part rest He Hr). revert Hl. unfold zlen. rewrite !length_app. simpl. lia.
Qed.

(** [read_segment] on every branch.  With [n] the header at the cursor: at the
    end of the data it is [OutOfBounds], a header of 2^64 or more is
    [InvalidCast], a segment that does not fit is [OutOfBounds], one that fits is
    returned and skipped.  A header so large that the end of the segment wraps
    around [usize] slips through the bounds check and panics in the slice. *)
Theorem read_segment_cases (d : list StarkFelt) (off : nat) :
  (off <= length d)%nat -> zlen d < 2 ^ 63 ->
  read_segment (mk_reader d off) =
  match d !! off with
  | None => Ret (Err OutOfBounds, mk_reader d off)
  | Some h =>
      let n := stark_val h in
      let start := Z.of_nat (S off) in
      if u64_max <? n then Ret (Err InvalidCast, mk_reader d (S off))
      else if 2 ^ 64 <=? start + n then Panic
      else if zlen d <? start + n then Ret (Err OutOfBounds, mk_reader d (S off))
      else Ret (Ok (take (Z.to_nat n) (drop (S off) d)), mk_reader d (S off + Z.to_nat n))
  end.
Proof.
  intros Ho Hl. unfold read_segment, etry, ebind, eret, read. cbn [rd_data rd_offset].
  destruct (d !! off) as [h|] eqn:E; [|done]. rewrite u64_try_from_stark_spec. cbn [rd_data rd_offset].
  pose proof (be_val_nonneg (arr (stark_bytes h))) as Hn. fold (stark_val h) in Hn. apply lookup_lt_Some in E.
  destruct (stark_val h <=? u64_max) eqn:E1, (u64_max <? stark_val h) eqn:E2; zbool; try lia; [|done].
  cbn [ok_or rd_data rd_offset]. unfold wadd, wrap, slice. unfold u64_max, zlen in *.
  destruct (2 ^ 64 <=? Z.of_nat (S off) + stark_val h) eqn:E3; zbool.
  - replace ((Z.of_nat (S off) + stark_val h) mod 2 ^ 64) with (Z.of_nat (S off) + stark_val h - 2 ^ 64)
      by (apply (Z.mod_unique_pos _ _ 1); lia).
    destruct (_ <? Z.of_nat (S off) + stark_val h - 2 ^ 64) eqn:E4; zbool; [lia|].
    destruct (Z.of_nat (S off) <=? _) eqn:E5; zbool; [lia|done].
  - rewrite Z.mod_small by lia. destruct (_ <? _) eqn:E4; zbool; [done|].
    destruct (Z.of_nat (S off) <=? _) eqn:E5; zbool; [|lia].
    rewrite (proj2 (Z.leb_le _ _) E4). cbn [andb]. cbv iota. do 3 f_equal; [f_equal; [lia|f_equal; lia]|lia].
Qed.

End laws.

(** ** Witnesses *)
Module SnosWitness.
Export Deps.Reference.

#[export] Instance casts : StarkCasts := {|
  u64_try_from_stark s := if stark_val s <=? u64_max then Some (stark_val s) else None;
  eth_try_from_stark s := if stark_val s <? 2 ^ 160 then Some (be_array 20 (stark_val s)) else None;
|}.

#[export] Instance casts_laws : StarkCastsLaws.
Proof. by constructor. Qed.

Definition f (n : Z) : StarkFelt := stark_from_uint n.
Definition output : StarknetOsOutput :=
  mk_snos (f 1) (f 2) (f 3) (f 4) (f 5) [mk_m21 (mk_new (f 6)) (be_array 20 7) [f 8; f 9]]
    [mk_m12 (mk_new (f 10)) (mk_new (f 11)) (mk_new (f 12)) (f 13) []].

End SnosWitness.
Import SnosWitness.

Lemma snos_roundtrip_witness :
  exists r, decode (reader_new (into_encoded_vec output)) = Ret (Ok output, r).
Proof.
  destruct (snos_roundtrip output [] [] [] []) as [H _]; [vm_compute; reflexivity|].
  rewrite app_nil_r in H. eexists. exact H.
Defined.

Lemma read_segment_cases_witness :
  read_segment (reader_new [f (2 ^ 64 - 1)]) = Panic.
Proof.
  unfold reader_new. rewrite (read_segment_cases [f (2 ^ 64 - 1)] 0); [|simpl; lia|vm_compute; reflexivity].
  vm_compute. reflexivity.
Defined.
