(* ===== verification/Db.v ===== *)
(** * The Madara database

    Models [crates/client/db/src]: the columns and keys, the mapping, meta, data
    availability, messaging, Sierra class and L1 fee stores, over a key-value
    database with atomic transactions. *)
From S2P Require Import Prelude Bytes Deps Felt Block.
Local Open Scope Z_scope.

(** ** The key-value database

    [sp_database::Database]: columns of byte strings.  A transaction is a list of
    writes that are applied in order, all of them or none. *)
Definition db_key_eq_dec : EqDecision (Z * list byte) := _.
Definition db_key_countable : @Countable (Z * list byte) db_key_eq_dec := _.
Abbreviation Database := (@gmap (Z * list byte) db_key_eq_dec db_key_countable (list byte)).
Abbreviation Change := (Z * list byte * list byte)%type.

Class Commit := { commit_fails : list Change -> Database -> bool }.

(** SCALE encodings, of [parity-scale-codec]. *)
Class Scale (T : Type) := { enc : T -> list byte; dec : list byte -> option T }.
Class ScaleLaws (T : Type) {SCL : Scale T} : Prop := { dec_enc : forall x : T, dec (enc x) = Some x }.

(** The key of an uninitialised value is kept as bytes, the source prints it. *)
Inductive DbError := CommitError | DeserializeError | UuidError | ValueNotInitialized (column : Z) (key : list byte).

#[export] Instance DbError_eq_dec : EqDecision DbError.
Proof. solve_decision. Defined.

Definition NUM_COLUMNS : Z := 9.
Definition META : Z := 0.
Definition BLOCK_MAPPING : Z := 1.
Definition TRANSACTION_MAPPING : Z := 2.
Definition SYNCED_MAPPING : Z := 3.
Definition DA : Z := 4.
Definition STARKNET_TRANSACTION_HASHES_CACHE : Z := 5.
Definition MESSAGING : Z := 6.
Definition SIERRA_CONTRACT_CLASSES : Z := 7.
Definition L1_HANDLER_PAID_FEE : Z := 8.

Definition CURRENT_SYNCING_TIPS : list byte := bytes_of "CURRENT_SYNCING_TIPS".
Definition LAST_PROVED_BLOCK : list byte := bytes_of "LAST_PROVED_BLOCK".
Definition LAST_SYNCED_L1_EVENT_BLOCK : list byte := bytes_of "LAST_SYNCED_L1_EVENT_BLOCK".

Definition apply_change (db : Database) (c : Change) : Database := <[fst c := snd c]> db.

Definition commit `{Commit} (transaction : list Change) : effr Database DbError unit :=
  fun db => if commit_fails transaction db then Ret (Err CommitError, db)
            else Ret (Ok tt, fold_left apply_change transaction db).

Definition get (column : Z) (key : list byte) : eff Database (option (list byte)) :=
  eget (fun db => db !! (column, key)).

(** [T::decode(&mut &raw[..])?]. *)
Definition decode_raw {T} `{Scale T} (raw : list byte) : result DbError T := ok_or (dec raw) DeserializeError.

(** Reads an optional value. *)
Definition read_opt {T} `{Scale T} (column : Z) (key : list byte) : effr Database DbError (option T) :=
  raw <-- get column key;;
  eret (match raw with Some raw => result_map Some (decode_raw raw) | None => Ok None end).

(** ** The mapping store *)
Section mapping.
  Context `{CM : Commit} {BHash : Type} {SH : Scale BHash} {SHs : Scale (list BHash)} {SB : Scale bool}.
  Context {SF : Scale StarkFelt} {SFs : Scale (list StarkFelt)}.

Record MappingCommitment := mk_commitment {
  mc_block_hash : BHash;
  mc_starknet_block_hash : StarkFelt;
  mc_starknet_transaction_hashes : list StarkFelt;
}.

Definition is_synced (block_hash : BHash) : effr Database DbError bool :=
  raw <-- get SYNCED_MAPPING (enc block_hash);;
  eret (match raw with Some raw => decode_raw raw | None => Ok false end).

Definition mapping_block_hash (starknet_block_hash : StarkFelt) : effr Database DbError (option (list BHash)) :=
  read_opt BLOCK_MAPPING (enc starknet_block_hash).

Definition write_none (block_hash : BHash) : effr Database DbError unit :=
  commit [(SYNCED_MAPPING, enc block_hash, enc true)].

(** The writes of [write_hashes]; an error of the lookup is treated as absence. *)
Definition hashes_transaction (cache_more_things : bool) (commitment : MappingCommitment)
    (known : result DbError (option (list BHash))) : list Change :=
  let substrate_hashes :=
    match known with
    | Ok (Some data) => data ++ [mc_block_hash commitment]
    | _ => [mc_block_hash commitment]
    end in
  [(BLOCK_MAPPING, enc (mc_starknet_block_hash commitment), enc substrate_hashes);
   (SYNCED_MAPPING, enc (mc_block_hash commitment), enc true)]
  ++ map (fun h => (TRANSACTION_MAPPING, enc h, enc (mc_block_hash commitment)))
       (mc_starknet_transaction_hashes commitment)
  ++ (if cache_more_things
      then [(STARKNET_TRANSACTION_HASHES_CACHE, enc (mc_starknet_block_hash commitment),
             enc (mc_starknet_transaction_hashes commitment))]
      else []).

Definition write_hashes (cache_more_things : bool) (commitment : MappingCommitment) : effr Database DbError unit :=
  known <-- mapping_block_hash (mc_starknet_block_hash commitment);;
  commit (hashes_transaction cache_more_things commitment known).

Definition block_hash_from_transaction_hash (transaction_hash : StarkFelt) : effr Database DbError (option BHash) :=
  read_opt TRANSACTION_MAPPING (enc transaction_hash).

Definition cached_transaction_hashes_from_block_hash (cache_more_things : bool) (starknet_block_hash : StarkFelt)
  : effr Database DbError (option (list StarkFelt)) :=
  if cache_more_things then read_opt STARKNET_TRANSACTION_HASHES_CACHE (enc starknet_block_hash)
  else eret (Ok None).

(** ** The meta store *)
Definition current_syncing_tips : effr Database DbError (list BHash) :=
  tips <-? read_opt META CURRENT_SYNCING_TIPS;;
  eret (Ok (default [] tips)).

Definition write_current_syncing_tips (tips : list BHash) : effr Database DbError unit :=
  commit [(META, CURRENT_SYNCING_TIPS, enc tips)].

End mapping.
Arguments MappingCommitment BHash : clear implicits.

(** ** The data availability store *)
Section da.
  Context `{CM : Commit} {ThinStateDiff : Type} {SD : Scale ThinStateDiff} {SF : Scale StarkFelt}.

(** [uuid::Uuid] and its [from_slice]: sixteen bytes. *)
Abbreviation Uuid := (array 16).

(** [block_hash.0.bytes()]. *)
Definition da_key (block_hash : BlockHash) : list byte := arr (stark_bytes (new0 block_hash)).

Definition state_diff (block_hash : BlockHash) : effr Database DbError ThinStateDiff :=
  raw <-- get DA (da_key block_hash);;
  eret (match raw with Some raw => decode_raw raw | None => Err (ValueNotInitialized DA (da_key block_hash)) end).

Definition store_state_diff (block_hash : BlockHash) (diff : ThinStateDiff) : effr Database DbError unit :=
  commit [(DA, da_key block_hash, enc diff)].

Definition cairo_job (block_hash : BlockHash) : effr Database DbError (option Uuid) :=
  raw <-- get DA (da_key block_hash);;
  eret (match raw with
        | Some raw => result_map Some (ok_or (array_of_slice 16 raw) UuidError)
        | None => Ok None
        end).

Definition update_cairo_job (block_hash : BlockHash) (job_id : Uuid) : effr Database DbError unit :=
  commit [(DA, da_key block_hash, arr job_id)].

Definition last_proved_block : effr Database DbError BlockHash :=
  raw <-- get DA LAST_PROVED_BLOCK;;
  eret (match raw with
        | Some raw => result_map mk_new (decode_raw raw)
        | None => Err (ValueNotInitialized DA LAST_PROVED_BLOCK)
        end).

Definition update_last_proved_block (block_hash : BlockHash) : effr Database DbError unit :=
  commit [(DA, LAST_PROVED_BLOCK, enc (new0 block_hash))].

End da.

(** ** Messaging, Sierra classes, fees paid on L1 *)
Record LastSyncedEventBlock := mk_lseb { lseb_block_number : Z; lseb_event_index : Z }.

Section stores.
  Context `{CM : Commit} {SL : Scale LastSyncedEventBlock} {SF : Scale StarkFelt} {SCh : Scale ClassHash}.
  Context {SierraClass : Type} {SS : Scale SierraClass}.

Definition last_synced_l1_block_with_event : effr Database DbError LastSyncedEventBlock :=
  b <-? read_opt MESSAGING LAST_SYNCED_L1_EVENT_BLOCK;;
  eret (Ok (default (mk_lseb 0 0) b)).

Definition update_last_synced_l1_block_with_event (b : LastSyncedEventBlock) : effr Database DbError unit :=
  commit [(MESSAGING, LAST_SYNCED_L1_EVENT_BLOCK, enc b)].

Definition store_sierra_class (class_hash : ClassHash) (class : SierraClass) : effr Database DbError unit :=
  commit [(SIERRA_CONTRACT_CLASSES, enc class_hash, enc class)].

Definition get_sierra_class (class_hash : ClassHash) : effr Database DbError (option SierraClass) :=
  read_opt SIERRA_CONTRACT_CLASSES (enc class_hash).

(** [u128::to_le_bytes]; [copy_from_slice] panics when the lengths differ. *)
Definition store_fee_paid_for_l1_handler_tx (tx_hash : StarkFelt) (fee : Z) : effr Database DbError unit :=
  commit [(L1_HANDLER_PAID_FEE, enc tx_hash, rev (be_bytes 16 fee))].

Definition get_fee_paid_for_l1_handler_tx (tx_hash : StarkFelt) : effr Database DbError Z :=
  raw <-- get L1_HANDLER_PAID_FEE (enc tx_hash);;
  match raw with
  | Some bytes => eassert (length bytes =? 16)%nat ;;; eret (Ok (be_val (rev bytes)))
  | None => eret (Err (ValueNotInitialized L1_HANDLER_PAID_FEE (enc tx_hash)))
  end.

End stores.

(** ** Specification of the mapping and meta stores

    What a client of the stores sees, with no encoding in it. *)
Record DbView (BHash : Type) `{Countable BHash} := mk_view {
  v_synced : gset BHash;
  v_blocks : gmap StarkFelt (list BHash);
  v_txs : gmap StarkFelt BHash;
  v_cache : gmap StarkFelt (list StarkFelt);
  v_tips : list BHash;
}.
Arguments mk_view {BHash _ _}.
Arguments v_synced {BHash _ _}.
Arguments v_blocks {BHash _ _}.
Arguments v_txs {BHash _ _}.
Arguments v_cache {BHash _ _}.
Arguments v_tips {BHash _ _}.

Section view.
  Context {BHash : Type} `{Countable BHash}.

Definition view_empty : DbView BHash := mk_view ∅ ∅ ∅ ∅ [].

Definition view_none (h : BHash) (m : DbView BHash) : DbView BHash :=
  mk_view ({[h]} ∪ v_synced m) (v_blocks m) (v_txs m) (v_cache m) (v_tips m).

Definition view_hashes (c : MappingCommitment BHash) (m : DbView BHash) : DbView BHash :=
  mk_view ({[mc_block_hash c]} ∪ v_synced m)
    (<[mc_starknet_block_hash c := default [] (v_blocks m !! mc_starknet_block_hash c) ++ [mc_block_hash c]]> (v_blocks m))
    (list_to_map (map (fun t => (t, mc_block_hash c)) (mc_starknet_transaction_hashes c)) ∪ v_txs m)
    (<[mc_starknet_block_hash c := mc_starknet_transaction_hashes c]> (v_cache m)) (v_tips m).

Definition view_tips (tips : list BHash) (m : DbView BHash) : DbView BHash :=
  mk_view (v_synced m) (v_blocks m) (v_txs m) (v_cache m) tips.

Lemma view_txs_lookup c m t :
  v_txs (view_hashes c m) !! t
  = if bool_decide (t ∈ mc_starknet_transaction_hashes c) then Some (mc_block_hash c) else v_txs m !! t.
Proof.
  cbn [v_txs view_hashes]. induction (mc_starknet_transaction_hashes c) as [|x l IH]; simpl.
  - by rewrite (left_id_L ∅ (∪)).
  - rewrite <- insert_union_l. destruct (decide (x = t)) as [->|Hne].
    + rewrite lookup_insert_eq, bool_decide_true; [done|]. apply list_elem_of_here.
    + rewrite lookup_insert_ne, IH by done. rewrite (bool_decide_ext (t ∈ x :: l) (t ∈ l)); [done|].
      set_solver.
Qed.

End view.

Lemma enc_inj {T} {SCT : Scale T} {SLT : ScaleLaws T} (x y : T) : enc x = enc y -> x = y.
Proof. intros Hxy. apply (f_equal dec) in Hxy. rewrite !dec_enc in Hxy. congruence. Qed.

Lemma changes_app (l l' : list Change) (db : Database) : fold_left apply_change (l ++ l') db = fold_left apply_change l' (fold_left apply_change l db).
Proof. apply fold_left_app. Qed.

Lemma changes_other (l : list Change) (db : Database) k : Forall (fun c => fst c <> k) l -> fold_left apply_change l db !! k = db !! k.
Proof.
  revert db. induction l as [|c l IH]; intros db Hl; [done|]. inversion Hl; subst. simpl.
  rewrite IH by done. unfold apply_change. by rewrite lookup_insert_ne.
Qed.

(** Several keys of one column set to the same value. *)
Lemma changes_same_value {T} {SCT : Scale T} {SLT : ScaleLaws T} `{EqDecision T} (col : Z) (v : list byte) (l : list T)
    (db : Database) (x : T) :
  fold_left apply_change (map (fun t => (col, enc t, v)) l) db !! (col, enc x)
  = if bool_decide (x ∈ l) then Some v else db !! (col, enc x).
Proof.
  revert db. induction l as [|t l IH]; intros db; simpl; [done|]. rewrite IH. unfold apply_change. simpl.
  destruct (decide (t = x)) as [->|Hne].
  - rewrite lookup_insert_eq, (bool_decide_true (x ∈ x :: l)) by apply list_elem_of_here. by case_bool_decide.
  - rewrite lookup_insert_ne by (intros [= Heq%enc_inj]; done).
    rewrite (bool_decide_ext (x ∈ t :: l) (x ∈ l)); [done|]. set_solver.
Qed.

(** ** The stores implement the specification *)
Section refinement.
  Context `{CM : Commit} {BHash : Type} `{Countable BHash}.
  Context {SH : Scale BHash} {SHs : Scale (list BHash)} {SB : Scale bool}.
  Context {SF : Scale StarkFelt} {SFs : Scale (list StarkFelt)}.
  Context {LH : ScaleLaws BHash} {LHs : ScaleLaws (list BHash)} {LB : ScaleLaws bool}.
  Context {LF : ScaleLaws StarkFelt} {LFs : ScaleLaws (list StarkFelt)}.
  Context (cache_more_things : bool).

(** Every query of the stores returns what the view holds. *)
Record represents (db : Database) (m : DbView BHash) : Prop := mk_represents {
  rep_synced : forall h, is_synced h db = Ret (Ok (bool_decide (h ∈ v_synced m)), db);
  rep_blocks : forall s, mapping_block_hash s db = Ret (Ok (v_blocks m !! s), db);
  rep_txs : forall t, block_hash_from_transaction_hash t db = Ret (Ok (v_txs m !! t), db);
  rep_cache : forall s, cached_transaction_hashes_from_block_hash cache_more_things s db
                        = Ret (Ok (if cache_more_things then v_cache m !! s else None), db);
  rep_tips : current_syncing_tips db = Ret (Ok (v_tips m), db);
}.

(** An operation either fails to commit and changes nothing, or succeeds and does
    to the view what the specification says. *)
Definition implements (op : effr Database DbError unit) (f : DbView BHash -> DbView BHash) : Prop :=
  forall db m, represents db m ->
    op db = Ret (Err CommitError, db) \/ exists db', op db = Ret (Ok tt, db') /\ represents db' (f m).

(** Queries look at one key only. *)
Lemma read_opt_eq {T} {SCT : Scale T} (col : Z) (key : list byte) (db db' : Database) (r : result DbError (option T)) :
  db' !! (col, key) = db !! (col, key) -> read_opt col key db = Ret (r, db) -> read_opt col key db' = Ret (r, db').
Proof. unfold read_opt, get, ebind, eget, eret. intros ->. by intros [= <-]. Qed.

Lemma read_opt_hit {T} {SCT : Scale T} {SLT : ScaleLaws T} (col : Z) (key : list byte) (db : Database) (x : T) :
  db !! (col, key) = Some (enc x) -> read_opt col key db = Ret (Ok (Some x), db).
Proof. unfold read_opt, get, ebind, eget, eret. intros ->. unfold decode_raw. by rewrite dec_enc. Qed.

Lemma is_synced_eq (h : BHash) (db db' : Database) r :
  db' !! (SYNCED_MAPPING, enc h) = db !! (SYNCED_MAPPING, enc h) -> is_synced h db = Ret (r, db) ->
  is_synced h db' = Ret (r, db').
Proof. unfold is_synced, get, ebind, eget, eret. intros ->. by intros [= <-]. Qed.

Lemma is_synced_hit (h : BHash) (db : Database) : db !! (SYNCED_MAPPING, enc h) = Some (enc true) -> is_synced h db = Ret (Ok true, db).
Proof. unfold is_synced, get, ebind, eget, eret. intros ->. unfold decode_raw. by rewrite dec_enc. Qed.

Lemma cached_eq (s : StarkFelt) (db db' : Database) r :
  db' !! (STARKNET_TRANSACTION_HASHES_CACHE, enc s) = db !! (STARKNET_TRANSACTION_HASHES_CACHE, enc s) ->
  cached_transaction_hashes_from_block_hash cache_more_things s db = Ret (r, db) ->
  cached_transaction_hashes_from_block_hash cache_more_things s db' = Ret (r, db').
Proof.
  unfold cached_transaction_hashes_from_block_hash. destruct cache_more_things; [apply read_opt_eq|].
  unfold eret. by intros _ [= <-].
Qed.

Lemma tips_eq (db db' : Database) (r : result DbError (list BHash)) :
  db' !! (META, CURRENT_SYNCING_TIPS) = db !! (META, CURRENT_SYNCING_TIPS) ->
  current_syncing_tips db = Ret (r, db) -> current_syncing_tips db' = Ret (r, db').
Proof.
  unfold current_syncing_tips, read_opt, get, etry, ebind, eget, eret. intros ->.
  destruct (db !! _) as [raw|]; [destruct (decode_raw raw)|]; simpl; by intros [= <-].
Qed.

(** The columns the view depends on. *)
Definition view_column (col : Z) : bool :=
  bool_decide (col ∈ [META; BLOCK_MAPPING; TRANSACTION_MAPPING; SYNCED_MAPPING; STARKNET_TRANSACTION_HASHES_CACHE]).

Lemma represents_other (db db' : Database) m :
  (forall col key, view_column col = true -> db' !! (col, key) = db !! (col, key)) ->
  represents db m -> represents db' m.
Proof.
  intros Hd [R1 R2 R3 R4 R5]. constructor; intros.
  - eapply is_synced_eq; [by apply Hd|]. apply R1.
  - eapply read_opt_eq; [by apply Hd|]. apply R2.
  - eapply read_opt_eq; [by apply Hd|]. apply R3.
  - eapply cached_eq; [by apply Hd|]. apply R4.
  - eapply tips_eq; [by apply Hd|]. apply R5.
Qed.

Lemma represents_empty : represents ∅ view_empty.
Proof. constructor; intros; unfold cached_transaction_hashes_from_block_hash; by destruct cache_more_things. Qed.

Lemma commit_cases (t : list Change) (db : Database) :
  commit t db = Ret (Err CommitError, db) \/ commit t db = Ret (Ok tt, fold_left apply_change t db).
Proof. unfold commit. destruct (commit_fails t db); auto. Qed.

Lemma write_none_implements h : implements (write_none h) (view_none h).
Proof.
  intros db m [R1 R2 R3 R4 R5]. unfold write_none.
  destruct (commit_cases [(SYNCED_MAPPING, enc h, enc true)] db) as [->| ->]; [by left|]. right. eexists. split; [done|].
  unfold apply_change. simpl.
  assert (Ho : forall col key, col <> SYNCED_MAPPING ->
    <[(SYNCED_MAPPING, enc h) := enc true]> db !! (col, key) = db !! (col, key)).
  { intros col key Hc. apply lookup_insert_ne. congruence. }
  constructor; intros.
  - cbn [v_synced view_none]. destruct (decide (h0 = h)) as [->|Hne].
    + rewrite bool_decide_true by set_solver. apply is_synced_hit, lookup_insert_eq.
    + rewrite (bool_decide_ext _ (h0 ∈ v_synced m)) by set_solver. eapply is_synced_eq; [|apply R1].
      apply lookup_insert_ne. intros [= Heq%enc_inj]. congruence.
  - eapply read_opt_eq; [by apply Ho|]. apply R2.
  - eapply read_opt_eq; [by apply Ho|]. apply R3.
  - eapply cached_eq; [by apply Ho|]. apply R4.
  - eapply tips_eq; [by apply Ho|]. apply R5.
Qed.

Lemma write_tips_implements tips : implements (write_current_syncing_tips tips) (view_tips tips).
Proof.
  intros db m [R1 R2 R3 R4 R5]. unfold write_current_syncing_tips.
  destruct (commit_cases [(META, CURRENT_SYNCING_TIPS, enc tips)] db) as [->| ->]; [by left|]. right. eexists. split; [done|].
  unfold apply_change. simpl.
  assert (Ho : forall col key, col <> META ->
    <[(META, CURRENT_SYNCING_TIPS) := enc tips]> db !! (col, key) = db !! (col, key)).
  { intros col key Hc. apply lookup_insert_ne. congruence. }
  constructor; intros.
  - eapply is_synced_eq; [by apply Ho|]. apply R1.
  - eapply read_opt_eq; [by apply Ho|]. apply R2.
  - eapply read_opt_eq; [by apply Ho|]. apply R3.
  - eapply cached_eq; [by apply Ho|]. apply R4.
  - unfold current_syncing_tips, etry, ebind.
    rewrite (read_opt_hit META CURRENT_SYNCING_TIPS _ tips) by apply lookup_insert_eq. done.
Qed.

(** The transaction of [write_hashes], key by key. *)
Section hashes.
  Context (c : MappingCommitment BHash) (known : result DbError (option (list BHash))) (db : Database).
Let t := hashes_transaction cache_more_things c known.
Let db' := fold_left apply_change t db.
Let hs := match known with Ok (Some data) => data ++ [mc_block_hash c] | _ => [mc_block_hash c] end.

Lemma hashes_other k :
  k <> (BLOCK_MAPPING, enc (mc_starknet_block_hash c)) -> k <> (SYNCED_MAPPING, enc (mc_block_hash c)) ->
  fst k <> TRANSACTION_MAPPING -> k <> (STARKNET_TRANSACTION_HASHES_CACHE, enc (mc_starknet_block_hash c)) ->
  db' !! k = db !! k.
Proof.
  intros H1 H2 H3 H4. apply changes_other. unfold t, hashes_transaction.
  repeat (apply Forall_app; split); repeat constructor; simpl; try congruence.
  - rewrite Forall_fmap. apply Forall_true. intros x. simpl. intros <-. by apply H3.
  - destruct cache_more_things; repeat constructor; simpl; congruence.
Qed.

Lemma hashes_block : db' !! (BLOCK_MAPPING, enc (mc_starknet_block_hash c)) = Some (enc hs).
Proof.
  unfold db', t, hashes_transaction. rewrite changes_app, changes_other.
  - simpl. unfold apply_change. simpl. rewrite lookup_insert_ne by done. apply lookup_insert_eq.
  - apply Forall_app; split; [rewrite Forall_fmap; by apply Forall_true|].
    destruct cache_more_things; repeat constructor; done.
Qed.

Lemma hashes_synced : db' !! (SYNCED_MAPPING, enc (mc_block_hash c)) = Some (enc true).
Proof.
  unfold db', t, hashes_transaction. rewrite changes_app, changes_other.
  - simpl. unfold apply_change. simpl. apply lookup_insert_eq.
  - apply Forall_app; split; [rewrite Forall_fmap; by apply Forall_true|].
    destruct cache_more_things; repeat constructor; done.
Qed.

Lemma hashes_tx (x : StarkFelt) :
  db' !! (TRANSACTION_MAPPING, enc x)
  = if bool_decide (x ∈ mc_starknet_transaction_hashes c) then Some (enc (mc_block_hash c))
    else db !! (TRANSACTION_MAPPING, enc x).
Proof.
  unfold db', t, hashes_transaction. rewrite !changes_app, changes_other.
  - rewrite (changes_same_value (T := StarkFelt)). case_bool_decide; [done|]. simpl. unfold apply_change. simpl.
    by rewrite !lookup_insert_ne.
  - destruct cache_more_things; repeat constructor; done.
Qed.

Lemma hashes_cache :
  cache_more_things = true ->
  db' !! (STARKNET_TRANSACTION_HASHES_CACHE, enc (mc_starknet_block_hash c))
  = Some (enc (mc_starknet_transaction_hashes c)).
Proof.
  intros Hc. unfold db', t, hashes_transaction. rewrite Hc, !changes_app. simpl. apply lookup_insert_eq.
Qed.

End hashes.

Lemma write_hashes_implements c : implements (write_hashes cache_more_things c) (view_hashes c).
Proof.
  intros db m Hrep. unfold write_hashes, ebind. rewrite (rep_blocks _ _ Hrep).
  set (known := Ok (v_blocks m !! mc_starknet_block_hash c)).
  destruct (commit_cases (hashes_transaction cache_more_things c known) db) as [->| ->]; [by left|].
  right. eexists. split; [done|]. destruct Hrep as [R1 R2 R3 R4 R5]. constructor.
  - intros h. destruct (decide (h = mc_block_hash c)) as [->|Hne].
    + rewrite bool_decide_true by (cbn; set_solver). apply is_synced_hit, hashes_synced.
    + rewrite (bool_decide_ext _ (h ∈ v_synced m)) by (cbn; set_solver). eapply is_synced_eq; [|apply R1].
      apply hashes_other; try done. intros [= Heq%enc_inj]. done.
  - intros s. cbn [v_blocks view_hashes]. destruct (decide (s = mc_starknet_block_hash c)) as [->|Hne].
    + rewrite lookup_insert_eq. apply read_opt_hit. rewrite hashes_block. unfold known.
      by destruct (v_blocks m !! _).
    + rewrite lookup_insert_ne by done. eapply read_opt_eq; [|apply R2].
      apply hashes_other; try done. intros [= Heq%enc_inj]. done.
  - intros t. rewrite view_txs_lookup. case_bool_decide as Hin.
    + apply read_opt_hit. rewrite hashes_tx. by rewrite bool_decide_true.
    + eapply read_opt_eq; [|apply R3]. rewrite hashes_tx. by rewrite bool_decide_false.
  - intros s. pose proof (R4 s) as Hs. unfold cached_transaction_hashes_from_block_hash in *.
    pose proof (hashes_cache c known db) as Hc. pose proof (hashes_other c known db) as Ho.
    destruct cache_more_things; [|done]. cbn [v_cache view_hashes].
    destruct (decide (s = mc_starknet_block_hash c)) as [->|Hne].
    + rewrite lookup_insert_eq. apply read_opt_hit, Hc. done.
    + rewrite lookup_insert_ne by done. eapply read_opt_eq; [|exact Hs].
      apply Ho; try done. intros [= Heq%enc_inj]. done.
  - eapply tips_eq; [|apply R5]. by apply hashes_other.
Qed.

(** C8: the mapping and meta stores implement their specification.  From the
    empty database on, through any writes, all queries return what the abstract
    view holds: [write_none] marks a block as seen; [write_hashes] marks it, adds
    it behind the Substrate blocks already known for its Starknet block, points
    its transactions at it and caches their hashes when the cache is on;
    [write_current_syncing_tips] replaces the tips.  A write that fails to commit
    changes nothing, and writes to the columns of the other stores do not touch
    the view. *)
Theorem mapping_store_refines (h : BHash) (c : MappingCommitment BHash) (tips : list BHash) :
  represents ∅ view_empty
  /\ implements (write_none h) (view_none h)
  /\ implements (write_hashes cache_more_things c) (view_hashes c)
  /\ implements (write_current_syncing_tips tips) (view_tips tips)
  /\ forall (db db' : Database) (t : list Change) (m : DbView BHash),
       Forall (fun x => fst (fst x) ∈ [DA; MESSAGING; SIERRA_CONTRACT_CLASSES; L1_HANDLER_PAID_FEE]) t ->
       represents db m -> commit t db = Ret (Ok tt, db') -> represents db' m.
Proof.
  split; [apply represents_empty|]. split; [apply write_none_implements|].
  split; [apply write_hashes_implements|]. split; [apply write_tips_implements|].
  intros db db' t m Ht Hrep Hc. destruct (commit_cases t db) as [E|E]; rewrite E in Hc; [done|].
  injection Hc as <-. eapply represents_other; [|exact Hrep]. intros col key Hcol. apply changes_other.
  eapply list.Forall_impl; [exact Ht|]. intros [[col' key'] v]. simpl. intros Hin [= -> _].
  set_unfold in Hin. by destruct Hin as [->|[->|[->|[->|[]]]]].
Qed.

End refinement.

(** ** The other stores *)
Section store_properties.
  Context `{CM : Commit} {ThinStateDiff : Type} {SD : Scale ThinStateDiff} {LD : ScaleLaws ThinStateDiff}.
  Context {SF : Scale StarkFelt} {LF : ScaleLaws StarkFelt} {SL : Scale LastSyncedEventBlock}.
  Context {LL : ScaleLaws LastSyncedEventBlock} {SCh : Scale ClassHash} {LCh : ScaleLaws ClassHash}.
  Context {SierraClass : Type} {SS : Scale SierraClass} {LS : ScaleLaws SierraClass}.

(** A successful commit of one write. *)
Lemma commit_one (col : Z) (key v : list byte) (db db' : Database) :
  commit [(col, key, v)] db = Ret (Ok tt, db') -> db' = <[(col, key) := v]> db.
Proof. destruct (commit_cases [(col, key, v)] db) as [E|E]; rewrite E; [done|]. by intros [= <-]. Qed.

(** The job key and the state diff of a block displace each other.  Both are
    kept in the same column under the hash of the block: the job key written by
    [update_cairo_job] is read back by [cairo_job], but once the state diff of
    that block is stored, [cairo_job] fails (or, for a diff of sixteen bytes,
    returns the bytes of the diff), and a job key written later makes
    [state_diff] decode the key.  Other blocks are not affected. *)
Theorem da_store_overwrites (h h' : BlockHash) (j j' : array 16) (d : ThinStateDiff) (db db1 db2 db3 : Database) :
  update_cairo_job h j db = Ret (Ok tt, db1) ->
  store_state_diff h d db1 = Ret (Ok tt, db2) ->
  update_cairo_job h j' db2 = Ret (Ok tt, db3) ->
  cairo_job h db1 = Ret (Ok (Some j), db1)
  /\ state_diff h db2 = Ret (Ok d, db2)
  /\ cairo_job h db2 = Ret (result_map Some (ok_or (array_of_slice 16 (enc d)) UuidError), db2)
  /\ state_diff h db3 = Ret (ok_or (dec (arr j')) DeserializeError (A := ThinStateDiff), db3)
  /\ (h' <> h -> db3 !! (DA, da_key h') = db !! (DA, da_key h')).
Proof.
  intros H1%commit_one H2%commit_one H3%commit_one.
  unfold cairo_job, state_diff, get, ebind, eget, eret. subst db1 db2 db3. rewrite !lookup_insert_eq. split_and!.
  - by rewrite array_of_slice_arr.
  - unfold decode_raw. by rewrite dec_enc.
  - done.
  - done.
  - intros Hne. rewrite !lookup_insert_ne; [done|intros [= Hk]..].
    all: apply Hne; destruct h as [[[]]], h' as [[[]]]; unfold da_key in Hk; simpl in Hk; subst; do 2 f_equal.
    all: by apply array_eq.
Qed.

(** What the remaining stores are given they return.  The last synced L1
    block, the Sierra classes, the fees paid on L1 and the last proved block are
    read back as they were written, for every fee of 128 bits, and a lookup of
    what was never written gives the default, [None], or the
    [ValueNotInitialized] error of its column, never a panic. *)
Theorem stores_roundtrip (db db1 db2 db3 db4 : Database) (b : LastSyncedEventBlock) (ch : ClassHash) (cl : SierraClass)
    (tx : StarkFelt) (fee : Z) (h : BlockHash) :
  in_width 128 fee = true ->
  update_last_synced_l1_block_with_event b db = Ret (Ok tt, db1) ->
  store_sierra_class ch cl db1 = Ret (Ok tt, db2) ->
  store_fee_paid_for_l1_handler_tx tx fee db2 = Ret (Ok tt, db3) ->
  update_last_proved_block h db3 = Ret (Ok tt, db4) ->
  last_synced_l1_block_with_event db4 = Ret (Ok b, db4)
  /\ get_sierra_class ch db4 = Ret (Ok (Some cl), db4)
  /\ get_fee_paid_for_l1_handler_tx tx db4 = Ret (Ok fee, db4)
  /\ last_proved_block db4 = Ret (Ok h, db4)
  /\ last_synced_l1_block_with_event ∅ = Ret (Ok (mk_lseb 0 0), ∅)
  /\ get_sierra_class ch ∅ = Ret (Ok (None (A := SierraClass)), ∅)
  /\ get_fee_paid_for_l1_handler_tx tx ∅ = Ret (Err (ValueNotInitialized L1_HANDLER_PAID_FEE (enc tx)), ∅)
  /\ last_proved_block ∅ = Ret (Err (ValueNotInitialized DA LAST_PROVED_BLOCK), ∅).
Proof.
  intros Hf%in_width_spec H1%commit_one H2%commit_one H3%commit_one H4%commit_one. subst db1 db2 db3 db4. split_and!.
  5-8: reflexivity.
  - unfold last_synced_l1_block_with_event, etry, ebind. rewrite (read_opt_hit _ _ _ b); [done|].
    rewrite !lookup_insert_ne by done. apply lookup_insert_eq.
  - apply read_opt_hit. rewrite !lookup_insert_ne by done. apply lookup_insert_eq.
  - unfold get_fee_paid_for_l1_handler_tx, get, ebind, eget. rewrite lookup_insert_ne by done.
    rewrite lookup_insert_eq. unfold eassert, eret. rewrite length_rev, be_bytes_length, Nat.eqb_refl.
    rewrite rev_involutive, be_val_bytes; [done|]. change (256 ^ Z.of_nat 16) with (2 ^ 128). lia.
  - unfold last_proved_block, get, ebind, eget, eret, decode_raw. rewrite lookup_insert_eq, dec_enc. by destruct h.
Qed.

End store_properties.

(** ** Witnesses *)
Module DbWitness.
Import BlockWitness.

(** Any countable type has an encoding; commits succeed. *)
#[export] Instance countable_scale {T} `{Countable T} : Scale T := {|
  enc x := pos_bytes (encode x);
  dec d := decode (bytes_pos d);
|}.
#[export] Instance countable_scale_laws {T} `{Countable T} : ScaleLaws T.
Proof. constructor. intros x. simpl. rewrite bytes_pos_bytes. apply decode_encode. Qed.

#[export] Instance commit_always : Commit := {| commit_fails _ _ := false |}.

#[export] Instance LastSyncedEventBlock_eq_dec : EqDecision LastSyncedEventBlock.
Proof. solve_decision. Defined.
#[export] Program Instance LastSyncedEventBlock_countable : Countable LastSyncedEventBlock :=
  inj_countable' (fun b => (lseb_block_number b, lseb_event_index b)) (fun x => mk_lseb (fst x) (snd x)) _.
Next Obligation. by intros []. Qed.

Definition felt (n : Z) : StarkFelt := mk_stark (be_array 32 n).

End DbWitness.
Import DbWitness.

(** Two Substrate blocks that carry the same Starknet block. *)
Lemma mapping_store_refines_witness :
  exists db1 db2, write_hashes true (mk_commitment 1 (felt 7) [felt 8]) ∅ = Ret (Ok tt, db1)
  /\ write_hashes true (mk_commitment 2 (felt 7) [felt 8]) db1 = Ret (Ok tt, db2)
  /\ mapping_block_hash (felt 7) db2 = Ret (Ok (Some [1; 2]), db2)
  /\ block_hash_from_transaction_hash (felt 8) db2 = Ret (Ok (Some 2), db2).
Proof.
  destruct (mapping_store_refines (BHash := Z) true 0 (mk_commitment 1 (felt 7) [felt 8]) []) as (R0 & _ & I1 & _).
  destruct (mapping_store_refines (BHash := Z) true 0 (mk_commitment 2 (felt 7) [felt 8]) []) as (_ & _ & I2 & _).
  destruct (I1 _ _ R0) as [E|(db1 & E1 & R1)]; [discriminate E|].
  destruct (I2 _ _ R1) as [E|(db2 & E2 & R2)]; [discriminate E|].
  exists db1, db2. split; [exact E1|]. split; [exact E2|]. split.
  - exact (rep_blocks _ _ _ R2 (felt 7)).
  - rewrite (rep_txs _ _ _ R2 (felt 8)). vm_compute. reflexivity.
Defined.

Lemma da_store_overwrites_witness :
  exists db1 db2, update_cairo_job (mk_new (felt 1)) (be_array 16 5) ∅ = Ret (Ok tt, db1)
  /\ store_state_diff (mk_new (felt 1)) [7] db1 = Ret (Ok tt, db2)
  /\ cairo_job (mk_new (felt 1)) db2 = Ret (Err UuidError, db2).
Proof.
  eexists _, _. split; [reflexivity|]. split; [reflexivity|].
  destruct (da_store_overwrites (CM := commit_always) (ThinStateDiff := list Z) (mk_new (felt 1)) (mk_new (felt 2)) (be_array 16 5) (be_array 16 6) [7]
              ∅ _ _ _ eq_refl eq_refl eq_refl) as (_ & _ & H & _).
  etransitivity; [exact H|]. reflexivity.
Defined.

Lemma stores_roundtrip_witness :
  exists db4, last_synced_l1_block_with_event db4 = Ret (Ok (mk_lseb 10 2), db4)
  /\ get_fee_paid_for_l1_handler_tx (felt 4) db4 = Ret (Ok 1000, db4).
Proof.
  destruct (stores_roundtrip (CM := commit_always) (SierraClass := Z) ∅ _ _ _ _ (mk_lseb 10 2) (mk_new (felt 3)) 77 (felt 4) 1000 (mk_new (felt 5))
              eq_refl eq_refl eq_refl eq_refl eq_refl) as (H1 & _ & H2 & _).
  eexists. split; [exact H1|exact H2].
Defined.
