(* ===== verification/MappingSync.v ===== *)
(** * Following the chain: the mapping synchronisation

    Models [crates/client/mapping-sync/src/sync_blocks.rs]: walking the Substrate
    chain from its leaves towards genesis and recording in the database of [Db]
    which Substrate block carries which Starknet block and transactions.  The
    Substrate client is a parameter.  The worker that calls it is in
    [MappingWorker]. *)
From S2P Require Import Prelude Bytes Deps Felt Hashers Transactions ComputeHash Fee Block Db.
Local Open Scope Z_scope.

(** A Substrate header, and what the code asks of the Substrate client: the
    leaves, headers (of the backend and of the client) and the chain id that the
    runtime reports at a block. *)
Record SubHeader (BHash : Type) := mk_sub {
  sub_number : Z;
  sub_parent_hash : BHash;
  sub_digest : list DigestItem;
}.
Arguments mk_sub {BHash}.
Arguments sub_number {BHash}.
Arguments sub_parent_hash {BHash}.
Arguments sub_digest {BHash}.

Class Substrate (BHash : Type) := {
  leaves : result unit (list BHash);
  backend_header : BHash -> result unit (option (SubHeader BHash));
  client_header : BHash -> result unit (option (SubHeader BHash));
  runtime_chain_id : BHash -> result unit Felt252Wrapper;
}.

Inductive SyncError := HashMismatch | DigestMultipleLogs | HeaderNotFound | SyncDbError (e : DbError) | SyncClientError.

Section sync.
  Context `{SF : StarknetFf} `{SA : StarknetApi} `{PT : PrimitiveTypes} `{SC : StarknetCrypto} {HH : HasherT}.
  Context `{LC : LogCodec} `{CM : Commit} {BHash : Type} {SH : Scale BHash} {SHs : Scale (list BHash)}.
  Context {SB : Scale bool} {SFe : Scale StarkFelt} {SFs : Scale (list StarkFelt)}.
  Context (cache_more_things : bool) (sub_hash : SubHeader BHash -> BHash).

(** [get_block_by_block_hash] of rpc-core: the block in the header's digest. *)
Definition get_block_by_block_hash {SU : Substrate BHash} (block_hash : BHash) : result unit Block :=
  match client_header block_hash with
  | Ok (Some header) => map_err (fun _ => tt) (find_starknet_block (sub_digest header))
  | _ => Err tt
  end.

Definition db_op {A} (m : effr Database DbError A) : effr Database SyncError A := emap_err SyncDbError m.

Definition sync_block {SU : Substrate BHash} (header : SubHeader BHash) : effr Database SyncError unit :=
  let substrate_block_hash := sub_hash header in
  match find_starknet_block (sub_digest header) with
  | Ok digest_starknet_block =>
      match get_block_by_block_hash substrate_block_hash with
      | Ok storage_starknet_block =>
          digest_starknet_block_hash <-- elift (header_hash (b_header digest_starknet_block));;
          storage_starknet_block_hash <-- elift (header_hash (b_header storage_starknet_block));;
          if bool_decide (digest_starknet_block_hash <> storage_starknet_block_hash) then eret (Err HashMismatch)
          else
            chain_id <-? eret (map_err (fun _ => SyncClientError) (runtime_chain_id substrate_block_hash));;
            db_op (write_hashes cache_more_things
              (mk_commitment substrate_block_hash (to_stark digest_starknet_block_hash)
                 (map to_stark (transactions_hashes digest_starknet_block chain_id))))
      | Err _ => db_op (write_none substrate_block_hash)
      end
  | Err NotLog => db_op (write_none substrate_block_hash)
  | Err MultipleLogs => eret (Err DigestMultipleLogs)
  end.

Definition sync_genesis_block (header : SubHeader BHash) : effr Database SyncError unit :=
  let substrate_block_hash := sub_hash header in
  match find_starknet_block (sub_digest header) with
  | Ok block =>
      block_hash <-- elift (header_hash (b_header block));;
      db_op (write_hashes cache_more_things (mk_commitment substrate_block_hash (to_stark block_hash) []))
  | Err NotLog => db_op (write_none substrate_block_hash)
  | Err MultipleLogs => eret (Err DigestMultipleLogs)
  end.

Definition fetch_header {SU : Substrate BHash} (checking_tip : BHash) (sync_from : Z)
  : effr Database SyncError (option (SubHeader BHash)) :=
  synced <-? db_op (is_synced checking_tip);;
  eret (if synced then Ok None
        else match backend_header checking_tip with
             | Ok (Some checking_header) => if sync_from <=? sub_number checking_header then Ok (Some checking_header) else Ok None
             | Ok None | Err _ => Err HeaderNotFound
             end).

(** The [while let Some(..) = pop()] loop, on the tips in the order they are
    popped; returns the header found and the tips that are left. *)
Fixpoint pop_tips {SU : Substrate BHash} (sync_from : Z) (popped : list BHash)
  : effr Database SyncError (option (SubHeader BHash) * list BHash) :=
  match popped with
  | [] => eret (Ok (None, []))
  | checking_tip :: rest =>
      found <-? fetch_header checking_tip sync_from;;
      match found with
      | Some checking_header => eret (Ok (Some checking_header, rest))
      | None => pop_tips sync_from rest
      end
  end.

Definition sync_from_tips {SU : Substrate BHash} (sync_from : Z) (tips : list BHash) : effr Database SyncError bool :=
  found <-? pop_tips sync_from (rev tips);;
  let current_syncing_tips := rev (snd found) in
  match fst found with
  | None =>
      db_op (write_current_syncing_tips current_syncing_tips) ;;?
      eret (Ok false)
  | Some operating_header =>
      if sub_number operating_header =? 0 then
        sync_genesis_block operating_header ;;?
        db_op (write_current_syncing_tips current_syncing_tips) ;;?
        eret (Ok true)
      else
        sync_block operating_header ;;?
        db_op (write_current_syncing_tips (current_syncing_tips ++ [sub_parent_hash operating_header])) ;;?
        eret (Ok true)
  end.

Definition sync_one_block {SU : Substrate BHash} (sync_from : Z) : effr Database SyncError bool :=
  tips <-? db_op current_syncing_tips;;
  match tips with
  | [] =>
      new_leaves <-? eret (map_err (fun _ => SyncClientError) leaves);;
      match new_leaves with
      | [] => eret (Ok false)
      | _ => sync_from_tips sync_from new_leaves
      end
  | _ => sync_from_tips sync_from tips
  end.

(** [synced_any || sync_one_block(..)?]: once a block is synced, the remaining
    rounds do nothing. *)
Fixpoint sync_rounds {SU : Substrate BHash} (limit : nat) (sync_from : Z) (synced_any : bool)
  : effr Database SyncError bool :=
  match limit with
  | O => eret (Ok synced_any)
  | S limit' =>
      synced <-? (if synced_any then eret (Ok true) else sync_one_block sync_from);;
      sync_rounds limit' sync_from synced
  end.

Definition sync_blocks {SU : Substrate BHash} (limit : nat) (sync_from : Z) : effr Database SyncError bool :=
  sync_rounds limit sync_from false.

End sync.

(** ** Properties *)
Section properties.
  Context `{SF : StarknetFf} {SFL : StarknetFfLaws} `{SA : StarknetApi} `{PT : PrimitiveTypes} `{SC : StarknetCrypto}.
  Context {HH : HasherT} `{LC : LogCodec} `{CM : Commit} {BHash : Type} `{Countable BHash}.
  Context {SH : Scale BHash} {SHs : Scale (list BHash)} {SB : Scale bool} {SFe : Scale StarkFelt}.
  Context {SFs : Scale (list StarkFelt)} {LH : ScaleLaws BHash} {LHs : ScaleLaws (list BHash)} {LB : ScaleLaws bool}.
  Context {LF : ScaleLaws StarkFelt} {LFs : ScaleLaws (list StarkFelt)}.
  Context (cache_more_things : bool) (sub_hash : SubHeader BHash -> BHash) (sync_from : Z).

(** The chain the client follows: its headers by hash, and the chain id of the
    runtime at each block. *)
  Context (header_of : BHash -> option (SubHeader BHash)) (chain_id_of : BHash -> Felt252Wrapper).

(** The blocks for which the clients asked gave the header whenever their backend had
    it.  For any other block a client may have failed. *)
  Context (answered : BHash -> Prop).

(** A client that may not know every header yet, or fail at any time, but never reports
    a header that is not the chain's. *)
Record truthful (SU : Substrate BHash) : Prop := mk_truthful {
  backend_truthful : forall h hd, backend_header h = Ok (Some hd) -> header_of h = Some hd /\ sub_hash hd = h;
  client_truthful : forall h hd, client_header h = Ok (Some hd) -> header_of h = Some hd;
  client_answers : forall h hd, answered h -> backend_header h = Ok (Some hd) -> client_header h = Ok (Some hd);
  chain_id_truthful : forall h c, runtime_chain_id h = Ok c -> c = chain_id_of h;
}.

(** The block a Substrate block carries and its hash. *)
Definition carries (hd : SubHeader BHash) (b : Block) (f : Felt252Wrapper) : Prop :=
  find_starknet_block (sub_digest hd) = Ok b /\ header_hash (b_header b) = Ret f.

(** The transactions a block is mapped from: none for genesis. *)
Definition mapped_txs (h : BHash) (hd : SubHeader BHash) (b : Block) : list StarkFelt :=
  if sub_number hd =? 0 then [] else map to_stark (transactions_hashes b (chain_id_of h)).

(** A view of the database agrees with the chain: what it says about Starknet
    blocks and transactions is so, and what it could say about the blocks it has
    seen and was answered for, it says. *)
Record agrees (m : DbView BHash) : Prop := mk_agrees {
  agr_synced : forall h, h ∈ v_synced m -> exists hd, header_of h = Some hd /\ sync_from <= sub_number hd;
  agr_blocks : forall s l h, v_blocks m !! s = Some l -> h ∈ l ->
    h ∈ v_synced m /\ exists hd b f, header_of h = Some hd /\ carries hd b f /\ s = to_stark f;
  agr_txs : forall t h, v_txs m !! t = Some h ->
    h ∈ v_synced m /\ exists hd b f, header_of h = Some hd /\ carries hd b f /\ t ∈ mapped_txs h hd b
      /\ h ∈ default [] (v_blocks m !! to_stark f);
  agr_once : forall s l, v_blocks m !! s = Some l -> NoDup l;
  agr_mapped : forall h hd b f, h ∈ default [] (v_blocks m !! to_stark f) -> header_of h = Some hd -> carries hd b f ->
    forall t, t ∈ mapped_txs h hd b -> is_Some (v_txs m !! t);
  agr_complete : forall h hd b f, answered h -> h ∈ v_synced m -> header_of h = Some hd -> carries hd b f ->
    h ∈ default [] (v_blocks m !! to_stark f);
}.

(** How syncing the block [h] changes the view.  A block is marked without being mapped
    when it carries none, and also when the client did not give its header. *)
Inductive synced_step (m : DbView BHash) (h : BHash) : DbView BHash -> Prop :=
| step_none hd :
    header_of h = Some hd -> h ∉ v_synced m -> sync_from <= sub_number hd ->
    find_starknet_block (sub_digest hd) = Err NotLog \/ ~ answered h -> synced_step m h (view_none h m)
| step_hashes hd b f :
    header_of h = Some hd -> h ∉ v_synced m -> sync_from <= sub_number hd -> carries hd b f ->
    synced_step m h (view_hashes (mk_commitment h (to_stark f) (mapped_txs h hd b)) m).

Lemma agrees_empty : agrees view_empty.
Proof. constructor; cbn; intros *; rewrite ?lookup_empty; cbn; set_solver. Qed.

Lemma agrees_tips tips m : agrees m -> agrees (view_tips tips m).
Proof. intros [S1 S2 S3 S4 S5 S6]. by constructor. Qed.

Lemma agrees_none m h hd :
  agrees m -> header_of h = Some hd -> sync_from <= sub_number hd ->
  find_starknet_block (sub_digest hd) = Err NotLog \/ ~ answered h -> agrees (view_none h m).
Proof.
  intros [S1 S2 S3 S4 S5 S6] Hh Hn Hf. constructor.
  - intros h'. cbn. intros [->%elem_of_singleton|Hin]%elem_of_union; [by eexists|by apply S1].
  - intros s l h' Hs Hin. destruct (S2 s l h' Hs Hin). split; [by apply elem_of_union_r|done].
  - intros t h' Hs. destruct (S3 t h' Hs). split; [by apply elem_of_union_r|done].
  - exact S4.
  - exact S5.
  - intros h' hd' b f Hans. cbn. intros [->%elem_of_singleton|Hin]%elem_of_union Hh' Hc; [|by apply (S6 h' hd' b f)].
    destruct Hc as [Hc _], Hf as [Hf|Hf]; [|done]. assert (hd' = hd) as -> by congruence. congruence.
Qed.

Lemma agrees_hashes m h hd b f :
  agrees m -> header_of h = Some hd -> h ∉ v_synced m -> sync_from <= sub_number hd -> carries hd b f ->
  agrees (view_hashes (mk_commitment h (to_stark f) (mapped_txs h hd b)) m).
Proof.
  intros [S1 S2 S3 S4 S5 S6] Hh Hn Hs Hc. constructor.
  - intros h'. cbn. intros [->%elem_of_singleton|Hin]%elem_of_union; [by eexists|by apply S1].
  - intros s l h'. cbn [v_blocks v_synced view_hashes mc_starknet_block_hash mc_block_hash].
    destruct (decide (s = to_stark f)) as [->|Hne].
    + rewrite lookup_insert_eq. intros [= <-] [Hin| ->%list_elem_of_singleton]%elem_of_app;
        [|split; [by apply elem_of_union_l, elem_of_singleton|by exists hd, b, f]].
      destruct (v_blocks m !! to_stark f) as [l0|] eqn:E; [|by apply elem_of_nil in Hin].
      destruct (S2 _ _ _ E Hin). split; [by apply elem_of_union_r|done].
    + rewrite lookup_insert_ne by done. intros Hl Hin. destruct (S2 s l h' Hl Hin). split; [by apply elem_of_union_r|done].
  - intros t h'. rewrite view_txs_lookup. cbn [mc_starknet_transaction_hashes mc_block_hash v_synced view_hashes].
    cbn [v_blocks view_hashes mc_starknet_block_hash mc_block_hash]. case_bool_decide as Hin.
    + intros [= <-]. split; [by apply elem_of_union_l, elem_of_singleton|]. exists hd, b, f. split_and!; [done..|].
      rewrite lookup_insert_eq. apply elem_of_app. right. by apply list_elem_of_singleton.
    + intros Ht. destruct (S3 t h' Ht) as (Hs' & hd' & b' & f' & Hh' & Hc' & Ht' & Hl').
      split; [by apply elem_of_union_r|]. exists hd', b', f'. split_and!; [done..|].
      destruct (decide (to_stark f = to_stark f')) as [->|Hne]; [|by rewrite lookup_insert_ne].
      rewrite lookup_insert_eq. apply elem_of_app. by left.
  - intros s l. cbn [v_blocks view_hashes mc_starknet_block_hash mc_block_hash].
    destruct (decide (s = to_stark f)) as [->|Hne]; [|rewrite lookup_insert_ne by done; apply S4].
    rewrite lookup_insert_eq. intros [= <-]. apply list.NoDup_app.
    destruct (v_blocks m !! to_stark f) as [l0|] eqn:E; simpl.
    + split_and!; [by eapply S4| |by apply list.NoDup_singleton].
      intros x Hx ->%list_elem_of_singleton. by destruct (S2 _ _ _ E Hx).
    + split_and!; [by constructor| |by apply list.NoDup_singleton]. intros x Hx. by apply elem_of_nil in Hx.
  - intros h' hd' b' f' Hin Hh' Hc' t Ht. rewrite view_txs_lookup. cbn [mc_starknet_transaction_hashes mc_block_hash].
    case_bool_decide as Hb; [by eexists|]. apply (S5 h' hd' b' f'); [|done..].
    cbn [v_blocks view_hashes mc_starknet_block_hash mc_block_hash] in Hin.
    destruct (decide (to_stark f' = to_stark f)) as [He|Hne]; [|by rewrite lookup_insert_ne in Hin].
    rewrite He, lookup_insert_eq in Hin. cbn [default from_option id] in Hin.
    apply elem_of_app in Hin as [Hin| ->%list_elem_of_singleton]; [by rewrite He|].
    destruct Hb. destruct Hc as [Hc1 _], Hc' as [Hc1' _]. assert (hd' = hd) as -> by congruence. by assert (b' = b) as -> by congruence.
  - intros h' hd' b' f' Hans Hin Hh' Hc'. cbn [v_synced view_hashes mc_block_hash] in Hin.
    cbn [v_blocks view_hashes mc_starknet_block_hash mc_block_hash]. apply elem_of_union in Hin. destruct Hin as [->%elem_of_singleton|Hin].
    + destruct Hc as [Hc1 Hc2], Hc' as [Hc1' Hc2']. assert (hd' = hd) as -> by congruence.
      assert (b' = b) as -> by congruence. assert (f' = f) as -> by congruence. rewrite lookup_insert_eq.
      apply elem_of_app. right. by apply list_elem_of_singleton.
    + pose proof (S6 h' hd' b' f' Hans Hin Hh' Hc') as H1.
      destruct (decide (to_stark f' = to_stark f)) as [He|Hne]; [|by rewrite lookup_insert_ne].
      rewrite He in H1 |- *. rewrite lookup_insert_eq. apply elem_of_app. by left.
Qed.

Lemma agrees_step m h m' : agrees m -> synced_step m h m' -> agrees m'.
Proof. intros Ha [hd|hd b f]; [by eapply agrees_none|by apply agrees_hashes]. Qed.

(** ** From the code to the steps *)
Abbreviation rep := (represents (BHash := BHash) cache_more_things).

(** A tip that needs no work. *)
Definition settled (m : DbView BHash) (h : BHash) : Prop :=
  h ∈ v_synced m \/ exists hd, header_of h = Some hd /\ sub_number hd < sync_from.

Section client.
  Context {SU : Substrate BHash} (HT : truthful SU).

Lemma db_op_implements op (f : DbView BHash -> DbView BHash) db m r db' :
  implements cache_more_things op f -> rep db m -> db_op op db = Ret (r, db') ->
  (r = Err (SyncDbError CommitError) /\ db' = db) \/ (r = Ok tt /\ rep db' (f m)).
Proof.
  intros Hi Hr. unfold db_op, emap_err, ebind, eret. destruct (Hi db m Hr) as [->|(db1 & -> & Hr')].
  - intros [= <- <-]. by left.
  - intros [= <- <-]. by right.
Qed.

Lemma fetch_header_inv tip db m r db' :
  rep db m -> fetch_header tip sync_from db = Ret (r, db') ->
  db' = db /\ match r with
              | Ok None => settled m tip
              | Ok (Some hd) => (tip ∉ v_synced m) /\ header_of tip = Some hd /\ sub_hash hd = tip
                                /\ (answered tip -> client_header tip = Ok (Some hd)) /\ sync_from <= sub_number hd
              | Err _ => True
              end.
Proof.
  intros Hr. unfold fetch_header, db_op, emap_err, etry, ebind, eret. rewrite (rep_synced _ _ _ Hr). simpl.
  case_bool_decide as Hs; [intros [= <- <-]; by split; [|left]|].
  destruct (backend_header tip) as [[hd|]|] eqn:E; [|by intros [= <- <-]..].
  destruct (backend_truthful _ HT _ _ E) as [H1 H2]. pose proof (fun Ha => client_answers _ HT _ _ Ha E) as H3. destruct (_ <=? _) eqn:El; zbool; intros [= <- <-].
  - by split_and!.
  - split; [done|]. right. by exists hd.
Qed.

Lemma pop_tips_inv popped db m r db' :
  rep db m -> pop_tips sync_from popped db = Ret (r, db') ->
  db' = db /\ match r with
              | Ok (None, rest) => rest = [] /\ Forall (settled m) popped
              | Ok (Some hd, rest) => exists skipped h, popped = skipped ++ h :: rest /\ Forall (settled m) skipped
                  /\ (h ∉ v_synced m) /\ header_of h = Some hd /\ sub_hash hd = h
                  /\ (answered h -> client_header h = Ok (Some hd)) /\ sync_from <= sub_number hd
              | Err _ => True
              end.
Proof.
  intros Hr. revert r. induction popped as [|tip popped IH]; intros r; cbn [pop_tips].
  - unfold eret. intros [= <- <-]. by split_and!.
  - unfold etry, ebind, eret. destruct (fetch_header tip sync_from db) as [[o db1]|] eqn:E; [|done].
    apply (fetch_header_inv _ _ _ _ _ Hr) in E as [-> E]. destruct o as [[hd|]|e].
    + intros [= <- <-]. split; [done|]. exists [], tip. by split.
    + intros Hp. apply IH in Hp as [-> Hp]. split; [done|]. destruct r as [[[hd|] rest]|e]; [| |done].
      * destruct Hp as (sk & h & -> & Hsk & Hp). exists (tip :: sk), h. split; [done|]. split; [by constructor|done].
      * destruct Hp as [-> Hp]. split; [done|]. by constructor.
    + by intros [= <- <-].
Qed.

(** The header found by the loop. *)
Record operating (m : DbView BHash) (h : BHash) (hd : SubHeader BHash) : Prop := mk_operating {
  op_new : h ∉ v_synced m;
  op_header : header_of h = Some hd;
  op_hash : sub_hash hd = h;
  op_client : answered h -> client_header h = Ok (Some hd);
  op_from : sync_from <= sub_number hd;
}.

Lemma sync_block_inv hd h db m r db' :
  rep db m -> operating m h hd -> sub_number hd <> 0 -> sync_block cache_more_things sub_hash hd db = Ret (r, db') ->
  (is_ok r = false /\ db' = db) \/ (r = Ok tt /\ exists m', synced_step m h m' /\ rep db' m').
Proof.
  intros Hr [O1 O2 O3 O4 O5] Hz.
  assert (Hnone : find_starknet_block (sub_digest hd) = Err NotLog \/ ~ answered h -> db_op (write_none h) db = Ret (r, db') ->
    (is_ok r = false /\ db' = db) \/ (r = Ok tt /\ exists m', synced_step m h m' /\ rep db' m')).
  { intros Hwhy Hw. apply (db_op_implements _ _ _ _ _ _ (write_none_implements (BHash := BHash) _ _) Hr) in Hw as [[-> ->]|[-> Hw]]; [by left|].
    right. split; [done|]. eexists. split; [by eapply step_none|exact Hw]. }
  unfold sync_block, get_block_by_block_hash. rewrite O3.
  destruct (find_starknet_block (sub_digest hd)) as [b|[]] eqn:Ef; [|by apply Hnone; left|intros [= <- <-]; by left].
  destruct (client_header h) as [[hd'|]|] eqn:Ecl; [|by apply Hnone; right; intros ?%O4..].
  - apply (client_truthful _ HT) in Ecl. assert (hd' = hd) as -> by congruence. rewrite Ef. cbn [map_err]. unfold ebind, elift. destruct (header_hash (b_header b)) as [f|] eqn:Eh; [|done].
    rewrite bool_decide_false by (intros Hn; by apply Hn). unfold etry, ebind, eret.
    destruct (runtime_chain_id h) as [c|] eqn:Ec; cbn [map_err]; [|intros [= <- <-]; by left].
    apply (chain_id_truthful _ HT) in Ec as ->.
    intros Hw. apply (db_op_implements _ _ _ _ _ _ (write_hashes_implements (BHash := BHash) _ _) Hr) in Hw as [[-> ->]|[-> Hw]]; [by left|].
    right. split; [done|]. eexists. split; [|exact Hw].
    replace (map to_stark (transactions_hashes b (chain_id_of h))) with (mapped_txs h hd b); [by apply step_hashes|].
    unfold mapped_txs. by rewrite (proj2 (Z.eqb_neq _ _) Hz).
Qed.

Lemma sync_genesis_inv hd h db m r db' :
  rep db m -> operating m h hd -> sub_number hd = 0 -> sync_genesis_block cache_more_things sub_hash hd db = Ret (r, db') ->
  (is_ok r = false /\ db' = db) \/ (r = Ok tt /\ exists m', synced_step m h m' /\ rep db' m').
Proof.
  intros Hr [O1 O2 O3 O4 O5] Hz. unfold sync_genesis_block. rewrite O3.
  destruct (find_starknet_block (sub_digest hd)) as [b|[]] eqn:Ef.
  - unfold ebind, elift. destruct (header_hash (b_header b)) as [f|] eqn:Eh; [|done].
    intros Hw. apply (db_op_implements _ _ _ _ _ _ (write_hashes_implements (BHash := BHash) _ _) Hr) in Hw as [[-> ->]|[-> Hw]]; [by left|].
    right. split; [done|]. eexists. split; [|exact Hw].
    replace [] with (mapped_txs h hd b); [by apply step_hashes|]. unfold mapped_txs. by rewrite Hz.
  - intros Hw. apply (db_op_implements _ _ _ _ _ _ (write_none_implements (BHash := BHash) _ _) Hr) in Hw as [[-> ->]|[-> Hw]]; [by left|].
    right. split; [done|]. eexists. split; [eapply step_none; by eauto|exact Hw].
  - intros [= <- <-]. by left.
Qed.

(** What one round can do: fail without a write; find nothing to do; sync one
    block but fail to store the tips; or sync one block and replace its tip by
    its parent. *)
Inductive round (m : DbView BHash) (tips : list BHash) : result SyncError bool -> DbView BHash -> Prop :=
| round_err r : is_ok r = false -> round m tips r m
| round_idle : Forall (settled m) tips -> round m tips (Ok false) (view_tips [] m)
| round_torn h e t db m' : synced_step m h m' -> commit_fails t db = true -> round m tips (Err e) m'
| round_done h hd rest skipped m' :
    synced_step m h m' -> header_of h = Some hd -> tips = rest ++ h :: skipped -> Forall (settled m) skipped ->
    round m tips (Ok true) (view_tips (if sub_number hd =? 0 then rest else rest ++ [sub_parent_hash hd]) m').

Lemma write_tips_failed (tips : list BHash) (db : Database) e db' :
  db_op (write_current_syncing_tips tips) db = Ret (Err e, db') ->
  commit_fails [(META, CURRENT_SYNCING_TIPS, enc tips)] db = true.
Proof.
  unfold db_op, emap_err, ebind, eret, write_current_syncing_tips, commit. by destruct (commit_fails _ _).
Qed.

Lemma round_finish (m m1 : DbView BHash) tips h hd rest skipped new_tips db1 r db' :
  rep db1 m1 -> synced_step m h m1 -> header_of h = Some hd -> tips = rest ++ h :: skipped -> Forall (settled m) skipped ->
  new_tips = (if sub_number hd =? 0 then rest else rest ++ [sub_parent_hash hd]) ->
  (db_op (write_current_syncing_tips new_tips) ;;? eret (Ok true)) db1 = Ret (r, db') ->
  exists m', rep db' m' /\ round m tips r m'.
Proof.
  intros Hr Hst Hh Ht Hsk -> . unfold etry at 1, ebind at 1, eret.
  destruct (db_op _ db1) as [[o db2]|] eqn:E; [|done]. pose proof E as E0.
  apply (db_op_implements _ _ _ _ _ _ (write_tips_implements (BHash := BHash) _ _) Hr) in E as [[-> ->]|[-> E]]; intros [= <- <-].
  - exists m1. split; [done|]. eapply round_torn; [done|]. exact (write_tips_failed _ _ _ _ E0).
  - eexists. split; [exact E|]. by eapply round_done.
Qed.

Lemma sync_from_tips_round tips db m r db' :
  rep db m -> sync_from_tips cache_more_things sub_hash sync_from tips db = Ret (r, db') ->
  exists m', rep db' m' /\ round m tips r m'.
Proof.
  intros Hr. unfold sync_from_tips. unfold etry at 1, ebind at 1.
  destruct (pop_tips sync_from (rev tips) db) as [[o db1]|] eqn:E; [|done].
  apply (pop_tips_inv _ _ _ _ _ Hr) in E as [-> E]. destruct o as [[[hd|] rest]|e]; cbn [fst snd].
  - destruct E as (sk & h & Hp & Hsk & O1 & O2 & O3 & O4 & O5).
    apply (f_equal (@rev BHash)) in Hp. rewrite rev_involutive, rev_app_distr in Hp. simpl in Hp. rewrite <- app_assoc in Hp.
    assert (Hsk' : Forall (settled m) (rev sk)) by by apply Forall_rev.
    assert (Ho : operating m h hd) by by constructor.
    destruct (sub_number hd =? 0) eqn:Ez; unfold etry at 1, ebind at 1; zbool.
    + destruct (sync_genesis_block _ _ hd db) as [[o db1]|] eqn:Eg; [|done].
      apply (sync_genesis_inv hd h _ m) in Eg as [[Hb ->]|(-> & m1 & Hst & Hr1)]; try done.
      * destruct o; [done|]. unfold eret. intros [= <- <-]. exists m. split; [done|]. by apply round_err.
      * intros Hf. eapply round_finish; try done. by rewrite Ez.
    + destruct (sync_block _ _ hd db) as [[o db1]|] eqn:Eg; [|done].
      apply (sync_block_inv hd h _ m) in Eg as [[Hb ->]|(-> & m1 & Hst & Hr1)]; try done.
      * destruct o; [done|]. unfold eret. intros [= <- <-]. exists m. split; [done|]. by apply round_err.
      * intros Hf. eapply round_finish; try done. by rewrite (proj2 (Z.eqb_neq _ _) Ez).
  - destruct E as [-> Hs]. simpl. unfold etry, ebind, eret. destruct (db_op _ db) as [[o db2]|] eqn:E; [|done].
    apply (db_op_implements _ _ _ _ _ _ (write_tips_implements (BHash := BHash) _ _) Hr) in E as [[-> ->]|[-> E]]; intros [= <- <-].
    + exists m. split; [done|]. by apply round_err.
    + eexists. split; [exact E|]. apply round_idle. rewrite <- (rev_involutive tips). by apply Forall_rev.
  - unfold eret. intros [= <- <-]. exists m. split; [done|]. by apply round_err.
Qed.

(** The tips a round starts from. *)
Definition round_tips (m : DbView BHash) (tips : list BHash) : Prop :=
  (tips = v_tips m /\ tips <> []) \/ (v_tips m = [] /\ leaves = Ok tips).

Lemma sync_one_block_round db m r db' :
  rep db m -> sync_one_block cache_more_things sub_hash sync_from db = Ret (r, db') ->
  exists m', rep db' m' /\ ((exists tips, round_tips m tips /\ round m tips r m')
                            \/ (m' = m /\ (is_ok r = false \/ r = Ok false /\ v_tips m = [] /\ leaves = Ok []))).
Proof.
  intros Hr. unfold sync_one_block, db_op, emap_err. unfold etry at 1, ebind at 1 2. rewrite (rep_tips _ _ _ Hr).
  unfold eret at 1. cbn [map_err]. destruct (v_tips m) as [|tip tips] eqn:Et.
  - unfold etry, ebind, eret. destruct leaves as [[|l ls]|] eqn:El; cbn [map_err].
    + intros [= <- <-]. exists m. split; [done|]. right. split; [done|]. right. by split_and!.
    + intros Hs. destruct (sync_from_tips_round _ _ _ _ _ Hr Hs) as (m' & H1 & H2). exists m'. split; [done|].
      left. exists (l :: ls). split; [by right|done].
    + intros [= <- <-]. exists m. split; [done|]. right. split; [done|]. by left.
  - intros Hs. destruct (sync_from_tips_round _ _ _ _ _ Hr Hs) as (m' & H1 & H2). exists m'. split; [done|].
    left. exists (tip :: tips). split; [left; by rewrite Et|done].
Qed.

End client.

(** ** The life of the database *)

(** The databases that rounds lead to from the empty one, the client being asked
    anew each time and the other stores writing to their columns in between. *)
Inductive synced_by : Database -> Prop :=
| synced_by_empty : synced_by ∅
| synced_by_other db db' :
    synced_by db -> (forall col key, view_column col = true -> db' !! (col, key) = db !! (col, key)) -> synced_by db'
| synced_by_round db (SU : Substrate BHash) r db' :
    synced_by db -> truthful SU -> sync_one_block cache_more_things sub_hash sync_from db = Ret (r, db') -> synced_by db'.

(** Behind every synced block is a settled one, or one still to be visited. *)
Definition closed (m : DbView BHash) : Prop :=
  forall h hd, h ∈ v_synced m -> header_of h = Some hd -> sub_number hd <> 0 ->
    settled m (sub_parent_hash hd) \/ sub_parent_hash hd ∈ v_tips m.

Lemma synced_step_synced m h m' :
  synced_step m h m' -> v_synced m' = {[h]} ∪ v_synced m /\ (h ∉ v_synced m) /\ is_Some (header_of h).
Proof. intros [hd Hh Hn _ _|hd b f Hh Hn _ _]; (split; [done|]); split; [done|by eexists|done|by eexists]. Qed.

Lemma settled_mono m m' h : v_synced m ⊆ v_synced m' -> settled m h -> settled m' h.
Proof. intros Hs [Hh|Hh]; [left; by apply Hs|by right]. Qed.

Lemma closed_idle m tips :
  closed m -> Forall (settled m) tips -> (tips = v_tips m \/ v_tips m = []) -> closed (view_tips [] m).
Proof.
  intros Hc Hf Ht h hd Hh Hhd Hz. left. destruct (Hc h hd Hh Hhd Hz) as [Hs|Hin]; [exact Hs|].
  destruct Ht as [->|Ht]; [|rewrite Ht in Hin; by apply elem_of_nil in Hin]. rewrite list.Forall_forall in Hf. exact (Hf _ Hin).
Qed.

Lemma closed_done m m' tips h hd rest skipped :
  closed m -> synced_step m h m' -> header_of h = Some hd -> tips = rest ++ h :: skipped -> Forall (settled m) skipped ->
  (tips = v_tips m \/ v_tips m = []) ->
  closed (view_tips (if sub_number hd =? 0 then rest else rest ++ [sub_parent_hash hd]) m').
Proof.
  intros Hc Hst Hhd Htips Hsk Ht. apply synced_step_synced in Hst as (Hs & Hn & _).
  assert (Hmono : v_synced m ⊆ v_synced m') by (rewrite Hs; apply union_subseteq_r).
  intros h' hd' Hh'. cbn [v_synced v_tips view_tips] in *. rewrite Hs in Hh'.
  apply elem_of_union in Hh' as [->%elem_of_singleton|Hh']; intros Hhd' Hz.
  - assert (hd' = hd) as -> by congruence. right. rewrite (proj2 (Z.eqb_neq _ _) Hz).
    apply elem_of_app. right. by apply list_elem_of_singleton.
  - destruct (Hc h' hd' Hh' Hhd' Hz) as [Hse|Hin]; [left; by eapply settled_mono|].
    destruct Ht as [Ht|Ht]; [|rewrite Ht in Hin; by apply elem_of_nil in Hin]. rewrite <- Ht, Htips in Hin.
    apply elem_of_app in Hin as [Hin|[->|Hin]%elem_of_cons].
    + right. destruct (_ =? 0); [done|]. apply elem_of_app. by left.
    + left. left. cbn. rewrite Hs. by apply elem_of_union_l, elem_of_singleton.
    + left. rewrite list.Forall_forall in Hsk. eapply settled_mono; [exact Hmono|]. exact (Hsk _ Hin).
Qed.

Lemma round_tips_cases {SU : Substrate BHash} m tips : round_tips m tips -> tips = v_tips m \/ v_tips m = [].
Proof. intros [[-> _]|[? _]]; auto. Qed.

(** What is cached for a Starknet block hash are the hashes of a block that has it. *)
Definition caches (m : DbView BHash) : Prop :=
  forall s l, v_cache m !! s = Some l -> exists h hd b f,
    h ∈ v_synced m /\ header_of h = Some hd /\ carries hd b f /\ s = to_stark f /\ l = mapped_txs h hd b.

Lemma caches_step m h m' : caches m -> synced_step m h m' -> caches m'.
Proof.
  intros Hc [hd Hh Hn Hs Hf|hd b f Hh Hn Hs Hf] s l; cbn [v_cache v_synced view_none view_hashes mc_starknet_block_hash mc_block_hash
    mc_starknet_transaction_hashes].
  - intros (h' & hd' & b' & f' & Hin & Hr)%Hc. exists h', hd', b', f'. split; [by apply elem_of_union_r|done].
  - destruct (decide (s = to_stark f)) as [->|Hne].
    + rewrite lookup_insert_eq. intros [= <-]. exists h, hd, b, f. split; [by apply elem_of_union_l, elem_of_singleton|done].
    + rewrite lookup_insert_ne by done. intros (h' & hd' & b' & f' & Hin & Hr)%Hc.
      exists h', hd', b', f'. split; [by apply elem_of_union_r|done].
Qed.

Lemma synced_by_caches db : synced_by db -> exists m, rep db m /\ agrees m /\ caches m.
Proof.
  induction 1 as [|db db' _ (m & Hr & Ha & Hc) Ho|db SU r db' _ (m & Hr & Ha & Hc) HT Hs].
  { exists view_empty. split_and!; [apply represents_empty|apply agrees_empty|done]. }
  { exists m. split; [by eapply represents_other|done]. }
  destruct (sync_one_block_round HT _ _ _ _ Hr Hs) as (m' & Hr' & [(tips & _ & Hro)|[-> _]]); [|by exists m].
  exists m'. split; [done|]. destruct Hro; [done|split; [by apply agrees_tips|done]| |];
    (split; [eauto using agrees_tips, agrees_step|]); [by eapply caches_step|].
  match goal with Hst : synced_step _ _ ?m1 |- caches (view_tips _ ?m1) => exact (caches_step _ _ _ Hc Hst) end.
Qed.

Lemma synced_by_agrees db : synced_by db -> exists m, rep db m /\ agrees m.
Proof. intros (m & Hr & Ha & _)%synced_by_caches. eauto. Qed.

Lemma synced_by_closed db :
  (forall t db, commit_fails t db = false) -> synced_by db -> exists m, rep db m /\ closed m.
Proof.
  intros Hcf. induction 1 as [|db db' _ (m1 & Hr & Hc) Ho|db SU r db' _ (m1 & Hr & Hc) HT Hs].
  { exists view_empty. split; [apply represents_empty|]. intros h hd Hh. by apply elem_of_empty in Hh. }
  { exists m1. split; [by eapply represents_other|done]. }
  destruct (sync_one_block_round HT _ _ _ _ Hr Hs) as (m' & Hr' & [(tips & Ht & Hro)|[-> _]]); [|by exists m1].
  apply round_tips_cases in Ht. exists m'. split; [done|]. destruct Hro.
  - done.
  - by eapply closed_idle.
  - congruence.
  - by eapply closed_done.
Qed.

(** The blocks between a leaf and the first block to sync. *)
Inductive on_branch (leaf : BHash) : BHash -> Prop :=
| branch_leaf hd : header_of leaf = Some hd -> sync_from <= sub_number hd -> on_branch leaf leaf
| branch_parent h hd phd :
    on_branch leaf h -> header_of h = Some hd -> sub_number hd <> 0 ->
    header_of (sub_parent_hash hd) = Some phd -> sync_from <= sub_number phd ->
    on_branch leaf (sub_parent_hash hd).

Lemma settled_synced m h hd : settled m h -> header_of h = Some hd -> sync_from <= sub_number hd -> h ∈ v_synced m.
Proof. intros [Hs|(hd' & Hh' & Hlt)] Hh Hle; [done|]. assert (hd' = hd) as -> by congruence. lia. Qed.

Lemma branch_synced m leaf h :
  closed m -> v_tips m = [] -> settled m leaf -> on_branch leaf h -> h ∈ v_synced m.
Proof.
  intros Hc Ht Hl. induction 1 as [hd Hh Hle|h hd phd _ IH Hh Hz Hp Hle]; [by eapply settled_synced|].
  destruct (Hc h hd IH Hh Hz) as [Hs|Hin]; [by eapply settled_synced|]. rewrite Ht in Hin. by apply elem_of_nil in Hin.
Qed.

(** Once a block is marked, no round lists it for a Starknet block hash any more. *)
Lemma step_marked m h m' h' s :
  synced_step m h m' -> h' ∈ v_synced m -> h' ∉ default [] (v_blocks m !! s) ->
  h' ∈ v_synced m' /\ h' ∉ default [] (v_blocks m' !! s).
Proof.
  intros [hd Hh Hn Hs Hf|hd b f Hh Hn Hs Hf] Hin Hno; (split; [by apply elem_of_union_r|]); [done|].
  cbn [v_blocks view_hashes mc_starknet_block_hash mc_block_hash]. destruct (decide (s = to_stark f)) as [->|Hne];
    [|by rewrite lookup_insert_ne].
  rewrite lookup_insert_eq. cbn [default from_option id]. intros [?| ->%list_elem_of_singleton]%elem_of_app; done.
Qed.

Lemma round_marked {SU : Substrate BHash} (HT : truthful SU) db m r db' h s :
  rep db m -> sync_one_block cache_more_things sub_hash sync_from db = Ret (r, db') ->
  h ∈ v_synced m -> h ∉ default [] (v_blocks m !! s) ->
  exists m', rep db' m' /\ h ∈ v_synced m' /\ h ∉ default [] (v_blocks m' !! s).
Proof.
  intros Hr Hs Hin Hno. destruct (sync_one_block_round HT _ _ _ _ Hr Hs) as (m' & Hr' & [(tips & _ & Hro)|[-> _]]); [|by exists m].
  exists m'. split; [done|].
  destruct Hro as [r Hb|Hf|h1 e t db0 m1 Hst Hf|h1 hd rest sk m1 Hst Hh Htips Hsk];
    [done|done|by eapply step_marked|exact (step_marked _ _ _ _ _ Hst Hin Hno)].
Qed.

(** C6: the mapping database never says anything false about the chain.  After
    any sequence of rounds from the empty database, whatever the leaves, the errors
    of the client, the commits that fail and the writes of the other stores: a
    Substrate block listed for a Starknet block hash carries the block with that
    hash, and is listed once; a Substrate block a transaction points at carries a
    transaction with that hash and is listed; a block that is listed has all its
    transactions mapped; and every block marked as synced that carries a Starknet
    block is listed for it, unless some client asked in these rounds failed to give
    the header of that very block although its backend had it ([answered] is any set
    of blocks for which none did). *)
Theorem mapping_sync_sound (db : Database) :
  synced_by db -> exists m, represents cache_more_things db m /\ agrees m.
Proof. apply synced_by_agrees. Qed.

(** A round that finds nothing to do has synced everything.  When commits
    succeed, a round that starts without tips of its own and returns [false]
    leaves every block between a leaf of the chain and [sync_from] marked as
    synced. *)
Theorem mapping_sync_complete (db db' : Database) (SU : Substrate BHash) (ls : list BHash) (leaf h : BHash) :
  (forall t db, commit_fails t db = false) -> synced_by db -> truthful SU ->
  current_syncing_tips db = Ret (Ok ([] : list BHash), db) -> leaves = Ok ls ->
  sync_one_block cache_more_things sub_hash sync_from db = Ret (Ok false, db') ->
  leaf ∈ ls -> on_branch leaf h -> is_synced h db' = Ret (Ok true, db').
Proof.
  intros Hcf Hdb HT Htips Hls Hs Hleaf Hb. destruct (synced_by_closed _ Hcf Hdb) as (m & Hr & Hc).
  rewrite (rep_tips _ _ _ Hr) in Htips. injection Htips as Htips.
  destruct (sync_one_block_round HT _ _ _ _ Hr Hs) as (m' & Hr' & [(tips & Ht & Hro)|(-> & Hm)]).
  - assert (tips = ls) as ->.
    { destruct Ht as [[-> Hne]|[_ Heq]]; [by rewrite Htips in Hne|congruence]. }
    inversion Hro; subst; [done|]. rewrite (rep_synced _ _ _ Hr'). rewrite bool_decide_true; [done|].
    eapply (branch_synced (view_tips [] m)); [|done| |exact Hb].
    + eapply closed_idle; [done|done|by right].
    + match goal with Hf : Forall _ ls |- _ => rewrite list.Forall_forall in Hf; exact (Hf _ Hleaf) end.
  - exfalso. destruct Hm as [Hm|(_ & _ & Hl)]; [done|]. rewrite Hl in Hls. injection Hls as <-. by apply elem_of_nil in Hleaf.
Qed.

(** C38: syncing makes progress, one block per call.  A round that returns [true]
    has marked exactly one more block, a block of the chain that was not marked
    before; and [sync_blocks] stops working at the first such round, whatever its
    limit. *)
Theorem mapping_sync_progress (db db' : Database) (SU : Substrate BHash) (limit : nat) :
  synced_by db -> truthful SU ->
  sync_one_block cache_more_things sub_hash sync_from db = Ret (Ok true, db') ->
  (exists h, is_Some (header_of h) /\ is_synced h db = Ret (Ok false, db) /\ is_synced h db' = Ret (Ok true, db')
   /\ forall h' r, h' <> h -> is_synced h' db = Ret (r, db) -> is_synced h' db' = Ret (r, db'))
  /\ sync_blocks cache_more_things sub_hash (S limit) sync_from db = Ret (Ok true, db').
Proof.
  intros Hdb HT Hs. split.
  - destruct (synced_by_agrees _ Hdb) as (m & Hr & _).
    destruct (sync_one_block_round HT _ _ _ _ Hr Hs) as (m' & Hr' & [(tips & Ht & Hro)|(_ & [Hm|(Hm & _)])]); [|done..].
    inversion Hro as [? Hb| |? ? ? ? ? ? ?|h hd rest sk m1 Hst Hhd]; subst; [done|].
    apply synced_step_synced in Hst as (Hsy & Hn & Hh). exists h. split; [done|].
    assert (Hv : v_synced (view_tips (if sub_number hd =? 0 then rest else rest ++ [sub_parent_hash hd]) m1)
                 = {[h]} ∪ v_synced m) by exact Hsy.
    rewrite (rep_synced _ _ _ Hr), (rep_synced _ _ _ Hr'), Hv, bool_decide_false by done. split; [done|].
    rewrite bool_decide_true by (by apply elem_of_union_l, elem_of_singleton). split; [done|].
    intros h' r Hne. rewrite (rep_synced _ _ _ Hr), (rep_synced _ _ _ Hr'), Hv. intros [= <-]. do 3 f_equal.
    apply bool_decide_ext. rewrite elem_of_union, elem_of_singleton. naive_solver.
  - unfold sync_blocks. cbn [sync_rounds]. unfold etry, ebind at 1. rewrite Hs. clear Hs.
    induction limit as [|n IH]; [done|]. cbn [sync_rounds]. unfold etry, ebind at 1, eret at 1. exact IH.
Qed.

End properties.

(** ** Witnesses *)
Module SyncWitness.
Export Deps.Reference BlockWitness DbWitness.

#[export] Instance hasher : HasherT := PedersenHasher.

(** A chain of two blocks, with numbers for hashes; the second one carries a
    Starknet block with one transaction. *)
Definition w_block : Block :=
  mk_block (mk_header stark_default 1 (mk_new stark_default) 0 1 0 0 (mk_rp None 0) None)
    [TL1Handler (mk_l1 1 (felt_of_Z 9) (felt_of_Z 2) [felt_of_Z 8])].
Definition w_header (h : Z) : option (SubHeader Z) :=
  if h =? 0 then Some (mk_sub 0 0 [block_digest block_default])
  else if h =? 1 then Some (mk_sub 1 0 [block_digest w_block]) else None.

Definition w_chain_id (_ : Z) : Felt252Wrapper := felt_of_Z 5.

Definition w_client : Substrate Z := {|
  leaves := Ok [1];
  backend_header h := Ok (w_header h);
  client_header h := Ok (w_header h);
  runtime_chain_id h := Ok (w_chain_id h);
|}.

Lemma w_truthful answered : truthful sub_number w_header w_chain_id answered w_client.
Proof.
  constructor; [|by intros h hd [= Hh]|by intros h hd _ [= Hh]; cbn; rewrite Hh|by intros h c [= <-]]. intros h hd [= Hh]. split; [done|].
  revert Hh. unfold w_header. destruct (h =? 0) eqn:E0; zbool; [intros [= <-]; simpl; lia|].
  destruct (h =? 1) eqn:E1; zbool; [intros [= <-]; simpl; lia|done].
Qed.

Definition w_round (db : Database) : outcome (result SyncError bool * Database) :=
  sync_one_block (SU := w_client) true sub_number 0 db.
Definition after (db : Database) : Database := match w_round db with Ret (_, db') => db' | Panic => db end.
Definition answer (db : Database) : option (result SyncError bool) :=
  match w_round db with Ret (r, _) => Some r | Panic => None end.

Lemma w_round_after db r : answer db = Some r -> w_round db = Ret (r, after db).
Proof. unfold answer, after. destruct (w_round db) as [[r' db']|]; [|done]. by intros [= ->]. Qed.

Abbreviation w_synced_by := (synced_by true sub_number 0 w_header w_chain_id (fun _ => True)).

Lemma w_synced0 : w_synced_by ∅.
Proof. constructor. Qed.

Lemma w_synced_after db r : w_synced_by db -> answer db = Some r -> w_synced_by (after db).
Proof. intros Hdb Hr. eapply synced_by_round; [exact Hdb|apply w_truthful|exact (w_round_after _ _ Hr)]. Qed.

Lemma w_no_tips (db : Database) :
  match current_syncing_tips (BHash := Z) db with Ret (Ok [], _) => true | _ => false end = true ->
  current_syncing_tips (BHash := Z) db = Ret (Ok [], db).
Proof.
  unfold current_syncing_tips, read_opt, get, etry, ebind, eget, eret.
  destruct (match db !! _ with Some _ => _ | None => _ end) as [tips|]; [|done]. by destruct (default [] tips).
Qed.

(** The same client at a moment when it fails to give headers. *)
Definition silent_client : Substrate Z := {|
  leaves := Ok [1];
  backend_header h := Ok (w_header h);
  client_header _ := Err tt;
  runtime_chain_id h := Ok (w_chain_id h);
|}.

Lemma silent_truthful : truthful sub_number w_header w_chain_id (fun _ => False) silent_client.
Proof. constructor; [apply (w_truthful (fun _ => False))|done|done|by intros h c [= <-]]. Qed.

Definition lost : Database :=
  match sync_one_block (SU := silent_client) true sub_number 0 ∅ with Ret (_, db) => db | Panic => ∅ end.

(** Further rounds, by any truthful clients. *)
Definition later_round (db db' : Database) : Prop :=
  exists (SU : Substrate Z) r, truthful sub_number w_header w_chain_id (fun _ => False) SU
    /\ sync_one_block true sub_number 0 db = Ret (r, db').

End SyncWitness.
Import SyncWitness.

Lemma mapping_sync_sound_witness :
  exists m, represents true (after ∅) m /\ agrees 0 w_header w_chain_id (fun _ => True) m.
Proof.
  apply (mapping_sync_sound true sub_number 0 w_header w_chain_id (fun _ => True) (after ∅)).
  apply (w_synced_after _ (Ok true) w_synced0). vm_compute. reflexivity.
Defined.

(** Two rounds sync the two blocks and leave no tips; a third one starts from the
    leaves again. *)
Lemma mapping_sync_complete_witness :
  exists db, is_synced 0 db = Ret (Ok true, db).
Proof.
  set (db3 := after (after ∅)). exists (after db3).
  assert (H1 : w_synced_by (after ∅)) by (apply (w_synced_after _ (Ok true) w_synced0); vm_compute; reflexivity).
  assert (H2 : w_synced_by db3) by (apply (w_synced_after _ (Ok true) H1); vm_compute; reflexivity).
  apply (mapping_sync_complete true sub_number 0 w_header w_chain_id (fun _ => True) db3 (after db3) w_client [1] 1 0).
  - reflexivity.
  - exact H2.
  - apply w_truthful.
  - apply w_no_tips. vm_compute. reflexivity.
  - reflexivity.
  - apply w_round_after. vm_compute. reflexivity.
  - apply list_elem_of_here.
  - apply (branch_parent _ _ 1 1 (mk_sub 1 0 [block_digest w_block]) (mk_sub 0 0 [block_digest block_default]));
      [|reflexivity|discriminate|reflexivity|cbn; lia].
    apply (branch_leaf _ _ 1 (mk_sub 1 0 [block_digest w_block])); [reflexivity|cbn; lia].
Defined.

Lemma mapping_sync_progress_witness :
  sync_blocks (SU := w_client) true sub_number 5 0 ∅ = Ret (Ok true, after ∅).
Proof.
  destruct (mapping_sync_progress true sub_number 0 w_header w_chain_id (fun _ => True) ∅ (after ∅) w_client 4) as [_ H].
  - exact w_synced0.
  - apply w_truthful.
  - apply w_round_after. vm_compute. reflexivity.
  - exact H.
Defined.

(** A block whose header the client fails to give is marked as if it carried no Starknet
    block.  The round succeeds, and however many rounds follow, with whatever clients,
    the block stays marked and is never listed for its Starknet block hash. *)
Theorem unanswered_block_never_mapped f :
  header_hash (b_header w_block) = Ret f ->
  match sync_one_block (SU := silent_client) true sub_number 0 ∅ with Ret (Ok true, _) => true | _ => false end = true
  /\ w_header 1 = Some (mk_sub 1 0 [block_digest w_block])
  /\ forall db, rtc later_round lost db ->
     is_synced 1 db = Ret (Ok true, db)
     /\ exists l : option (list Z), mapping_block_hash (to_stark f) db = Ret (Ok l, db) /\ 1 ∉ default [] l.
Proof.
  intros Hf. split; [vm_compute; reflexivity|]. split; [reflexivity|]. intros db Hs.
  assert (Hm : exists m : DbView Z, represents true db m /\ 1 ∈ v_synced m /\ 1 ∉ default [] (v_blocks m !! to_stark f)).
  { assert (Hl : exists m : DbView Z, represents true lost m /\ 1 ∈ v_synced m /\ 1 ∉ default [] (v_blocks m !! to_stark f)).
    { assert (synced_by true sub_number 0 w_header w_chain_id (fun _ => False) lost) as (m & Hr & _)%synced_by_agrees.
      { unfold lost. destruct (sync_one_block (SU := silent_client) true sub_number 0 ∅) as [[r db0]|] eqn:E; [|constructor].
        eapply (synced_by_round _ _ _ _ _ _ _ silent_client); [constructor|exact silent_truthful|exact E]. }
      exists m. split; [done|]. split.
      - assert (Hb : match is_synced 1 lost with Ret (Ok b, _) => b | _ => false end = true) by (vm_compute; reflexivity).
        rewrite (rep_synced _ _ _ Hr) in Hb. by apply bool_decide_eq_true in Hb.
      - assert (Hb : match mapping_block_hash (BHash := Z) (to_stark f) lost with Ret (Ok None, _) => true | _ => false end = true).
        { vm_compute in Hf. injection Hf as <-. vm_compute. reflexivity. }
        rewrite (rep_blocks _ _ _ Hr) in Hb. destruct (v_blocks m !! to_stark f); [done|]. apply not_elem_of_nil. }
    revert Hl. induction Hs as [|db0 db1 db2 (SU & r & HT & Hr1) _ IH]; [done|]. intros (m & Hr & Hin & Hno). apply IH.
    exact (round_marked _ _ _ _ _ _ HT _ _ _ _ _ _ Hr Hr1 Hin Hno). }
  destruct Hm as (m & Hr & Hin & Hno). rewrite (rep_synced _ _ _ Hr), bool_decide_true by done. split; [done|].
  eexists. split; [apply (rep_blocks _ _ _ Hr)|done].
Qed.
