(* ===== verification/MappingWorker.v ===== *)
(** * The worker of the mapping synchronisation

    Models [crates/client/mapping-sync/src/lib.rs]: the stream that runs
    [sync_blocks] when a block was imported, when its timer has expired, or when the
    last run left more to do.  Once the chain stops growing and the client answers,
    a bounded number of runs maps every block; a run whose second write fails can
    leave a gap that no later run closes. *)
From S2P Require Import Prelude Bytes Deps Felt Hashers Transactions ComputeHash Fee Block Db MappingSync.
Local Open Scope Z_scope.

(** [std::task::Poll]. *)
Inductive Poll (A : Type) := Pending | Ready (a : A).
Arguments Pending {A}.
Arguments Ready {A} a.

(** [MappingSyncWorker].  The stream of import notifications is the number of those
    waiting and whether it has ended behind them; a timer is the time it expires. *)
Record MappingSyncWorker := mk_worker {
  import_notifications : nat;
  notifications_ended : bool;
  timeout : Z;
  inner_delay : option Z;
  have_next : bool;
  retry_times : nat;
  worker_sync_from : Z;
}.

Definition worker_new (timeout : Z) (retry_times : nat) (sync_from : Z) : MappingSyncWorker :=
  mk_worker 0 false timeout None true retry_times sync_from.

(** The loop that takes the notifications: [None] when the stream ends, otherwise
    whether to fire. *)
Fixpoint drain_notifications (waiting : nat) (ended fire : bool) : option bool :=
  match waiting with
  | O => if ended then None else Some fire
  | S waiting' => drain_notifications waiting' ended true
  end.

Section worker.
  Context `{SF : StarknetFf} `{SA : StarknetApi} `{PT : PrimitiveTypes} `{SC : StarknetCrypto} {HH : HasherT}.
  Context `{LC : LogCodec} `{CM : Commit} {BHash : Type} {SH : Scale BHash} {SHs : Scale (list BHash)}.
  Context {SB : Scale bool} {SFe : Scale StarkFelt} {SFs : Scale (list StarkFelt)}.
  Context (cache_more_things : bool) (sub_hash : SubHeader BHash -> BHash) {SU : Substrate BHash}.

Definition poll_next (now : Z) : eff (MappingSyncWorker * Database) (Poll (option unit)) :=
  w <-- eget fst;;
  match drain_notifications (import_notifications w) (notifications_ended w) false with
  | None =>
      on_fst (eput (fun w => mk_worker 0 true (timeout w) (inner_delay w) (have_next w) (retry_times w) (worker_sync_from w))) ;;;
      eret (Ready None)
  | Some fire =>
      let delay := default (now + timeout w) (inner_delay w) in
      let fire := fire || (delay <=? now) in
      let fire := fire || have_next w in
      if fire then
        r <-- on_snd (sync_blocks cache_more_things sub_hash (retry_times w) (worker_sync_from w));;
        let have_next := match r with Ok have_next => have_next | Err _ => false end in
        on_fst (eput (fun w => mk_worker 0 false (timeout w) None have_next (retry_times w) (worker_sync_from w))) ;;;
        eret (Ready (Some tt))
      else
        on_fst (eput (fun w => mk_worker 0 false (timeout w) (Some delay) (have_next w) (retry_times w) (worker_sync_from w))) ;;;
        eret Pending
  end.

(** Blocks are imported. *)
Definition arrive (n : nat) (w : MappingSyncWorker) : MappingSyncWorker :=
  mk_worker (import_notifications w + n) (notifications_ended w) (timeout w) (inner_delay w) (have_next w) (retry_times w)
    (worker_sync_from w).

(** The life of the worker: the time of each poll, and the blocks imported before it. *)
Fixpoint poll_all (polls : list (Z * nat)) : eff (MappingSyncWorker * Database) (list (Poll (option unit))) :=
  match polls with
  | [] => eret []
  | (now, imported) :: polls' =>
      on_fst (eput (arrive imported)) ;;;
      r <-- poll_next now;;
      rs <-- poll_all polls';;
      eret (r :: rs)
  end.

End worker.

(** The polls that ran the synchronisation. *)
Definition fired (rs : list (Poll (option unit))) : nat :=
  length (List.filter (fun r => match r with Ready (Some _) => true | _ => false end) rs).

(** ** A chain at rest *)
Section liveness.
  Context `{SF : StarknetFf} {SFL : StarknetFfLaws} `{SA : StarknetApi} `{PT : PrimitiveTypes} `{SC : StarknetCrypto}.
  Context {HH : HasherT} `{LC : LogCodec} `{CM : Commit} {BHash : Type} `{Countable BHash}.
  Context {SH : Scale BHash} {SHs : Scale (list BHash)} {SB : Scale bool} {SFe : Scale StarkFelt}.
  Context {SFs : Scale (list StarkFelt)} {LH : ScaleLaws BHash} {LHs : ScaleLaws (list BHash)} {LB : ScaleLaws bool}.
  Context {LF : ScaleLaws StarkFelt} {LFs : ScaleLaws (list StarkFelt)}.
  Context (cache_more_things : bool) (sub_hash : SubHeader BHash -> BHash) (sync_from : Z).
  Context (header_of : BHash -> option (SubHeader BHash)) (chain_id_of : BHash -> Felt252Wrapper).
  Context (answered : BHash -> Prop).

(** A client that knows the whole chain, whose blocks can be read, and has the leaves
    [ls]; the chain is finite. *)
Record steady (SU : Substrate BHash) (ls : list BHash) (chain : gset BHash) : Prop := {
  st_truthful : truthful sub_hash header_of chain_id_of answered SU;
  st_leaves : leaves = Ok ls;
  st_leaf : forall h, h ∈ ls -> is_Some (header_of h);
  st_header : forall h hd, header_of h = Some hd -> backend_header h = Ok (Some hd);
  st_parent : forall h hd, header_of h = Some hd -> sub_number hd <> 0 -> is_Some (header_of (sub_parent_hash hd));
  st_chain_id : forall h, exists c, runtime_chain_id h = Ok c;
  st_block : forall h hd, header_of h = Some hd ->
    match find_starknet_block (sub_digest hd) with Ok b => exists f, header_hash (b_header b) = Ret f | Err e => e = NotLog end;
  st_finite : forall h, is_Some (header_of h) -> h ∈ chain;
}.

  Context {SU : Substrate BHash} (ls : list BHash) (chain : gset BHash) (HS : steady SU ls chain).
  Context (Hcommit : forall t db, commit_fails t db = false).

Abbreviation rep := (represents (BHash := BHash) cache_more_things).
Abbreviation settled := (settled sync_from header_of).
Abbreviation closed := (closed sync_from header_of).
Abbreviation on_branch := (on_branch sync_from header_of).

Definition known (tips : list BHash) : Prop := Forall (fun h => is_Some (header_of h)) tips.

(** ** Every round returns *)
Lemma db_op_runs op (f : DbView BHash -> DbView BHash) db m :
  implements cache_more_things op f -> rep db m -> op db <> Ret (Err CommitError, db) ->
  exists db', db_op op db = Ret (Ok tt, db') /\ rep db' (f m).
Proof.
  intros Hi Hr Hn. destruct (Hi db m Hr) as [?|(db' & E & Hr')]; [done|]. exists db'. split; [|done].
  unfold db_op, emap_err, ebind, eret. by rewrite E.
Qed.

Lemma commit_runs t db : commit t db <> Ret (Err CommitError, db).
Proof. unfold commit. by rewrite Hcommit. Qed.

Lemma write_hashes_runs (c : MappingCommitment BHash) db m : rep db m -> exists db', db_op (write_hashes cache_more_things c) db = Ret (Ok tt, db').
Proof.
  intros Hr. destruct (db_op_runs (write_hashes cache_more_things c) _ db m (write_hashes_implements _ _) Hr) as (db' & E & _); [|eauto].
  unfold write_hashes, ebind. rewrite (rep_blocks _ _ _ Hr). apply commit_runs.
Qed.

Lemma write_none_runs (h : BHash) db m : rep db m -> exists db', db_op (write_none h) db = Ret (Ok tt, db').
Proof.
  intros Hr. destruct (db_op_runs (write_none h) _ db m (write_none_implements _ _) Hr) as (db' & E & _); [|eauto].
  apply commit_runs.
Qed.

Lemma write_tips_runs (tips : list BHash) db : exists db', db_op (write_current_syncing_tips tips) db = Ret (Ok tt, db').
Proof.
  unfold db_op, emap_err, ebind, eret, write_current_syncing_tips, commit. rewrite Hcommit. eauto.
Qed.

Lemma fetch_header_runs tip db m : rep db m -> is_Some (header_of tip) -> exists o, fetch_header tip sync_from db = Ret (Ok o, db).
Proof.
  intros Hr [hd Hh]. unfold fetch_header, db_op, emap_err, etry, ebind, eret. rewrite (rep_synced _ _ _ Hr). cbn.
  rewrite (st_header _ _ _ HS _ _ Hh). case_bool_decide; [eauto|]. destruct (_ <=? _); eauto.
Qed.

Lemma pop_tips_runs popped db m : rep db m -> known popped -> exists o, pop_tips sync_from popped db = Ret (Ok o, db).
Proof.
  intros Hr. induction 1 as [|tip popped Ht _ IH]; cbn [pop_tips]; [unfold eret; eauto|].
  destruct (fetch_header_runs tip db m Hr Ht) as [o E]. unfold etry at 1, ebind at 1. rewrite E.
  destruct o; [unfold eret; eauto|done].
Qed.

Lemma sync_block_runs hd h db m :
  rep db m -> header_of h = Some hd -> exists db', sync_block cache_more_things sub_hash hd db = Ret (Ok tt, db').
Proof.
  intros Hr Hh. pose proof (st_truthful _ _ _ HS) as HT.
  destruct (backend_truthful _ _ _ _ _ HT _ _ (st_header _ _ _ HS _ _ Hh)) as [_ Hhash].
  pose proof (st_block _ _ _ HS _ _ Hh) as Hb. unfold sync_block, get_block_by_block_hash. rewrite Hhash.
  destruct (find_starknet_block (sub_digest hd)) as [b|e] eqn:Ef.
  - destruct (client_header h) as [[hd'|]|] eqn:Ecl; [|by eapply write_none_runs..].
    apply (client_truthful _ _ _ _ _ HT) in Ecl. assert (hd' = hd) as -> by congruence. rewrite Ef. cbn [map_err].
    destruct Hb as [f Hf]. unfold ebind, elift. rewrite Hf, bool_decide_false by (intros Hn; by apply Hn).
    destruct (st_chain_id _ _ _ HS h) as [c Hc]. unfold etry, ebind, eret. rewrite Hc. cbn. by eapply write_hashes_runs.
  - subst e. by eapply write_none_runs.
Qed.

Lemma sync_genesis_runs hd h db m :
  rep db m -> header_of h = Some hd -> exists db', sync_genesis_block cache_more_things sub_hash hd db = Ret (Ok tt, db').
Proof.
  intros Hr Hh. pose proof (st_block _ _ _ HS _ _ Hh) as Hb. unfold sync_genesis_block.
  destruct (find_starknet_block (sub_digest hd)) as [b|e].
  - destruct Hb as [f Hf]. unfold ebind, elift. rewrite Hf. by eapply write_hashes_runs.
  - subst e. by eapply write_none_runs.
Qed.

Lemma sync_from_tips_runs tips db m :
  rep db m -> known tips -> exists b db', sync_from_tips cache_more_things sub_hash sync_from tips db = Ret (Ok b, db').
Proof.
  intros Hr Hk. unfold sync_from_tips. destruct (pop_tips_runs (rev tips) db m Hr) as [o E]; [by apply Forall_rev|].
  unfold etry at 1, ebind at 1. rewrite E. apply (pop_tips_inv _ _ _ _ _ _ (st_truthful _ _ _ HS) _ _ _ _ _ Hr) in E as [_ E].
  assert (Hlast : forall (op : effr Database SyncError unit) new_tips db1, op db = Ret (Ok tt, db1) ->
    exists b db', (op ;;? db_op (write_current_syncing_tips (BHash := BHash) new_tips) ;;? eret (Ok true)) db = Ret (Ok b, db')).
  { intros op new_tips db1 Hop. unfold etry, ebind. rewrite Hop. destruct (write_tips_runs new_tips db1) as [db2 ->].
    unfold eret. eauto. }
  destruct o as [[hd|] rest]; cbn [fst snd].
  - destruct E as (sk & h & _ & _ & _ & Hh & _). destruct (_ =? 0).
    + destruct (sync_genesis_runs hd h db m Hr Hh) as [db1 E1]. by eapply Hlast.
    + destruct (sync_block_runs hd h db m Hr Hh) as [db1 E1]. by eapply Hlast.
  - destruct (write_tips_runs (rev rest) db) as [db1 E1]. unfold etry, ebind, eret. rewrite E1. eauto.
Qed.

Lemma sync_one_block_runs db m :
  rep db m -> known (v_tips m) -> exists b db', sync_one_block cache_more_things sub_hash sync_from db = Ret (Ok b, db').
Proof.
  intros Hr Hk. unfold sync_one_block, db_op, emap_err. unfold etry at 1, ebind at 1 2. rewrite (rep_tips _ _ _ Hr).
  unfold eret at 1. cbn [map_err]. destruct (v_tips m) as [|tip tips] eqn:Et; [|by eapply sync_from_tips_runs].
  unfold etry, ebind, eret. rewrite (st_leaves _ _ _ HS). cbn [map_err].
  assert (Hls : exists b db', sync_from_tips cache_more_things sub_hash sync_from ls db = Ret (Ok b, db')).
  { eapply sync_from_tips_runs; [done|]. apply list.Forall_forall. intros h Hh. by apply (st_leaf _ _ _ HS). }
  revert Hls. generalize ls. intros [|l ls'] Hls; [eauto|exact Hls].
Qed.

(** ** What a run changes *)

(** Every leaf is settled, or still to be visited. *)
Definition covered (m : DbView BHash) : Prop := forall leaf, leaf ∈ ls -> settled m leaf \/ leaf ∈ v_tips m.
Definition from_leaves (m : DbView BHash) : Prop := covered m \/ v_tips m = [].
Definition unsynced (m : DbView BHash) : nat := size (chain ∖ v_synced m).
Definition mapped (m : DbView BHash) : Prop := forall leaf h, leaf ∈ ls -> on_branch leaf h -> h ∈ v_synced m.

Record consistent (db : Database) (m : DbView BHash) : Prop := {
  co_rep : rep db m;
  co_closed : closed m;
  co_known : known (v_tips m);
}.

(** One round, or a run of several: the view moves on, and either one more block is
    synced or there are no tips left. *)
Record advance (m : DbView BHash) (b : bool) (m' : DbView BHash) : Prop := {
  ad_synced : v_synced m ⊆ v_synced m';
  ad_more : b = true -> (unsynced m' < unsynced m)%nat;
  ad_idle : b = false -> v_tips m' = [];
  ad_covered : from_leaves m -> covered m';
}.

Lemma unsynced_mono m m' : v_synced m ⊆ v_synced m' -> (unsynced m' <= unsynced m)%nat.
Proof. intros Hs. unfold unsynced. apply subseteq_size. set_solver. Qed.

Lemma unsynced_step m h m' : synced_step sync_from header_of chain_id_of answered m h m' -> (unsynced m' < unsynced m)%nat.
Proof.
  intros (Hs & Hn & Hh)%synced_step_synced. unfold unsynced. apply subset_size.
  pose proof (st_finite _ _ _ HS h Hh). rewrite Hs. set_solver.
Qed.

Lemma advance_idle m tips :
  Forall (settled m) tips -> round_tips m tips -> advance m false (view_tips [] m).
Proof.
  intros Hf Ht. constructor; [done..|]. intros Hl leaf Hleaf. left. rewrite list.Forall_forall in Hf.
  assert (settled m leaf \/ leaf ∈ tips) as [?|Hin]; [|done|by apply (Hf leaf)].
  destruct Ht as [[-> Hne]|[Ht Hls]].
  - destruct Hl as [Hc|?]; [by apply Hc|done].
  - right. rewrite (st_leaves _ _ _ HS) in Hls. by injection Hls as <-.
Qed.

Lemma advance_done m m' tips h hd rest skipped :
  synced_step sync_from header_of chain_id_of answered m h m' -> header_of h = Some hd -> tips = rest ++ h :: skipped ->
  Forall (settled m) skipped -> round_tips m tips ->
  advance m true (view_tips (if sub_number hd =? 0 then rest else rest ++ [sub_parent_hash hd]) m').
Proof.
  intros Hst Hh Htips Hsk Ht. pose proof (unsynced_step _ _ _ Hst) as Hu. apply synced_step_synced in Hst as (Hs & Hn & _).
  assert (Hmono : v_synced m ⊆ v_synced m') by (rewrite Hs; apply union_subseteq_r).
  constructor; [done..|]. intros Hl leaf Hleaf.
  assert (Hin : settled m leaf \/ leaf ∈ tips).
  { destruct Ht as [[-> Hne]|[_ Hls]]; [destruct Hl as [Hc|?]; [by apply Hc|done]|].
    right. rewrite (st_leaves _ _ _ HS) in Hls. by injection Hls as <-. }
  destruct Hin as [Hset|Hin]; [left; exact (settled_mono _ _ m m' leaf Hmono Hset)|]. rewrite Htips in Hin.
  apply elem_of_app in Hin as [Hin|[->|Hin]%elem_of_cons].
  - right. cbn. destruct (_ =? 0); [done|]. apply elem_of_app. by left.
  - left. left. cbn. rewrite Hs. by apply elem_of_union_l, elem_of_singleton.
  - left. rewrite list.Forall_forall in Hsk. exact (settled_mono _ _ m m' leaf Hmono (Hsk _ Hin)).
Qed.

Lemma known_done tips h hd rest skipped :
  known tips -> header_of h = Some hd -> tips = rest ++ h :: skipped ->
  known (if sub_number hd =? 0 then rest else rest ++ [sub_parent_hash hd]).
Proof.
  unfold known. intros Hk Hh ->. apply Forall_app in Hk as [Hk _]. destruct (_ =? 0) eqn:E; zbool; [done|].
  apply Forall_app. split; [done|]. constructor; [|done]. by apply (st_parent _ _ _ HS h).
Qed.

Lemma round_advances db m :
  consistent db m -> exists b db' m', sync_one_block cache_more_things sub_hash sync_from db = Ret (Ok b, db')
    /\ consistent db' m' /\ advance m b m'.
Proof.
  intros [Hr Hc Hk]. destruct (sync_one_block_runs db m Hr Hk) as (b & db' & E). exists b, db'.
  destruct (sync_one_block_round _ _ _ _ _ _ (st_truthful _ _ _ HS) _ _ _ _ Hr E) as (m' & Hr' & Hcase). exists m'.
  split; [done|]. destruct Hcase as [(tips & Ht & Hro)|(-> & [?|([= ->] & Hnil & Hls)])]; [|done|].
  - assert (Hkt : known tips).
    { destruct Ht as [[-> _]|[_ Hls]]; [done|]. rewrite (st_leaves _ _ _ HS) in Hls. injection Hls as <-.
      apply list.Forall_forall. intros h Hh. by apply (st_leaf _ _ _ HS). }
    pose proof (round_tips_cases _ _ Ht) as Ht'. remember (Ok b) as ob eqn:Eob. destruct Hro as [r Hb|Hf|h e t db0 m1 Hst Hf|h hd rest sk m1 Hst Hh Htips Hsk].
    + by subst r.
    + injection Eob as <-. split; [|by eapply advance_idle]. constructor; [done|by eapply closed_idle|constructor].
    + by rewrite Hcommit in Hf.
    + injection Eob as <-. split; [|by eapply advance_done].
      constructor; [done|by eapply closed_done|]. cbn. by eapply known_done.
  - split; [done|]. constructor; [done..|]. intros _ leaf Hleaf. rewrite (st_leaves _ _ _ HS) in Hls. injection Hls as ->.
    by apply elem_of_nil in Hleaf.
Qed.

Lemma sync_rounds_synced limit db : sync_rounds cache_more_things sub_hash limit sync_from true db = Ret (Ok true, db).
Proof. induction limit as [|n IH]; [done|]. cbn [sync_rounds]. unfold etry, ebind at 1, eret at 1. exact IH. Qed.

Lemma advance_trans m m1 b m2 : advance m false m1 -> advance m1 b m2 -> advance m b m2.
Proof.
  intros [A1 _ A3 A4] [B1 B2 B3 B4]. constructor; [by etrans| |done|].
  - intros Hb. pose proof (B2 Hb). pose proof (unsynced_mono _ _ A1). lia.
  - intros Hl. apply B4. left. by apply A4.
Qed.

Lemma run_advances limit db m :
  consistent db m -> exists b db' m', sync_blocks cache_more_things sub_hash (S limit) sync_from db = Ret (Ok b, db')
    /\ consistent db' m' /\ advance m b m'.
Proof.
  unfold sync_blocks. revert db m. induction limit as [|n IH]; intros db m Hc; destruct (round_advances db m Hc) as (b & db1 & m1 & E & Hc1 & Ha);
    cbn [sync_rounds]; unfold etry at 1, ebind at 1; rewrite E.
  - exists b, db1, m1. by destruct b.
  - destruct b.
    + exists true, db1, m1. rewrite <- (sync_rounds_synced (S n) db1). by split_and!.
    + destruct (IH db1 m1 Hc1) as (b & db2 & m2 & E2 & Hc2 & Ha2). exists b, db2, m2. split_and!; [exact E2|done|].
      by eapply advance_trans.
Qed.

(** ** The worker *)
Record alive (w : MappingSyncWorker) : Prop := {
  al_open : notifications_ended w = false;
  al_retry : (0 < retry_times w)%nat;
  al_from : worker_sync_from w = sync_from;
}.

Lemma drain_open waiting fire : drain_notifications waiting false fire = Some (fire || (0 <? waiting)%nat).
Proof.
  revert fire. induction waiting as [|n IH]; intros fire; cbn [drain_notifications]; [by rewrite orb_false_r|].
  rewrite IH. cbn. by rewrite orb_true_r.
Qed.

(** The timer after a poll at [now] that found none expired. *)
Definition timer (w : MappingSyncWorker) (now : Z) : Z := default (now + timeout w) (inner_delay w).
Definition fires (w : MappingSyncWorker) (now : Z) : bool :=
  (0 <? import_notifications w)%nat || (timer w now <=? now) || have_next w.

Lemma poll_pending w db now :
  alive w -> fires w now = false ->
  poll_next cache_more_things sub_hash now (w, db)
  = Ret (Pending, (mk_worker 0 false (timeout w) (Some (timer w now)) (have_next w) (retry_times w) (worker_sync_from w), db)).
Proof.
  intros [Ho _ _] Hf. unfold poll_next, ebind, eget, on_fst, eput, eret. cbn [fst]. rewrite Ho, drain_open. cbn [orb].
  change (default (now + timeout w) (inner_delay w)) with (timer w now). fold (fires w now). by rewrite Hf.
Qed.

Lemma poll_fires w db m now :
  alive w -> consistent db m -> fires w now = true ->
  exists b db' m', poll_next cache_more_things sub_hash now (w, db)
    = Ret (Ready (Some tt), (mk_worker 0 false (timeout w) None b (retry_times w) (worker_sync_from w), db'))
    /\ consistent db' m' /\ advance m b m'.
Proof.
  intros [Ho Hn Hs] Hc Hf. destruct (retry_times w) as [|n] eqn:En; [lia|].
  destruct (run_advances n db m Hc) as (b & db' & m' & E & Hc' & Ha). exists b, db', m'. split; [|done].
  unfold poll_next, ebind, eget, on_fst, on_snd, eput, eret. cbn [fst]. rewrite Ho, drain_open. cbn [orb].
  change (default (now + timeout w) (inner_delay w)) with (timer w now). fold (fires w now). rewrite Hf, En, Hs, E. cbn. by rewrite En, Hs.
Qed.

Lemma alive_arrive n w : alive w -> alive (arrive n w).
Proof. by intros [? ? ?]. Qed.

Lemma alive_after n w delay b :
  alive w -> alive (mk_worker n false (timeout w) delay b (retry_times w) (worker_sync_from w)).
Proof. by intros [? ? ?]. Qed.

Lemma mapped_mono m m' : v_synced m ⊆ v_synced m' -> mapped m -> mapped m'.
Proof. intros Hs Hm leaf h Hl Hb. apply Hs. by eapply Hm. Qed.

Lemma idle_mapped db m : consistent db m -> covered m -> v_tips m = [] -> mapped m.
Proof.
  intros [_ Hcl _] Hc Ht leaf h Hl Hb. eapply branch_synced; [done|done| |exact Hb].
  destruct (Hc leaf Hl) as [?|Hin]; [done|]. rewrite Ht in Hin. by apply elem_of_nil in Hin.
Qed.

(** The runs that are still needed: one per block, one that finds nothing more behind
    the leaves, and one before it if the tips at the start are not the leaves'. *)
Definition enough (m : DbView BHash) (k : nat) : Prop :=
  mapped m \/ (from_leaves m /\ (unsynced m + 1 <= k)%nat) \/ (unsynced m + 2 <= k)%nat.

Lemma enough_advance db db' m b m' k :
  consistent db' m' -> advance m b m' -> consistent db m -> enough m (S k) -> enough m' k.
Proof.
  intros Hc' [A1 A2 A3 A4] Hc [Hm|Hk]; [left; by eapply mapped_mono|]. pose proof (unsynced_mono _ _ A1). destruct b.
  - pose proof (A2 eq_refl). right. destruct Hk as [[Hl Hk]|Hk]; [|right; lia]. left. split; [left; by apply A4|lia].
  - destruct Hk as [[Hl Hk]|Hk].
    + left. eapply idle_mapped; [done|by apply A4|by apply A3].
    + right. left. split; [right; by apply A3|lia].
Qed.

Lemma enough_zero m : enough m 0 -> mapped m.
Proof. intros [?|[[_ ?]|?]]; [done|lia..]. Qed.

Lemma poll_all_runs polls w db m :
  alive w -> consistent db m ->
  exists rs w' db' m', poll_all cache_more_things sub_hash polls (w, db) = Ret (rs, (w', db'))
    /\ alive w' /\ consistent db' m' /\ forall k, enough m (fired rs + k) -> enough m' k.
Proof.
  revert w db m. induction polls as [|[now imported] polls IH]; intros w db m Hw Hc; cbn [poll_all].
  { exists [], w, db, m. by split_and!. }
  apply (alive_arrive imported) in Hw. unfold ebind at 1, on_fst at 1, eput. unfold ebind at 1.
  destruct (fires (arrive imported w) now) eqn:Hf.
  - destruct (poll_fires _ db m now Hw Hc Hf) as (b & db1 & m1 & -> & Hc1 & Ha).
    destruct (IH (mk_worker 0 false (timeout w) None b (retry_times w) (worker_sync_from w)) db1 m1)
      as (rs & w' & db' & m' & E & Hw' & Hc' & He); [by apply (alive_after 0 (arrive imported w))|done|].
    exists (Ready (Some tt) :: rs), w', db', m'. unfold ebind. cbn [arrive timeout retry_times worker_sync_from]. rewrite E.
    split_and!; [done..|]. intros k Hk. apply He. by eapply enough_advance.
  - rewrite (poll_pending _ db now Hw Hf).
    edestruct IH as (rs & w' & db' & m' & E & Hw' & Hc' & He); [|exact Hc|].
    2: { exists (Pending :: rs), w', db', m'. unfold ebind. rewrite E. split_and!; [done..|exact He]. }
    by apply alive_after.
Qed.

(** Polls lead from a database that rounds lead to, to another. *)
Lemma sync_rounds_synced_by limit b db r db' :
  synced_by cache_more_things sub_hash sync_from header_of chain_id_of answered db ->
  sync_rounds cache_more_things sub_hash limit sync_from b db = Ret (r, db') ->
  synced_by cache_more_things sub_hash sync_from header_of chain_id_of answered db'.
Proof.
  revert b db. induction limit as [|n IH]; intros b db Hs; cbn [sync_rounds]; unfold etry, ebind, eret; [by intros [= <- <-]|].
  destruct b; [by apply IH|]. destruct (sync_one_block _ _ _ db) as [[[b'|e] db1]|] eqn:E; [| |done].
  - intros Hr. eapply IH; [|exact Hr]. eapply synced_by_round; [done|exact (st_truthful _ _ _ HS)|exact E].
  - intros [= <- <-]. eapply synced_by_round; [done|exact (st_truthful _ _ _ HS)|exact E].
Qed.

Lemma poll_next_synced_by now w db r w' db' :
  alive w -> synced_by cache_more_things sub_hash sync_from header_of chain_id_of answered db ->
  poll_next cache_more_things sub_hash now (w, db) = Ret (r, (w', db')) ->
  alive w' /\ synced_by cache_more_things sub_hash sync_from header_of chain_id_of answered db'.
Proof.
  intros Hw Hs. destruct (fires w now) eqn:Hf.
  - pose proof Hw as [Ho Hn Hfrom]. unfold poll_next, ebind, eget, on_fst, on_snd, eput, eret. cbn [fst]. rewrite Ho, drain_open.
    cbn [orb]. change (default (now + timeout w) (inner_delay w)) with (timer w now). fold (fires w now). rewrite Hf, Hfrom.
    destruct (sync_blocks _ _ _ _ db) as [[b db1]|] eqn:E; [|done]. intros [= _ <- <-].
    split; [by apply (alive_after 0 w)|by eapply sync_rounds_synced_by].
  - rewrite (poll_pending w db now Hw Hf). intros [= _ <- <-]. split; [by apply alive_after|done].
Qed.

Lemma poll_all_synced_by polls w db rs w' db' :
  alive w -> synced_by cache_more_things sub_hash sync_from header_of chain_id_of answered db ->
  poll_all cache_more_things sub_hash polls (w, db) = Ret (rs, (w', db')) ->
  synced_by cache_more_things sub_hash sync_from header_of chain_id_of answered db'.
Proof.
  revert w db rs. induction polls as [|[now imported] polls IH]; intros w db rs Hw Hs; cbn [poll_all].
  { by intros [= _ _ <-]. }
  apply (alive_arrive imported) in Hw. unfold ebind at 1, on_fst at 1, eput. unfold ebind at 1.
  destruct (poll_next _ _ now _) as [[r [w1 db1]]|] eqn:E; [|done].
  destruct (poll_next_synced_by _ _ _ _ _ _ Hw Hs E) as [Hw1 Hs1]. unfold ebind, eret.
  destruct (poll_all _ _ polls (w1, db1)) as [[rs1 [w2 db2]]|] eqn:E1; [|done]. intros [= _ -> ->]. by eapply IH.
Qed.

(** Enough runs leave every block of the leaves' branches marked as synced. *)
Lemma polls_map_chain polls w db :
  synced_by cache_more_things sub_hash sync_from header_of chain_id_of answered db -> alive w ->
  (forall tips db', current_syncing_tips db = Ret (Ok tips, db') -> known tips) ->
  exists rs w' db' m', poll_all cache_more_things sub_hash polls (w, db) = Ret (rs, (w', db')) /\ alive w' /\ consistent db' m'
    /\ ((size chain + 2 <= fired rs)%nat ->
        forall leaf h, leaf ∈ ls -> on_branch leaf h -> is_synced h db' = Ret (Ok true, db')).
Proof.
  intros Hdb Hw Hk. destruct (synced_by_closed _ _ _ _ _ _ _ Hcommit Hdb) as (m & Hr & Hcl).
  assert (Hc : consistent db m) by (constructor; [done..|]; by eapply Hk, (rep_tips _ _ _ Hr)).
  destruct (poll_all_runs polls w db m Hw Hc) as (rs & w' & db' & m' & E & Hw' & Hc' & He). exists rs, w', db', m'.
  split_and!; [done..|]. intros Hf leaf h Hl Hb. rewrite (rep_synced _ _ _ (co_rep _ _ Hc')), bool_decide_true; [done|].
  refine (enough_zero _ (He 0%nat _) leaf h Hl Hb). right. right. unfold unsynced.
  pose proof (subseteq_size (chain ∖ v_synced m) chain ltac:(set_solver)). lia.
Qed.

(** C7: once the chain is at rest, the client knows it and commits succeed, the worker
    maps all of it.  However its polls are timed and whatever blocks they report as
    imported, every poll returns; and when [size chain + 2] of them have run the
    synchronisation, every block between a leaf and [sync_from] is marked as synced.
    A poll does not run it only when no block was imported, nothing was left to do and
    the timer has not expired; it then changes nothing in the database and leaves a
    timer, and the next poll after its expiry, or after an import, runs it. *)
Theorem worker_syncs_chain (w : MappingSyncWorker) (db : Database) (polls : list (Z * nat)) :
  synced_by cache_more_things sub_hash sync_from header_of chain_id_of answered db -> alive w ->
  (forall tips db', current_syncing_tips db = Ret (Ok tips, db') -> known tips) ->
  exists rs w' db', poll_all cache_more_things sub_hash polls (w, db) = Ret (rs, (w', db'))
    /\ ((size chain + 2 <= fired rs)%nat ->
        forall leaf h, leaf ∈ ls -> on_branch leaf h -> is_synced h db' = Ret (Ok true, db'))
    /\ forall now, exists r w2 db2, poll_next cache_more_things sub_hash now (w', db') = Ret (r, (w2, db2))
       /\ (r = Pending \/ r = Ready (Some tt))
       /\ (r = Pending -> db2 = db' /\ import_notifications w' = 0%nat /\ have_next w' = false
           /\ exists expiry, inner_delay w2 = Some expiry /\ now < expiry
              /\ (inner_delay w' = None -> expiry = now + timeout w')
              /\ forall now' imported, expiry <= now' \/ (0 < imported)%nat ->
                 exists st, poll_next cache_more_things sub_hash now' (arrive imported w2, db2) = Ret (Ready (Some tt), st)).
Proof.
  intros Hdb Hw Hk. destruct (polls_map_chain polls w db Hdb Hw Hk) as (rs & w' & db' & m' & E & Hw' & Hc' & Hall).
  exists rs, w', db'. split; [done|]. split; [done|].
  intros now. destruct (fires w' now) eqn:Hf.
  - destruct (poll_fires w' db' m' now Hw' Hc' Hf) as (b & db2 & m2 & E2 & _). eexists _, _, _. split; [exact E2|].
    split; [by right|done].
  - rewrite (poll_pending w' db' now Hw' Hf). eexists _, _, _. split; [done|]. split; [by left|]. intros _.
    unfold fires in Hf. apply orb_false_iff in Hf as [[Hi Ht]%orb_false_iff Hh]. apply Nat.ltb_ge in Hi.
    split; [done|]. split; [lia|]. split; [done|]. exists (timer w' now). split; [done|].
    split; [by apply Z.leb_gt|]. split; [unfold timer; by intros ->|]. intros now' imported Hn.
    edestruct (poll_fires (arrive imported (mk_worker 0 false (timeout w') (Some (timer w' now)) (have_next w') (retry_times w')
      (worker_sync_from w'))) db' m' now') as (b & db3 & m3 & E3 & _); [by apply alive_arrive, alive_after|done| |eauto].
    unfold fires. cbn [arrive import_notifications inner_delay timer default from_option id have_next].
    destruct Hn as [Hn|Hn]; [rewrite (proj2 (Z.leb_le _ _) Hn); by rewrite orb_true_r|].
    assert ((0 <? 0 + imported)%nat = true) as -> by (apply Nat.ltb_lt; lia). done.
Qed.

(** ** A database without tips whose leaves are settled stays as it is *)
Definition resting (db : Database) (m : DbView BHash) : Prop :=
  rep db m /\ v_tips m = [] /\ Forall (settled m) ls.

Lemma settled_step_absurd m h m' : settled m h -> ~ synced_step sync_from header_of chain_id_of answered m h m'.
Proof.
  intros Hs [hd Hh Hn Hf _|hd b f Hh Hn Hf _]; by apply Hn, (settled_synced sync_from header_of m h hd).
Qed.

Lemma resting_round db m :
  resting db m -> exists db', sync_one_block cache_more_things sub_hash sync_from db = Ret (Ok false, db') /\ resting db' m.
Proof.
  intros (Hr & Ht & Hl). destruct (sync_one_block_runs db m Hr) as (b & db' & E); [rewrite Ht; constructor|].
  destruct (sync_one_block_round _ _ _ _ _ _ (st_truthful _ _ _ HS) _ _ _ _ Hr E) as (m' & Hr' & Hcase).
  destruct Hcase as [(tips & Htips & Hro)|(-> & [?|([= ->] & _ & _)])]; [|done|by exists db'].
  assert (tips = ls) as ->.
  { destruct Htips as [[-> Hne]|[_ Hls]]; [by rewrite Ht in Hne|]. rewrite (st_leaves _ _ _ HS) in Hls. by injection Hls. }
  remember (Ok b) as ob eqn:Eob. destruct Hro as [r Hb|Hf|h e t db0 m1 Hst Hf|h hd rest sk m1 Hst Hh Hsplit Hsk].
  - by subst r.
  - injection Eob as <-. exists db'. split; [done|]. assert (view_tips [] m = m) as <- by (destruct m; cbn in *; by subst). done.
  - by rewrite Hcommit in Hf.
  - exfalso. apply (settled_step_absurd m h m1); [|done]. rewrite Hsplit in Hl. apply Forall_app in Hl as [_ Hl].
    by apply list.Forall_cons in Hl as [Hl _].
Qed.

Lemma resting_run limit db m :
  resting db m -> exists db', sync_blocks cache_more_things sub_hash limit sync_from db = Ret (Ok false, db') /\ resting db' m.
Proof.
  unfold sync_blocks. revert db. induction limit as [|n IH]; intros db Hm; cbn [sync_rounds]; [by exists db|].
  destruct (resting_round db m Hm) as (db1 & E & Hm1). unfold etry at 1, ebind at 1. rewrite E. by apply IH.
Qed.

Lemma resting_polls polls w db m :
  alive w -> resting db m ->
  exists rs w' db', poll_all cache_more_things sub_hash polls (w, db) = Ret (rs, (w', db')) /\ resting db' m.
Proof.
  revert w db. induction polls as [|[now imported] polls IH]; intros w db Hw Hm; cbn [poll_all]; [by exists [], w, db|].
  apply (alive_arrive imported) in Hw. unfold ebind at 1, on_fst at 1, eput. unfold ebind at 1.
  assert (Hp : exists r w1 db1, poll_next cache_more_things sub_hash now (arrive imported w, db) = Ret (r, (w1, db1))
    /\ alive w1 /\ resting db1 m).
  { destruct (fires (arrive imported w) now) eqn:Hf.
    - destruct Hw as [Ho Hn Hs]. destruct (resting_run (retry_times w) db m Hm) as (db1 & E & Hm1).
      exists (Ready (Some tt)), (mk_worker 0 false (timeout w) None false (retry_times w) (worker_sync_from w)), db1.
      split_and!; [|apply (alive_after 0 w None false); by constructor|done].
      unfold poll_next, ebind, eget, on_fst, on_snd, eput, eret. cbn [fst]. rewrite Ho, drain_open. cbn [orb].
      change (default (now + timeout (arrive imported w)) (inner_delay (arrive imported w))) with (timer (arrive imported w) now).
      fold (fires (arrive imported w) now). rewrite Hf. cbn [arrive worker_sync_from retry_times] in Hs |- *.
      rewrite Hs, E. cbn. by rewrite Hs.
    - rewrite (poll_pending _ db now Hw Hf). eexists _, _, _. split_and!; [done|by apply alive_after|done]. }
  destruct Hp as (r & w1 & db1 & -> & Hw1 & Hm1). destruct (IH w1 db1 Hw1 Hm1) as (rs & w' & db' & E & Hm').
  exists (r :: rs), w', db'. unfold ebind. by rewrite E.
Qed.

End liveness.

(** ** Witnesses *)
Module WorkerWitness.
Export SyncWitness.

Definition w_blocks : gset Z := {[0; 1]}.

Lemma w_header_cases h hd : w_header h = Some hd ->
  (h = 0 /\ hd = mk_sub 0 0 [block_digest block_default]) \/ (h = 1 /\ hd = mk_sub 1 0 [block_digest w_block]).
Proof.
  unfold w_header. destruct (h =? 0) eqn:E0; zbool; [intros [= <-]; by left|].
  destruct (h =? 1) eqn:E1; zbool; [intros [= <-]; by right|done].
Qed.

Lemma w_steady : steady sub_number w_header w_chain_id (fun _ => True) w_client [1] w_blocks.
Proof.
  constructor.
  - apply w_truthful.
  - reflexivity.
  - intros h Hh. apply list_elem_of_singleton in Hh. subst h. by eexists.
  - intros h hd Hh. cbn. by rewrite Hh.
  - intros h hd Hh. apply w_header_cases in Hh as [[-> ->]|[-> ->]]; [done|]. by eexists.
  - intros h. by eexists.
  - intros h hd Hh. apply w_header_cases in Hh as [[-> ->]|[-> ->]]; cbn [sub_digest];
      unfold find_starknet_block, find_log; cbn [find_log_loop]; rewrite try_to_log_block; eexists; reflexivity.
  - intros h [hd Hh]. apply w_header_cases in Hh as [[-> _]|[-> _]]; unfold w_blocks; set_solver.
Qed.

Definition w_worker : MappingSyncWorker := worker_new 6000 3 0.

Lemma w_alive : alive 0 w_worker.
Proof. constructor; cbn; lia. Qed.

Lemma w_no_tips_known : forall tips db', current_syncing_tips (BHash := Z) ∅ = Ret (Ok tips, db') -> known w_header tips.
Proof.
  intros tips db'. unfold current_syncing_tips, read_opt, get, etry, ebind, eget, eret. rewrite lookup_empty.
  intros [= <- _]. constructor.
Qed.

Definition w_polls : list (Z * nat) := [(0, 0%nat); (1, 0%nat); (2, 0%nat); (3, 0%nat); (9000, 0%nat)].

(** A database that refuses to store tips that are not empty, in a block's round. *)
Definition refusing : Commit := {|
  commit_fails t _ := match t with (0, _, value) :: _ => negb (bool_decide (value = enc ([] : list Z))) | _ => false end |}.

Definition torn : Database :=
  match sync_one_block (CM := refusing) (SU := w_client) true sub_number 0 ∅ with Ret (_, db) => db | Panic => ∅ end.

End WorkerWitness.
Import WorkerWitness.

Lemma worker_syncs_chain_witness :
  exists rs w' db', poll_all (SU := w_client) true sub_number w_polls (w_worker, ∅) = Ret (rs, (w', db'))
    /\ fired rs = 4%nat /\ is_synced 0 db' = Ret (Ok true, db').
Proof.
  destruct (worker_syncs_chain (CM := commit_always) true sub_number 0 w_header w_chain_id (fun _ => True) [1] w_blocks w_steady ltac:(reflexivity)
    w_worker ∅ w_polls w_synced0 w_alive w_no_tips_known) as (rs & w' & db' & E & H & _).
  assert (Hf : fired rs = 4%nat).
  { assert (Hb : match poll_all (SU := w_client) true sub_number w_polls (w_worker, ∅) with
                 | Ret (rs, _) => (fired rs =? 4)%nat | Panic => false end = true) by (vm_compute; reflexivity).
    rewrite E in Hb. by apply Nat.eqb_eq. }
  exists rs, w', db'. split; [exact E|]. split; [exact Hf|]. apply (H ltac:(rewrite Hf; vm_compute; lia) 1 0).
  - apply list_elem_of_here.
  - apply (branch_parent _ _ 1 1 (mk_sub 1 0 [block_digest w_block]) (mk_sub 0 0 [block_digest block_default]));
      [|reflexivity|discriminate|reflexivity|cbn; lia].
    apply (branch_leaf _ _ 1 (mk_sub 1 0 [block_digest w_block])); [reflexivity|cbn; lia].
Defined.

(** A round writes the mapping of a block and then the tips, in two commits.  When the
    second one fails the block is marked but its parent is not among the tips: although
    all later commits succeed, the parent is never mapped, however often the worker
    runs. *)
Theorem torn_round_leaves_gap :
  match sync_one_block (CM := refusing) (SU := w_client) true sub_number 0 ∅ with
  | Ret (Err (SyncDbError CommitError), _) => true | _ => false end = true
  /\ forall polls, exists rs w' db', poll_all (CM := commit_always) (SU := w_client) true sub_number polls (w_worker, torn) = Ret (rs, (w', db'))
     /\ is_synced 1 db' = Ret (Ok true, db') /\ is_synced 0 db' = Ret (Ok false, db').
Proof.
  split; [vm_compute; reflexivity|]. intros polls.
  assert (Hs : synced_by (CM := refusing) true sub_number 0 w_header w_chain_id (fun _ => True) torn).
  { unfold torn. destruct (sync_one_block (CM := refusing) true sub_number 0 ∅) as [[r db]|] eqn:E; [|constructor].
    eapply (synced_by_round (CM := refusing)); [constructor|apply w_truthful|exact E]. }
  destruct (synced_by_agrees (CM := refusing) _ _ _ _ _ _ _ Hs) as (m & Hr & _).
  assert (Hq : forall (h : Z) b, match is_synced h torn with Ret (Ok c, _) => bool_decide (c = b) | _ => false end = true ->
    bool_decide (h ∈ v_synced m) = b) by (intros h b; rewrite (rep_synced _ _ _ Hr); apply bool_decide_eq_true_1).
  assert (Ht : v_tips m = []).
  { assert (Hb : match current_syncing_tips (BHash := Z) torn with Ret (Ok [], _) => true | _ => false end = true)
      by (vm_compute; reflexivity).
    rewrite (rep_tips _ _ _ Hr) in Hb. by destruct (v_tips m). }
  assert (H1 := Hq 1 true ltac:(vm_compute; reflexivity)). assert (H0 := Hq 0 false ltac:(vm_compute; reflexivity)).
  destruct (resting_polls (CM := commit_always) true sub_number 0 w_header w_chain_id (fun _ => True) [1] w_blocks w_steady ltac:(reflexivity) polls w_worker torn m w_alive)
    as (rs & w' & db' & E & Hm).
  { split_and!; [done|done|]. constructor; [|constructor]. left. by apply bool_decide_eq_true in H1. }
  exists rs, w', db'. split; [done|]. destruct Hm as (Hr' & _ & _). by rewrite !(rep_synced _ _ _ Hr'), H1, H0.
Qed.
