(* ===== verification/Events.v ===== *)
(** * Events over RPC

    Models the events part of [crates/client/rpc/src]: the continuation token of
    [types.rs], [get_block_events], [filter_events] and
    [filter_events_by_params] of [events/mod.rs], the lookup of transaction
    hashes and [get_events] of [lib.rs].  The Substrate client is a parameter. *)
From Stdlib Require Import Ascii.
From S2P Require Import Prelude Bytes Deps Felt Hashers Transactions ComputeHash Blockifier Conversions Fee.
From S2P Require Import Execution Block CallTrace PalletStorage Pallet PalletEffects Runtime Db MappingSync.
Local Open Scope Z_scope.

(** ** Continuation tokens *)
Record ContinuationToken := mk_token { block_n : Z; event_n : Z }.

Definition token_default : ContinuationToken := mk_token 0 0.

Inductive ParseTokenError := WrongToken | ParseFailed.

(** The digits of [{:x}]. *)
Definition hex_digit (d : Z) : ascii :=
  if d <? 10 then ascii_of_N (Z.to_N (48 + d)) else ascii_of_N (Z.to_N (87 + d)).

Fixpoint hex_digits (fuel : nat) (n : Z) : list ascii :=
  match fuel with
  | O => []
  | S fuel' => if n <? 16 then [hex_digit n] else hex_digits fuel' (n / 16) ++ [hex_digit (n mod 16)]
  end.

(** A 64-bit integer has at most sixteen digits. *)
Definition hex_of_u64 (n : Z) : list ascii := hex_digits 16 n.

Definition token_to_string (t : ContinuationToken) : list ascii :=
  hex_of_u64 (block_n t) ++ ","%char :: hex_of_u64 (event_n t).

(** [char::to_digit(16)]. *)
Definition digit_value (c : ascii) : option Z :=
  let v := Z.of_N (N_of_ascii c) in
  if (48 <=? v) && (v <=? 57) then Some (v - 48)
  else if (97 <=? v) && (v <=? 102) then Some (v - 87)
  else if (65 <=? v) && (v <=? 70) then Some (v - 55)
  else None.

Fixpoint parse_digits (acc : Z) (l : list ascii) : option Z :=
  match l with
  | [] => Some acc
  | c :: l' =>
      match digit_value c with
      | Some d => if acc * 16 + d <=? u64_max then parse_digits (acc * 16 + d) l' else None
      | None => None
      end
  end.

(** [u64::from_str_radix(_, 16)]: one leading [+] is allowed, the empty string and
    a lone sign are errors, and so is overflow. *)
Definition u64_from_hex (l : list ascii) : option Z :=
  let l := match l with "+"%char :: l' => l' | _ => l end in
  match l with [] => None | _ => parse_digits 0 l end.

(** [str::split]. *)
Fixpoint split_on (sep : ascii) (l : list ascii) : list (list ascii) :=
  match l with
  | [] => [[]]
  | c :: l' =>
      match split_on sep l' with
      | [] => [[]]
      | part :: parts => if bool_decide (c = sep) then [] :: part :: parts else (c :: part) :: parts
      end
  end.

Definition token_parse (token : list ascii) : result ParseTokenError ContinuationToken :=
  match split_on ","%char token with
  | [a; b] =>
      let? block_n := ok_or (u64_from_hex a) ParseFailed in
      let? event_n := ok_or (u64_from_hex b) ParseFailed in
      Ok (mk_token block_n event_n)
  | _ => Err WrongToken
  end.

(** ** Filters *)
Record EmittedEvent := mk_emitted {
  ee_from_address : FieldElement;
  ee_keys : list FieldElement;
  ee_data : list FieldElement;
  ee_block_hash : FieldElement;
  ee_block_number : Z;
  ee_transaction_hash : FieldElement;
}.

Record RpcEventFilter := mk_filter {
  f_from_block : Z;
  f_to_block : Z;
  f_from_address : option Felt252Wrapper;
  f_keys : list (list FieldElement);
  f_chunk_size : Z;
  f_continuation_token : ContinuationToken;
}.

Record EventsPage := mk_page { page_events : list EmittedEvent; page_token : option (list ascii) }.

(** The errors of the API, with the codes of the specification; three of the names
    are also those of errors of the pallet. *)
Inductive StarknetRpcApiError :=
| FailedToReceiveTxn | RpcContractNotFound | BlockNotFound | InvalidTxnIndex | ClassHashNotFound | TxnHashNotFound
| PageSizeTooBig | NoBlocks | InvalidContinuationToken | TooManyKeysInFilter | FailedToFetchPendingTransactions
| RpcContractError | RpcInvalidContractClass | ClassAlreadyDeclared | ValidationFailure | UnsupportedTxVersion
| InternalServerError | UnimplementedMethod | ProofLimitExceeded.

(** [err as i32]. *)
Definition error_code (err : StarknetRpcApiError) : Z :=
  match err with
  | FailedToReceiveTxn => 1 | RpcContractNotFound => 20 | BlockNotFound => 24 | InvalidTxnIndex => 27
  | ClassHashNotFound => 28 | TxnHashNotFound => 29 | PageSizeTooBig => 31 | NoBlocks => 32
  | InvalidContinuationToken => 33 | TooManyKeysInFilter => 34 | FailedToFetchPendingTransactions => 38
  | RpcContractError => 40 | RpcInvalidContractClass => 50 | ClassAlreadyDeclared => 51 | ValidationFailure => 55
  | UnsupportedTxVersion => 61 | InternalServerError => 500 | UnimplementedMethod => 501 | ProofLimitExceeded => 10000
  end.

Definition match_from_address (address : option Felt252Wrapper) (event : EmittedEvent) : bool :=
  match address with Some addr => bool_decide (felt0 addr = ee_from_address event) | None => true end.

(** [keys.iter().enumerate().all(..)], from index [i] on. *)
Fixpoint match_keys (i : nat) (keys : list (list FieldElement)) (event_keys : list FieldElement) : bool :=
  match keys with
  | [] => true
  | ks :: keys' =>
      match event_keys !! i with
      | Some k => (bool_decide (ks = []) || bool_decide (k ∈ ks)) && match_keys (S i) keys' event_keys
      | None => false
      end
  end.

Definition event_matches (address : option Felt252Wrapper) (keys : list (list FieldElement)) (event : EmittedEvent) : bool :=
  match_from_address address event && match_keys 0 keys (ee_keys event).

(** The loop of [filter_events_by_params]; returns the events and [n_visited]. *)
Fixpoint filter_loop (address : option Felt252Wrapper) (keys : list (list FieldElement)) (max_results : Z)
    (filtered_events : list EmittedEvent) (n_visited : nat) (events : list EmittedEvent) : list EmittedEvent * nat :=
  match events with
  | [] => (filtered_events, n_visited)
  | event :: events' =>
      let n_visited := S n_visited in
      if event_matches address keys event then
        let filtered_events := filtered_events ++ [event] in
        if max_results <=? zlen filtered_events then (filtered_events, n_visited)
        else filter_loop address keys max_results filtered_events n_visited events'
      else filter_loop address keys max_results filtered_events n_visited events'
  end.

Definition filter_events_by_params (events : list EmittedEvent) (address : option Felt252Wrapper)
    (keys : list (list FieldElement)) (max_results : Z) : list EmittedEvent * nat :=
  filter_loop address keys max_results [] 0 events.

(** What the RPC server asks of the client beyond headers: the hash of a block
    number, the best hash, the body of a block and the event records of its
    state. *)
Class RpcClient (BHash : Type) `{ContractClassI} := {
  client_hash : Z -> result unit (option BHash);
  best_hash : BHash;
  block_body : BHash -> result unit (option (list RuntimeCall));
  event_records : BHash -> result unit (list (Phase * RuntimeEvent));
  client_number : BHash -> result unit (option Z);
}.

Section rpc.
  Context `{SF : StarknetFf} `{SA : StarknetApi} `{PT : PrimitiveTypes} `{SC : StarknetCrypto} {HH : HasherT}.
  Context `{CC : ContractClassI} `{LC : LogCodec} {BHash : Type} `{EqDecision BHash} {SU : Substrate BHash}.
  Context {RC : RpcClient BHash} {SHs : Scale (list BHash)} {SFe : Scale StarkFelt} {SFs : Scale (list StarkFelt)}.
  Context (cache_more_things : bool).

(** ** Block identifiers ([lib.rs], [madara_backend_client.rs]) *)
Definition is_canon (target_hash : BHash) : bool :=
  match client_number target_hash with
  | Ok (Some number) =>
      match client_hash number with Ok (Some hash) => bool_decide (hash = target_hash) | _ => false end
  | _ => false
  end.

Definition load_hash (hash : StarkFelt) : effr Database DbError (option BHash) :=
  substrate_hashes <-? mapping_block_hash hash;;
  eret (Ok (match substrate_hashes with
            | Some hashes => head (filter (fun h => is_canon h = true) hashes)
            | None => None
            end)).

Definition substrate_block_hash_from_starknet_block (block_id : BlockId) : effr Database StarknetRpcApiError BHash :=
  hash <-? match block_id with
           | BIHash h => emap_err (fun _ => BlockNotFound) (load_hash (to_stark h))
           | BINumber n => eret (map_err (fun _ => BlockNotFound) (client_hash (Z.min u32_max n)))
           | BITag _ => eret (Ok (Some best_hash))
           end;;
  eret (ok_or hash BlockNotFound).

Definition substrate_block_number_from_starknet_block (block_id : BlockId) : effr Database StarknetRpcApiError Z :=
  match block_id with
  | BINumber x => eret (Ok x)
  | _ =>
      substrate_block_hash <-? substrate_block_hash_from_starknet_block block_id;;
      eret (result_map (fun b => h_block_number (b_header b))
              (map_err (fun _ => BlockNotFound) (get_block_by_block_hash substrate_block_hash)))
  end.

(** ** The events of a block *)
Definition get_cached_transaction_hashes (block_hash : StarkFelt) : eff Database (option (list StarkFelt)) :=
  r <-- cached_transaction_hashes_from_block_hash cache_more_things block_hash;;
  eret (match r with Ok hashes => hashes | Err _ => None end).

Definition try_txn_hash_from_cache (tx_index : Z) (cached_transactions : option (list StarkFelt))
    (transactions : list Transaction) (chain_id : Felt252Wrapper) : result StarknetRpcApiError Felt252Wrapper :=
  match cached_transactions with
  | Some txn_hashes =>
      let? h := ok_or (txn_hashes !! Z.to_nat tx_index) InternalServerError in
      map_err (fun _ => InternalServerError) (felt_try_from_array (stark_bytes h))
  | None =>
      let? tx := ok_or (transactions !! Z.to_nat tx_index) InternalServerError in
      Ok (tx_compute_hash tx chain_id false)
  end.

Definition emitted (block_hash : Felt252Wrapper) (block_number : Z) (x : Felt252Wrapper * StarknetEvent)
  : outcome EmittedEvent :=
  let (tx_hash, event) := x in
  let! from_address := felt_from_new (sev_from_address event) in
  let! keys := traverse felt_from_new (ec_keys (sev_content event)) in
  let! data := traverse felt_from_stark (ec_data (sev_content event)) in
  Ret (mk_emitted (felt0 from_address) (map felt0 keys) (map felt0 data) (felt0 block_hash) block_number (felt0 tx_hash)).

Definition client_result {A} (r : result unit A) (e : StarknetRpcApiError) : effr Database StarknetRpcApiError A :=
  eret (map_err (fun _ => e) r).

Definition get_block_events (block_number : Z) : effr Database StarknetRpcApiError (list EmittedEvent) :=
  substrate_block_hash <-? emap_err (fun _ => BlockNotFound)
    (substrate_block_hash_from_starknet_block (BINumber block_number));;
  body <-? client_result (block_body substrate_block_hash) InternalServerError;;
  block_extrinsics <-? eret (ok_or body BlockNotFound);;
  chain_id <-? client_result (runtime_chain_id substrate_block_hash) InternalServerError;;
  records <-? client_result (event_records substrate_block_hash) InternalServerError;;
  let index_and_events := get_starknet_events_and_their_associated_tx_index records in
  starknet_block <-? client_result (get_block_by_block_hash substrate_block_hash) InternalServerError;;
  block_hash <-- elift (header_hash (b_header starknet_block));;
  txn_hashes <-- get_cached_transaction_hashes (to_stark block_hash);;
  let starknet_txs := extrinsic_filter block_extrinsics in
  let inherent_count := zlen block_extrinsics - zlen starknet_txs in
  tx_hash_and_events <-? eret (try_map (fun x : Z * StarknetEvent =>
    let (index, event) := x in
    let? tx_hash := try_txn_hash_from_cache (wsub 64 index inherent_count) txn_hashes starknet_txs chain_id in
    Ok (tx_hash, event)) index_and_events);;
  emitted_events <-- elift (traverse (emitted block_hash block_number) tx_hash_and_events);;
  eret (Ok emitted_events).

(** ** [filter_events] *)

(** The loop over the blocks.  Running out of fuel stands for a loop that does not
    end, which takes a last block of [u64::MAX]. *)
Fixpoint filter_blocks (fuel : nat) (filter : RpcEventFilter) (from_block current_block : Z)
    (filtered_events : list EmittedEvent) : effr Database StarknetRpcApiError EventsPage :=
  let continuation_token := f_continuation_token filter in
  let to_block := f_to_block filter in
  let chunk_size := f_chunk_size filter in
  if to_block <? current_block then eret (Ok (mk_page filtered_events None))
  else
    match fuel with
    | O => epanic
    | S fuel' =>
        emitted_events <-? get_block_events current_block;;
        let skip := if current_block =? from_block then event_n continuation_token else 0 in
        if zlen emitted_events <? skip then eret (Err InvalidContinuationToken)
        else
          let unchecked_events := zlen emitted_events - skip in
          let (block_filtered_events, n_visited) :=
            filter_events_by_params (drop (Z.to_nat skip) emitted_events) (f_from_address filter) (f_keys filter)
              (wsub 64 chunk_size (zlen filtered_events)) in
          let filtered_events := filtered_events ++ block_filtered_events in
          if zlen filtered_events =? chunk_size then
            let token :=
              if (current_block <? to_block) || (Z.of_nat n_visited <? unchecked_events) then
                let event_n :=
                  if block_n continuation_token =? current_block
                  then wadd 64 (Z.of_nat n_visited) (event_n continuation_token) else Z.of_nat n_visited in
                Some (token_to_string (mk_token (wsub 64 current_block from_block) event_n))
              else None in
            eret (Ok (mk_page filtered_events token))
          else filter_blocks fuel' filter from_block (wadd 64 current_block 1) filtered_events
    end.

Definition filter_events (filter : RpcEventFilter) : effr Database StarknetRpcApiError EventsPage :=
  let from_block := wadd 64 (f_from_block filter) (block_n (f_continuation_token filter)) in
  filter_blocks (Z.to_nat (f_to_block filter - from_block + 1)) filter from_block from_block [].

(** ** [get_events] *)
Definition MAX_EVENTS_KEYS : Z := 100.
Definition MAX_EVENTS_CHUNK_SIZE : Z := 1000.

Definition get_events (continuation_token : option (list ascii)) (address : option Felt252Wrapper)
    (keys : option (list (list FieldElement))) (chunk_size : Z) (from_block to_block : option BlockId)
  : effr Database StarknetRpcApiError EventsPage :=
  continuation_token <-? eret (match continuation_token with
                               | Some token => map_err (fun _ => InvalidContinuationToken) (token_parse token)
                               | None => Ok token_default
                               end);;
  let keys := default [] keys in
  if MAX_EVENTS_KEYS <? zlen keys then eret (Err TooManyKeysInFilter)
  else if MAX_EVENTS_CHUNK_SIZE <? chunk_size then eret (Err PageSizeTooBig)
  else
    latest_block <-? emap_err (fun _ => BlockNotFound) (substrate_block_number_from_starknet_block (BITag Latest));;
    from_block <-? emap_err (fun _ => BlockNotFound)
      (substrate_block_number_from_starknet_block (default (BINumber 0) from_block));;
    to_block <-? emap_err (fun _ => BlockNotFound)
      (substrate_block_number_from_starknet_block (default (BITag Latest) to_block));;
    if to_block <? from_block then eret (Ok (mk_page [] None))
    else
      let to_block := if to_block <? latest_block then to_block else latest_block in
      filter_events (mk_filter from_block to_block address keys chunk_size continuation_token).

End rpc.

(** ** Tokens are printed and read back *)
Lemma hex_digit_value d : 0 <= d < 16 -> digit_value (hex_digit d) = Some d.
Proof.
  intros Hd. unfold digit_value, hex_digit.
  destruct (d <? 10) eqn:E; zbool; rewrite N_ascii_embedding by lia; rewrite Z2N.id by lia.
  - destruct (_ <=? 48 + d) eqn:E1; zbool; [|lia]. destruct (48 + d <=? 57) eqn:E2; zbool; [|lia]. simpl. f_equal. lia.
  - destruct (87 + d <=? 57) eqn:E2; zbool; [lia|]. rewrite andb_false_r.
    destruct (97 <=? 87 + d) eqn:E3; zbool; [|lia]. destruct (87 + d <=? 102) eqn:E4; zbool; [|lia]. simpl. f_equal. lia.
Qed.

Lemma digit_not_special c d : digit_value c = Some d -> c <> ","%char /\ c <> "+"%char.
Proof. by intros Hc; split; intros ->. Qed.

Lemma parse_digits_snoc acc l c :
  parse_digits acc (l ++ [c]) = match parse_digits acc l with Some a => parse_digits a [c] | None => None end.
Proof.
  revert acc. induction l as [|x l IH]; intros acc; [done|]. cbn [app parse_digits].
  destruct (digit_value x); [|done]. by destruct (_ <=? _).
Qed.

Lemma parse_hex_digits fuel n :
  0 <= n < 16 ^ Z.of_nat fuel -> n <= u64_max -> parse_digits 0 (hex_digits fuel n) = Some n.
Proof.
  revert n. induction fuel as [|fuel IH]; intros n Hn Hm; [simpl in *; f_equal; lia|].
  cbn [hex_digits]. rewrite Nat2Z.inj_succ, Z.pow_succ_r in Hn by lia.
  destruct (n <? 16) eqn:E; zbool.
  - cbn [parse_digits]. rewrite hex_digit_value by lia. replace (0 * 16 + n) with n by lia. destruct (n <=? u64_max) eqn:E2; zbool; [done|lia].
  - pose proof (Z.div_mod n 16 ltac:(lia)). pose proof (Z.mod_pos_bound n 16 ltac:(lia)).
    assert (Hq : 0 <= n / 16 < 16 ^ Z.of_nat fuel) by (split; [apply Z.div_pos; lia|apply Z.div_lt_upper_bound; lia]).
    rewrite parse_digits_snoc, IH by lia.
    cbn [parse_digits]. rewrite hex_digit_value by lia.
    replace (n / 16 * 16 + n mod 16) with n by lia. destruct (n <=? u64_max) eqn:E2; zbool; [done|lia].
Qed.

Lemma hex_digits_digit fuel n c : 0 <= n -> c ∈ hex_digits fuel n -> exists d, digit_value c = Some d.
Proof.
  revert n. induction fuel as [|fuel IH]; intros n Hn; cbn [hex_digits]; [by intros ?%elem_of_nil|].
  pose proof (Z.mod_pos_bound n 16 ltac:(lia)). destruct (n <? 16) eqn:E; zbool.
  - intros ->%list_elem_of_singleton. eexists. apply hex_digit_value. lia.
  - intros [Hc| ->%list_elem_of_singleton]%elem_of_app; [apply (IH (n / 16)); [apply Z.div_pos; lia|done]|].
    eexists. apply hex_digit_value. lia.
Qed.

Lemma hex_of_u64_parse n : in_width 64 n = true -> u64_from_hex (hex_of_u64 n) = Some n.
Proof.
  intros Hn%in_width_spec. pose proof (parse_hex_digits 16 n) as Hp. unfold hex_of_u64, u64_from_hex.
  change (16 ^ Z.of_nat 16) with (2 ^ 64) in Hp. unfold u64_max in Hp. specialize (Hp Hn ltac:(lia)).
  destruct (hex_digits 16 n) as [|c l] eqn:E.
  - exfalso. cbn [hex_digits] in E. destruct (n <? 16); [done|]. by apply app_eq_nil in E as [_ ?].
  - destruct (hex_digits_digit 16 n c) as [d Hd]; [lia|rewrite E; apply list_elem_of_here|].
    apply digit_not_special in Hd as [_ Hd]. by destruct c as [[] [] [] [] [] [] [] []].
Qed.

Lemma split_on_last sep l : sep ∉ l -> split_on sep l = [l].
Proof.
  induction l as [|c l IH]; intros Hs; [done|]. apply not_elem_of_cons in Hs as [Hc Hl]. cbn [split_on].
  rewrite IH by done. by rewrite bool_decide_false by congruence.
Qed.

Lemma split_on_sep sep l r : sep ∉ l -> split_on sep (l ++ sep :: r) = l :: split_on sep r.
Proof.
  induction l as [|c l IH]; intros Hs.
  - cbn [app split_on]. rewrite bool_decide_true by done. destruct (split_on sep r) eqn:E; [|done].
    exfalso. destruct r; cbn [split_on] in E; [done|]. destruct (split_on sep r); [done|]. by case_bool_decide.
  - apply not_elem_of_cons in Hs as [Hc Hl]. cbn [app split_on]. rewrite IH by done.
    by rewrite bool_decide_false by congruence.
Qed.

Lemma token_roundtrip_ok t :
  in_width 64 (block_n t) = true -> in_width 64 (event_n t) = true -> token_parse (token_to_string t) = Ok t.
Proof.
  intros Hb He. unfold token_parse, token_to_string.
  assert (Hc : forall n, in_width 64 n = true -> ","%char ∉ hex_of_u64 n).
  { intros n Hn%in_width_spec Hin. destruct (hex_digits_digit 16 n ","%char) as [d Hd]; [lia|done|].
    by apply digit_not_special in Hd as [? _]. }
  rewrite split_on_sep, split_on_last by auto. rewrite !hex_of_u64_parse by done. by destruct t.
Qed.

(** ** Paging *)

(** One block's events: a prefix is visited, its matching events are returned, and
    either everything was visited or the page is full. *)
Lemma filter_loop_spec addr keys max acc nv events r v :
  zlen acc < max -> filter_loop addr keys max acc nv events = (r, v) ->
  exists k, (k <= length events)%nat /\ v = (nv + k)%nat
  /\ r = acc ++ filter (fun e => event_matches addr keys e = true) (take k events)
  /\ (zlen r < max /\ k = length events \/ zlen r = max).
Proof.
  revert acc nv. induction events as [|e events IH]; intros acc nv Hacc; cbn [filter_loop].
  - intros [= <- <-]. exists 0%nat. rewrite app_nil_r. split_and!; [simpl; lia|lia|done|left; split; [done|done]].
  - destruct (event_matches addr keys e) eqn:Em.
    + destruct (max <=? zlen (acc ++ [e])) eqn:El; zbool.
      * intros [= <- <-]. exists 1%nat. cbn [take]. rewrite filter_cons_True, take_0 by done.
        rewrite zlen_app in *. split_and!; [simpl; lia|lia|done|]. right. change (zlen [e]) with 1 in *. lia.
      * intros Hf. destruct (IH _ _ El Hf) as (k & Hk & -> & -> & Hc). exists (S k). cbn [take].
        rewrite filter_cons_True by done. rewrite <- app_assoc in *. simpl. split_and!; [lia|lia|done|].
        destruct Hc as [[? ?]|?]; [left; split; [done|simpl; lia]|by right].
    + intros Hf. destruct (IH _ _ Hacc Hf) as (k & Hk & -> & -> & Hc). exists (S k). cbn [take].
      rewrite filter_cons_False by congruence. simpl. split_and!; [lia|lia|done|].
      destruct Hc as [[? ?]|?]; [left; split; [done|simpl; lia]|by right].
Qed.

Section paging.
  Context `{SF : StarknetFf} `{SA : StarknetApi} `{PT : PrimitiveTypes} `{SC : StarknetCrypto} {HH : HasherT}.
  Context `{CC : ContractClassI} `{LC : LogCodec} {BHash : Type} `{EqDecision BHash} {SU : Substrate BHash}.
  Context {RC : RpcClient BHash} {SHs : Scale (list BHash)} {SFe : Scale StarkFelt} {SFs : Scale (list StarkFelt)}.
  Context (cache_more_things : bool).

(** The events of the blocks up to [to], as the client reports them. *)
  Context (db : Database) (ev : Z -> list EmittedEvent) (to : Z).

(** The events of the blocks from [b] to [to], in order. *)
Definition events_from (b : Z) : list EmittedEvent := concat (map ev (seqZ b (to - b + 1))).

Lemma events_from_cons b : b <= to -> events_from b = ev b ++ events_from (b + 1).
Proof.
  intros Hb. unfold events_from. rewrite seqZ_cons by lia. simpl.
  replace (Z.pred (to - b + 1)) with (to - (b + 1) + 1) by lia. by replace (Z.succ b) with (b + 1) by lia.
Qed.

Lemma events_from_nil b : to < b -> events_from b = [].
Proof. intros Hb. unfold events_from. by rewrite seqZ_nil by lia. Qed.

Definition wanted (f : RpcEventFilter) (l : list EmittedEvent) : list EmittedEvent :=
  filter (fun e => event_matches (f_from_address f) (f_keys f) e = true) l.

(** What the loop returns: everything that is left, or a full page with the token
    it builds for the position reached. *)
Definition page_at (f : RpcEventFilter) (from : Z) (all : list EmittedEvent) (page : EventsPage) : Prop :=
  (page_token page = None /\ page_events page = all /\ zlen all <= f_chunk_size f)
  \/ exists b n, from <= b <= to
     /\ (let skip := if b =? from then event_n (f_continuation_token f) else 0 in
         0 <= n /\ skip + n <= zlen (ev b) /\ zlen (page_events page) = f_chunk_size f
         /\ all = page_events page ++ wanted f (drop (Z.to_nat (skip + n)) (events_from b)))
     /\ page_token page = Some (token_to_string (mk_token (b - from)
          (if block_n (f_continuation_token f) =? b then wadd 64 n (event_n (f_continuation_token f)) else n))).

Lemma wanted_app f l l' : wanted f (l ++ l') = wanted f l ++ wanted f l'.
Proof. apply list.filter_app. Qed.

(** The events from a position inside block [b]. *)
Lemma drop_events_from b k :
  b <= to -> (k <= length (ev b))%nat -> drop k (events_from b) = drop k (ev b) ++ events_from (b + 1).
Proof. intros Hb Hk. rewrite events_from_cons by done. by rewrite drop_app_le. Qed.

Lemma wanted_split f b skip k :
  b <= to -> (skip <= length (ev b))%nat -> (k <= length (drop skip (ev b)))%nat ->
  wanted f (drop skip (events_from b))
  = wanted f (take k (drop skip (ev b))) ++ wanted f (drop (skip + k) (events_from b)).
Proof.
  intros Hb Hs Hk. rewrite length_drop in Hk. rewrite !drop_events_from by lia.
  rewrite <- (take_drop k (drop skip (ev b))) at 1. rewrite drop_drop, !wanted_app. by rewrite app_assoc.
Qed.

(** A page that gets full in block [current]. *)
Lemma page_full f from current acc skip k :
  0 <= from <= current -> current <= to < u64_max -> 0 <= skip <= zlen (ev current) ->
  skip = (if current =? from then event_n (f_continuation_token f) else 0) ->
  (k <= length (ev current) - Z.to_nat skip)%nat ->
  wanted f (drop (Z.to_nat skip) (events_from current))
  = wanted f (take k (drop (Z.to_nat skip) (ev current))) ++ wanted f (drop (Z.to_nat skip + k) (events_from current)) ->
  zlen acc + zlen (wanted f (take k (drop (Z.to_nat skip) (ev current)))) = f_chunk_size f ->
  page_at f from (acc ++ wanted f (drop (Z.to_nat skip) (events_from current)))
    (mk_page (acc ++ wanted f (take k (drop (Z.to_nat skip) (ev current))))
       (if (current <? to) || (Z.of_nat k <? zlen (ev current) - skip)
        then Some (token_to_string (mk_token (wsub 64 current from)
               (if block_n (f_continuation_token f) =? current
                then wadd 64 (Z.of_nat k) (event_n (f_continuation_token f)) else Z.of_nat k)))
        else None)).
Proof.
  intros Hfrom Hcur Hskip Hsk Hk Hsp Hq.
  assert (Hn : (Z.to_nat skip + k)%nat = Z.to_nat (skip + Z.of_nat k)) by lia.
  destruct ((current <? to) || (Z.of_nat k <? zlen (ev current) - skip)) eqn:E.
  - right. exists current, (Z.of_nat k). split; [lia|]. rewrite <- Hsk. split.
    + cbv zeta. unfold zlen in *. split_and!; [lia|lia|simpl; rewrite length_app; lia|].
      rewrite Hsp, Hn. simpl. by rewrite app_assoc.
    + simpl. unfold wsub. rewrite wrap_small by (unfold u64_max in *; lia). done.
  - apply orb_false_iff in E as [E1 E2]. zbool. left. split; [done|]. simpl.
    assert (Hend : wanted f (drop (Z.to_nat skip + k) (events_from current)) = []).
    { rewrite drop_events_from by (unfold zlen in *; lia). rewrite events_from_nil, app_nil_r by lia.
      by rewrite drop_ge by (unfold zlen in *; lia). }
    rewrite Hsp, Hend, app_nil_r. split; [done|]. rewrite zlen_app. lia.
Qed.

Lemma filter_blocks_spec f from fuel current acc :
  (forall n, from <= n <= to -> get_block_events cache_more_things n db = Ret (Ok (ev n), db)) ->
  f_to_block f = to -> to < u64_max -> 0 <= from <= current -> current <= to + 1 ->
  (Z.to_nat (to - current + 1) <= fuel)%nat -> zlen acc < f_chunk_size f < 2 ^ 64 ->
  0 <= event_n (f_continuation_token f) -> (from <= to -> event_n (f_continuation_token f) <= zlen (ev from)) ->
  exists page, filter_blocks cache_more_things fuel f from current acc db = Ret (Ok page, db)
  /\ page_at f from (acc ++ wanted f (drop (Z.to_nat (if current =? from then event_n (f_continuation_token f) else 0))
                                       (events_from current))) page.
Proof.
  intros Hget Hto Hmax Hfrom. revert current acc Hfrom.
  induction fuel as [|fuel IH]; intros current acc Hfrom Hcur Hfuel Hacc He0 He; cbn [filter_blocks]; rewrite Hto.
  - destruct (to <? current) eqn:E; zbool; [|lia]. unfold eret. eexists. split; [done|]. left.
    rewrite events_from_nil, drop_nil, app_nil_r by lia. simpl. split_and!; [done|done|lia].
  - destruct (to <? current) eqn:E; zbool.
    { unfold eret. eexists. split; [done|]. left.
      rewrite events_from_nil, drop_nil, app_nil_r by lia. simpl. split_and!; [done|done|lia]. }
    unfold etry at 1, ebind at 1. rewrite Hget by lia.
    set (skip := if current =? from then event_n (f_continuation_token f) else 0).
    assert (Hskip : 0 <= skip <= zlen (ev current)).
    { unfold skip. destruct (current =? from) eqn:Ec; zbool; [subst; lia|]. pose proof (zlen_nonneg (ev current)). lia. }
    destruct (zlen (ev current) <? skip) eqn:Es; zbool; [lia|].
    pose proof (zlen_nonneg acc). assert (Hw : wsub 64 (f_chunk_size f) (zlen acc) = f_chunk_size f - zlen acc).
    { unfold wsub. apply wrap_small. lia. }
    rewrite Hw. unfold filter_events_by_params. destruct (filter_loop _ _ _ [] 0 _) as [r v] eqn:Ef.
    apply filter_loop_spec in Ef as (k & Hk & -> & -> & Hc); [|change (zlen (@nil EmittedEvent)) with 0; lia].
    change (@app EmittedEvent [] ?l) with l in *. fold (wanted f (take k (drop (Z.to_nat skip) (ev current)))) in *.
    rewrite Nat.add_0_l in *. pose proof (wanted_split f current (Z.to_nat skip) k E ltac:(unfold zlen in *; lia) Hk) as Hsp.
    rewrite zlen_app. rewrite length_drop in Hk. destruct (_ =? f_chunk_size f) eqn:Eq; zbool.
    + unfold eret. eexists. split; [reflexivity|]. by apply page_full.
    + destruct Hc as [[Hlt Hall]|Hfull]; [|lia]. unfold wadd. rewrite wrap_small by (unfold u64_max in *; lia).
      assert (Hne : (current + 1 =? from) = false) by (apply Z.eqb_neq; lia).
      destruct (IH (current + 1) (acc ++ wanted f (take k (drop (Z.to_nat skip) (ev current))))) as (page & Hp & Hat);
        [lia|lia|lia|rewrite zlen_app; lia|lia|done|].
      exists page. split; [exact Hp|]. rewrite Hne in Hat. rewrite Hsp, app_assoc.
      rewrite length_drop in Hall. rewrite drop_events_from by (unfold zlen in *; lia).
      rewrite (drop_ge (ev current) (Z.to_nat skip + k)) by (unfold zlen in *; lia). exact Hat.
Qed.

Section requests.
  Context (f : RpcEventFilter).
  Context (Hget : forall n, f_from_block f <= n <= to -> get_block_events cache_more_things n db = Ret (Ok (ev n), db)).
  Context (Hto : f_to_block f = to) (Hrange : 0 <= f_from_block f <= to) (Hmax : to < u64_max).
  Context (Hchunk : 0 < f_chunk_size f < 2 ^ 64) (Hlen : forall n, zlen (ev n) < 2 ^ 64).

Definition with_token (t : ContinuationToken) : RpcEventFilter :=
  mk_filter (f_from_block f) (f_to_block f) (f_from_address f) (f_keys f) (f_chunk_size f) t.

Lemma filter_events_spec t :
  0 <= block_n t -> f_from_block f + block_n t <= to -> 0 <= event_n t <= zlen (ev (f_from_block f + block_n t)) ->
  exists page, filter_events cache_more_things (with_token t) db = Ret (Ok page, db)
  /\ page_at (with_token t) (f_from_block f + block_n t)
       (wanted f (drop (Z.to_nat (event_n t)) (events_from (f_from_block f + block_n t)))) page.
Proof.
  intros Hb Hle He. unfold filter_events. cbn [f_from_block f_to_block f_continuation_token with_token].
  unfold wadd. rewrite wrap_small by (unfold u64_max in *; lia). rewrite Hto.
  destruct (filter_blocks_spec (with_token t) (f_from_block f + block_n t) (Z.to_nat (to - (f_from_block f + block_n t) + 1))
              (f_from_block f + block_n t) []) as (page & Hp & Hat); try done; try (cbn; lia).
  - intros n Hn. apply Hget. lia.
  - exists page. split; [exact Hp|]. by rewrite Z.eqb_refl in Hat.
Qed.

(** The page a request with a given position returns. *)
Lemma page_events_exact t page :
  0 <= block_n t -> f_from_block f + block_n t <= to -> 0 <= event_n t <= zlen (ev (f_from_block f + block_n t)) ->
  filter_events cache_more_things (with_token t) db = Ret (Ok page, db) ->
  let all := wanted f (drop (Z.to_nat (event_n t)) (events_from (f_from_block f + block_n t))) in
  page_events page = take (Z.to_nat (f_chunk_size f)) all
  /\ (page_token page = None -> zlen all <= f_chunk_size f).
Proof.
  intros Hb Hle He Hp all. destruct (filter_events_spec t Hb Hle He) as (page' & Hp' & Hat). rewrite Hp in Hp'.
  injection Hp' as <-. destruct Hat as [(Ht & Hev & Hl)|(b & n & _ & (_ & _ & Hl & Ha) & Ht)].
  - cbn in Hl. split; [|done]. fold all in Hev, Hl. rewrite Hev, take_ge; [done|]. unfold zlen in Hl. lia.
  - split; [|by rewrite Ht]. fold all in Ha. cbn in Hl. rewrite Ha, take_app_le by (unfold zlen in Hl; lia).
    rewrite take_ge; [done|]. unfold zlen in Hl. lia.
Qed.

End requests.

(** C31: the first two pages of events are the right ones.  When the events of
    the blocks of the range can be read, a request without a token returns the
    first [chunk_size] matching events of the range in order; without a token in
    the answer there are no more of them; with one, the token can be parsed, and
    the request made with it returns the next [chunk_size] matching events. *)
Theorem events_two_pages (f : RpcEventFilter) :
  (forall n, f_from_block f <= n <= to -> get_block_events cache_more_things n db = Ret (Ok (ev n), db)) ->
  f_to_block f = to -> 0 <= f_from_block f <= to -> to < u64_max -> 0 < f_chunk_size f < 2 ^ 64 ->
  (forall n, zlen (ev n) < 2 ^ 64) ->
  let all := wanted f (events_from (f_from_block f)) in
  let chunk := Z.to_nat (f_chunk_size f) in
  exists page, filter_events cache_more_things (with_token f token_default) db = Ret (Ok page, db)
  /\ page_events page = take chunk all
  /\ match page_token page with
     | None => (length all <= chunk)%nat
     | Some token => exists t page', token_parse token = Ok t
         /\ filter_events cache_more_things (with_token f t) db = Ret (Ok page', db)
         /\ page_events page' = take chunk (drop chunk all)
     end.
Proof.
  intros Hget Hto Hrange Hmax Hchunk Hlen all chunk.
  pose proof (filter_events_spec f Hget Hto Hrange Hmax Hchunk token_default) as Hs. cbn [block_n event_n token_default] in Hs.
  rewrite Z.add_0_r in Hs. change (drop (Z.to_nat 0) ?l) with l in Hs.
  destruct Hs as (page & Hp & Hat); [lia|lia|pose proof (zlen_nonneg (ev (f_from_block f))); lia|].
  exists page. split; [exact Hp|].
  destruct Hat as [(Ht & Hev & Hl)|(b & n & Hb & (Hn & Hsk & Hl & Ha) & Ht)]; cbn in Hl.
  - rewrite Ht. fold all in Hev, Hl. unfold zlen, chunk in *. rewrite Hev, take_ge by lia. split; [done|lia].
  - cbn [event_n f_continuation_token with_token token_default] in *.
    replace (if b =? f_from_block f then 0 else 0) with 0 in * by (by destruct (b =? _)). rewrite Z.add_0_l in *.
    fold all in Ha. assert (Hc : length (page_events page) = chunk) by (unfold zlen, chunk in *; lia).
    rewrite Ht. split; [by rewrite Ha, <- Hc, take_app_length|].
    assert (Hw : (if block_n token_default =? b then wadd 64 n 0 else n) = n).
    { pose proof (Hlen b). destruct (_ =? _); [|done]. unfold wadd. rewrite Z.add_0_r. apply wrap_small. lia. }
    rewrite Hw. set (t := mk_token (b - f_from_block f) n). pose proof (Hlen b).
    exists t. destruct (filter_events_spec f Hget Hto Hrange Hmax Hchunk t) as (page' & Hp' & _); [simpl; lia|simpl; lia| |].
    { simpl. replace (f_from_block f + (b - f_from_block f)) with b by lia. lia. }
    exists page'. split; [apply token_roundtrip_ok; apply in_width_spec; simpl; unfold u64_max in *; lia|].
    split; [exact Hp'|].
    destruct (page_events_exact f Hget Hto Hrange Hmax Hchunk t page') as [He _]; [simpl; lia|simpl; lia| |exact Hp'|].
    { simpl. replace (f_from_block f + (b - f_from_block f)) with b by lia. lia. }
    rewrite He. simpl. replace (f_from_block f + (b - f_from_block f)) with b by lia. fold chunk.
    by rewrite Ha, <- Hc, drop_app_length.
Qed.

(** A page of one event in a range of one block. *)
Lemma one_event_page (f : RpcEventFilter) (b : Z) (es : list EmittedEvent) (t : ContinuationToken) (e : EmittedEvent) :
  get_block_events cache_more_things b db = Ret (Ok es, db) ->
  0 < b -> f_to_block f = b -> f_chunk_size f = 1 -> block_n t = 0 -> 0 <= event_n t ->
  es !! Z.to_nat (event_n t) = Some e -> event_n t + 1 < zlen es ->
  event_matches (f_from_address f) (f_keys f) e = true ->
  filter_blocks cache_more_things 1 (with_token f t) b b [] db
  = Ret (Ok (mk_page [e] (Some (token_to_string (mk_token 0 1)))), db).
Proof.
  intros Hg Hb Ht Hc Hbn He Hlk Hl Hm. cbn [filter_blocks].
  cbn [f_to_block f_chunk_size f_from_address f_keys f_continuation_token with_token].
  rewrite Ht, Hc, Z.ltb_irrefl, Z.eqb_refl. unfold etry, ebind. rewrite Hg.
  rewrite (proj2 (Z.ltb_ge (zlen es) (event_n t))) by lia. change (wsub 64 1 (zlen (@nil EmittedEvent))) with 1.
  unfold filter_events_by_params. rewrite (drop_S _ _ _ Hlk). cbn [filter_loop]. rewrite Hm. cbn [app].
  change (1 <=? zlen [e]) with true. cbv iota. cbn [app]. change (zlen [e] =? 1) with true. cbv iota.
  rewrite (proj2 (Z.ltb_lt (Z.of_nat 1) (zlen es - event_n t))) by lia. rewrite orb_true_r, Hbn.
  rewrite (proj2 (Z.eqb_neq 0 b)) by lia. unfold wsub. by rewrite Z.sub_diag.
Qed.

(** A later token may lead nowhere.  In a range of one block, not block 0,
    with pages of one event, the request made with the token of the first page
    returns the second event together with the same token again, so that a
    client following the tokens gets the second event for ever and never the
    third. *)
Theorem event_token_stuck (f : RpcEventFilter) (b : Z) (e1 e2 e3 : EmittedEvent) (l : list EmittedEvent) :
  get_block_events cache_more_things b db = Ret (Ok (e1 :: e2 :: e3 :: l), db) ->
  0 < b < u64_max -> f_from_block f = b -> f_to_block f = b -> f_chunk_size f = 1 ->
  event_matches (f_from_address f) (f_keys f) e1 = true -> event_matches (f_from_address f) (f_keys f) e2 = true ->
  let token := token_to_string (mk_token 0 1) in
  filter_events cache_more_things (with_token f token_default) db = Ret (Ok (mk_page [e1] (Some token)), db)
  /\ token_parse token = Ok (mk_token 0 1)
  /\ filter_events cache_more_things (with_token f (mk_token 0 1)) db = Ret (Ok (mk_page [e2] (Some token)), db).
Proof.
  intros Hg Hb Hf Ht Hc Hm1 Hm2 token. unfold filter_events. cbn [f_from_block f_to_block f_continuation_token with_token block_n token_default].
  rewrite Hf, Ht. unfold wadd. rewrite wrap_small, Z.add_0_r by (unfold u64_max in *; lia).
  replace (Z.to_nat (b - b + 1)) with 1%nat by lia.
  assert (Hl : forall x, x <= 1 -> x + 1 < zlen (e1 :: e2 :: e3 :: l)) by (intros x Hx; unfold zlen; cbn [length]; lia).
  split; [|split; [done|]].
  - apply (one_event_page f b (e1 :: e2 :: e3 :: l)); try done; [lia|]. by apply Hl.
  - apply (one_event_page f b (e1 :: e2 :: e3 :: l)); try done; [lia|]. by apply Hl.
Qed.

End paging.

(** Tokens survive the trip to the client.  Every token of two 64-bit numbers
    is parsed back from the text it is printed as. *)
Theorem token_roundtrip (t : ContinuationToken) :
  in_width 64 (block_n t) = true -> in_width 64 (event_n t) = true -> token_parse (token_to_string t) = Ok t.
Proof. apply token_roundtrip_ok. Qed.

(** ** Witnesses *)
Module EventsWitness.
Export Deps.Reference ReferenceVm BlockWitness DbWitness.

#[export] Instance hasher : HasherT := PedersenHasher.

Definition w_tx : HandleL1MessageTransaction := mk_l1 1 (felt_of_Z 9) (felt_of_Z 2) [felt_of_Z 8].

(** Every block has the same header, one L1 message and three events of it. *)
#[export] Instance w_client : Substrate Z := {|
  leaves := Ok [1];
  backend_header _ := Ok None;
  client_header _ := Ok (Some (mk_sub 1 0 [block_digest (mk_block header_default [TL1Handler w_tx])]));
  runtime_chain_id _ := Ok (felt_of_Z 5);
|}.

Definition w_event (n : Z) : Phase * RuntimeEvent :=
  (ApplyExtrinsic 1, REStarknet (mk_sev (mk_new (stark_from_uint 3)) (mk_ec [] [stark_from_uint n]))).

#[export] Instance w_rpc : RpcClient Z := {|
  client_hash n := Ok (Some n);
  best_hash := 1;
  block_body _ := Ok (Some [RCOther; RCStarknet (consume_l1_message w_tx 5)]);
  event_records _ := Ok [w_event 10; w_event 11; w_event 12];
  client_number n := Ok (Some n);
|}.

Definition w_filter (from to chunk : Z) : RpcEventFilter := mk_filter from to None [] chunk token_default.

Definition out (n : Z) : list EmittedEvent :=
  match get_block_events (BHash := Z) false n ∅ with Ret (Ok l, _) => l | _ => [] end.

Lemma out_ok n :
  match get_block_events (BHash := Z) false n ∅ with Ret (Ok _, db) => bool_decide (db = ∅) | _ => false end = true ->
  get_block_events (BHash := Z) false n ∅ = Ret (Ok (out n), ∅).
Proof.
  unfold out. destruct (get_block_events false n ∅) as [[[l|] db]|]; [|done|done].
  by intros ->%bool_decide_eq_true_1.
Qed.

Definition w_ev (n : Z) : list EmittedEvent := if n =? 0 then out 0 else if n =? 1 then out 1 else [].

End EventsWitness.
Import EventsWitness.

Lemma events_two_pages_witness :
  exists page, filter_events (BHash := Z) false (w_filter 0 1 2) ∅ = Ret (Ok page, ∅)
               /\ page_events page = take 2 (out 0).
Proof.
  destruct (events_two_pages (BHash := Z) false ∅ w_ev 1 (w_filter 0 1 2)) as (page & H1 & H2 & _).
  - intros n Hn. cbn in Hn. assert (n = 0 \/ n = 1) as [->| ->] by lia; apply out_ok; vm_compute; reflexivity.
  - reflexivity.
  - cbn. lia.
  - reflexivity.
  - cbn. lia.
  - intros n. unfold w_ev. destruct (n =? 0); [vm_compute; reflexivity|]. destruct (n =? 1); vm_compute; reflexivity.
  - exists page. split; [exact H1|]. rewrite H2. vm_compute. reflexivity.
Defined.

Lemma event_token_stuck_witness :
  exists e2, filter_events (BHash := Z) false (with_token (w_filter 1 1 1) (mk_token 0 1)) ∅
             = Ret (Ok (mk_page [e2] (Some (token_to_string (mk_token 0 1)))), ∅).
Proof.
  assert (H3 : exists e1 e2 e3, out 1 = [e1; e2; e3]).
  { assert (Hl : length (out 1) = 3%nat) by (vm_compute; reflexivity).
    destruct (out 1) as [|e1 [|e2 [|e3 [|]]]]; try discriminate Hl. exists e1, e2, e3. reflexivity. }
  destruct H3 as (e1 & e2 & e3 & H3). exists e2.
  destruct (event_token_stuck (BHash := Z) false ∅ (w_filter 1 1 1) 1 e1 e2 e3 []) as (_ & _ & H).
  - rewrite <- H3. apply out_ok. vm_compute. reflexivity.
  - vm_compute. split; reflexivity.
  - reflexivity.
  - reflexivity.
  - reflexivity.
  - reflexivity.
  - reflexivity.
  - exact H.
Defined.

Lemma token_roundtrip_witness :
  token_parse (token_to_string (mk_token 30 4)) = Ok (mk_token 30 4).
Proof. apply (token_roundtrip (mk_token 30 4)); reflexivity. Defined.
