(* ===== verification/Settlement.v ===== *)
(** * Settlement

    Models [crates/client/settlement/src]: the retry strategy of [errors.rs] and
    the settlement loop of [sync_state.rs], which carries the Starknet blocks of
    the finalized Substrate blocks to the settlement layer one by one.  The
    settlement layer and the Substrate client are parameters. *)
From S2P Require Import Prelude Bytes Deps Felt Hashers Transactions ComputeHash Blockifier Fee Block PalletStorage.
From S2P Require Import Db MappingSync Snos.
Local Open Scope Z_scope.

Record StarknetSpec := mk_spec { spec_config_hash : StarkFelt; spec_program_hash : StarkFelt }.
Record StarknetState := mk_state { st_state_root : StarkFelt; st_block_number : StarkFelt }.

(** [Error], without the payloads of the errors that libraries report. *)
Inductive SettlementError (BHash : Type) :=
| Blockchain | StarknetApiError | DigestLog (e : FindLogError) | RuntimeApi | EthereumClient
| UnknownStarknetBlock (n : Z) | UnknownSubstrateBlock (hash : BHash)
| StateRootMismatch (height : Z) (expected actual : StarkFelt)
| ProgramHashMismatch (expected actual : StarkFelt)
| ConfigHashMismatch (expected actual : StarkFelt)
| StateNotInitialized.
Arguments Blockchain {BHash}.
Arguments StarknetApiError {BHash}.
Arguments DigestLog {BHash}.
Arguments RuntimeApi {BHash}.
Arguments EthereumClient {BHash}.
Arguments UnknownStarknetBlock {BHash}.
Arguments UnknownSubstrateBlock {BHash}.
Arguments StateRootMismatch {BHash}.
Arguments ProgramHashMismatch {BHash}.
Arguments ConfigHashMismatch {BHash}.
Arguments StateNotInitialized {BHash}.

(** [RetryOnRecoverableErrors::can_retry]. *)
Definition can_retry {BHash} (delay : Z) (error : SettlementError BHash) : option Z :=
  match error with
  | StateRootMismatch _ _ _ => None
  | ConfigHashMismatch _ _ => None
  | ProgramHashMismatch _ _ => None
  | _ => Some delay
  end.

(** [trait SettlementProvider], with the settlement layer as its state. *)
Class SettlementProvider (BHash SP : Type) := {
  is_initialized : effr SP (SettlementError BHash) bool;
  get_chain_spec : effr SP (SettlementError BHash) StarknetSpec;
  get_state : effr SP (SettlementError BHash) StarknetState;
  update_state : StarknetOsOutput -> effr SP (SettlementError BHash) unit;
}.

(** What the loop asks of the Substrate client: block hashes by number, headers,
    the best hash, and the runtime API.  The chain grows while the loop runs, so
    this is a view of it at one moment. *)
Record SettlementClient (BHash : Type) := mk_client {
  sc_hash : Z -> result unit (option BHash);
  sc_header : BHash -> result unit (option (SubHeader BHash));
  sc_best_hash : BHash;
  sc_program_hash : BHash -> result unit Felt252Wrapper;
  sc_config_hash : BHash -> result unit StarkFelt;
  sc_chain_id : BHash -> result unit Felt252Wrapper;
  sc_tx_messages_to_l1 : BHash -> TransactionHash -> result unit (list MessageToL1);
}.

Arguments mk_client {BHash}.
Arguments sc_hash {BHash}.
Arguments sc_header {BHash}.
Arguments sc_best_hash {BHash}.
Arguments sc_program_hash {BHash}.
Arguments sc_config_hash {BHash}.
Arguments sc_chain_id {BHash}.
Arguments sc_tx_messages_to_l1 {BHash}.

(** A finality notification, with the view of the chain while it is handled. *)
Record Notification (BHash : Type) := mk_notification {
  nt_client : SettlementClient BHash;
  nt_hash : BHash;
  nt_header : SubHeader BHash;
}.
Arguments mk_notification {BHash}.
Arguments nt_client {BHash}.
Arguments nt_hash {BHash}.
Arguments nt_header {BHash}.

(** [temporary_global_state_root_getter] of the database: the default hash. *)
Definition temporary_global_state_root_getter : StarkFelt := stark_default.

Section settlement.
  Context `{SF : StarknetFf} `{SA : StarknetApi} `{PT : PrimitiveTypes} `{SC : StarknetCrypto} {HH : HasherT}.
  Context `{LC : LogCodec} `{CA : StarkCasts} {BHash : Type}.
  Context {SP : Type} {PR : SettlementProvider BHash SP}.
#[local] Abbreviation Client := (SettlementClient BHash).
#[local] Abbreviation Result := (result (SettlementError BHash)).
#[local] Abbreviation Effect := (effr SP (SettlementError BHash)).

Definition get_starknet_block (substrate_client : Client) (block_number : Z)
  : Result (Block * BHash) :=
  let? hash := map_err (fun _ => Blockchain) (sc_hash substrate_client (Z.min u32_max block_number)) in
  let? substrate_block_hash := ok_or hash (UnknownStarknetBlock block_number) in
  let? header := map_err (fun _ => Blockchain) (sc_header substrate_client substrate_block_hash) in
  let? substrate_block_header := ok_or header (UnknownSubstrateBlock substrate_block_hash) in
  let? starknet_block := map_err DigestLog (find_starknet_block (sub_digest substrate_block_header)) in
  Ok (starknet_block, substrate_block_hash).

Definition verify_starknet_spec (substrate_client : Client) (starknet_spec : StarknetSpec) : Result unit :=
  let? program_hash := map_err (fun _ => RuntimeApi) (sc_program_hash substrate_client (sc_best_hash substrate_client)) in
  if bool_decide (spec_program_hash starknet_spec <> to_stark program_hash)
  then Err (ProgramHashMismatch (to_stark program_hash) (spec_program_hash starknet_spec))
  else
    let? config_hash := map_err (fun _ => RuntimeApi) (sc_config_hash substrate_client (sc_best_hash substrate_client)) in
    if bool_decide (spec_config_hash starknet_spec <> config_hash)
    then Err (ConfigHashMismatch config_hash (spec_config_hash starknet_spec))
    else Ok tt.

Definition verify_starknet_state (substrate_client : Client) (state : StarknetState) : Result unit :=
  let? height := ok_or (u64_try_from_stark (st_block_number state)) StarknetApiError in
  match get_starknet_block substrate_client height with
  | Ok _ =>
      if bool_decide (st_state_root state <> temporary_global_state_root_getter)
      then Err (StateRootMismatch height temporary_global_state_root_getter (st_state_root state))
      else Ok tt
  | Err (UnknownStarknetBlock _) => Ok tt
  | Err err => Err err
  end.

(** The loop over the transactions of the block, with the messages collected so
    far. *)
Fixpoint collect_messages (substrate_client : Client) (chain_id : Felt252Wrapper) (substrate_block_hash : BHash) (txs : list Transaction)
    (to_l1 : list MessageL2ToL1) (to_l2 : list MessageL1ToL2)
  : outcome (Result (list MessageL2ToL1 * list MessageL1ToL2)) :=
  match txs with
  | [] => Ret (Ok (to_l1, to_l2))
  | tx :: txs' =>
      let! to_l2 := match tx with
                    | TL1Handler l1_handler => let! m := m12_from_tx l1_handler in Ret (to_l2 ++ [m])
                    | _ => Ret to_l2
                    end in
      let tx_hash := to_new TransactionHashT (tx_compute_hash tx chain_id false) in
      match sc_tx_messages_to_l1 substrate_client substrate_block_hash tx_hash with
      | Ok msgs => collect_messages substrate_client chain_id substrate_block_hash txs' (to_l1 ++ map m21_from_message msgs) to_l2
      | Err _ => Ret (Err RuntimeApi)
      end
  end.

Definition update_starknet_state (substrate_client : Client) (prev_state : StarknetState) (next_block : Block) (substrate_block_hash : BHash)
    (config_hash : StarkFelt) : Effect StarknetState :=
  let next_state := mk_state temporary_global_state_root_getter (stark_from_uint (h_block_number (b_header next_block))) in
  chain_id <-? eret (map_err (fun _ => RuntimeApi) (sc_chain_id substrate_client substrate_block_hash));;
  messages <-? elift (collect_messages substrate_client chain_id substrate_block_hash (b_transactions next_block) [] []);;
  block_hash <-- elift (header_hash (b_header next_block));;
  let program_output := {|
    prev_state_root := st_state_root prev_state;
    new_state_root := st_state_root next_state;
    snos_block_number := st_block_number next_state;
    snos_block_hash := to_stark block_hash;
    snos_config_hash := config_hash;
    messages_to_l1 := fst messages;
    messages_to_l2 := snd messages;
  |} in
  update_state program_output ;;?
  eret (Ok next_state).

(** [while sync_from < sync_to]; the number of rounds is [sync_to - sync_from]. *)
Fixpoint catch_up (substrate_client : Client) (rounds : nat) (config_hash : StarkFelt) (sync_from sync_to : Z) (block : Block) (notified : BHash)
    (last_settled_state : StarknetState) : Effect (StarknetState * Z) :=
  match rounds with
  | O => eret (Ok (last_settled_state, sync_from))
  | S rounds' =>
      next <-? eret (if sync_from + 1 =? sync_to then Ok (block, notified) else get_starknet_block substrate_client (sync_from + 1));;
      new_state <-? update_starknet_state substrate_client last_settled_state (fst next) (snd next) config_hash;;
      catch_up substrate_client rounds' config_hash (sync_from + 1) sync_to block notified new_state
  end.

Fixpoint follow (config_hash : StarkFelt) (notifications : list (Notification BHash)) (last_settled_state : StarknetState)
    (sync_from : Z) : Effect unit :=
  match notifications with
  | [] => eret (Ok tt)
  | notification :: notifications' =>
      block <-? eret (map_err DigestLog (find_starknet_block (sub_digest (nt_header notification))));;
      let sync_to := h_block_number (b_header block) in
      if sync_to <? sync_from then follow config_hash notifications' last_settled_state sync_from
      else if sync_from =? sync_to then
        eret (verify_starknet_state (nt_client notification) last_settled_state) ;;?
        follow config_hash notifications' last_settled_state sync_from
      else
        r <-? catch_up (nt_client notification) (Z.to_nat (sync_to - sync_from)) config_hash sync_from sync_to block (nt_hash notification)
                last_settled_state;;
        follow config_hash notifications' (fst r) (snd r)
  end.

(** The loop on the notifications that arrive until the stream ends. *)
Definition sync_state_loop (substrate_client : Client) (notifications : list (Notification BHash)) : Effect unit :=
  initialized <-? is_initialized;;
  if negb initialized then eret (Err StateNotInitialized)
  else
    starknet_spec <-? get_chain_spec;;
    eret (verify_starknet_spec substrate_client starknet_spec) ;;?
    last_settled_state <-? get_state;;
    eret (verify_starknet_state substrate_client last_settled_state) ;;?
    sync_from <-? eret (ok_or (u64_try_from_stark (st_block_number last_settled_state)) StarknetApiError);;
    follow (spec_config_hash starknet_spec) notifications last_settled_state sync_from.

(** The outer loop, on the notifications seen in successive attempts: [None] when
    it is still retrying after the last of them. *)
Fixpoint sync_state (delay : Z) (attempts : list (SettlementClient BHash * list (Notification BHash))) : eff SP (option unit) :=
  match attempts with
  | [] => eret None
  | (substrate_client, notifications) :: attempts' =>
      r <-- sync_state_loop substrate_client notifications;;
      match r with
      | Ok _ => eret (Some tt)
      | Err err => match can_retry delay err with Some _ => sync_state delay attempts' | None => epanic end
      end
  end.

End settlement.

(** ** The settled ledger

    The settlement layer keeps the outputs it has accepted, on top of the state it
    was initialized with; the last of them is the settled state. *)
Definition settled (genesis : StarknetState) (outputs : list StarknetOsOutput) : StarknetState :=
  match list.last outputs with Some o => mk_state (new_state_root o) (snos_block_number o) | None => genesis end.

(** What the contract promises.  An update that reports an error may have been
    accepted all the same, as when the receipt of its transaction is lost. *)
Class SettlementLedger {BHash SP : Type} (PR : SettlementProvider BHash SP) (genesis : StarknetState)
    (history : SP -> list StarknetOsOutput) : Prop := {
  is_initialized_reads : within (fun s s' => history s' = history s) is_initialized;
  get_chain_spec_reads : within (fun s s' => history s' = history s) get_chain_spec;
  get_state_reads : within (fun s s' => history s' = history s) get_state;
  get_state_settled : forall s st s', get_state s = Ret (Ok st, s') -> st = settled genesis (history s);
  update_state_ok : forall o s s', update_state o s = Ret (Ok tt, s') -> history s' = history s ++ [o];
  update_state_err : forall o s e s', update_state o s = Ret (Err e, s') ->
    history s' = history s \/ history s' = history s ++ [o];
}.

(** The finalized chain the views show parts of. *)
Record Finalized (BHash : Type) := mk_finalized {
  fin_block : Z -> option (Block * BHash);
  fin_config_hash : StarkFelt;
  fin_chain_id : BHash -> Felt252Wrapper;
  fin_messages : BHash -> TransactionHash -> list MessageToL1;
}.
Arguments mk_finalized {BHash}.
Arguments fin_block {BHash}.
Arguments fin_config_hash {BHash}.
Arguments fin_chain_id {BHash}.
Arguments fin_messages {BHash}.

Definition l1_handlers (txs : list Transaction) : list HandleL1MessageTransaction :=
  omap (fun tx => match tx with TL1Handler t => Some t | _ => None end) txs.

Section spec.
  Context `{SF : StarknetFf} `{SA : StarknetApi} `{PT : PrimitiveTypes} `{SC : StarknetCrypto} {HH : HasherT}.
  Context `{LC : LogCodec} `{CA : StarkCasts} {BHash : Type} (F : Finalized BHash).

(** Every answer of a view is about the finalized chain. *)
Record honest (v : SettlementClient BHash) : Prop := {
  honest_block : forall n x, get_starknet_block v n = Ok x -> fin_block F n = Some x;
  honest_config : forall c, sc_config_hash v (sc_best_hash v) = Ok c -> c = fin_config_hash F;
  honest_chain_id : forall h c, sc_chain_id v h = Ok c -> c = fin_chain_id F h;
  honest_messages : forall h t ms, sc_tx_messages_to_l1 v h t = Ok ms -> ms = fin_messages F h t;
}.

(** A notification is honest when its block is finalized at its number. *)
Definition honest_notification (nt : Notification BHash) : Prop :=
  honest (nt_client nt) /\
  forall b, find_starknet_block (sub_digest (nt_header nt)) = Ok b ->
    fin_block F (h_block_number (b_header b)) = Some (b, nt_hash nt).

(** Starknet blocks sit at their own number, a [u64]. *)
Definition numbered : Prop :=
  forall n b h, fin_block F n = Some (b, h) -> h_block_number (b_header b) = n /\ 0 <= n < 2 ^ 64.

Definition tx_messages (h : BHash) (txs : list Transaction) : list MessageL2ToL1 :=
  concat (map (fun tx => map m21_from_message
                 (fin_messages F h (to_new TransactionHashT (tx_compute_hash tx (fin_chain_id F h) false)))) txs).

(** The output [o] is the transition from the state [prev] through block [n]. *)
Definition describes (n : Z) (prev : StarknetState) (o : StarknetOsOutput) : Prop :=
  exists b h block_hash,
    fin_block F n = Some (b, h) /\
    prev_state_root o = st_state_root prev /\
    new_state_root o = temporary_global_state_root_getter /\
    snos_block_number o = stark_from_uint n /\
    header_hash (b_header b) = Ret block_hash /\ snos_block_hash o = to_stark block_hash /\
    snos_config_hash o = fin_config_hash F /\
    messages_to_l1 o = tx_messages h (b_transactions b) /\
    traverse m12_from_tx (l1_handlers (b_transactions b)) = Ret (messages_to_l2 o).

(** The outputs settle the blocks after [n0] one by one. *)
Definition consecutive (n0 : Z) (genesis : StarknetState) (outputs : list StarknetOsOutput) : Prop :=
  forall i o, outputs !! i = Some o -> describes (n0 + 1 + Z.of_nat i) (settled genesis (take i outputs)) o.

Lemma settled_snoc genesis l o : settled genesis (l ++ [o]) = mk_state (new_state_root o) (snos_block_number o).
Proof. unfold settled. by rewrite last_snoc. Qed.

Lemma consecutive_snoc n0 genesis l o :
  consecutive n0 genesis l -> describes (n0 + 1 + zlen l) (settled genesis l) o -> consecutive n0 genesis (l ++ [o]).
Proof.
  intros Hl Ho i o' [Hi|[Hle Hi]]%lookup_app_Some.
  - rewrite take_app_le by (apply lookup_lt_Some in Hi; lia). auto.
  - apply list_lookup_singleton_Some in Hi as [Hz ->]. replace i with (length l) by lia.
    by rewrite take_app_length.
Qed.

(** Collecting reads off the messages of the block. *)
Lemma collect_messages_spec v h txs to_l1 to_l2 r :
  honest v ->
  collect_messages v (fin_chain_id F h) h txs to_l1 to_l2 = Ret (Ok r) ->
  exists m2, traverse m12_from_tx (l1_handlers txs) = Ret m2 /\ r = (to_l1 ++ tx_messages h txs, to_l2 ++ m2).
Proof.
  intros Hv. revert to_l1 to_l2. induction txs as [|tx txs IH]; intros to_l1 to_l2; cbn [collect_messages].
  { intros [= <-]. exists []. unfold tx_messages. simpl. by rewrite !app_nil_r. }
  set (rest := fun to_l2' => match sc_tx_messages_to_l1 v h _ with Ok _ => _ | Err _ => _ end).
  assert (Hrest : forall to_l2', rest to_l2' = Ret (Ok r) ->
    exists m2, traverse m12_from_tx (l1_handlers txs) = Ret m2 /\ r = (to_l1 ++ tx_messages h (tx :: txs), to_l2' ++ m2)).
  { intros to_l2'. unfold rest. destruct (sc_tx_messages_to_l1 _ _ _) as [ms|] eqn:Hms; [|done].
    apply (honest_messages _ Hv) in Hms as ->. intros (m2 & ? & ->)%IH. exists m2. split; [done|].
    unfold tx_messages. simpl. by rewrite <- app_assoc. }
  destruct tx as [| | |t]; try exact (Hrest to_l2).
  destruct (m12_from_tx t) as [m|] eqn:Hm; [|done]. cbn [outcome_bind].
  intros (m2 & H2 & ->)%Hrest. exists (m :: m2). change (l1_handlers (TL1Handler t :: txs)) with (t :: l1_handlers txs).
  cbn [traverse]. rewrite Hm. cbn [outcome_bind]. rewrite H2. by rewrite <- app_assoc.
Qed.

End spec.

Section sound.
  Context `{SF : StarknetFf} `{SA : StarknetApi} `{PT : PrimitiveTypes} `{SC : StarknetCrypto} {HH : HasherT}.
  Context `{LC : LogCodec} `{CA : StarkCasts} {SAL : StarknetApiLaws} {CAL : StarkCastsLaws}.
  Context {BHash SP : Type} {PR : SettlementProvider BHash SP} (F : Finalized BHash) (n0 : Z) (genesis : StarknetState)
    (history : SP -> list StarknetOsOutput) {LG : SettlementLedger PR genesis history}.
  Context (Hn0 : 0 <= n0 < 2 ^ 64) (Hgenesis : st_block_number genesis = stark_from_uint n0) (HF : numbered F).

(** The loop holds the settled state and its number. *)
Record in_step (s : SP) (sync_from : Z) (st : StarknetState) : Prop := {
  step_consecutive : consecutive F n0 genesis (history s);
  step_state : st = settled genesis (history s);
  step_from : sync_from = n0 + zlen (history s);
}.

Lemma u64_of_stark n : 0 <= n < 2 ^ 64 -> u64_try_from_stark (stark_from_uint n) = Some n.
Proof.
  intros Hn. rewrite u64_try_from_stark_spec. unfold stark_val. rewrite stark_from_uint_val by lia.
  unfold u64_max. by rewrite (proj2 (Z.leb_le _ _)) by lia.
Qed.

Lemma settled_number l : consecutive F n0 genesis l ->
  u64_try_from_stark (st_block_number (settled genesis l)) = Some (n0 + zlen l).
Proof.
  destruct l as [|o l _] using rev_ind; intros Hl.
  { unfold settled. simpl. rewrite Hgenesis, Z.add_0_r. by apply u64_of_stark. }
  rewrite settled_snoc. simpl. destruct (Hl (length l) o) as (b & h & bh & Hb & _ & _ & -> & _).
  { by apply list_lookup_middle. }
  apply HF in Hb as [_ Hb]. unfold zlen. rewrite length_app. simpl. rewrite u64_of_stark by done. f_equal. lia.
Qed.

Lemma update_starknet_state_spec v prev n b h (s : SP) r s' :
  honest F v -> fin_block F n = Some (b, h) ->
  update_starknet_state v prev b h (fin_config_hash F) s = Ret (r, s') ->
  (history s' = history s /\ forall st, r <> Ok st) \/
  exists o, describes F n prev o /\ history s' = history s ++ [o] /\
    forall st, r = Ok st -> st = mk_state (new_state_root o) (snos_block_number o).
Proof.
  intros Hv Hb. pose proof (HF _ _ _ Hb) as [Hn _]. unfold update_starknet_state, etry, ebind, eret, elift.
  destruct (sc_chain_id v h) as [c|] eqn:Hc; simpl; [|intros [= <- <-]; by left].
  apply (honest_chain_id _ _ Hv) in Hc as ->.
  destruct (collect_messages _ _ _ _ _ _) as [[[m1 m2]|]|] eqn:Hm; simpl; [|intros [= <- <-]; by left|done].
  destruct (collect_messages_spec _ _ _ _ _ _ _ Hv Hm) as (m2' & Hm2 & [= -> ->]).
  destruct (header_hash (b_header b)) as [bh|] eqn:Hh; simpl; [|done].
  match goal with |- context [update_state ?o _] => set (out := o) end.
  assert (Hout : describes F n prev out) by (exists b, h, bh; unfold out; simpl; rewrite Hn; repeat split; done).
  destruct (update_state out s) as [[[[]|e] s1]|] eqn:Hu; [| |done]; intros [= <- <-].
  - right. exists out. split; [done|]. split; [by apply update_state_ok|]. by intros st [= <-].
  - destruct (update_state_err _ _ _ _ Hu) as [He|He]; [by left|]. right. by exists out.
Qed.

Lemma in_step_next s s' sync_from st o :
  in_step s sync_from st -> describes F (sync_from + 1) st o -> history s' = history s ++ [o] ->
  in_step s' (sync_from + 1) (mk_state (new_state_root o) (snos_block_number o)).
Proof.
  intros [Hc -> ->] Ho Hs. constructor; rewrite Hs.
  - apply consecutive_snoc; [done|]. by replace (n0 + 1 + zlen (history s)) with (n0 + zlen (history s) + 1) by lia.
  - by rewrite settled_snoc.
  - autorewrite with madara. unfold zlen. simpl. lia.
Qed.

Lemma catch_up_spec v rounds sync_from sync_to block notified st s r s' :
  honest F v -> fin_block F sync_to = Some (block, notified) -> in_step s sync_from st ->
  catch_up v rounds (fin_config_hash F) sync_from sync_to block notified st s = Ret (r, s') ->
  consecutive F n0 genesis (history s') /\
  forall st' k, r = Ok (st', k) -> in_step s' k st' /\ k = sync_from + Z.of_nat rounds.
Proof.
  intros Hv Hto. revert sync_from st s. induction rounds as [|rounds IH]; intros sync_from st s Hs; cbn [catch_up].
  { intros [= <- <-]. split; [apply Hs|]. intros st' k [= <- <-]. split; [done|lia]. }
  unfold etry, ebind, eret at 1.
  destruct (if sync_from + 1 =? sync_to then _ else _) as [[b h]|] eqn:Hnext;
    [|intros [= <- <-]; split; [apply Hs|done]].
  assert (Hb : fin_block F (sync_from + 1) = Some (b, h)).
  { revert Hnext. destruct (sync_from + 1 =? sync_to) eqn:E; zbool; [intros [= <- <-]; by rewrite E|].
    apply (honest_block _ _ Hv). }
  cbn [fst snd]. destruct (update_starknet_state _ _ _ _ _ _) as [[r1 s1]|] eqn:Hu; [|done].
  destruct (update_starknet_state_spec _ _ _ _ _ _ _ _ Hv Hb Hu) as [[Hh Hr]|(o & Ho & Hh & Hr)].
  { destruct r1 as [st1|]; [by edestruct Hr|]. intros [= <- <-]. rewrite Hh. split; [apply Hs|done]. }
  pose proof (in_step_next _ _ _ _ _ Hs Ho Hh) as Hs1.
  destruct r1 as [st1|]; [|intros [= <- <-]; split; [apply Hs1|done]].
  rewrite (Hr st1 eq_refl). intros Hrun. destruct (IH _ _ _ Hs1 Hrun) as [Hc Hk]. split; [done|].
  intros st' k Hrk. destruct (Hk _ _ Hrk) as [? ->]. split; [done|lia].
Qed.

Lemma follow_spec nts sync_from st s r s' :
  Forall (honest_notification F) nts -> in_step s sync_from st ->
  follow (fin_config_hash F) nts st sync_from s = Ret (r, s') -> consecutive F n0 genesis (history s').
Proof.
  intros Hnts. revert sync_from st s. induction Hnts as [|nt nts [Hv Hnt] _ IH]; intros sync_from st s Hs; cbn [follow].
  { intros [= <- <-]. apply Hs. }
  unfold etry, ebind, eret at 1.
  destruct (find_starknet_block _) as [b|] eqn:Hb; simpl; [|intros [= <- <-]; apply Hs].
  destruct (_ <? _); [by apply IH|]. destruct (_ =? _).
  { unfold eret at 1. destruct (verify_starknet_state _ _); [by apply IH|]. intros [= <- <-]. apply Hs. }
  destruct (catch_up _ _ _ _ _ _ _ _ _) as [[r1 s1]|] eqn:Hc; [|done].
  destruct (catch_up_spec _ _ _ _ _ _ _ _ _ _ Hv (Hnt _ eq_refl) Hs Hc) as [Hs1 Hk].
  destruct r1 as [[st1 k]|]; [|intros [= <- <-]; done]. apply IH. by destruct (Hk _ _ eq_refl).
Qed.

Lemma verify_spec_config v spec :
  honest F v -> verify_starknet_spec v spec = Ok tt -> spec_config_hash spec = fin_config_hash F.
Proof.
  intros Hv. unfold verify_starknet_spec. destruct (sc_program_hash v _); simpl; [|done].
  case_bool_decide; [done|]. destruct (sc_config_hash v _) eqn:Hc; simpl; [|done].
  apply (honest_config _ _ Hv) in Hc as ->. destruct (bool_decide_reflect (spec_config_hash spec <> fin_config_hash F)) as [|E]; [done|].
  intros _. by apply dec_stable.
Qed.

Lemma sync_state_loop_spec v nts s r s' :
  honest F v -> Forall (honest_notification F) nts -> consecutive F n0 genesis (history s) ->
  sync_state_loop v nts s = Ret (r, s') -> consecutive F n0 genesis (history s').
Proof.
  intros Hv Hnts Hs. unfold sync_state_loop, etry, ebind, eret.
  destruct (is_initialized s) as [[r1 s1]|] eqn:E1; [|done]. apply is_initialized_reads in E1.
  destruct r1 as [[]|]; simpl; [|intros [= <- <-]; by rewrite E1|intros [= <- <-]; by rewrite E1].
  destruct (get_chain_spec s1) as [[r2 s2]|] eqn:E2; [|done]. apply get_chain_spec_reads in E2.
  destruct r2 as [spec|]; [|intros [= <- <-]; by rewrite E2, E1].
  destruct (verify_starknet_spec v spec) as [[]|] eqn:Hspec; [|intros [= <- <-]; by rewrite E2, E1].
  destruct (get_state s2) as [[r3 s3]|] eqn:E3; [|done]. pose proof (get_state_reads _ _ _ E3) as E3'. simpl in E3'.
  assert (Hs3 : consecutive F n0 genesis (history s3)) by (by rewrite E3', E2, E1).
  destruct r3 as [st|]; [|intros [= <- <-]; done]. apply get_state_settled in E3 as ->. rewrite <- E3'.
  destruct (verify_starknet_state v _); [|intros [= <- <-]; done].
  rewrite settled_number by done. simpl. rewrite (verify_spec_config _ _ Hv Hspec).
  apply follow_spec; [done|]. by constructor.
Qed.

(** Every attempt keeps the ledger consecutive. *)
Lemma sync_state_spec delay attempts s r s' :
  Forall (fun a => honest F (fst a) /\ Forall (honest_notification F) (snd a)) attempts ->
  consecutive F n0 genesis (history s) ->
  sync_state delay attempts s = Ret (r, s') -> consecutive F n0 genesis (history s').
Proof.
  intros Ha. revert s. induction Ha as [|[v nts] attempts [Hv Hnts] _ IH]; intros s Hs; cbn [sync_state].
  { by intros [= <- <-]. }
  unfold ebind. destruct (sync_state_loop v nts s) as [[r1 s1]|] eqn:E; [|done].
  apply sync_state_loop_spec in E; [|done..]. destruct r1 as [|e]; [by intros [= <- <-]|].
  destruct (can_retry delay e); [by apply IH|done].
Qed.

(** C9: however often the settlement thread fails and retries, and even when an
    update that reported an error was accepted, the settlement layer's ledger
    holds the finalized Starknet blocks one by one, without a gap or a repeat.
    The i-th output starts from the root settled before it, carries the number,
    hash and configuration of block [n0 + 1 + i], and exactly the messages of that
    block's transactions in both directions.  (A run that panics, as on a fatal
    error, has no final state to speak of.) *)
Theorem settlement_consecutive delay attempts s r s' :
  Forall (fun a => honest F (fst a) /\ Forall (honest_notification F) (snd a)) attempts ->
  consecutive F n0 genesis (history s) ->
  sync_state delay attempts s = Ret (r, s') -> consecutive F n0 genesis (history s').
Proof. apply sync_state_spec. Qed.

(** ** Progress *)

(** A settlement layer that answers, and accepts what continues its ledger. *)
Record available (spec : StarknetSpec) : Prop := {
  av_initialized : forall s, exists s', is_initialized s = Ret (Ok true, s');
  av_spec : forall s, exists s', get_chain_spec s = Ret (Ok spec, s');
  av_state : forall s, exists st s', get_state s = Ret (Ok st, s');
  av_update : forall o s k,
    prev_state_root o = st_state_root (settled genesis (history s)) ->
    u64_try_from_stark (st_block_number (settled genesis (history s))) = Some k ->
    u64_try_from_stark (snos_block_number o) = Some (k + 1) ->
    exists s', update_state o s = Ret (Ok tt, s');
}.

(** A view that answers for every block up to [N], and reports later ones as
    unknown. *)
Record serves (N : Z) (v : SettlementClient BHash) : Prop := {
  sv_block : forall n x, n <= N -> fin_block F n = Some x -> get_starknet_block v n = Ok x;
  sv_unknown : forall n e, get_starknet_block v n = Err e -> e = UnknownStarknetBlock n;
  sv_chain_id : forall h, exists c, sc_chain_id v h = Ok c;
  sv_messages : forall h t, exists ms, sc_tx_messages_to_l1 v h t = Ok ms;
}.

(** A block whose output can be built: its header hashes, and its L1 handlers
    have calldata. *)
Definition settleable (b : Block) : Prop :=
  (exists bh, header_hash (b_header b) = Ret bh) /\
  Forall (fun tx => match tx with TL1Handler t => l1_calldata t <> [] | _ => True end) (b_transactions b).

Definition gapless (N : Z) : Prop :=
  forall n, n0 < n <= N -> exists b h, fin_block F n = Some (b, h) /\ settleable b.

(** The notification of block [N]. *)
Definition announces (nt : Notification BHash) (N : Z) : Prop :=
  honest_notification F nt /\ serves N (nt_client nt) /\ gapless N /\
  exists b, find_starknet_block (sub_digest (nt_header nt)) = Ok b /\ h_block_number (b_header b) = N.

Lemma collect_messages_total v N c h txs to_l1 to_l2 :
  serves N v -> Forall (fun tx => match tx with TL1Handler t => l1_calldata t <> [] | _ => True end) txs ->
  exists r, collect_messages v c h txs to_l1 to_l2 = Ret (Ok r).
Proof.
  intros Hv Htxs. revert to_l1 to_l2. induction Htxs as [|tx txs Htx _ IH]; intros to_l1 to_l2; cbn [collect_messages].
  { eauto. }
  destruct (sv_messages _ _ Hv h (to_new TransactionHashT (tx_compute_hash tx c false))) as [ms Hms].
  destruct tx as [| | |t]; cbn [outcome_bind]; try (rewrite Hms; apply IH).
  unfold m12_from_tx. destruct (l1_calldata t) eqn:E; [done|]. cbn [outcome_bind]. rewrite Hms. apply IH.
Qed.

Lemma update_progress spec v N k st b h s :
  available spec -> honest F v -> serves N v -> in_step s k st -> fin_block F (k + 1) = Some (b, h) -> settleable b ->
  exists st' s', update_starknet_state v st b h (fin_config_hash F) s = Ret (Ok st', s') /\ in_step s' (k + 1) st'.
Proof.
  intros Hav Hv Hsv Hs Hb [[bh Hh] Htxs]. destruct (HF _ _ _ Hb) as [Hn Hw].
  assert (exists st' s', update_starknet_state v st b h (fin_config_hash F) s = Ret (Ok st', s')) as (st' & s' & Hu).
  { unfold update_starknet_state, etry, ebind, eret, elift. destruct (sv_chain_id _ _ Hsv h) as [c ->]. simpl.
    destruct (collect_messages_total v N c h _ [] [] Hsv Htxs) as [ms ->]. rewrite Hh.
    match goal with |- context [update_state ?o _] => edestruct (av_update _ Hav o s k) as [s' ->] end; simpl; [| | |eauto].
    - by rewrite (step_state _ _ _ Hs).
    - rewrite settled_number by apply Hs. by rewrite (step_from _ _ _ Hs).
    - rewrite Hn. by apply u64_of_stark. }
  exists st', s'. split; [done|].
  destruct (update_starknet_state_spec _ _ _ _ _ _ _ _ Hv Hb Hu) as [[_ Hr]|(o & Ho & Hhist & Hr)]; [by edestruct Hr|].
  rewrite (Hr _ eq_refl). eapply in_step_next; eauto.
Qed.

Lemma catch_up_progress spec v rounds k N block notified st s :
  available spec -> honest F v -> serves N v -> gapless N -> fin_block F N = Some (block, notified) ->
  n0 <= k -> k + Z.of_nat rounds = N -> in_step s k st ->
  exists st' s', catch_up v rounds (fin_config_hash F) k N block notified st s = Ret (Ok (st', N), s') /\ in_step s' N st'.
Proof.
  intros Hav Hv Hsv Hg HN. revert k st s. induction rounds as [|rounds IH]; intros k st s Hk Hr Hs; cbn [catch_up].
  { replace N with k by lia. by exists st, s. }
  destruct (Hg (k + 1)) as (b & h & Hb & Hset); [lia|].
  destruct (update_progress _ _ _ _ _ _ _ _ Hav Hv Hsv Hs Hb Hset) as (st' & s' & Hu & Hs').
  assert ((if k + 1 =? N then Ok (block, notified) else get_starknet_block v (k + 1)) = Ok (b, h)) as ->.
  { destruct (k + 1 =? N) eqn:E; zbool; [congruence|]. apply (sv_block _ _ Hsv); [lia|done]. }
  unfold etry, ebind, eret at 1. cbn [fst snd]. rewrite Hu. apply IH; [lia..|done].
Qed.

Lemma verify_state_ok N v s k st :
  serves N v -> in_step s k st -> st_state_root genesis = temporary_global_state_root_getter ->
  verify_starknet_state v st = Ok tt.
Proof.
  intros Hsv [Hc -> _] Hroot. unfold verify_starknet_state. rewrite settled_number by done. simpl.
  destruct (get_starknet_block v _) eqn:E; [|by rewrite (sv_unknown _ _ Hsv _ _ E)].
  rewrite bool_decide_eq_false_2; [done|]. intros Hne. apply Hne. revert Hc.
  destruct (history s) as [|o l _] using rev_ind; intros Hc; [done|].
  rewrite settled_snoc. by destruct (Hc (length l) o) as (? & ? & ? & _ & _ & ? & _); [apply list_lookup_middle|].
Qed.

Lemma follow_progress spec nts Ns k st s :
  available spec -> st_state_root genesis = temporary_global_state_root_getter ->
  Forall2 announces nts Ns -> in_step s k st ->
  exists s' st', follow (fin_config_hash F) nts st k s = Ret (Ok tt, s') /\ in_step s' (fold_left Z.max Ns k) st'.
Proof.
  intros Hav Hroot Hnts. revert k st s.
  induction Hnts as [|nt N nts Ns ([Hv Hnt] & Hsv & Hg & b & Hb & HN) _ IH]; intros k st s Hs; cbn [follow fold_left].
  { by exists s, st. }
  assert (Hk : n0 <= k) by (rewrite (step_from _ _ _ Hs); pose proof (zlen_nonneg (history s)); lia).
  pose proof (Hnt _ Hb) as HbN. rewrite HN in HbN. rewrite Hb. unfold etry, ebind, eret at 1. simpl. rewrite HN.
  destruct (N <? k) eqn:E1; zbool; [rewrite Z.max_l by lia; by apply IH|].
  destruct (k =? N) eqn:E2; zbool.
  { unfold eret at 1. rewrite (verify_state_ok _ _ _ _ _ Hsv Hs Hroot). rewrite Z.max_l by lia. by apply IH. }
  destruct (catch_up_progress spec (nt_client nt) (Z.to_nat (N - k)) k N b (nt_hash nt) st s) as (st1 & s1 & -> & Hs1);
    [done..|lia|done|]. rewrite Z.max_r by lia. by apply IH.
Qed.

(** C10: with a settlement layer that accepts what continues its ledger, and a
    node that knows the finalized blocks it announces, the settlement loop settles
    every block up to the highest one announced: it returns without an error and
    the ledger then ends at that number, also when notifications skip blocks,
    repeat them, or name blocks settled before. *)
Theorem settlement_progress spec v N nts Ns s :
  available spec -> st_state_root genesis = temporary_global_state_root_getter ->
  honest F v -> serves N v -> verify_starknet_spec v spec = Ok tt ->
  Forall2 announces nts Ns -> consecutive F n0 genesis (history s) ->
  exists s', sync_state_loop v nts s = Ret (Ok tt, s') /\
    n0 + zlen (history s') = fold_left Z.max Ns (n0 + zlen (history s)) /\
    u64_try_from_stark (st_block_number (settled genesis (history s'))) = Some (n0 + zlen (history s')).
Proof.
  intros Hav Hroot Hv Hsv Hspec Hnts Hs. unfold sync_state_loop, etry, ebind, eret.
  destruct (av_initialized _ Hav s) as [s1 E1]. rewrite E1. apply is_initialized_reads in E1. simpl.
  destruct (av_spec _ Hav s1) as [s2 E2]. rewrite E2. apply get_chain_spec_reads in E2. rewrite Hspec.
  destruct (av_state _ Hav s2) as (st & s3 & E3). rewrite E3. pose proof (get_state_settled _ _ _ E3) as ->.
  apply get_state_reads in E3. simpl in E3. rewrite <- E3.
  assert (Heq : history s3 = history s) by (by rewrite E3, E2, E1).
  assert (Hs3 : in_step s3 (n0 + zlen (history s)) (settled genesis (history s3))) by (constructor; by rewrite ?Heq).
  rewrite (verify_state_ok _ _ _ _ _ Hsv Hs3 Hroot), settled_number by apply Hs3. simpl.
  rewrite (verify_spec_config _ _ Hv Hspec), Heq in *.
  destruct (follow_progress spec nts Ns _ _ s3 Hav Hroot Hnts Hs3) as (s' & st' & Hf & Hs').
  exists s'. split; [exact Hf|]. split; [by rewrite <- (step_from _ _ _ Hs')|]. apply settled_number, Hs'.
Qed.

End sound.

(** ** Witnesses *)
Module SettlementWitness.
Export Deps.Reference BlockWitness SnosWitness.

#[export] Instance hasher : HasherT := PedersenHasher.

(** A chain of two blocks, with numbers for hashes; the second one handles a
    message from L1 and sends one to it. *)
Definition l2_block : Block :=
  mk_block (mk_header stark_default 1 (mk_new stark_default) 0 0 0 0 (mk_rp None 0) None)
    [TL1Handler (mk_l1 1 (felt_of_Z 9) (felt_of_Z 2) [felt_of_Z 8; felt_of_Z 4])].
Definition msg : MessageToL1 := mk_mtl1 (mk_new (f 6)) (be_array 20 7) [f 8].

Definition chain : Finalized Z := {|
  fin_block n := if n =? 0 then Some (block_default, 0) else if n =? 1 then Some (l2_block, 1) else None;
  fin_config_hash := f 5;
  fin_chain_id _ := felt_of_Z 5;
  fin_messages _ _ := [msg];
|}.
Definition header_of (b : Block) : SubHeader Z := mk_sub (h_block_number (b_header b)) 0 [block_digest b].

Definition view : SettlementClient Z := {|
  sc_hash n := Ok (if (n =? 0) || (n =? 1) then Some n else None);
  sc_header h := Ok (Some (header_of (if h =? 0 then block_default else l2_block)));
  sc_best_hash := 1;
  sc_program_hash _ := Ok (felt_of_Z 7);
  sc_config_hash _ := Ok (f 5);
  sc_chain_id _ := Ok (felt_of_Z 5);
  sc_tx_messages_to_l1 _ _ := Ok [msg];
|}.
Definition spec : StarknetSpec := mk_spec (f 5) (to_stark (felt_of_Z 7)).
Definition start : StarknetState := mk_state stark_default (f 0).

(** A contract that appends every output to its ledger. *)
#[export] Instance contract : SettlementProvider Z (list StarknetOsOutput) := {|
  is_initialized := eret (Ok true);
  get_chain_spec := eret (Ok spec);
  get_state := fun s => Ret (Ok (settled start s), s);
  update_state o := fun s => Ret (Ok tt, s ++ [o]);
|}.
#[export] Instance contract_ledger : SettlementLedger contract start id.
Proof. constructor; unfold within; simpl; unfold eret; intros; simplify_eq; done. Qed.

Lemma find_single b : find_starknet_block [block_digest b] = Ok b.
Proof. unfold find_starknet_block, find_log. cbn [find_log_loop]. by rewrite try_to_log_block. Qed.

Lemma view_block n : get_starknet_block view n =
  match fin_block chain n with Some x => Ok x | None => Err (UnknownStarknetBlock n) end.
Proof.
  destruct (Z.eq_dec n 0) as [->|]; [exact (f_equal (fun r => let? b := map_err DigestLog r in Ok (b, 0)) (find_single block_default))|].
  destruct (Z.eq_dec n 1) as [->|]; [exact (f_equal (fun r => let? b := map_err DigestLog r in Ok (b, 1)) (find_single l2_block))|].
  unfold get_starknet_block, u32_max. cbn [view sc_hash chain fin_block].
  by rewrite !(proj2 (Z.eqb_neq _ 0)), !(proj2 (Z.eqb_neq _ 1)) by lia.
Qed.

Lemma view_honest : honest chain view.
Proof.
  constructor; [|by intros c [= <-]|by intros h c [= <-]|by intros h t ms [= <-]].
  intros n x. rewrite view_block. destruct (fin_block chain n); [|done]. by intros [= <-].
Qed.

Lemma view_serves N : serves chain N view.
Proof.
  constructor; [| |by eexists|by eexists].
  - intros n x _ Hx. by rewrite view_block, Hx.
  - intros n e. rewrite view_block. destruct (fin_block chain n); [done|]. by intros [= <-].
Qed.

Lemma chain_numbered : numbered chain.
Proof.
  intros n b h. simpl. destruct (n =? 0) eqn:E0; zbool; [intros [= <- <-]; subst; simpl; lia|].
  destruct (n =? 1) eqn:E1; zbool; [intros [= <- <-]; subst; simpl; lia|done].
Qed.

Definition notice : Notification Z := mk_notification view 1 (header_of l2_block).

Lemma notice_honest : honest_notification chain notice.
Proof. split; [exact view_honest|]. unfold notice, header_of. cbn. rewrite find_single. by intros b [= <-]. Qed.

Lemma notice_announces : announces chain 0 notice 1.
Proof.
  split; [exact notice_honest|]. split; [apply view_serves|]. split.
  - intros n Hn. exists l2_block, 1. replace n with 1 by lia. split; [done|]. split; [eexists; reflexivity|].
    by repeat constructor.
  - exists l2_block. unfold notice, header_of. cbn [nt_header sub_digest]. by rewrite find_single.
Qed.

Lemma contract_available : available start id spec (PR := contract).
Proof. constructor; simpl; unfold eret; eauto. Qed.

Lemma consecutive_nil n0 genesis : consecutive chain n0 genesis [].
Proof. by intros i o. Qed.

Lemma run_ok {A B} (m : outcome (A * B)) : match m with Ret _ => true | Panic => false end = true ->
  exists a b, m = Ret (a, b).
Proof. destruct m as [[a b]|]; [eauto|done]. Qed.

End SettlementWitness.
Import SettlementWitness.

Lemma settlement_consecutive_witness :
  exists r s', sync_state (PR := contract) 10 [(view, [notice])] [] = Ret (r, s') /\ consecutive chain 0 start s'.
Proof.
  destruct (run_ok (sync_state (PR := contract) 10 [(view, [notice])] [])) as (r & s' & Hrun); [vm_compute; reflexivity|].
  exists r, s'. split; [exact Hrun|].
  apply (settlement_consecutive chain 0 start id ltac:(lia) eq_refl chain_numbered 10 [(view, [notice])] [] r s');
    [|apply consecutive_nil|exact Hrun].
  constructor; [|constructor]. split; [exact view_honest|]. constructor; [exact notice_honest|constructor].
Defined.

Lemma settlement_progress_witness :
  exists s', sync_state_loop (PR := contract) view [notice; notice] [] = Ret (Ok tt, s') /\ zlen s' = 1.
Proof.
  destruct (settlement_progress chain 0 start id ltac:(lia) eq_refl chain_numbered spec view 1 [notice; notice] [1; 1] [])
    as (s' & Hrun & Hlen & _).
  - exact contract_available.
  - reflexivity.
  - exact view_honest.
  - apply view_serves.
  - vm_compute. reflexivity.
  - repeat constructor; apply notice_announces.
  - apply consecutive_nil.
  - exists s'. split; [exact Hrun|]. exact Hlen.
Defined.
