(* ===== verification/L1Messages.v ===== *)
(** * Messages from L1

    Models [crates/client/l1-messages/src]: the conversion of an L1 log into a
    transaction ([contract.rs]) and the worker that submits it to the pool and
    remembers how far it got ([worker.rs]).  The L1 event stream, the pool and the
    client are parameters; composed with the pallet, a message is executed once. *)
From S2P Require Import Prelude Bytes Deps Felt Hashers Transactions ComputeHash Blockifier Conversions Fee.
From S2P Require Import Execution Block CallTrace PalletStorage Pallet PalletEffects Chain ChainRun Runtime Db.
Local Open Scope Z_scope.

(** ** The log of the core contract *)
Record LogMessageToL2Filter := mk_log {
  log_from_address : array 20;
  log_to_address : U256;
  log_selector : U256;
  log_payload : list U256;
  log_nonce : U256;
  log_fee : U256;
}.

Inductive L1EventToTransactionError :=
| InvalidCalldata (e : Felt252WrapperError) | InvalidContractAddress (e : Felt252WrapperError)
| InvalidEntryPointSelector (e : Felt252WrapperError) | InvalidFromAddress (e : Felt252WrapperError)
| InvalidL1Nonce (e : Felt252WrapperError).

Section parse.
  Context `{SF : StarknetFf} `{PT : PrimitiveTypes}.

(** [U256::from_big_endian] of twenty bytes pads them on the left. *)
Definition u256_of_address (a : array 20) : U256 := u256_from_big_endian (be_array 32 (be_val (arr a))).

Definition parse_handle_l1_message_transaction (event : LogMessageToL2Filter)
  : result L1EventToTransactionError HandleL1MessageTransaction :=
  let? from_address := map_err InvalidFromAddress (felt_try_from_u256 (u256_of_address (log_from_address event))) in
  let? contract_address := map_err InvalidContractAddress (felt_try_from_u256 (log_to_address event)) in
  let? entry_point_selector := map_err InvalidEntryPointSelector (felt_try_from_u256 (log_selector event)) in
  let? nonce := map_err InvalidL1Nonce (felt_try_from_u256 (log_nonce event)) in
  let? nonce := map_err InvalidL1Nonce (felt_try_into_u64 nonce) in
  let? event_payload := map_err InvalidCalldata (try_map felt_try_from_u256 (log_payload event)) in
  Ok (mk_l1 nonce contract_address entry_point_selector (from_address :: event_payload)).

End parse.

(** ** The worker *)
Inductive L1MessagesWorkerError (PoolError : Type) :=
| ConvertTransactionRuntimeApiError | DatabaseError (e : DbError) | RuntimeApiError | SubmitTxError (e : PoolError)
| ToFeeError | ToTransactionError (e : L1EventToTransactionError).
Arguments ConvertTransactionRuntimeApiError {PoolError}.
Arguments DatabaseError {PoolError}.
Arguments RuntimeApiError {PoolError}.
Arguments SubmitTxError {PoolError}.
Arguments ToFeeError {PoolError}.
Arguments ToTransactionError {PoolError}.

(** The transaction pool, with its content as state. *)
Class TransactionPool (BHash PoolState PoolError TxHash : Type) `{ContractClassI} := {
  submit_one : BHash -> RuntimeCall -> effr PoolState PoolError TxHash }.

(** The client while one message is processed. *)
Record L1Client (BHash : Type) `{ContractClassI} := mk_l1_client {
  lc_best_hash : BHash;
  lc_l1_nonce_unused : BHash -> Nonce -> result unit bool;
  lc_convert_l1_transaction : BHash -> HandleL1MessageTransaction -> Z -> result unit RuntimeCall;
}.
Arguments mk_l1_client {BHash _}.
Arguments lc_best_hash {BHash _}.
Arguments lc_l1_nonce_unused {BHash _}.
Arguments lc_convert_l1_transaction {BHash _}.

(** An item of the event stream: the log, its L1 block and its index there. *)
Record L1Item (BHash : Type) `{ContractClassI} := mk_item {
  it_event : LogMessageToL2Filter;
  it_block_number : Z;
  it_log_index : Z;
  it_client : L1Client BHash;
}.
Arguments mk_item {BHash _}.
Arguments it_event {BHash _}.
Arguments it_block_number {BHash _}.
Arguments it_log_index {BHash _}.
Arguments it_client {BHash _}.

Section worker.
  Context `{SF : StarknetFf} `{SA : StarknetApi} `{PT : PrimitiveTypes} `{CC : ContractClassI}.
  Context {BHash PoolState PoolError TxHash : Type} {TP : TransactionPool BHash PoolState PoolError TxHash}.
  Context `{CM : Commit} {SL : Scale LastSyncedEventBlock}.

Definition process_l1_message (event : LogMessageToL2Filter) (client : L1Client BHash) (l1_block_number event_index : Z)
  : effr (PoolState * Database) (L1MessagesWorkerError PoolError) (option TxHash) :=
  if u128_max <? bval (log_fee event) then eret (Err ToFeeError)
  else
    let fee := bval (log_fee event) in
    transaction <-? eret (map_err ToTransactionError (parse_handle_l1_message_transaction event));;
    let best_block_hash := lc_best_hash client in
    match lc_l1_nonce_unused client best_block_hash (mk_new (stark_from_uint (l1_nonce transaction))) with
    | Err _ => eret (Err RuntimeApiError)
    | Ok false => eret (Ok None)
    | Ok true =>
        extrinsic <-? eret (map_err (fun _ => ConvertTransactionRuntimeApiError)
                              (lc_convert_l1_transaction client best_block_hash transaction fee));;
        tx_hash <-? emap_err SubmitTxError (on_fst (submit_one best_block_hash extrinsic));;
        emap_err DatabaseError
          (on_snd (update_last_synced_l1_block_with_event (mk_lseb l1_block_number event_index))) ;;?
        eret (Ok (Some tx_hash))
    end.

(** The body of the [while let] loop; errors are logged.  [as_u64] panics on an
    index that does not fit. *)
Definition process_item (item : result unit (L1Item BHash)) : eff (PoolState * Database) unit :=
  match item with
  | Err _ => eret tt
  | Ok item =>
      eassert (it_log_index item <=? u64_max) ;;;
      process_l1_message (it_event item) (it_client item) (it_block_number item) (it_log_index item) ;;;
      eret tt
  end.

Fixpoint process_items (items : list (result unit (L1Item BHash))) : eff (PoolState * Database) unit :=
  match items with [] => eret tt | item :: items' => process_item item ;;; process_items items' end.

(** [run_worker]; the argument is the stream of the events from a block on. *)
Definition run_worker (stream_from : Z -> result unit (list (result unit (L1Item BHash))))
  : eff (PoolState * Database) unit :=
  r <-- on_snd last_synced_l1_block_with_event;;
  match r with
  | Err _ => eret tt
  | Ok last_synced_event_block =>
      match stream_from (lseb_block_number last_synced_event_block) with
      | Err _ => eret tt
      | Ok items => process_items items
      end
  end.

End worker.

(** ** Properties *)

(** A log that describes a message: everything fits the field, the nonce 64 bits
    and the fee 128 bits. *)
Definition valid_log (e : LogMessageToL2Filter) : Prop :=
  bval (log_fee e) < 2 ^ 128 /\ bval (log_nonce e) < 2 ^ 64 /\ bval (log_to_address e) < P
  /\ bval (log_selector e) < P /\ Forall (fun u => bval u < P) (log_payload e).

(** The transaction it describes. *)
Record describes_log (e : LogMessageToL2Filter) (tx : HandleL1MessageTransaction) : Prop := {
  dl_nonce : l1_nonce tx = bval (log_nonce e);
  dl_contract : felt_val (l1_contract_address tx) = bval (log_to_address e);
  dl_selector : felt_val (l1_entry_point_selector tx) = bval (log_selector e);
  dl_calldata : map felt_val (l1_calldata tx) = be_val (arr (log_from_address e)) :: map bval (log_payload e);
}.

Section parse_properties.
  Context `{SF : StarknetFf} {SFL : StarknetFfLaws} `{PT : PrimitiveTypes} {PTL : PrimitiveTypesLaws}.

Lemma felt_of_u256 u :
  (exists f, felt_try_from_u256 u = Ok f /\ felt_val f = bval u /\ bval u < P)
  \/ (felt_try_from_u256 u = Err FromArrayError /\ P <= bval u).
Proof.
  unfold felt_try_from_u256. destruct (felt_try_from_array _) as [f|e] eqn:E.
  - apply felt_try_from_array_ok in E. rewrite u256_to_big_endian_val in E. left. exists f.
    pose proof (felt_range f). split_and!; [done|lia|lia].
  - apply felt_try_from_array_err in E as [E ->]. rewrite u256_to_big_endian_val in E. by right.
Qed.

Lemma felts_of_payload l :
  (exists fs, try_map felt_try_from_u256 l = Ok fs /\ map felt_val fs = map bval l /\ Forall (fun u => bval u < P) l)
  \/ (try_map felt_try_from_u256 l = Err FromArrayError /\ ~ Forall (fun u : U256 => bval u < P) l).
Proof.
  induction l as [|u l IH]; simpl; [left; by exists []|].
  destruct (felt_of_u256 u) as [(f & -> & Hf & Hu)|[-> Hu]]; simpl.
  - destruct IH as [(fs & -> & Hfs & Hl)|[-> Hl]]; simpl.
    + left. exists (f :: fs). simpl. rewrite Hf, Hfs. by split_and!; [|done|constructor].
    + right. split; [done|]. by inversion 1.
  - right. split; [done|]. inversion 1. lia.
Qed.

(** The address of an L1 account always fits. *)
Lemma address_felt a : exists f, felt_try_from_u256 (u256_of_address a) = Ok f /\ felt_val f = be_val (arr a).
Proof.
  assert (Ha : 0 <= be_val (arr a) < 2 ^ 160) by exact (array_val_bound _ a).
  assert (Hv : bval (u256_of_address a) = be_val (arr a)).
  { unfold u256_of_address. rewrite u256_from_big_endian_val. apply be_array_val.
    change (256 ^ Z.of_nat 32) with (2 ^ 256). lia. }
  assert (2 ^ 160 < P) by reflexivity.
  destruct (felt_of_u256 (u256_of_address a)) as [(f & -> & Hf & _)|[_ Hu]]; [|lia]. exists f. split; [done|lia].
Qed.

Lemma parse_spec e :
  if decide (bval (log_nonce e) < 2 ^ 64 /\ bval (log_to_address e) < P /\ bval (log_selector e) < P
             /\ Forall (fun u => bval u < P) (log_payload e))
  then exists tx, parse_handle_l1_message_transaction e = Ok tx /\ describes_log e tx
  else exists err, parse_handle_l1_message_transaction e = Err err.
Proof.
  unfold parse_handle_l1_message_transaction. destruct (address_felt (log_from_address e)) as (fa & -> & Hfa). simpl.
  destruct (felt_of_u256 (log_to_address e)) as [(ft & -> & Hft & Ht)|[-> Ht]]; simpl;
    [|destruct (decide _) as [(_ & ? & _)|_]; [lia|eauto]].
  destruct (felt_of_u256 (log_selector e)) as [(fs & -> & Hfs & Hs)|[-> Hs]]; simpl;
    [|destruct (decide _) as [(_ & _ & ? & _)|_]; [lia|eauto]].
  destruct (felt_of_u256 (log_nonce e)) as [(fn & -> & Hfn & Hn)|[-> Hn]]; simpl;
    [|destruct (decide _) as [(? & _)|_]; [assert (2 ^ 64 < P) by reflexivity; lia|eauto]].
  unfold felt_try_into_u64. rewrite u64_try_from_fe_spec. fold (felt_val fn). rewrite Hfn. unfold u64_max.
  destruct (bval (log_nonce e) <=? 2 ^ 64 - 1) eqn:E; zbool; simpl;
    [|destruct (decide _) as [(? & _)|_]; [lia|eauto]].
  destruct (felts_of_payload (log_payload e)) as [(fp & -> & Hfp & Hp)|[-> Hp]]; simpl;
    [|destruct (decide _) as [(_ & _ & _ & ?)|_]; [done|eauto]].
  destruct (decide _) as [_|Hno]; [|destruct Hno; split_and!; [lia|done..]].
  eexists. split; [reflexivity|]. constructor; simpl; [done..|]. by rewrite Hfa, Hfp.
Qed.

End parse_properties.

Section delivery.
  Context `{SF : StarknetFf} {SFL : StarknetFfLaws} `{SA : StarknetApi} {SAL : StarknetApiLaws}.
  Context `{PT : PrimitiveTypes} {PTL : PrimitiveTypesLaws} `{SC : StarknetCrypto} `{FX : FixedPoint} `{LC : LogCodec} {LCL : LogCodecLaws}.
  Context `{BL : Blockifier} {BLL : BlockifierLaws} {CFG : Config}.
  Context {BHash PoolState PoolError TxHash : Type} {TP : TransactionPool BHash PoolState PoolError TxHash}.
  Context `{CM : Commit} {SL : Scale LastSyncedEventBlock} {SLL : ScaleLaws LastSyncedEventBlock}.

(** The client of a node whose best block has the storage [p]. *)
Definition runtime_client (h : BHash) (p : Pallet) : L1Client BHash := {|
  lc_best_hash := h;
  lc_l1_nonce_unused _ n := Ok (l1_nonce_unused n p);
  lc_convert_l1_transaction _ tx fee := Ok (convert_l1_transaction tx fee);
|}.

(** What submitting an extrinsic and recording the progress does. *)
Definition submission (h : BHash) (call : RuntimeCall) (block index : Z)
  : effr (PoolState * Database) (L1MessagesWorkerError PoolError) (option TxHash) :=
  tx_hash <-? emap_err SubmitTxError (on_fst (submit_one h call));;
  emap_err DatabaseError (on_snd (update_last_synced_l1_block_with_event (mk_lseb block index))) ;;?
  eret (Ok (Some tx_hash)).

Lemma process_valid e h p block index s :
  valid_log e -> exists tx, describes_log e tx
    /\ process_l1_message e (runtime_client h p) block index s
       = if l1_nonce_unused (l1_key tx) p
         then submission h (RCStarknet (consume_l1_message tx (bval (log_fee e)))) block index s
         else Ret (Ok None, s).
Proof.
  intros (Hfee & Hvalid). pose proof (parse_spec e) as Hp. destruct (decide _) as [_|Hno]; [|by destruct Hno].
  destruct Hp as (tx & Hp & Htx). exists tx. split; [done|]. unfold process_l1_message.
  destruct (u128_max <? _) eqn:E; zbool; [unfold u128_max in E; lia|]. rewrite Hp.
  unfold etry at 1, ebind at 1, eret at 1. cbn [map_err runtime_client lc_l1_nonce_unused lc_best_hash].
  fold (l1_key tx). by destruct (l1_nonce_unused (l1_key tx) p).
Qed.

Lemma process_invalid e c block index s :
  ~ valid_log e -> exists err, process_l1_message e c block index s = Ret (Err err, s).
Proof.
  intros Hno. unfold process_l1_message. destruct (u128_max <? _) eqn:E; zbool; [by eexists|].
  pose proof (parse_spec e) as Hp. destruct (decide _) as [Hv|_].
  - destruct Hno. split; [unfold u128_max in E; lia|done].
  - destruct Hp as [err ->]. by eexists.
Qed.

(** Executing the message uses up its nonce, on every storage the chain has from then on. *)
Lemma executed_marks tx fee q q' bs c' :
  nonces_canonical q -> dispatch OriginNone (consume_l1_message tx fee) q = Ret (Ok tt, q') ->
  rtc step (mk_chain _ Building q' bs) c' -> l1_nonce_unused (l1_key tx) (state c') = false.
Proof.
  intros Hn Hd Hs. pose proof (step_marks (mk_chain _ Building q bs) _ Hn (step_dispatch _ bs _ _ _ _ Hd)) as [Hn' _].
  destruct (dispatch_tx_inv OriginNone (consume_l1_message tx fee) (TL1Handler tx) q q' eq_refl Hd Hn) as (p1 & infos & Hev & -> & _).
  apply (steps_marks _ _ Hn') in Hs. revert Hs. unfold l1_nonce_unused, is_l1_message_executed.
  cbn [state recorded ledger l1_messages]. rewrite (ev_ledger _ _ Hev). cbn. intros Hs.
  rewrite bool_decide_true; [done|]. set_solver.
Qed.

(** C16: an L1 message reaches the chain once, as it was sent.  A log with a field
    out of range is refused and changes nothing.  For a valid one the worker looks
    at the best block: if the nonce is unused there, it submits exactly the
    extrinsic that consumes the message (same nonce, contract, selector and fee,
    the sender in front of the payload), and otherwise it submits nothing.  Once
    that extrinsic has been dispatched successfully, whatever fee it carried, the same
    log is never submitted again: on no storage that the chain reaches from there, by
    whatever calls and blocks, does the worker submit anything for it. *)
Theorem l1_message_delivery e h p block index s :
  (~ valid_log e -> exists err, process_l1_message e (runtime_client h p) block index s = Ret (Err err, s))
  /\ (valid_log e -> exists tx, describes_log e tx
      /\ process_l1_message e (runtime_client h p) block index s
         = (if l1_nonce_unused (l1_key tx) p
            then submission h (RCStarknet (consume_l1_message tx (bval (log_fee e)))) block index s
            else Ret (Ok None, s))
      /\ forall q q' fee bs c' h' block' index' s',
           nonces_canonical q -> dispatch OriginNone (consume_l1_message tx fee) q = Ret (Ok tt, q') ->
           rtc step (mk_chain _ Building q' bs) c' ->
           process_l1_message e (runtime_client h' (state c')) block' index' s' = Ret (Ok None, s')).
Proof.
  split; [apply process_invalid|]. intros Hv. destruct (process_valid e h p block index s Hv) as (tx & Htx & Hrun).
  exists tx. split_and!; [done|done|]. intros q q' fee bs c' h' block' index' s' Hn Hd Hs.
  destruct (process_valid e h' (state c') block' index' s' Hv) as (tx' & Htx' & ->).
  assert (Hk : l1_key tx' = l1_key tx) by (unfold l1_key; by rewrite (dl_nonce _ _ Htx), (dl_nonce _ _ Htx')).
  by rewrite Hk, (executed_marks _ _ _ _ _ _ Hn Hd Hs).
Qed.

(** A message that cannot be submitted is passed over: when a later one succeeds,
    the recorded progress is that of the later one, and a restart asks for the
    events of its block on. *)
Theorem failed_message_passed_over (i1 i2 : L1Item BHash) ps ps1 ps2 db db2 err tx_hash r2 :
  it_log_index i1 <= u64_max -> it_log_index i2 <= u64_max ->
  process_l1_message (it_event i1) (it_client i1) (it_block_number i1) (it_log_index i1) (ps, db)
    = Ret (Err (SubmitTxError err), (ps1, db)) ->
  process_l1_message (it_event i2) (it_client i2) (it_block_number i2) (it_log_index i2) (ps1, db)
    = Ret (r2, (ps2, db2)) -> r2 = Ok (Some tx_hash) ->
  process_items [Ok i1; Ok i2] (ps, db) = Ret (tt, (ps2, db2))
  /\ last_synced_l1_block_with_event db2 = Ret (Ok (mk_lseb (it_block_number i2) (it_log_index i2)), db2).
Proof.
  intros H1 H2 Hp1 Hp2 ->. split.
  - unfold process_items, process_item, ebind, eassert, eret.
    rewrite (proj2 (Z.leb_le _ _)) by done. rewrite Hp1. rewrite (proj2 (Z.leb_le _ _)) by done. by rewrite Hp2.
  - revert Hp2. unfold process_l1_message. destruct (_ <? _); [done|].
    unfold etry, ebind, emap_err, eret. destruct (map_err ToTransactionError _) as [tx|]; [|done].
    destruct (lc_l1_nonce_unused _ _ _) as [[]|]; [|done..].
    destruct (map_err _ _) as [x|]; [|done]. unfold ebind, on_fst, on_snd.
    destruct (submit_one _ _ _) as [[[th|] ps3]|]; [|done..]. simpl.
    destruct (update_last_synced_l1_block_with_event _ db) as [[[[]|] db3]|] eqn:Hu; simpl; [|done..].
    intros [= _ _ <-]. apply commit_one in Hu as ->.
    unfold last_synced_l1_block_with_event, etry, ebind. erewrite read_opt_hit; [done|]. apply lookup_insert_eq.
Qed.

End delivery.

(** ** Witnesses *)
Module L1Witness.
Export ChainWitness DbWitness.

(** A pool that keeps what it is given and answers with its size. *)
#[export] Instance w_pool : TransactionPool Z (list RuntimeCall) unit nat := {|
  submit_one _ call := fun l => Ret (Ok (length l), l ++ [call]) |}.

Definition u (n : Z) : U256 := u256_from_u128 n.
Definition w_log : LogMessageToL2Filter := mk_log (be_array 20 77) (u 9) (u 2) [u 8] (u 5) (u 6).

Lemma w_valid : valid_log w_log.
Proof. split_and!; [vm_compute; reflexivity..|]. repeat constructor. Qed.

End L1Witness.
Import L1Witness.

Lemma l1_message_delivery_witness :
  exists tx, describes_log w_log tx
    /\ process_l1_message w_log (runtime_client 0 (state w_chain)) 3 1 ([], ∅)
       = submission 0 (RCStarknet (consume_l1_message tx 6)) 3 1 ([], ∅).
Proof.
  destruct (l1_message_delivery w_log 0 (state w_chain) 3 1 ([], ∅)) as [_ H].
  destruct (H w_valid) as (tx & Htx & Hrun & _). exists tx. split; [exact Htx|].
  assert (Hk : l1_key tx = mk_new (stark_from_uint 5)) by (unfold l1_key; rewrite (dl_nonce _ _ Htx); reflexivity).
  rewrite Hrun, Hk.
  assert (Hu : l1_nonce_unused (mk_new (stark_from_uint 5)) (state w_chain) = true) by (vm_compute; reflexivity).
  rewrite Hu. reflexivity.
Defined.
