(* ===== verification/StateDiff.v ===== *)
(** * State diffs from storage changes

    Models [crates/client/commitment-state-diff/src/lib.rs] and the storage
    prefixes of [crates/primitives/storage/src/lib.rs]: the raw storage changes of
    an imported block are turned into the [ThinStateDiff] that is published, by a
    stream with two states.  The diff replays the block: applied to the storage
    before it, it gives the storage after it. *)
From S2P Require Import Prelude Bytes Deps Felt Hashers Transactions Blockifier Block PalletStorage Db MappingSync.
From S2P Require Import Settlement.
Local Open Scope Z_scope.

(** ** Prefixes *)

(** [sp_io::hashing::twox_128]. *)
Class Twox := { twox_128 : list byte -> array 16 }.

Definition PALLET_STARKNET : list byte := bytes_of "Starknet".
Definition STARKNET_CONTRACT_CLASS_HASH : list byte := bytes_of "ContractClassHashes".
Definition STARKNET_NONCE : list byte := bytes_of "Nonces".
Definition STARKNET_STORAGE : list byte := bytes_of "StorageView".
Definition STARKNET_COMPILED_CLASS_HASH : list byte := bytes_of "CompiledClassHashes".

Definition storage_prefix `{Twox} (item : list byte) : list byte :=
  arr (twox_128 PALLET_STARKNET) ++ arr (twox_128 item).

Definition SN_NONCE_PREFIX `{Twox} : list byte := storage_prefix STARKNET_NONCE.
Definition SN_CONTRACT_CLASS_HASH_PREFIX `{Twox} : list byte := storage_prefix STARKNET_CONTRACT_CLASS_HASH.
Definition SN_STORAGE_PREFIX `{Twox} : list byte := storage_prefix STARKNET_STORAGE.
Definition SN_COMPILED_CLASS_HASH_PREFIX `{Twox} : list byte := storage_prefix STARKNET_COMPILED_CLASS_HASH.

(** The names of the storage items of a pallet have distinct hashes. *)
Class TwoxLaws `{Twox} : Prop := {
  twox_items : NoDup (map twox_128
    [STARKNET_NONCE; STARKNET_STORAGE; STARKNET_CONTRACT_CLASS_HASH; STARKNET_COMPILED_CLASS_HASH]);
}.

(** ** [indexmap::IndexMap]

    A map by the list of its entries in iteration order. *)
Class IndexMap := {
  im_get {K V : Type} `{EqDecision K} : K -> list (K * V) -> option V;
  im_insert {K V : Type} `{EqDecision K} : K -> V -> list (K * V) -> list (K * V);
  im_remove {K V : Type} `{EqDecision K} : K -> list (K * V) -> list (K * V);
}.

(** An insertion replaces the value of a key in place or appends an entry; a
    removal may reorder the other entries. *)
Class IndexMapLaws `{IM : IndexMap} : Prop := {
  im_get_spec {K V} `{EqDecision K} : forall (k : K) (v : V) m, NoDup m.*1 -> im_get k m = Some v <-> (k, v) ∈ m;
  im_insert_new {K V} `{EqDecision K} : forall (k : K) (v : V) m, k ∉ m.*1 -> im_insert k v m = m ++ [(k, v)];
  im_insert_old {K V} `{EqDecision K} : forall (k : K) (v : V) m,
    k ∈ m.*1 -> im_insert k v m = map (fun e => if decide (e.1 = k) then (k, v) else e) m;
  im_remove_spec {K V} `{EqDecision K} : forall (k : K) (m : list (K * V)),
    NoDup m.*1 -> im_remove k m ≡ₚ filter (fun e => e.1 <> k) m;
}.

(** ** The diff *)
Record ThinStateDiff := mk_diff {
  declared_classes : list (ClassHash * CompiledClassHash);
  storage_diffs : list (ContractAddress * list (StorageKey * StarkFelt));
  sd_nonces : list (ContractAddress * Nonce);
  deployed_contracts : list (ContractAddress * ClassHash);
  deprecated_declared_classes : list ClassHash;
  replaced_classes : list (ContractAddress * ClassHash);
}.

Definition empty_diff : ThinStateDiff := mk_diff [] [] [] [] [] [].

Record BlockDAData := mk_da_data {
  da_block_hash : BlockHash;
  da_state_diff : ThinStateDiff;
  da_num_addr_accessed : Z;
  da_block_number : Z;
  da_config_hash : StarkFelt;
  da_new_state_root : StarkFelt;
  da_previous_state_root : StarkFelt;
}.

Inductive BuildCommitmentStateDiffError :=
| SubstrateHeaderBackend | BlockNotFound | DigestLogNotFound (e : FindLogError) | FailedToGetConfigHash.

(** [sc_client_api::StorageNotification]: the block and the top-level changes,
    each a raw key with the value written there, or none for a deletion. *)
Record StorageNotification (BHash : Type) := mk_sn {
  sn_block : BHash;
  sn_changes : list (list byte * option (list byte));
}.
Arguments mk_sn {BHash}.
Arguments sn_block {BHash}.
Arguments sn_changes {BHash}.

(** The Substrate client, at one moment. *)
Record DiffClient (BHash : Type) `{ContractClassI} := mk_dc {
  dc_best_hash : BHash;
  dc_header : BHash -> result unit (option (SubHeader BHash));
  dc_contract_class_by_class_hash : BHash -> ClassHash -> result unit (option ContractClass);
  dc_config_hash : BHash -> result unit StarkFelt;
}.
Arguments mk_dc {BHash _}.
Arguments dc_best_hash {BHash _}.
Arguments dc_header {BHash _}.
Arguments dc_contract_class_by_class_hash {BHash _}.
Arguments dc_config_hash {BHash _}.

(** [std::task::Poll]. *)
Inductive Poll (A : Type) := Ready (a : A) | Pending.
Arguments Ready {A}.
Arguments Pending {A}.

Section build.
  Context `{SF : StarknetFf} `{SA : StarknetApi} `{PT : PrimitiveTypes} `{SC : StarknetCrypto} {HH : HasherT}.
  Context `{CC : ContractClassI} `{LC : LogCodec} `{TW : Twox} `{IM : IndexMap} {BHash : Type}.

(** [StarkFelt(bytes.try_into().unwrap())]. *)
Definition felt_unwrap (bytes : list byte) : outcome StarkFelt := unwrap_opt (mk_stark <$> array_of_slice 32 bytes).

(** [change.unwrap().0.clone().try_into().unwrap()]. *)
Definition value_unwrap (change : option (list byte)) : outcome StarkFelt :=
  let! data := unwrap_opt change in felt_unwrap data.

Abbreviation DiffState := (ThinStateDiff * list (ContractAddress * unit))%type.

Definition nonce_change (key : list byte) (change : option (list byte)) : DiffState -> outcome DiffState :=
  fun '(d, accessed) =>
    let! address := felt_unwrap (drop 32 key) in
    let! nonce := value_unwrap change in
    let contract_address := mk_new address in
    Ret (mk_diff (declared_classes d) (storage_diffs d) (im_insert contract_address (mk_new nonce) (sd_nonces d))
           (deployed_contracts d) (deprecated_declared_classes d) (replaced_classes d),
         im_insert contract_address tt accessed).

Definition storage_change (key : list byte) (change : option (list byte)) : DiffState -> outcome DiffState :=
  fun '(d, accessed) =>
    let! address := felt_unwrap (take 32 (drop 32 key)) in
    let! storage_key := felt_unwrap (drop 64 key) in
    let! value := value_unwrap change in
    let contract_address := mk_new address in
    let contract_storage := default [] (im_get contract_address (storage_diffs d)) in
    Ret (mk_diff (declared_classes d)
           (im_insert contract_address (im_insert (mk_new storage_key) value contract_storage) (storage_diffs d))
           (sd_nonces d) (deployed_contracts d) (deprecated_declared_classes d) (replaced_classes d),
         im_insert contract_address tt accessed).

Definition class_hash_change (client : DiffClient BHash) (key : list byte) (change : option (list byte))
  : DiffState -> outcome DiffState :=
  fun '(d, accessed) =>
    let! address := felt_unwrap (drop 32 key) in
    let! class_hash := value_unwrap change in
    let contract_address := mk_new address in
    let class_hash := mk_new class_hash in
    let contract_exists := is_ok (dc_contract_class_by_class_hash client (dc_best_hash client) class_hash) in
    Ret (if contract_exists
         then mk_diff (declared_classes d) (storage_diffs d) (sd_nonces d) (deployed_contracts d)
                (deprecated_declared_classes d) (im_insert contract_address class_hash (replaced_classes d))
         else mk_diff (declared_classes d) (storage_diffs d) (sd_nonces d)
                (im_insert contract_address class_hash (deployed_contracts d))
                (deprecated_declared_classes d) (replaced_classes d),
         im_insert contract_address tt accessed).

Definition compiled_class_hash_change (key : list byte) (change : option (list byte)) : DiffState -> outcome DiffState :=
  fun '(d, accessed) =>
    let! class_hash := felt_unwrap (drop 32 key) in
    let! compiled := match change with Some data => felt_unwrap data | None => Ret stark_default end in
    Ret (mk_diff (im_insert (mk_new class_hash) (mk_new compiled) (declared_classes d)) (storage_diffs d) (sd_nonces d)
           (deployed_contracts d) (deprecated_declared_classes d) (replaced_classes d), accessed).

(** The body of the loop over the changes. *)
Definition apply_storage_change (client : DiffClient BHash) (c : list byte * option (list byte)) (s : DiffState)
  : outcome DiffState :=
  let (full_storage_key, change) := c in
  if zlen full_storage_key <? 32 then Ret s
  else
    let prefix := take 32 full_storage_key in
    if bool_decide (prefix = SN_NONCE_PREFIX) then nonce_change full_storage_key change s
    else if bool_decide (prefix = SN_STORAGE_PREFIX) then storage_change full_storage_key change s
    else if bool_decide (prefix = SN_CONTRACT_CLASS_HASH_PREFIX) then class_hash_change client full_storage_key change s
    else if bool_decide (prefix = SN_COMPILED_CLASS_HASH_PREFIX) then compiled_class_hash_change full_storage_key change s
    else Ret s.

Fixpoint apply_storage_changes (client : DiffClient BHash) (cs : list (list byte * option (list byte))) (s : DiffState)
  : outcome DiffState :=
  match cs with
  | [] => Ret s
  | c :: cs' => let! s' := apply_storage_change client c s in apply_storage_changes client cs' s'
  end.

(** [client.header(block)?.ok_or(BlockNotFound)?] and the search of the digest. *)
Definition notified_block (client : DiffClient BHash) (block : BHash) : result BuildCommitmentStateDiffError Block :=
  let? header := map_err (fun _ => SubstrateHeaderBackend) (dc_header client block) in
  let? header := ok_or header BlockNotFound in
  map_err DigestLogNotFound (find_starknet_block (sub_digest header)).

Definition build_commitment_state_diff (client : DiffClient BHash) (n : StorageNotification BHash)
  : outcome (result BuildCommitmentStateDiffError BlockDAData) :=
  let! s := apply_storage_changes client (sn_changes n) (empty_diff, []) in
  let (commitment_state_diff, accessed_addrs) := s in
  match notified_block client (sn_block n) with
  | Err e => Ret (Err e)
  | Ok current_block =>
      match dc_config_hash client (sn_block n) with
      | Err _ => Ret (Err FailedToGetConfigHash)
      | Ok config_hash =>
          let! hash := header_hash (b_header current_block) in
          Ret (Ok (mk_da_data (mk_new (to_stark hash)) commitment_state_diff (zlen accessed_addrs)
                     (h_block_number (b_header current_block)) config_hash
                     temporary_global_state_root_getter temporary_global_state_root_getter))
      end
  end.

(** ** The stream *)
(** The message that waits for the channel, what the channel has taken, and
    whether the task is registered to be woken: a stream or a channel that
    answers [Pending] has registered it. *)
Record Worker := mk_worker { w_msg : option BlockDAData; w_sent : list BlockDAData; w_registered : bool }.

(** The second state: the message is sent when the channel is ready. *)
Definition poll_channel (channel : Poll (result unit unit)) (w : Worker) : outcome (Poll (option unit) * Worker) :=
  match channel with
  | Ready (Ok _) => let! msg := unwrap_opt (w_msg w) in Ret (Ready (Some tt), mk_worker None (w_sent w ++ [msg]) (w_registered w))
  | Pending => Ret (Pending, mk_worker (w_msg w) (w_sent w) true)
  | Ready (Err _) => Ret (Ready None, w)
  end.

(** [poll_next]: [stream] and [channel] are what the event stream and the channel
    answer if they are polled. *)
Definition poll_next (client : DiffClient BHash) (stream : Poll (option (StorageNotification BHash)))
    (channel : Poll (result unit unit)) (w : Worker) : outcome (Poll (option unit) * Worker) :=
  let w := mk_worker (w_msg w) (w_sent w) false in
  match w_msg w with
  | Some _ => poll_channel channel w
  | None =>
      match stream with
      | Pending => Ret (Pending, mk_worker None (w_sent w) true)
      | Ready (Some storage_notification) =>
          let! r := build_commitment_state_diff client storage_notification in
          match r with
          | Ok msg => poll_channel channel (mk_worker (Some msg) (w_sent w) false)
          | Err _ => Ret (Pending, w)
          end
      | Ready None => Ret (Ready None, w)
      end
  end.

End build.

(** ** Maps as sets of entries *)

(** The entries of [m] are the pairs of [Q], one for each key. *)
Definition tracks {K V : Type} (m : list (K * V)) (Q : K -> V -> Prop) : Prop :=
  NoDup m.*1 /\ forall k v, (k, v) ∈ m <-> Q k v.

Lemma tracks_proper {K V : Type} (m : list (K * V)) (Q Q' : K -> V -> Prop) :
  (forall k v, Q k v <-> Q' k v) -> tracks m Q -> tracks m Q'.
Proof. intros H [Hn Hm]. split; [done|]. intros k v. by rewrite Hm. Qed.

Lemma tracks_nil {K V : Type} (Q : K -> V -> Prop) : (forall k v, ~ Q k v) -> tracks [] Q.
Proof. intros H. split; [constructor|]. intros k v. split; [by intros ?%elem_of_nil|by intros ?%H]. Qed.

Section index_map.
  Context `{IM : IndexMap} {IML : IndexMapLaws} {K V : Type} `{!EqDecision K}.
  Implicit Types (m : list (K * V)) (Q R : K -> V -> Prop).

Lemma im_insert_keys k v m : k ∈ m.*1 -> (im_insert k v m).*1 = m.*1.
Proof.
  intros H. rewrite im_insert_old by done. change (list_fmap _ _ fst) with (map (A := K * V) fst). rewrite map_map.
  apply map_ext. intros [k' v']. simpl. by destruct (decide _) as [->|].
Qed.

Lemma elem_of_fst k m : k ∈ m.*1 <-> exists v, (k, v) ∈ m.
Proof.
  rewrite list_elem_of_fmap. split.
  - intros ([k' v] & -> & H). by exists v.
  - intros [v H]. by exists (k, v).
Qed.

Lemma tracks_insert k v m Q :
  tracks m Q -> tracks (im_insert k v m) (fun k' v' => (k' = k /\ v' = v) \/ (k' <> k /\ Q k' v')).
Proof.
  intros [Hn Hm]. destruct (decide (k ∈ m.*1)) as [Hk|Hk].
  - split; [by rewrite im_insert_keys|]. intros k' v'. rewrite im_insert_old by done.
    rewrite list_elem_of_fmap. split.
    + intros ([k1 v1] & Heq & Hin). simpl in Heq. destruct (decide (k1 = k)) as [->|Hne]; simplify_eq; [by left|].
      right. split; [done|]. by apply Hm.
    + intros [[-> ->]|[Hne HQ]].
      * apply elem_of_fst in Hk as [v0 Hk]. exists (k, v0). simpl. by rewrite decide_True.
      * exists (k', v'). simpl. rewrite decide_False by done. split; [done|]. by apply Hm.
  - rewrite im_insert_new by done. split.
    + rewrite fmap_app. apply list.NoDup_app. split_and!; [done| |apply NoDup_singleton].
      intros x Hx Hx'%list_elem_of_singleton. by subst.
    + intros k' v'. rewrite elem_of_app, list_elem_of_singleton, Hm. split.
      * intros [HQ|[= -> ->]]; [|by left]. right. split; [|done]. intros ->. destruct Hk. apply elem_of_fst.
        exists v'. by apply Hm.
      * intros [[-> ->]|[_ HQ]]; [by right|by left].
Qed.

(** Adding a key to those whose value under the functional [R] is kept. *)
Lemma tracks_add (S : K -> Prop) R k v m :
  (forall v', R k v' <-> v' = v) -> tracks m (fun k v => S k /\ R k v) ->
  tracks (im_insert k v m) (fun k' v' => (S k' \/ k' = k) /\ R k' v').
Proof.
  intros HR Hm. eapply tracks_proper; [|by apply tracks_insert]. intros k' v'. simpl.
  destruct (decide (k' = k)) as [->|]; [|tauto]. rewrite HR. naive_solver.
Qed.

Lemma tracks_get m Q k v : tracks m Q -> im_get k m = Some v <-> Q k v.
Proof. intros [Hn Hm]. by rewrite im_get_spec, Hm. Qed.

End index_map.

Lemma tracks_app {K V : Type} (m1 m2 : list (K * V)) (Q1 Q2 : K -> V -> Prop) :
  (forall k v1 v2, Q1 k v1 -> Q2 k v2 -> False) -> tracks m1 Q1 -> tracks m2 Q2 ->
  tracks (m1 ++ m2) (fun k v => Q1 k v \/ Q2 k v).
Proof.
  intros H [Hn1 Hm1] [Hn2 Hm2]. split.
  - rewrite fmap_app. apply list.NoDup_app. split_and!; [done| |done].
    intros k [v1 Hv1%Hm1]%elem_of_fst [v2 Hv2%Hm2]%elem_of_fst. by eapply H.
  - intros k v. by rewrite elem_of_app, Hm1, Hm2.
Qed.

(** Updating the map [w] with the entries whose value changed gives [w']. *)
Lemma tracks_apply {K V : Type} `{Countable K} `{!EqDecision V} (m : list (K * V)) (S : K -> Prop) (w w' : gmap K V) :
  tracks m (fun k v => S k /\ w' !! k = Some v) -> (forall k, S k -> is_Some (w' !! k)) ->
  (forall k, w !! k <> w' !! k -> S k) -> (list_to_map m : gmap K V) ∪ w = w'.
Proof.
  intros [Hn Hm] Hs Hc. apply map_eq. intros k. destruct ((list_to_map m : gmap K V) !! k) as [v|] eqn:E.
  - rewrite (lookup_union_Some_l _ _ _ v) by done. apply elem_of_list_to_map in E; [|done].
    by apply Hm in E as [_ ->].
  - rewrite lookup_union_r by done. destruct (decide (w !! k = w' !! k)) as [|Hne]; [done|].
    pose proof (Hc _ Hne) as HS. destruct (Hs _ HS) as [v Hv]. apply not_elem_of_list_to_map in E.
    destruct E. apply elem_of_fst. exists v. by apply Hm.
Qed.

(** ** Storage diffs *)

Abbreviation StorageDiffs := (list (ContractAddress * list (StorageKey * StarkFelt))).

(** The writes of the nested map. *)
Definition flat_writes (sd : StorageDiffs) : list ((ContractAddress * StorageKey) * StarkFelt) :=
  concat (map (fun e : ContractAddress * list (StorageKey * StarkFelt) =>
                 map (fun kv : StorageKey * StarkFelt => ((fst e, fst kv), snd kv)) (snd e)) sd).

Definition nested_tracks (sd : StorageDiffs) (Q : ContractAddress * StorageKey -> StarkFelt -> Prop) : Prop :=
  NoDup sd.*1 /\ (forall a m, (a, m) ∈ sd -> tracks m (fun k v => Q (a, k) v))
  /\ (forall a m, (a, m) ∈ sd -> m <> []) /\ (forall a k v, Q (a, k) v -> exists m, (a, m) ∈ sd).

Lemma flat_writes_elem sd a k v : ((a, k), v) ∈ flat_writes sd <-> exists m, (a, m) ∈ sd /\ (k, v) ∈ m.
Proof.
  unfold flat_writes. rewrite list_elem_of_In, in_concat. split.
  - intros (l & Hl & Hin). apply in_map_iff in Hl as ([a' m] & <- & Hm). apply in_map_iff in Hin as ([k' v'] & Heq & Hkv).
    simpl in *. simplify_eq. exists m. by rewrite !list_elem_of_In.
  - intros (m & Hm & Hkv). exists (map (fun kv => ((a, fst kv), snd kv)) m). split; apply in_map_iff.
    + exists (a, m). by rewrite <- list_elem_of_In.
    + exists (k, v). by rewrite <- list_elem_of_In.
Qed.

Lemma flat_writes_keys sd :
  NoDup sd.*1 -> (forall a m, (a, m) ∈ sd -> NoDup m.*1) -> NoDup (flat_writes sd).*1.
Proof.
  induction sd as [|[a m] sd IH]; intros Hn Hm; [constructor|].
  change ((a, m) :: sd).*1 with (a :: sd.*1) in Hn. apply list.NoDup_cons in Hn as [Ha Hn].
  change (flat_writes ((a, m) :: sd)) with (map (fun kv : StorageKey * StarkFelt => ((a, fst kv), snd kv)) m ++ flat_writes sd).
  rewrite fmap_app. apply list.NoDup_app. split_and!.
  - change (list_fmap _ _ fst) with (map (A := (ContractAddress * StorageKey) * StarkFelt) fst). rewrite map_map. simpl.
    rewrite <- (map_map fst (fun k => (a, k))). apply NoDup_fmap_2; [intros ?? [=]; done|].
    apply (Hm a). apply list_elem_of_here.
  - intros [a' k] H1 [v H2]%elem_of_fst. apply flat_writes_elem in H2 as (m' & Hm' & _).
    apply elem_of_fst in H1 as [v' H1]. apply list_elem_of_fmap in H1 as ([k0 v0] & [= -> _ _] & _).
    apply Ha, elem_of_fst. by exists m'.
  - apply IH; [done|]. intros a' m' Hin. apply (Hm a'). by apply list_elem_of_further.
Qed.

Lemma nested_flat sd Q : nested_tracks sd Q -> tracks (flat_writes sd) Q.
Proof.
  intros (Hn & Hm & _ & Hc). split; [apply flat_writes_keys; [done|]; intros a m Hin; apply (Hm _ _ Hin)|].
  intros [a k] v. rewrite flat_writes_elem. split.
  - intros (m & Hin & Hkv). by apply (Hm _ _ Hin).
  - intros HQ. destruct (Hc _ _ _ HQ) as [m Hin]. exists m. split; [done|]. by apply (Hm _ _ Hin).
Qed.

Lemma nested_proper sd Q Q' : (forall k v, Q k v <-> Q' k v) -> nested_tracks sd Q -> nested_tracks sd Q'.
Proof.
  intros H (Hn & Hm & He & Hc). split_and!; [done| |done|].
  - intros a m Hin. eapply tracks_proper; [|by apply Hm]. intros k v. apply H.
  - intros a k v HQ%H. by apply (Hc a k v).
Qed.

Lemma nested_nil Q : (forall k v, ~ Q k v) -> nested_tracks [] Q.
Proof. intros H. split_and!; [constructor|by intros ?? ?%elem_of_nil..|]. intros a k v []%H. Qed.

Lemma nested_insert `{IM : IndexMap} {IML : IndexMapLaws} a k v sd Q :
  nested_tracks sd Q ->
  nested_tracks (im_insert a (im_insert k v (default [] (im_get a sd))) sd)
    (fun p v' => (p = (a, k) /\ v' = v) \/ (p <> (a, k) /\ Q p v')).
Proof.
  intros (Hn & Hm & He & Hc).
  destruct (tracks_insert a (im_insert k v (default [] (im_get a sd))) sd (fun a m => (a, m) ∈ sd)) as [Hn' Hm']; [done|].
  assert (Hold : tracks (default [] (im_get a sd)) (fun k v => Q (a, k) v)).
  { destruct (im_get a sd) as [m|] eqn:E; simpl; [apply im_get_spec in E; [by apply Hm|done]|].
    apply tracks_nil. intros k0 v0 HQ. destruct (Hc _ _ _ HQ) as [m Hin]. apply im_get_spec in Hin; [congruence|done]. }
  assert (Hnew : (k, v) ∈ im_insert k v (default [] (im_get a sd)))
    by (apply (tracks_insert k v _ _ Hold); by left).
  split_and!; [done| | |].
  - intros a' m' Hin. apply Hm' in Hin as [[-> ->]|[Hne Hin]].
    + eapply tracks_proper; [|by apply tracks_insert]. intros k' v'. simpl. naive_solver.
    + eapply tracks_proper; [|by apply Hm]. intros k' v'. simpl. naive_solver.
  - intros a' m' Hin. apply Hm' in Hin as [[-> ->]|[Hne Hin]]; [|by eapply He].
    intros E. rewrite E in Hnew. by apply elem_of_nil in Hnew.
  - intros a' k' v' HQ. destruct (decide (a' = a)) as [->|Hne]; [eexists; apply Hm'; by left|].
    destruct HQ as [[[= -> ->] _]|[_ HQ]]; [done|]. destruct (Hc _ _ _ HQ) as [m Hin]. exists m. apply Hm'. by right.
Qed.

Lemma nested_add `{IM : IndexMap} {IML : IndexMapLaws} (S : ContractAddress * StorageKey -> Prop)
    (R : ContractAddress * StorageKey -> StarkFelt -> Prop) a k v sd :
  (forall v', R (a, k) v' <-> v' = v) -> nested_tracks sd (fun p v => S p /\ R p v) ->
  nested_tracks (im_insert a (im_insert k v (default [] (im_get a sd))) sd)
    (fun p v' => (S p \/ p = (a, k)) /\ R p v').
Proof.
  intros HR Hm. eapply nested_proper; [|by apply nested_insert]. intros p v'. simpl.
  destruct (decide (p = (a, k))) as [->|]; [|tauto]. rewrite HR. naive_solver.
Qed.

(** ** The storage of the pallet as raw keys and values *)
Inductive WorldKey :=
| KNonce (a : ContractAddress)
| KStorage (a : ContractAddress) (k : StorageKey)
| KClassHash (a : ContractAddress)
| KCompiled (c : ClassHash).

(** The address a change of the key counts as accessed. *)
Definition address_of (k : WorldKey) : option ContractAddress :=
  match k with KNonce a | KStorage a _ | KClassHash a => Some a | KCompiled _ => None end.

Definition raw_felt (s : StarkFelt) : list byte := arr (stark_bytes s).

Section replay.
  Context `{SF : StarknetFf} `{SA : StarknetApi} `{PT : PrimitiveTypes} `{SC : StarknetCrypto} {HH : HasherT}.
  Context `{CC : ContractClassI} `{LC : LogCodec} `{TW : Twox} {TWL : TwoxLaws}.
  Context `{IM : IndexMap} {IML : IndexMapLaws} {BHash : Type}.

(** [Identity] hashes a key to itself. *)
Definition raw_key (k : WorldKey) : list byte :=
  match k with
  | KNonce a => SN_NONCE_PREFIX ++ raw_felt (new0 a)
  | KStorage a k => SN_STORAGE_PREFIX ++ raw_felt (new0 a) ++ raw_felt (new0 k)
  | KClassHash a => SN_CONTRACT_CLASS_HASH_PREFIX ++ raw_felt (new0 a)
  | KCompiled c => SN_COMPILED_CLASS_HASH_PREFIX ++ raw_felt (new0 c)
  end.

Definition read_world (w : World) (k : WorldKey) : option StarkFelt :=
  match k with
  | KNonce a => new0 <$> nonces w !! a
  | KStorage a k => storage_view w !! (a, k)
  | KClassHash a => new0 <$> contract_class_hashes w !! a
  | KCompiled c => new0 <$> compiled_class_hashes w !! c
  end.

(** A change of a block: an item of the world that was written, or another key. *)
Inductive BlockChange := Written (k : WorldKey) | Foreign (key : list byte) (value : option (list byte)).

Definition raw_change (w' : World) (c : BlockChange) : list byte * option (list byte) :=
  match c with
  | Written k => (raw_key k, raw_felt <$> read_world w' k)
  | Foreign key value => (key, value)
  end.

(** The changes of a block that took the world from [w] to [w']: what differs is
    among them, and nothing was deleted. *)
Record reports (w w' : World) (cs : list BlockChange) : Prop := {
  rp_written : forall k, Written k ∈ cs -> is_Some (read_world w' k);
  rp_foreign : forall key value, Foreign key value ∈ cs ->
    take 32 key ∉ [SN_NONCE_PREFIX; SN_STORAGE_PREFIX; SN_CONTRACT_CLASS_HASH_PREFIX; SN_COMPILED_CLASS_HASH_PREFIX];
  rp_complete : forall k, read_world w k <> read_world w' k -> Written k ∈ cs;
}.

(** The world updated with a diff. *)
Definition apply_diff (d : ThinStateDiff) (w : World) : World :=
  mk_world _ (list_to_map (replaced_classes d ++ deployed_contracts d) ∪ contract_class_hashes w)
    (contract_classes w) (list_to_map (declared_classes d) ∪ compiled_class_hashes w)
    (list_to_map (sd_nonces d) ∪ nonces w) (list_to_map (flat_writes (storage_diffs d)) ∪ storage_view w).

(** What the loop has built once the keys of [S] are processed. *)
Record scanned (client : DiffClient BHash) (w' : World) (S : WorldKey -> Prop) (s : ThinStateDiff * list (ContractAddress * unit))
  : Prop := {
  sc_nonces : tracks (sd_nonces s.1) (fun a n => S (KNonce a) /\ nonces w' !! a = Some n);
  sc_storage : nested_tracks (storage_diffs s.1) (fun p v => S (KStorage p.1 p.2) /\ storage_view w' !! p = Some v);
  sc_replaced : tracks (replaced_classes s.1) (fun a h => S (KClassHash a) /\ contract_class_hashes w' !! a = Some h
    /\ is_ok (dc_contract_class_by_class_hash client (dc_best_hash client) h) = true);
  sc_deployed : tracks (deployed_contracts s.1) (fun a h => S (KClassHash a) /\ contract_class_hashes w' !! a = Some h
    /\ is_ok (dc_contract_class_by_class_hash client (dc_best_hash client) h) = false);
  sc_declared : tracks (declared_classes s.1) (fun c h => S (KCompiled c) /\ compiled_class_hashes w' !! c = Some h);
  sc_accessed : tracks s.2 (fun a _ => exists k, S k /\ address_of k = Some a);
}.

Lemma storage_prefix_length item : length (storage_prefix item) = 32%nat.
Proof. unfold storage_prefix. by rewrite length_app, !arr_length. Qed.

Lemma storage_prefix_inj i j : storage_prefix i = storage_prefix j -> twox_128 i = twox_128 j.
Proof. unfold storage_prefix. intros ?%app_inv_head. by apply array_eq. Qed.

Lemma mk_new_new0 t (n : newtype t) : mk_new (new0 n) = n.
Proof. by destruct n. Qed.

#[local] Instance new0_inj t : Inj (=) (=) (@new0 t).
Proof. intros [x] [y]. simpl. by intros ->. Qed.

Lemma felt_unwrap_raw s : felt_unwrap (raw_felt s) = Ret s.
Proof. unfold felt_unwrap, raw_felt. rewrite array_of_slice_arr. by destruct s. Qed.

Lemma raw_felt_length s : length (raw_felt s) = 32%nat.
Proof. apply arr_length. Qed.

Lemma drop_prefix item l : drop 32 (storage_prefix item ++ l) = l.
Proof. rewrite <- (storage_prefix_length item). apply drop_app_length. Qed.

Lemma prefixes_distinct :
  (SN_STORAGE_PREFIX <> SN_NONCE_PREFIX /\ SN_CONTRACT_CLASS_HASH_PREFIX <> SN_NONCE_PREFIX
   /\ SN_COMPILED_CLASS_HASH_PREFIX <> SN_NONCE_PREFIX)
  /\ (SN_CONTRACT_CLASS_HASH_PREFIX <> SN_STORAGE_PREFIX /\ SN_COMPILED_CLASS_HASH_PREFIX <> SN_STORAGE_PREFIX)
  /\ SN_COMPILED_CLASS_HASH_PREFIX <> SN_CONTRACT_CLASS_HASH_PREFIX.
Proof.
  pose proof twox_items as Hn. cbn [map] in Hn.
  repeat match goal with
         | H : NoDup (_ :: _) |- _ => apply list.NoDup_cons in H as [? H]
         | H : _ ∉ _ :: _ |- _ => apply not_elem_of_cons in H as [? H]
         end.
  split_and!; intros E%storage_prefix_inj; by symmetry in E.
Qed.

Lemma change_branch (client : DiffClient BHash) prefix l change s :
  length prefix = 32%nat ->
  apply_storage_change client (prefix ++ l, change) s
  = if bool_decide (prefix = SN_NONCE_PREFIX) then nonce_change (prefix ++ l) change s
    else if bool_decide (prefix = SN_STORAGE_PREFIX) then storage_change (prefix ++ l) change s
    else if bool_decide (prefix = SN_CONTRACT_CLASS_HASH_PREFIX) then class_hash_change client (prefix ++ l) change s
    else if bool_decide (prefix = SN_COMPILED_CLASS_HASH_PREFIX) then compiled_class_hash_change (prefix ++ l) change s
    else Ret s.
Proof.
  intros Hl. unfold apply_storage_change. rewrite (proj2 (Z.ltb_ge _ _)) by (unfold zlen; rewrite length_app; lia).
  by rewrite take_app_length'.
Qed.

(** The branch the loop takes for each kind of key. *)
Lemma dispatch_key (client : DiffClient BHash) k change s :
  apply_storage_change client (raw_key k, change) s
  = match k with
    | KNonce _ => nonce_change (raw_key k) change s
    | KStorage _ _ => storage_change (raw_key k) change s
    | KClassHash _ => class_hash_change client (raw_key k) change s
    | KCompiled _ => compiled_class_hash_change (raw_key k) change s
    end.
Proof.
  destruct prefixes_distinct as ((? & ? & ?) & (? & ?) & ?).
  destruct k as [a|a k|a|c]; cbn [raw_key]; rewrite change_branch by apply storage_prefix_length;
    repeat (rewrite bool_decide_false by done); by rewrite bool_decide_true.
Qed.

Lemma foreign_key (client : DiffClient BHash) key change s :
  take 32 key ∉ [SN_NONCE_PREFIX; SN_STORAGE_PREFIX; SN_CONTRACT_CLASS_HASH_PREFIX; SN_COMPILED_CLASS_HASH_PREFIX] ->
  apply_storage_change client (key, change) s = Ret s.
Proof.
  intros H. unfold apply_storage_change. destruct (_ <? _); [done|]. repeat (rewrite bool_decide_false by set_solver). done.
Qed.

Lemma accessed_add (S : WorldKey -> Prop) k a (accessed : list (ContractAddress * unit)) :
  address_of k = Some a -> tracks accessed (fun a _ => exists k, S k /\ address_of k = Some a) ->
  tracks (im_insert a tt accessed) (fun a _ => exists k', (S k' \/ k' = k) /\ address_of k' = Some a).
Proof.
  intros Hk Ht. eapply tracks_proper;
    [|apply (tracks_add (fun a => exists k, S k /\ address_of k = Some a) (fun _ _ => True));
      [by intros []|eapply tracks_proper; [|exact Ht]; naive_solver]]. naive_solver.
Qed.

#[local] Ltac keep_tracks :=
  match goal with
  | |- tracks _ _ => eapply tracks_proper; [|eassumption]; naive_solver
  | |- nested_tracks _ _ => eapply nested_proper; [|eassumption]; naive_solver
  end.
#[local] Ltac keep_class :=
  eapply tracks_proper; [|eassumption]; intros a' h'; split; [naive_solver|];
  intros ([?|[= ->]] & ? & ?); [done|simplify_eq; congruence].
#[local] Ltac add_tracks S R :=
  eapply tracks_proper; [|apply (tracks_add S R); [|eassumption]; naive_solver]; naive_solver.

(** One more key of each kind. *)
Lemma scan_nonce client w' S a n d accessed :
  nonces w' !! a = Some n -> scanned client w' S (d, accessed) ->
  scanned client w' (fun k' => S k' \/ k' = KNonce a)
    (mk_diff (declared_classes d) (storage_diffs d) (im_insert a n (sd_nonces d))
       (deployed_contracts d) (deprecated_declared_classes d) (replaced_classes d), im_insert a tt accessed).
Proof.
  intros Hn []. constructor; cbn in *; [|keep_tracks..|by apply accessed_add].
  add_tracks (fun a => S (KNonce a)) (fun a n => nonces w' !! a = Some n).
Qed.

Lemma scan_storage client w' S a k v d accessed :
  storage_view w' !! (a, k) = Some v -> scanned client w' S (d, accessed) ->
  scanned client w' (fun k' => S k' \/ k' = KStorage a k)
    (mk_diff (declared_classes d) (im_insert a (im_insert k v (default [] (im_get a (storage_diffs d)))) (storage_diffs d))
       (sd_nonces d) (deployed_contracts d) (deprecated_declared_classes d) (replaced_classes d), im_insert a tt accessed).
Proof.
  intros Hv []. constructor; cbn in *; [keep_tracks| |keep_tracks..|by apply (accessed_add _ (KStorage a k))].
  eapply nested_proper;
    [|apply (nested_add (fun p => S (KStorage p.1 p.2)) (fun p v => storage_view w' !! p = Some v)); [|eassumption]];
    [|naive_solver]. intros [a' k'] v'. simpl. naive_solver.
Qed.

Lemma scan_class_hash client w' S a h d accessed :
  contract_class_hashes w' !! a = Some h -> scanned client w' S (d, accessed) ->
  scanned client w' (fun k' => S k' \/ k' = KClassHash a)
    (if is_ok (dc_contract_class_by_class_hash client (dc_best_hash client) h)
     then mk_diff (declared_classes d) (storage_diffs d) (sd_nonces d) (deployed_contracts d)
            (deprecated_declared_classes d) (im_insert a h (replaced_classes d))
     else mk_diff (declared_classes d) (storage_diffs d) (sd_nonces d) (im_insert a h (deployed_contracts d))
            (deprecated_declared_classes d) (replaced_classes d), im_insert a tt accessed).
Proof.
  intros Hh []. destruct (is_ok _) eqn:E; (constructor; cbn in *; [keep_tracks..| | |keep_tracks|by apply accessed_add]).
  - add_tracks (fun a => S (KClassHash a)) (fun a h => contract_class_hashes w' !! a = Some h
      /\ is_ok (dc_contract_class_by_class_hash client (dc_best_hash client) h) = true).
  - keep_class.
  - keep_class.
  - add_tracks (fun a => S (KClassHash a)) (fun a h => contract_class_hashes w' !! a = Some h
      /\ is_ok (dc_contract_class_by_class_hash client (dc_best_hash client) h) = false).
Qed.

Lemma scan_compiled client w' S c h d accessed :
  compiled_class_hashes w' !! c = Some h -> scanned client w' S (d, accessed) ->
  scanned client w' (fun k' => S k' \/ k' = KCompiled c)
    (mk_diff (im_insert c h (declared_classes d)) (storage_diffs d) (sd_nonces d)
       (deployed_contracts d) (deprecated_declared_classes d) (replaced_classes d), accessed).
Proof.
  intros Hh []. constructor; cbn in *; try keep_tracks.
  add_tracks (fun c => S (KCompiled c)) (fun c h => compiled_class_hashes w' !! c = Some h).
Qed.

Lemma scan_written client w' S k s :
  is_Some (read_world w' k) -> scanned client w' S s ->
  exists s', apply_storage_change client (raw_change w' (Written k)) s = Ret s'
    /\ scanned client w' (fun k' => S k' \/ k' = k) s'.
Proof.
  intros [v Hv] Hs. destruct s as [d accessed]. unfold raw_change. rewrite dispatch_key, Hv.
  destruct k as [a|a k|a|c]; simpl in Hv; try (apply fmap_Some in Hv as (n & Hn & ->));
    unfold nonce_change, storage_change, class_hash_change, compiled_class_hash_change, raw_key, value_unwrap,
      SN_NONCE_PREFIX, SN_STORAGE_PREFIX, SN_CONTRACT_CLASS_HASH_PREFIX, SN_COMPILED_CLASS_HASH_PREFIX;
    cbn [fmap option_fmap option_map unwrap_opt outcome_bind].
  2: change 64%nat with (32 + 32)%nat; rewrite <- drop_drop.
  all: rewrite ?drop_prefix, ?felt_unwrap_raw; cbn [outcome_bind].
  2: rewrite take_app_length', drop_app_length' by (symmetry; apply raw_felt_length); rewrite !felt_unwrap_raw.
  all: cbn [outcome_bind]; rewrite ?mk_new_new0; eexists; split; [reflexivity|].
  - by apply scan_nonce.
  - by apply scan_storage.
  - by apply scan_class_hash.
  - by apply scan_compiled.
Qed.

Lemma scanned_proper client w' S S' s : (forall k, S k <-> S' k) -> scanned client w' S s -> scanned client w' S' s.
Proof.
  intros H []. constructor.
  2: eapply nested_proper; [|eassumption].
  1, 3-6: eapply tracks_proper; [|eassumption].
  all: intros k0 v0; simpl; rewrite ?H; try done. by setoid_rewrite H.
Qed.

Lemma scan_all client w' cs : forall S s,
  (forall k, Written k ∈ cs -> is_Some (read_world w' k)) ->
  (forall key value, Foreign key value ∈ cs ->
    take 32 key ∉ [SN_NONCE_PREFIX; SN_STORAGE_PREFIX; SN_CONTRACT_CLASS_HASH_PREFIX; SN_COMPILED_CLASS_HASH_PREFIX]) ->
  scanned client w' S s ->
  exists s', apply_storage_changes client (map (raw_change w') cs) s = Ret s'
    /\ scanned client w' (fun k => S k \/ Written k ∈ cs) s'.
Proof.
  induction cs as [|c cs IH]; intros S s Hw Hf Hs.
  - exists s. split; [done|]. eapply scanned_proper; [|exact Hs]. intros k. rewrite elem_of_nil. tauto.
  - cbn [map apply_storage_changes]. destruct c as [k|key value].
    + destruct (scan_written client w' S k s) as (s1 & -> & Hs1); [apply Hw, list_elem_of_here|done|].
      destruct (IH _ s1 (fun k Hk => Hw k (list_elem_of_further _ _ _ Hk))
                  (fun k v Hk => Hf k v (list_elem_of_further _ _ _ Hk)) Hs1) as (s' & Hs' & Hsc).
      exists s'. split; [exact Hs'|]. eapply scanned_proper; [|exact Hsc]. intros k'. simpl. set_solver.
    + unfold raw_change at 1. rewrite foreign_key by (apply (Hf key value), list_elem_of_here).
      destruct (IH _ s (fun k Hk => Hw k (list_elem_of_further _ _ _ Hk))
                  (fun k v Hk => Hf k v (list_elem_of_further _ _ _ Hk)) Hs) as (s' & Hs' & Hsc).
      exists s'. split; [exact Hs'|]. eapply scanned_proper; [|exact Hsc]. intros k'. simpl. set_solver.
Qed.

Lemma scanned_empty client w' : scanned client w' (fun _ => False) (empty_diff, []).
Proof. constructor; simpl; [|apply nested_nil|..]; try apply tracks_nil; intros k v Hq; naive_solver. Qed.

Lemma scan_reports client w w' cs :
  reports w w' cs -> exists s, apply_storage_changes client (map (raw_change w') cs) (empty_diff, []) = Ret s
    /\ scanned client w' (fun k => Written k ∈ cs) s.
Proof.
  intros [Hw Hf _]. destruct (scan_all client w' cs _ _ Hw Hf (scanned_empty client w')) as (s & Hs & Hsc).
  exists s. split; [done|]. eapply scanned_proper; [|exact Hsc]. tauto.
Qed.

(** The classes of the contracts, replaced or deployed. *)
Lemma scanned_classes client w' S s :
  scanned client w' S s ->
  tracks (replaced_classes s.1 ++ deployed_contracts s.1) (fun a h => S (KClassHash a) /\ contract_class_hashes w' !! a = Some h).
Proof.
  intros []. eapply tracks_proper; [|eapply tracks_app; [|eassumption..]].
  - intros a h. simpl. destruct (is_ok _); naive_solver.
  - intros a h1 h2 (_ & ? & ?) (_ & ? & ?). simplify_eq. congruence.
Qed.

Lemma scanned_apply client w w' cs s :
  reports w w' cs -> scanned client w' (fun k => Written k ∈ cs) s ->
  apply_diff s.1 w = set_contract_classes (fun _ => contract_classes w) w'.
Proof.
  intros [Hw _ Hc] Hs. pose proof (scanned_classes _ _ _ _ Hs) as Hcl. destruct Hs. unfold apply_diff, set_contract_classes.
  f_equal.
  - apply (tracks_apply _ (fun a => Written (KClassHash a) ∈ cs)); [exact Hcl|by intros a ?%Hw%fmap_is_Some|].
    intros a Hne. apply (Hc (KClassHash a)). simpl. by intros ?%(inj _).
  - apply (tracks_apply _ (fun c => Written (KCompiled c) ∈ cs)); [done|by intros c ?%Hw%fmap_is_Some|].
    intros c Hne. apply (Hc (KCompiled c)). simpl. by intros ?%(inj _).
  - apply (tracks_apply _ (fun a => Written (KNonce a) ∈ cs)); [done|by intros a ?%Hw%fmap_is_Some|].
    intros a Hne. apply (Hc (KNonce a)). simpl. by intros ?%(inj _).
  - apply (tracks_apply _ (fun p => Written (KStorage p.1 p.2) ∈ cs)); [by apply nested_flat|by intros [a k] ?%Hw|].
    intros [a k] Hne. by apply (Hc (KStorage a k)).
Qed.

(** The addresses that the changes of a block touch. *)
Definition touched (cs : list BlockChange) : gset ContractAddress :=
  list_to_set (omap (fun c => match c with Written k => address_of k | Foreign _ _ => None end) cs).

Lemma elem_of_touched cs a : a ∈ touched cs <-> exists k, Written k ∈ cs /\ address_of k = Some a.
Proof.
  unfold touched. rewrite elem_of_list_to_set, list_elem_of_omap. split.
  - intros ([k|] & Hc & Ha); [by exists k|done].
  - intros (k & Hk & Ha). by exists (Written k).
Qed.

Lemma scanned_count client w' cs s :
  scanned client w' (fun k => Written k ∈ cs) s -> zlen s.2 = Z.of_nat (size (touched cs)).
Proof.
  intros []. destruct sc_accessed0 as [Hn Hm]. unfold zlen. f_equal.
  rewrite <- (length_fmap fst), <- (size_list_to_set (C := gset ContractAddress)) by done. f_equal. apply set_eq. intros a.
  rewrite elem_of_touched, elem_of_list_to_set, elem_of_fst. split.
  - by intros [u Hu%Hm].
  - intros H. exists tt. by apply Hm.
Qed.

(** The message holds what the loop has built. *)
Lemma build_inv (client : DiffClient BHash) n data :
  build_commitment_state_diff client n = Ret (Ok data) ->
  exists s, apply_storage_changes client (sn_changes n) (empty_diff, []) = Ret s
    /\ da_state_diff data = s.1 /\ da_num_addr_accessed data = zlen s.2.
Proof.
  unfold build_commitment_state_diff. destruct (apply_storage_changes _ _ _) as [[d accessed]|]; [|done]. cbn.
  destruct (notified_block _ _); [|done]. destruct (dc_config_hash _ _); [|done]. destruct (header_hash _); [|done].
  intros [= <-]. by exists (d, accessed).
Qed.

(** A runtime that answers makes every contract a known one. *)
Lemma no_deployments (client : DiffClient BHash) w' S s :
  scanned client w' S s -> (forall ch, is_ok (dc_contract_class_by_class_hash client (dc_best_hash client) ch) = true) ->
  deployed_contracts s.1 = [].
Proof. intros [] Hok. apply elem_of_nil_inv. intros [a ch] (_ & _ & Hx)%sc_deployed0. congruence. Qed.

(** C14: the diff published for a block replays it.  Let the world of the pallet be
    [w] before the block and [w'] after it, and let the storage changes of the
    block be reported: at least the items that differ, with their values, in any
    order and mixed with other keys.  Then [build_commitment_state_diff] does not
    panic, the message carries the hash and number of the block found in the
    digest, the diff applied to [w] gives [w'] (up to the contract classes, which
    a thin diff does not hold), and the number of accessed addresses is the number
    of distinct addresses among the changes. *)
Theorem state_diff_replays_block client (h : BHash) w w' cs b f config_hash :
  reports w w' cs -> notified_block client h = Ok b -> dc_config_hash client h = Ok config_hash ->
  header_hash (b_header b) = Ret f ->
  exists data, build_commitment_state_diff client (mk_sn h (map (raw_change w') cs)) = Ret (Ok data)
    /\ da_block_hash data = mk_new (to_stark f) /\ da_block_number data = h_block_number (b_header b)
    /\ da_config_hash data = config_hash
    /\ apply_diff (da_state_diff data) w = set_contract_classes (fun _ => contract_classes w) w'
    /\ da_num_addr_accessed data = Z.of_nat (size (touched cs)).
Proof.
  intros Hr Hb Hc Hh. destruct (scan_reports client _ _ _ Hr) as (s & Hs & Hsc). unfold build_commitment_state_diff.
  cbn [sn_changes sn_block]. rewrite Hs. destruct s as [d accessed]. cbn [outcome_bind]. rewrite Hb, Hc, Hh.
  eexists. split; [reflexivity|]. cbn. split_and!; [done..|exact (scanned_apply _ _ _ _ _ Hr Hsc)|exact (scanned_count _ _ _ _ Hsc)].
Qed.

(** A contract deployed in the block is reported as replaced: whenever the runtime
    answers, with or without a class, every class hash written goes to
    [replaced_classes], whether or not the contract existed before. *)
Theorem deployments_reported_as_replaced client (h : BHash) w w' cs data :
  reports w w' cs -> (forall ch, is_ok (dc_contract_class_by_class_hash client (dc_best_hash client) ch) = true) ->
  build_commitment_state_diff client (mk_sn h (map (raw_change w') cs)) = Ret (Ok data) ->
  deployed_contracts (da_state_diff data) = []
  /\ forall a ch, contract_class_hashes w !! a = None -> contract_class_hashes w' !! a = Some ch ->
       (a, ch) ∈ replaced_classes (da_state_diff data).
Proof.
  intros Hr Hok (s' & Hs' & -> & _)%build_inv. destruct (scan_reports client _ _ _ Hr) as (s & Hs & Hsc).
  cbn [sn_changes] in Hs'. rewrite Hs in Hs'. injection Hs' as <-. split; [by eapply no_deployments|].
  intros a ch Ha Ha'. apply (sc_replaced _ _ _ _ Hsc). split_and!; [|done..]. apply (rp_complete _ _ _ Hr (KClassHash a)). simpl.
  by rewrite Ha, Ha'.
Qed.

(** *** The stream *)

(** The task of the worker: the notifications it has taken with the client's view
    of that moment, those in the queue of the event stream, and its state. *)
Inductive stream_run : list (DiffClient BHash * StorageNotification BHash) -> list (StorageNotification BHash) -> Worker -> Prop :=
| run_start : stream_run [] [] (mk_worker None [] true)
| run_arrive taken queue w n : stream_run taken queue w -> stream_run taken (queue ++ [n]) w
| run_poll_waiting taken queue w (client : DiffClient BHash) stream channel msg r w' :
    stream_run taken queue w -> w_msg w = Some msg ->
    poll_next client stream channel w = Ret (r, w') -> stream_run taken queue w'
| run_poll_empty taken w (client : DiffClient BHash) channel r w' :
    stream_run taken [] w -> w_msg w = None ->
    poll_next client Pending channel w = Ret (r, w') -> stream_run taken [] w'
| run_poll_event taken queue w (client : DiffClient BHash) n channel r w' :
    stream_run taken (n :: queue) w -> w_msg w = None ->
    poll_next client (Ready (Some n)) channel w = Ret (r, w') -> stream_run (taken ++ [(client, n)]) queue w'.

Definition built (e : DiffClient BHash * StorageNotification BHash) : option BlockDAData :=
  match build_commitment_state_diff (fst e) (snd e) with Ret (Ok data) => Some data | _ => None end.

Lemma poll_channel_keeps channel w r w' :
  poll_channel channel w = Ret (r, w') ->
  w_sent w' ++ option_list (w_msg w') = w_sent w ++ option_list (w_msg w).
Proof.
  unfold poll_channel. destruct w as [[m|] sent reg], channel as [[]|]; cbn; try (by intros [= <- <-]); try done.
  intros [= <- <-]. cbn. by rewrite app_nil_r.
Qed.

(** Every message built is sent once and in the order of the blocks; the blocks
    whose message cannot be built are skipped. *)
Theorem stream_in_order taken queue w :
  stream_run taken queue w -> w_sent w ++ option_list (w_msg w) = omap built taken.
Proof.
  induction 1 as [|taken queue w n _ IH|taken queue w client stream channel msg r w' _ IH Hm Hp
    |taken w client channel r w' _ IH Hm Hp|taken queue w client n channel r w' _ IH Hm Hp]; [done|done|..];
    unfold poll_next in Hp; cbn [w_msg] in Hp; rewrite Hm in Hp.
  - apply poll_channel_keeps in Hp. rewrite Hp. cbn. rewrite <- IH. by rewrite Hm.
  - injection Hp as <- <-. cbn. rewrite <- IH. by rewrite Hm.
  - rewrite omap_app, <- IH. rewrite Hm. cbn [omap list_omap built fst snd].
    destruct (build_commitment_state_diff client n) as [[msg|e]|] eqn:E; cbn in Hp; [| |done]; unfold built; cbn [fst snd]; rewrite E.
    + apply poll_channel_keeps in Hp. rewrite Hp. cbn. by rewrite app_nil_r.
    + injection Hp as <- <-. cbn. by rewrite !app_nil_r.
Qed.

(** Whoever answers [Pending] should have registered to be woken.  The worker has,
    unless the message of a block could not be built: then it is asleep although
    the stream may have more notifications. *)
Theorem pending_registered (client : DiffClient BHash) stream channel w w' :
  poll_next client stream channel w = Ret (Pending, w') ->
  w_registered w' = true
  \/ (w_registered w' = false /\ w_msg w = None
      /\ exists n e, stream = Ready (Some n) /\ build_commitment_state_diff client n = Ret (Err e)).
Proof.
  unfold poll_next, poll_channel. destruct w as [[m|] sent reg]; cbn.
  - destruct channel as [[]|]; cbn; try done. intros [= <-]. by left.
  - destruct stream as [[n|]|]; cbn; [|done|intros [= <-]; by left].
    destruct (build_commitment_state_diff client n) as [[msg|e]|] eqn:E; cbn; [| |done].
    + destruct channel as [[]|]; cbn; try done. intros [= <-]. by left.
    + intros [= <-]. right. eauto 10.
Qed.

End replay.

(** ** Witnesses *)
Module DiffWitness.
Export SyncWitness Blockifier.ReferenceVm.

#[export] Instance toy_twox : Twox := {| twox_128 l := be_array 16 (be_val l mod 2 ^ 128) |}.
#[export] Instance toy_twox_laws : TwoxLaws.
Proof.
  constructor. rewrite <- (map_map (fun l => be_val l mod 2 ^ 128) (be_array 16)). apply NoDup_fmap_2_strong.
  - intros x y Hx Hy Heq. apply (f_equal (fun a => be_val (arr a))) in Heq.
    assert (Hr : forall z, z ∈ map (fun l => be_val l mod 2 ^ 128)
      [STARKNET_NONCE; STARKNET_STORAGE; STARKNET_CONTRACT_CLASS_HASH; STARKNET_COMPILED_CLASS_HASH] ->
      0 <= z < 256 ^ Z.of_nat 16).
    { intros z (l & -> & _)%list_elem_of_fmap. apply Z.mod_pos_bound. reflexivity. }
    rewrite !be_array_val in Heq by auto. done.
  - apply (bool_decide_unpack _). vm_compute. exact I.
Qed.

Fixpoint assoc_get {K V : Type} `{EqDecision K} (k : K) (m : list (K * V)) : option V :=
  match m with [] => None | e :: m' => if decide (e.1 = k) then Some e.2 else assoc_get k m' end.

Lemma assoc_get_spec {K V : Type} `{EqDecision K} (k : K) (v : V) m :
  NoDup m.*1 -> assoc_get k m = Some v <-> (k, v) ∈ m.
Proof.
  induction m as [|[k' v'] m IH]; intros Hn; [by rewrite elem_of_nil|]. cbn in Hn. apply list.NoDup_cons in Hn as [Hk Hn].
  cbn. rewrite elem_of_cons. destruct (decide (k' = k)) as [->|Hne].
  - split; [by intros [= <-]; left|]. intros [[= <-]|Hin]; [done|]. destruct Hk. apply elem_of_fst. by exists v.
  - rewrite (IH Hn). naive_solver.
Qed.

(** A map by the list of its entries. *)
#[export] Instance assoc_map : IndexMap := {|
  im_get K V _ := assoc_get;
  im_insert K V _ k v m :=
    if decide (k ∈ m.*1) then map (fun e : K * V => if decide (e.1 = k) then (k, v) else e) m else m ++ [(k, v)];
  im_remove K V _ k m := filter (fun e : K * V => e.1 <> k) m;
|}.
#[export] Instance assoc_map_laws : IndexMapLaws.
Proof.
  constructor; intros K V HK k.
  - intros v m. apply assoc_get_spec.
  - intros v m Hk. cbn. by rewrite decide_False.
  - intros v m Hk. cbn. by rewrite decide_True.
  - intros m _. done.
Qed.

Definition address (n : Z) : ContractAddress := mk_new (mk_stark (be_array 32 n)).

(** An account is deployed and writes a slot. *)
Definition before : World := mk_world _ ∅ ∅ ∅ {[address 3 := mk_new stark_default]} ∅.
Definition afterwards : World :=
  mk_world _ {[address 7 := mk_new (mk_stark (be_array 32 9))]} ∅ ∅
    {[address 3 := mk_new stark_default; address 7 := mk_new (mk_stark (be_array 32 1))]}
    {[(address 7, mk_new stark_default) := mk_stark (be_array 32 5)]}.
Definition w_changes : list BlockChange :=
  [Foreign [] None; Written (KNonce (address 7)); Written (KStorage (address 7) (mk_new stark_default));
   Written (KNonce (address 3)); Written (KClassHash (address 7))].

Lemma w_reports : reports before afterwards w_changes.
Proof.
  constructor.
  - intros k Hk. unfold w_changes in Hk. rewrite !elem_of_cons in Hk.
    destruct Hk as [?|[[= ->]|[[= ->]|[[= ->]|[[= ->]|[]%elem_of_nil]]]]]; [done|vm_compute; by eexists..].
  - intros key value Hk. unfold w_changes in Hk. rewrite !elem_of_cons in Hk.
    destruct Hk as [[= -> ->]|[?|[?|[?|[?|[]%elem_of_nil]]]]]; [|done..].
    apply (bool_decide_unpack _). vm_compute. exact I.
  - unfold w_changes. intros [a|a k|a|c] Hne; unfold read_world, before, afterwards in Hne;
    cbn [nonces storage_view contract_class_hashes compiled_class_hashes] in Hne.
    + destruct (decide (a = address 7)) as [->|H7]; [set_solver|]. destruct (decide (a = address 3)) as [->|H3]; [set_solver|].
      rewrite lookup_insert_ne, !lookup_singleton_ne in Hne by done. done.
    + destruct (decide ((a, k) = (address 7, mk_new stark_default))) as [[= -> ->]|H7]; [set_solver|].
      rewrite lookup_singleton_ne in Hne by done. done.
    + destruct (decide (a = address 7)) as [->|H7]; [set_solver|]. rewrite lookup_singleton_ne in Hne by done. done.
    + done.
Qed.

Definition w_diff_client : DiffClient Z := {|
  dc_best_hash := 1;
  dc_header h := Ok (w_header h);
  dc_contract_class_by_class_hash _ _ := Ok None;
  dc_config_hash _ := Ok stark_default;
|}.

End DiffWitness.
Import DiffWitness.

Lemma state_diff_replays_block_witness :
  exists data, build_commitment_state_diff w_diff_client (mk_sn 1 (map (raw_change afterwards) w_changes)) = Ret (Ok data)
    /\ apply_diff (da_state_diff data) before = set_contract_classes (fun _ => ∅) afterwards
    /\ da_num_addr_accessed data = 2.
Proof.
  destruct (state_diff_replays_block w_diff_client 1 before afterwards w_changes w_block
    (match header_hash (b_header w_block) with Ret f => f | Panic => ZERO end) stark_default w_reports)
    as (data & Hd & _ & _ & _ & Hw & Hn); [vm_compute; reflexivity..|].
  exists data. split; [exact Hd|]. split; [exact Hw|]. rewrite Hn. vm_compute. reflexivity.
Defined.
