(* ===== verification/Overrides.v ===== *)
(** * Storage overrides

    Models [crates/client/storage/src]: the client reads the pallet's storage at a
    block either from the raw key-value storage, when the schema of the block is
    known, or through the runtime API.  On the storage of a pallet the two agree
    for every deployed contract. *)
From S2P Require Import Prelude Bytes Deps Felt Hashers Transactions Blockifier Block PalletStorage Pallet Db StateDiff.
Local Open Scope Z_scope.

(** ** Keys *)
Definition PALLET_STARKNET_SCHEMA : list byte := bytes_of ":starknet_schema".
Definition STARKNET_CONTRACT_CLASS : list byte := bytes_of "ContractClasses".

Definition storage_prefix_build `{Twox} (module storage : list byte) : list byte :=
  arr (twox_128 module) ++ arr (twox_128 storage).

(** [Identity::hash] is the identity. *)
Definition storage_key_build (prefix key : list byte) : list byte := prefix ++ key.

(** ** The interface *)
Record StorageOverride (BHash : Type) `{ContractClassI} := mk_override {
  so_get_storage_by_storage_key : BHash -> ContractAddress -> StorageKey -> option StarkFelt;
  so_contract_class_hash_by_address : BHash -> ContractAddress -> option ClassHash;
  so_contract_class_by_address : BHash -> ContractAddress -> option ContractClass;
  so_contract_class_by_class_hash : BHash -> ClassHash -> option ContractClass;
  so_nonce : BHash -> ContractAddress -> option Nonce;
}.
Arguments mk_override {BHash _}.
Arguments so_get_storage_by_storage_key {BHash _}.
Arguments so_contract_class_hash_by_address {BHash _}.
Arguments so_contract_class_by_address {BHash _}.
Arguments so_contract_class_by_class_hash {BHash _}.
Arguments so_nonce {BHash _}.

(** [sc_client_api::StorageProvider::storage]. *)
Class StorageProvider (BHash : Type) := { client_storage : BHash -> list byte -> result unit (option (list byte)) }.

(** The calls of the runtime API; the outer result is that of the call itself. *)
Class RuntimeStorageApi (BHash : Type) `{ContractClassI} := {
  api_get_storage_at : BHash -> ContractAddress -> StorageKey -> result unit (result DispatchError StarkFelt);
  api_contract_class_hash_by_address : BHash -> ContractAddress -> result unit ClassHash;
  api_contract_class_by_class_hash : BHash -> ClassHash -> result unit (option ContractClass);
  api_nonce : BHash -> ContractAddress -> result unit Nonce;
}.

Section overrides.
  Context `{CC : ContractClassI} `{TW : Twox} {BHash : Type} {ST : StorageProvider BHash} {RA : RuntimeStorageApi BHash}.
  Context {SN : forall t, Scale (newtype t)} {SFe : Scale StarkFelt} {SK : Scale (ContractAddress * StorageKey)}.
  Context {SCl : Scale ContractClass} {SV : Scale StarknetStorageSchemaVersion}.

(** *** Schema V1: the raw storage *)
Definition query_storage {T : Type} {S : Scale T} (block_hash : BHash) (key : list byte) : option T :=
  match client_storage block_hash key with
  | Ok (Some data) => match dec data with Some result => Some result | None => None end
  | _ => None
  end.

Definition v1_contract_class_hash_by_address (block_hash : BHash) (address : ContractAddress) : option ClassHash :=
  query_storage block_hash
    (storage_key_build (storage_prefix_build PALLET_STARKNET STARKNET_CONTRACT_CLASS_HASH) (enc address)).

Definition v1_get_storage_by_storage_key (block_hash : BHash) (address : ContractAddress) (key : StorageKey)
  : option StarkFelt :=
  let storage_storage_prefix := storage_prefix_build PALLET_STARKNET STARKNET_STORAGE in
  match v1_contract_class_hash_by_address block_hash address with
  | None => None
  | Some _ =>
      match query_storage block_hash (storage_key_build storage_storage_prefix (enc (address, key))) with
      | Some storage => Some storage
      | None => Some stark_default
      end
  end.

Definition v1_contract_class_by_class_hash (block_hash : BHash) (contract_class_hash : ClassHash) : option ContractClass :=
  query_storage block_hash
    (storage_key_build (storage_prefix_build PALLET_STARKNET STARKNET_CONTRACT_CLASS) (enc contract_class_hash)).

Definition v1_contract_class_by_address (block_hash : BHash) (address : ContractAddress) : option ContractClass :=
  match v1_contract_class_hash_by_address block_hash address with
  | Some class_hash => v1_contract_class_by_class_hash block_hash class_hash
  | None => None
  end.

Definition v1_nonce (block_hash : BHash) (address : ContractAddress) : option Nonce :=
  match v1_contract_class_hash_by_address block_hash address with
  | None => None
  | Some _ =>
      match query_storage block_hash
              (storage_key_build (storage_prefix_build PALLET_STARKNET STARKNET_NONCE) (enc address)) with
      | Some nonce => Some nonce
      | None => Some (mk_new stark_default)
      end
  end.

Definition SchemaV1Override : StorageOverride BHash := {|
  so_get_storage_by_storage_key := v1_get_storage_by_storage_key;
  so_contract_class_hash_by_address := v1_contract_class_hash_by_address;
  so_contract_class_by_address := v1_contract_class_by_address;
  so_contract_class_by_class_hash := v1_contract_class_by_class_hash;
  so_nonce := v1_nonce;
|}.

(** *** The fallback: the runtime API *)
Definition api_override_get_storage (block_hash : BHash) (address : ContractAddress) (key : StorageKey) : option StarkFelt :=
  match api_get_storage_at block_hash address key with
  | Ok (Ok storage) => Some storage
  | Ok (Err _) => None
  | Err _ => None
  end.

Definition api_override_class_by_address (block_hash : BHash) (address : ContractAddress) : option ContractClass :=
  match api_contract_class_hash_by_address block_hash address with
  | Ok contract_class_hash =>
      match api_contract_class_by_class_hash block_hash contract_class_hash with Ok c => c | Err _ => None end
  | Err _ => None
  end.

Definition RuntimeApiStorageOverride : StorageOverride BHash := {|
  so_get_storage_by_storage_key := api_override_get_storage;
  so_contract_class_hash_by_address h a := result_ok (api_contract_class_hash_by_address h a);
  so_contract_class_by_address := api_override_class_by_address;
  so_contract_class_by_class_hash h ch :=
    match api_contract_class_by_class_hash h ch with Ok c => c | Err _ => None end;
  so_nonce h a := result_ok (api_nonce h a);
|}.

(** *** The handle *)
Record OverrideHandle := mk_handle {
  oh_schemas : list (StarknetStorageSchemaVersion * StorageOverride BHash);
  oh_fallback : StorageOverride BHash;
}.

Definition overrides_handle : OverrideHandle := mk_handle [(V1, SchemaV1Override)] RuntimeApiStorageOverride.

Definition onchain_storage_schema (hash : BHash) : StarknetStorageSchemaVersion :=
  match client_storage hash PALLET_STARKNET_SCHEMA with
  | Ok (Some bytes) => default Undefined (dec bytes)
  | _ => Undefined
  end.

Definition for_schema_version (oh : OverrideHandle) (schema_version : StarknetStorageSchemaVersion) : StorageOverride BHash :=
  match list_find (fun e => e.1 = schema_version) (oh_schemas oh) with
  | Some (_, e) => e.2
  | None => oh_fallback oh
  end.

Definition for_block_hash (oh : OverrideHandle) (block_hash : BHash) : StorageOverride BHash :=
  for_schema_version oh (onchain_storage_schema block_hash).

End overrides.
Arguments OverrideHandle {_} BHash.

(** [get_storage_at] of the pallet, which the runtime API calls. *)
Definition get_storage_at `{ContractClassI} (p : Pallet) (contract_address : ContractAddress) (key : StorageKey)
  : result DispatchError StarkFelt :=
  if bool_decide (is_Some (contract_class_hashes (world p) !! contract_address))
  then Ok (storage p (contract_address, key)) else Err (PErr ContractNotFound).

(** ** Properties *)
Section agreement.
  Context `{CC : ContractClassI} `{TW : Twox} {BHash : Type} {ST : StorageProvider BHash} {RA : RuntimeStorageApi BHash}.
  Context {SN : forall t, Scale (newtype t)} {SNL : forall t, ScaleLaws (newtype t)} {SFe : Scale StarkFelt} {SFL : ScaleLaws StarkFelt}.
  Context {SK : Scale (ContractAddress * StorageKey)} {SCl : Scale ContractClass} {SCL : ScaleLaws ContractClass}.
  Context {SV : Scale StarknetStorageSchemaVersion} {SVL : ScaleLaws StarknetStorageSchemaVersion}.

(** The key of an entry of a storage map of the pallet. *)
Definition map_key {K : Type} `{Scale K} (item : list byte) (k : K) : list byte :=
  storage_key_build (storage_prefix_build PALLET_STARKNET item) (enc k).

(** The raw storage at a block is that of the pallet [p], as the genesis build and
    the storage maps of FRAME lay it out. *)
Record stores_pallet (h : BHash) (p : Pallet) : Prop := {
  sp_schema : client_storage h PALLET_STARKNET_SCHEMA = Ok (Some (enc V1));
  sp_class_hash : forall a, client_storage h (map_key STARKNET_CONTRACT_CLASS_HASH a) = Ok (enc <$> contract_class_hashes (world p) !! a);
  sp_class : forall c, client_storage h (map_key STARKNET_CONTRACT_CLASS c) = Ok (enc <$> contract_classes (world p) !! c);
  sp_nonce : forall a, client_storage h (map_key STARKNET_NONCE a) = Ok (enc <$> nonces (world p) !! a);
  sp_storage : forall k, client_storage h (map_key STARKNET_STORAGE k) = Ok (enc <$> storage_view (world p) !! k);
}.

(** The runtime at a block answers from [p]. *)
Record serves_pallet (h : BHash) (p : Pallet) : Prop := {
  sv_storage : forall a k, api_get_storage_at h a k = Ok (get_storage_at p a k);
  sv_class_hash : forall a, api_contract_class_hash_by_address h a = Ok (contract_class_hash_by_address p a);
  sv_class : forall c, api_contract_class_by_class_hash h c = Ok (contract_classes (world p) !! c);
  sv_nonce : forall a, api_nonce h a = Ok (nonce p a);
}.

Lemma query_map {K V : Type} {SKy : Scale K} {SVy : Scale V} {SVyL : ScaleLaws V} h (key : list byte) (o : option V) :
  client_storage h key = Ok (enc <$> o) -> query_storage h key = o.
Proof. unfold query_storage. intros ->. destruct o as [v|]; cbn; [by rewrite dec_enc|done]. Qed.

(** What the raw reader answers on the storage of a pallet. *)
Lemma v1_class_hash_spec h p a : stores_pallet h p -> v1_contract_class_hash_by_address h a = contract_class_hashes (world p) !! a.
Proof. intros [_ S2 _ _ _]. apply (query_map _ _ _ (S2 a)). Qed.

Lemma v1_class_spec h p ch : stores_pallet h p -> v1_contract_class_by_class_hash h ch = contract_classes (world p) !! ch.
Proof. intros [_ _ S3 _ _]. apply (query_map _ _ _ (S3 ch)). Qed.

Lemma v1_nonce_spec h p a :
  stores_pallet h p ->
  v1_nonce h a = match contract_class_hashes (world p) !! a with Some _ => Some (nonce p a) | None => None end.
Proof.
  intros Hs. unfold v1_nonce. rewrite (v1_class_hash_spec h p a Hs). destruct Hs as [_ _ _ S4 _].
  fold (map_key STARKNET_NONCE a). rewrite (query_map _ _ _ (S4 a)). unfold nonce.
  destruct (contract_class_hashes (world p) !! a); [|done]. by destruct (nonces _ !! a).
Qed.

Lemma v1_storage_spec h p a k :
  stores_pallet h p -> v1_get_storage_by_storage_key h a k
  = match contract_class_hashes (world p) !! a with Some _ => Some (storage p (a, k)) | None => None end.
Proof.
  intros Hs. unfold v1_get_storage_by_storage_key. rewrite (v1_class_hash_spec h p a Hs). destruct Hs as [_ _ _ _ S5].
  destruct (contract_class_hashes (world p) !! a); [|done]. fold (map_key STARKNET_STORAGE (a, k)).
  rewrite (query_map _ _ _ (S5 (a, k))). unfold storage. by destruct (storage_view _ !! _).
Qed.

Lemma handle_selects_v1 h p : stores_pallet h p -> for_block_hash overrides_handle h = SchemaV1Override.
Proof. intros [S1 _ _ _ _]. unfold for_block_hash, onchain_storage_schema. rewrite S1. cbn. by rewrite dec_enc. Qed.

(** The two ways of reading the storage.  On the storage of a pallet the handle
    selects the raw reader, and for a deployed contract every query has the answer
    that the runtime gives.  For an address without a contract the raw reader
    always answers nothing; the runtime refuses the storage too, but gives the
    default class hash and the default nonce. *)
Theorem overrides_agree h p a k :
  stores_pallet h p -> serves_pallet h p ->
  for_block_hash overrides_handle h = SchemaV1Override
  /\ (forall c, so_contract_class_by_class_hash SchemaV1Override h c = so_contract_class_by_class_hash RuntimeApiStorageOverride h c)
  /\ so_get_storage_by_storage_key SchemaV1Override h a k = so_get_storage_by_storage_key RuntimeApiStorageOverride h a k
  /\ (forall ch, contract_class_hashes (world p) !! a = Some ch ->
      so_contract_class_hash_by_address SchemaV1Override h a = Some ch
      /\ so_contract_class_hash_by_address RuntimeApiStorageOverride h a = Some ch
      /\ so_contract_class_by_address SchemaV1Override h a = so_contract_class_by_address RuntimeApiStorageOverride h a
      /\ so_nonce SchemaV1Override h a = so_nonce RuntimeApiStorageOverride h a)
  /\ (contract_class_hashes (world p) !! a = None ->
      so_contract_class_hash_by_address SchemaV1Override h a = None
      /\ so_contract_class_by_address SchemaV1Override h a = None /\ so_nonce SchemaV1Override h a = None
      /\ so_contract_class_hash_by_address RuntimeApiStorageOverride h a = Some (mk_new stark_default)
      /\ so_nonce RuntimeApiStorageOverride h a = Some (nonce p a)).
Proof.
  intros Hs [V2 V3 V4 V5]. split; [by eapply handle_selects_v1|].
  cbn [so_get_storage_by_storage_key so_contract_class_hash_by_address
    so_contract_class_by_address so_contract_class_by_class_hash so_nonce SchemaV1Override RuntimeApiStorageOverride].
  unfold v1_contract_class_by_address. rewrite (v1_nonce_spec h p a Hs), (v1_class_hash_spec h p a Hs), (v1_storage_spec h p a k Hs).
  split_and!.
  - intros ch. by rewrite (v1_class_spec h p ch Hs), V4.
  - unfold api_override_get_storage. rewrite V2. unfold get_storage_at.
    destruct (contract_class_hashes (world p) !! a) as [ch|]; [|done]. by rewrite bool_decide_true.
  - intros ch Ha. unfold api_override_class_by_address. rewrite Ha, V3, V5.
    unfold contract_class_hash_by_address. rewrite Ha. cbn. by rewrite (v1_class_spec h p ch Hs), V4.
  - intros Ha. rewrite Ha, V3, V5. unfold contract_class_hash_by_address. by rewrite Ha.
Qed.

End agreement.

(** ** Witnesses *)
Module OverrideWitness.
Export DiffWitness.

#[export] Program Instance SchemaVersion_countable : Countable StarknetStorageSchemaVersion :=
  inj_countable' (fun v => match v with Undefined => false | V1 => true end) (fun b => if b then V1 else Undefined) _.
Next Obligation. by intros []. Qed.

Definition prefix (item : list byte) : list byte := storage_prefix_build PALLET_STARKNET item.

Lemma prefix_length item : length (prefix item) = 32%nat.
Proof. unfold prefix, storage_prefix_build. by rewrite length_app, !arr_length. Qed.

(** The entry of a map at the rest of a raw key. *)
Definition entry {K V : Type} `{Countable K} `{Countable V} (m : gmap K V) (key : list byte) : option (list byte) :=
  match dec (T := K) (drop 32 key) with Some k => option_map (enc (T := V)) (m !! k) | None => None end.

(** The raw storage of a pallet. *)
Definition pallet_storage (p : Pallet) : StorageProvider Z := {|
  client_storage _ key :=
    Ok (if bool_decide (length key < 32)%nat then Some (enc V1)
        else if bool_decide (take 32 key = prefix STARKNET_CONTRACT_CLASS_HASH) then entry (contract_class_hashes (world p)) key
        else if bool_decide (take 32 key = prefix STARKNET_CONTRACT_CLASS) then entry (contract_classes (world p)) key
        else if bool_decide (take 32 key = prefix STARKNET_NONCE) then entry (nonces (world p)) key
        else if bool_decide (take 32 key = prefix STARKNET_STORAGE) then entry (storage_view (world p)) key
        else None) |}.

Definition pallet_api (p : Pallet) : RuntimeStorageApi Z := {|
  api_get_storage_at _ a k := Ok (get_storage_at p a k);
  api_contract_class_hash_by_address _ a := Ok (contract_class_hash_by_address p a);
  api_contract_class_by_class_hash _ c := Ok (contract_classes (world p) !! c);
  api_nonce _ a := Ok (nonce p a);
|}.

Lemma entry_at {K V : Type} `{Countable K} `{Countable V} (m : gmap K V) item k : entry m (prefix item ++ enc k) = option_map (enc (T := V)) (m !! k).
Proof. unfold entry. rewrite <- (prefix_length item), drop_app_length. by rewrite dec_enc. Qed.

Lemma prefixes : NoDup (map prefix [STARKNET_CONTRACT_CLASS_HASH; STARKNET_CONTRACT_CLASS; STARKNET_NONCE; STARKNET_STORAGE]).
Proof. apply (bool_decide_unpack _). vm_compute. exact I. Qed.

Lemma map_key_prefix {K : Type} `{Scale K} item (k : K) : map_key item k = prefix item ++ enc k.
Proof. reflexivity. Qed.

Lemma storage_at_prefix p (h : Z) item l :
  client_storage (StorageProvider := pallet_storage p) h (prefix item ++ l)
  = Ok (if bool_decide (prefix item = prefix STARKNET_CONTRACT_CLASS_HASH) then entry (contract_class_hashes (world p)) (prefix item ++ l)
        else if bool_decide (prefix item = prefix STARKNET_CONTRACT_CLASS) then entry (contract_classes (world p)) (prefix item ++ l)
        else if bool_decide (prefix item = prefix STARKNET_NONCE) then entry (nonces (world p)) (prefix item ++ l)
        else if bool_decide (prefix item = prefix STARKNET_STORAGE) then entry (storage_view (world p)) (prefix item ++ l)
        else None).
Proof.
  unfold client_storage, pallet_storage. rewrite take_app_length' by (symmetry; apply prefix_length).
  rewrite bool_decide_false by (rewrite length_app, prefix_length; lia). reflexivity.
Qed.

Lemma pallet_stores p h : stores_pallet (ST := pallet_storage p) h p.
Proof.
  pose proof prefixes as Hn. cbn [map] in Hn.
  repeat match goal with
         | H : NoDup (_ :: _) |- _ => apply list.NoDup_cons in H as [? H]
         | H : _ ∉ _ :: _ |- _ => apply not_elem_of_cons in H as [? H]
         end.
  constructor; [reflexivity|..]; intros k; rewrite map_key_prefix, storage_at_prefix;
    repeat (rewrite bool_decide_false by (apply not_eq_sym; assumption)); rewrite bool_decide_true by reflexivity;
    by rewrite entry_at.
Qed.

Lemma pallet_serves p h : serves_pallet (RA := pallet_api p) h p.
Proof. by constructor. Qed.

(** One contract, with a nonce. *)
Definition w_pallet : Pallet :=
  mk_pallet _ (mk_world _ {[address 7 := mk_new (mk_stark (be_array 32 9))]} {[mk_new (mk_stark (be_array 32 9)) := 4%nat]} ∅
                 {[address 7 := mk_new (mk_stark (be_array 32 1))]} ∅)
    (mk_ledger [] [] ∅ ∅ ∅ ∅ None (address 1) (address 2) None ∅) (mk_system 0 [] [] 0 (Some V1)).

Definition w_handle : OverrideHandle Z := overrides_handle (ST := pallet_storage w_pallet) (RA := pallet_api w_pallet).

End OverrideWitness.
Import OverrideWitness.

Lemma overrides_agree_witness :
  so_nonce (for_block_hash (ST := pallet_storage w_pallet) w_handle 0) 0 (address 7)
    = Some (mk_new (mk_stark (be_array 32 1)))
  /\ so_nonce (for_block_hash (ST := pallet_storage w_pallet) w_handle 0) 0 (address 8) = None.
Proof.
  destruct (overrides_agree (ST := pallet_storage w_pallet) (RA := pallet_api w_pallet) 0 w_pallet (address 7) (mk_new stark_default)
    (pallet_stores w_pallet 0) (pallet_serves w_pallet 0)) as (H1 & _ & _ & H2 & _).
  destruct (overrides_agree (ST := pallet_storage w_pallet) (RA := pallet_api w_pallet) 0 w_pallet (address 8) (mk_new stark_default)
    (pallet_stores w_pallet 0) (pallet_serves w_pallet 0)) as (_ & _ & _ & _ & H3).
  unfold w_handle. rewrite H1. split.
  - destruct (H2 (mk_new (mk_stark (be_array 32 9)))) as (_ & _ & _ & Hn); [vm_compute; reflexivity|]. rewrite Hn. vm_compute. reflexivity.
  - destruct H3 as (_ & _ & Hn & _); [vm_compute; reflexivity|]. exact Hn.
Defined.
