(* ===== verification/RpcCore.v ===== *)
(** * Conversions of the RPC types

    Models [crates/client/rpc-core/src/utils.rs]: contract classes and state diffs
    as the RPC shows them, and the class of a declaration as the node stores it.  The functions of
    [utils.rs] that repeat those of mp-transactions are modelled in [Broadcasted]. *)
From S2P Require Import Prelude Bytes Deps Felt Hashers Transactions ComputeHash Blockifier Conversions Broadcasted Fee.
From S2P Require Import Block PalletStorage Db MappingSync Settlement StateDiff.
Local Open Scope Z_scope.

(** [From<StarkFelt> for FieldElement] panics on bytes outside the field. *)
Definition fe_of_stark `{StarknetFf} (s : StarkFelt) : outcome FieldElement := unwrap_opt (from_bytes_be (stark_bytes s)).
Definition fe_of_new `{StarknetFf} {t} (n : newtype t) : outcome FieldElement := fe_of_stark (new0 n).

(** ** State diffs *)
Record RpcStateDiff := mk_rpc_diff {
  rsd_nonces : list (FieldElement * FieldElement);
  rsd_storage_diffs : list (FieldElement * list (FieldElement * FieldElement));
  rsd_deprecated_declared_classes : list FieldElement;
  rsd_declared_classes : list (FieldElement * FieldElement);
  rsd_deployed_contracts : list (FieldElement * FieldElement);
  rsd_replaced_classes : list (FieldElement * FieldElement);
}.

Section state_diff.
  Context `{SF : StarknetFf}.

Definition pair_to_rpc {t u} (x : newtype t * newtype u) : outcome (FieldElement * FieldElement) :=
  let! a := fe_of_new (fst x) in let! b := fe_of_new (snd x) in Ret (a, b).

Definition entry_to_rpc (y : StorageKey * StarkFelt) : outcome (FieldElement * FieldElement) :=
  let! key := fe_of_new (fst y) in let! value := fe_of_stark (snd y) in Ret (key, value).

Definition storage_diff_to_rpc (x : ContractAddress * list (StorageKey * StarkFelt))
  : outcome (FieldElement * list (FieldElement * FieldElement)) :=
  let! address := fe_of_new (fst x) in let! entries := traverse entry_to_rpc (snd x) in Ret (address, entries).

Definition to_rpc_state_diff (thin_state_diff : ThinStateDiff) : outcome RpcStateDiff :=
  let! nonces := traverse pair_to_rpc (sd_nonces thin_state_diff) in
  let! storage_diffs := traverse storage_diff_to_rpc (storage_diffs thin_state_diff) in
  let! deprecated_declared_classes := traverse fe_of_new (deprecated_declared_classes thin_state_diff) in
  let! declared_classes := traverse pair_to_rpc (declared_classes thin_state_diff) in
  let! deployed_contracts := traverse pair_to_rpc (deployed_contracts thin_state_diff) in
  let! replaced_classes := traverse pair_to_rpc (replaced_classes thin_state_diff) in
  Ret (mk_rpc_diff nonces storage_diffs deprecated_declared_classes declared_classes deployed_contracts replaced_classes).

End state_diff.

(** ** Contract classes *)

(** How a class of [blockifier] is read: a Cairo 0 class has a program and its entry
    points, a Cairo 1 class is not looked into. *)
Inductive ClassView `{ClassTools} :=
| ViewV0 (program : Program) (entry_points_by_type : gmap EntryPointType (list EntryPoint))
| ViewV1.

Class ClassViews `{CT : ClassTools} := {
  class_view : ContractClass -> ClassView;
  program_to_bytes : Program -> list byte;
  (** [flate2]'s encoder, with [write_all] and [finish]. *)
  gz_write : list byte -> option (list byte);
  (** The environment variable at build time. *)
  COMPILER_VERSION : option string;
}.

(** The encodings are inverse to the decodings of a submitted class. *)
Class ClassViewsLaws `{CV : ClassViews} : Prop := {
  class_view_v0 : forall p e, class_view (contract_class_v0 p e) = ViewV0 p e;
  class_view_v1 : forall c cls, contract_class_v1 c = Some cls -> class_view cls = ViewV1;
  gz_read_write : forall data z, gz_write data = Some z -> gz_read_to_end z = Some data;
  gz_write_total : forall data, is_Some (gz_write data);
  program_bytes : forall p, program_from_bytes (program_to_bytes p) = Some p;
}.

Inductive RpcContractClass `{ClassTools} :=
| LegacyClass (c : CompressedLegacyContractClass)
| SierraClass (c : FlattenedSierraClass).

Section classes.
  Context `{SF : StarknetFf} `{SA : StarknetApi} `{CV : ClassViews}.

Definition compress (data : list byte) : result unit (list byte) := ok_or (gz_write data) tt.

Definition to_legacy_entry_point (entry_point : EntryPoint) : result unit LegacyContractEntryPoint :=
  let? selector := ok_or (from_bytes_be (stark_bytes (new0 (ep_selector entry_point)))) tt in
  Ok (mk_lcep (ep_offset entry_point) selector).

Definition collect_entry_points (entries : gmap EntryPointType (list EntryPoint)) (entry_point_type : EntryPointType)
  : result unit (list LegacyContractEntryPoint) :=
  let? points := ok_or (entries !! entry_point_type) tt in try_map to_legacy_entry_point points.

Definition to_legacy_entry_points_by_type (entries : gmap EntryPointType (list EntryPoint))
  : result unit (EntryPoints LegacyContractEntryPoint) :=
  let? constructor := collect_entry_points entries EPConstructor in
  let? external := collect_entry_points entries EPExternal in
  let? l1_handler := collect_entry_points entries EPL1Handler in
  Ok (mk_eps constructor external l1_handler).

Definition to_rpc_contract_class (contract_class : ContractClass) : result unit RpcContractClass :=
  match class_view contract_class with
  | ViewV0 program entry_points_by_type =>
      let? entry_points_by_type := to_legacy_entry_points_by_type entry_points_by_type in
      let? compressed_program := compress (program_to_bytes program) in
      Ok (LegacyClass (mk_clcc _ _ compressed_program entry_points_by_type None))
  | ViewV1 => Ok (SierraClass (mk_fsc [] (default "0.11.2"%string COMPILER_VERSION) (mk_eps [] [] []) "{}"))
  end.

End classes.

(** ** Stored Sierra classes *)

(** [starknet_api::state::ContractClass]; the map is used by key only. *)
Record ApiContractClass := mk_acc {
  acc_sierra_program : list StarkFelt;
  acc_entry_point_by_type : gmap EntryPointType (list ApiEntryPoint);
  acc_abi : string;
}.

Section sierra.
  Context `{SF : StarknetFf} `{SA : StarknetApi} `{CT : ClassTools}.

Definition rpc_entry_point_to_starknet_api_entry_point (value : SierraEntryPoint) : ApiEntryPoint :=
  mk_api_ep (to_new EntryPointSelectorT (mk_felt (sep_selector value))) (sep_function_idx value).

(** [entry(type).or_default().push(..)] for every entry point. *)
Definition push_entry_points (t : EntryPointType) (points : list SierraEntryPoint)
    (m : gmap EntryPointType (list ApiEntryPoint)) : gmap EntryPointType (list ApiEntryPoint) :=
  fold_left (fun m p => <[t := default [] (m !! t) ++ [rpc_entry_point_to_starknet_api_entry_point p]]> m) points m.

Definition flattened_sierra_to_sierra_contract_class (flattened_sierra : FlattenedSierraClass) : ApiContractClass :=
  let points := fsc_entry_points flattened_sierra in
  mk_acc (map (fun f => to_stark (mk_felt f)) (fsc_program flattened_sierra))
    (push_entry_points EPL1Handler (eps_l1_handler points)
       (push_entry_points EPExternal (eps_external points) (push_entry_points EPConstructor (eps_constructor points) ∅)))
    (fsc_abi flattened_sierra).

End sierra.

(** ** Properties *)
Section properties.
  Context `{SF : StarknetFf} {SFL : StarknetFfLaws} `{SA : StarknetApi} `{CV : ClassViews} {CVL : ClassViewsLaws}.

Lemma from_to_bytes_be (f : FieldElement) : from_bytes_be (to_bytes_be f) = Some f.
Proof. apply from_bytes_be_some. by rewrite to_bytes_be_val. Qed.

Lemma to_legacy_to_entry_point p : to_legacy_entry_point (to_entry_point p) = Ok p.
Proof. unfold to_legacy_entry_point. simpl. rewrite from_to_bytes_be. by destruct p. Qed.

Lemma to_legacy_entry_points_of points : try_map to_legacy_entry_point (map to_entry_point points) = Ok points.
Proof. induction points as [|p points IH]; [done|]. simpl. by rewrite to_legacy_to_entry_point, IH. Qed.

(** C40: a class shown by the RPC can be declared again: the class a submitted Cairo 0 class
    instantiates is shown with the same entry points, and the shown class, read the
    way a submitted one is, instantiates the same class; every Cairo 1 class is shown
    as the same class, with no program and no entry points. *)
Theorem legacy_class_roundtrip (submitted : CompressedLegacyContractClass) program cls casm sierra :
  instantiate_blockifier_contract_class submitted program = Ok cls -> contract_class_v1 casm = Some sierra ->
  (exists shown program', to_rpc_contract_class cls = Ok (LegacyClass shown)
    /\ clcc_entry_points shown = clcc_entry_points submitted
    /\ gz_read_to_end (clcc_program shown) = Some program'
    /\ instantiate_blockifier_contract_class shown program' = Ok cls)
  /\ exists shown, to_rpc_contract_class sierra = Ok (SierraClass shown)
    /\ fsc_program shown = [] /\ fsc_entry_points shown = mk_eps [] [] [].
Proof.
  unfold instantiate_blockifier_contract_class. intros H Hv1.
  destruct (program_from_bytes program) as [p|] eqn:Ep; [|done]. cbn [ok_or result_bind] in H. simplify_eq.
  split.
  - unfold to_rpc_contract_class. rewrite class_view_v0. unfold to_legacy_entry_points_by_type, collect_entry_points.
    rewrite (lookup_insert_ne _ EPL1Handler EPConstructor), (lookup_insert_ne _ EPExternal EPConstructor),
      (lookup_insert_ne _ EPL1Handler EPExternal), !lookup_insert_eq by done.
    cbn [ok_or result_bind]. rewrite !to_legacy_entry_points_of. cbn [result_bind].
    destruct (gz_write_total (program_to_bytes p)) as [z Hz].
    unfold compress. rewrite Hz. cbn [ok_or result_bind].
    do 2 eexists. split; [done|]. split; [by destruct (clcc_entry_points submitted)|].
    split; [by apply gz_read_write|]. cbn [clcc_entry_points]. by rewrite program_bytes.
  - unfold to_rpc_contract_class. rewrite (class_view_v1 casm sierra Hv1). eauto.
Qed.

Lemma push_entry_points_lookup t points m t' :
  push_entry_points t points m !! t'
  = if bool_decide (t' = t /\ points <> [])
    then Some (default [] (m !! t) ++ map rpc_entry_point_to_starknet_api_entry_point points) else m !! t'.
Proof.
  revert m. induction points as [|p points IH]; intros m; simpl.
  - rewrite bool_decide_false; [done|]. by intros [_ []].
  - rewrite IH. destruct (decide (t' = t)) as [->|Hne].
    + rewrite (bool_decide_true (t = t /\ p :: points <> [])) by done. case_bool_decide as Hb.
      * rewrite lookup_insert_eq. simpl. by rewrite <- app_assoc.
      * destruct points; [by rewrite lookup_insert_eq|]. exfalso. by apply Hb.
    + rewrite !bool_decide_false by tauto. by rewrite lookup_insert_ne by done.
Qed.

Lemma pushed_points t points m :
  m !! t = None ->
  default [] (push_entry_points t points m !! t) = map rpc_entry_point_to_starknet_api_entry_point points.
Proof. intros Hm. rewrite push_entry_points_lookup, Hm. case_bool_decide; [done|]. destruct points; [done|naive_solver]. Qed.
Lemma pushed_other t points m t' : t' <> t -> push_entry_points t points m !! t' = m !! t'.
Proof. intros. rewrite push_entry_points_lookup. rewrite bool_decide_false; tauto. Qed.

Lemma stored_points c t :
  default [] (acc_entry_point_by_type (flattened_sierra_to_sierra_contract_class c) !! t)
  = map rpc_entry_point_to_starknet_api_entry_point
      (match t with
       | EPConstructor => eps_constructor | EPExternal => eps_external | EPL1Handler => eps_l1_handler
       end (fsc_entry_points c)).
Proof.
  unfold flattened_sierra_to_sierra_contract_class. cbn [acc_entry_point_by_type].
  destruct t; rewrite ?(pushed_other EPL1Handler _ _ EPConstructor), ?(pushed_other EPL1Handler _ _ EPExternal),
    ?(pushed_other EPExternal _ _ EPConstructor) by done; apply pushed_points; rewrite ?pushed_other by done; done.
Qed.

Lemma contract_entry_point_of p :
  starknet_api_entry_point_to_contract_entry_point (rpc_entry_point_to_starknet_api_entry_point p)
  = sierra_entry_point_to_contract_entry_point p.
Proof. done. Qed.

(** The Sierra class kept for a declaration compiles like the declared one at class
    version 0.1.0: the program and the entry points of every kind reach the compiler
    unchanged, only the version the class was declared with is lost. *)
Theorem stored_class_compiles (c : FlattenedSierraClass) :
  let stored := flattened_sierra_to_sierra_contract_class c in
  sierra_to_casm_contract_class (acc_sierra_program stored) (acc_entry_point_by_type stored)
  = flattened_sierra_to_casm_contract_class (mk_fsc (fsc_program c) "0.1.0" (fsc_entry_points c) (fsc_abi c)).
Proof.
  intros stored. unfold sierra_to_casm_contract_class, stored. rewrite !stored_points.
  unfold flattened_sierra_to_casm_contract_class, entry_points_by_type_to_contract_entry_points, eps_map.
  cbn [acc_sierra_program flattened_sierra_to_sierra_contract_class fsc_program fsc_version fsc_entry_points].
  do 2 f_equal; [by rewrite map_map|]. by rewrite !map_map.
Qed.

End properties.

(** ** Witnesses *)
Module RpcCoreWitness.
Import Deps.Reference.

#[export] Instance EntryPoint_eq_dec : EqDecision EntryPoint.
Proof. solve_decision. Defined.

(** Classes as trees: a Cairo 0 class is its program and entry points. *)
#[local] Instance class_tree : ContractClassI :=
  {| ContractClass := (list byte * gmap EntryPointType (list EntryPoint)) + Z |}.
#[local] Instance tree_tools : ClassTools := {|
  RpcAbiEntry := unit; RawAbiEntry := unit; abi_entry_into := id;
  LegacyProgram := list byte; Program := list byte;
  gz_read_to_end l := Some l;
  legacy_program_from_slice l := Some l;
  legacy_class_hash _ _ _ := None;
  program_from_bytes l := Some l;
  contract_class_v0 p e := inl (p, e);
  CasmRest := unit; CompilationError := unit;
  into_casm s _ := Err tt;
  compiled_class_hash _ := None;
  contract_class_v1 c := Some (inr (c.1.1.1.1));
|}.
#[local] Instance tree_views : ClassViews := {|
  class_view c := match c with inl (p, e) => ViewV0 p e | inr _ => ViewV1 end;
  program_to_bytes p := p;
  gz_write l := Some l;
  COMPILER_VERSION := None;
|}.
#[local] Instance tree_views_laws : ClassViewsLaws.
Proof. constructor; try done. by intros ? ? [= <-]. Qed.

Definition w_class : CompressedLegacyContractClass :=
  mk_clcc _ _ [x01; x02] (mk_eps [mk_lcep 3 fe_one] [] []) (Some [tt]).

Lemma legacy_class_roundtrip_witness :
  exists shown program' cls, to_rpc_contract_class cls = Ok (LegacyClass shown)
    /\ instantiate_blockifier_contract_class shown program' = Ok cls.
Proof.
  destruct (legacy_class_roundtrip w_class [x01; x02] _ (5, "2"%string, [], mk_eps [] [] [], tt) (inr 5)
    eq_refl eq_refl) as [(shown & p' & H1 & _ & _ & H2) _].
  exists shown, p'. eexists. split; [exact H1|exact H2].
Defined.

End RpcCoreWitness.
