(* ===== verification/Rpc.v ===== *)
(** * The JSON-RPC server

    Models the methods of [crates/client/rpc/src/lib.rs]: the queries on blocks,
    transactions, classes and storage, the estimates, and the three methods that
    submit a transaction, with the errors of [errors.rs] and the remaining function of
    [madara_backend_client.rs].  Queries run on the backend database, submissions
    also on the pool.  [get_events] is modelled in [Events]. *)
From stdpp Require Import pretty.
From S2P Require Import Prelude Bytes Deps Felt Hashers Transactions ComputeHash Blockifier Conversions Broadcasted Fee.
From S2P Require Import Execution Block CallTrace PalletStorage Pallet PalletEffects Runtime Simulations Db MappingSync.
From S2P Require Import Settlement L1Messages StateDiff Overrides Events RpcCore.
Local Open Scope Z_scope.

(** ** Errors *)

(** An error of the API, or [CallError::Failed] for an [anyhow] error. *)
Inductive RpcError := RpcApi (e : StarknetRpcApiError) | CallFailed.

Definition api_error_from (err : StarknetTransactionExecutionError) : StarknetRpcApiError :=
  match err with
  | STContractNotFound => RpcContractNotFound
  | STClassAlreadyDeclared => ClassAlreadyDeclared
  | STClassHashNotFound => ClassHashNotFound
  | STInvalidContractClass => RpcInvalidContractClass
  | STContractError => RpcContractError
  end.

(** ** The node *)

(** What the server asks of the client and the sync service beyond [RpcClient]: the
    calls of the runtime API, with the result of the call itself outside, the best
    and the best seen block number. *)
Class RpcRuntime (BHash : Type) `{ContractClassI} := {
  rt_call : BHash -> ContractAddress -> EntryPointSelector -> list StarkFelt
    -> result unit (result DispatchError (list Felt252Wrapper));
  rt_convert_error : BHash -> DispatchError -> result unit StarknetTransactionExecutionError;
  rt_convert_transaction : BHash -> UserTransaction -> result unit RuntimeCall;
  rt_estimate_fee : BHash -> list UserTransaction -> result unit (result DispatchError (list (Z * Z)));
  rt_estimate_message_fee : BHash -> HandleL1MessageTransaction -> result unit (result DispatchError (Z * Z * Z));
  rt_is_transaction_fee_disabled : BHash -> result unit bool;
  rt_extrinsic_filter : BHash -> list RuntimeCall -> result unit (list Transaction);
  rt_get_events_for_tx_by_index : BHash -> Z -> result unit (option (list StarknetEvent));
  rt_get_tx_execution_outcome : BHash -> TransactionHash -> result unit (option string);
  rt_get_tx_messages_to_l1 : BHash -> TransactionHash -> result unit (list MessageToL1);
  best_number : Z;
  best_seen_block : result unit (option Z);
}.

(** [PoolError::InvalidTransaction(InvalidTransaction::BadProof)]. *)
Class PoolErrors (PoolError : Type) := { bad_proof : PoolError -> bool }.

(** [{:#x}] of a field element, and the selector of [balanceOf]. *)
Class RpcFormat := { fe_lower_hex : FieldElement -> string; balance_of_selector : FieldElement }.

(** ** Data *)
Record BlockHashAndNumber := mk_bhn { bhn_block_hash : FieldElement; bhn_block_number : Z }.
Inductive TransactionExecutionStatus := StatusSucceeded | StatusReverted.
Inductive TransactionFinalityStatus := TxAcceptedOnL2 | TxAcceptedOnL1.
Record TransactionStatus := mk_tx_status {
  ts_finality_status : TransactionFinalityStatus; ts_execution_status : TransactionExecutionStatus }.
Record FunctionCall := mk_function_call {
  fc_contract_address : FieldElement; fc_entry_point_selector : FieldElement; fc_calldata : list FieldElement }.
Record SyncStatus := mk_sync_status {
  ss_starting_block_num : Z; ss_starting_block_hash : FieldElement;
  ss_current_block_num : Z; ss_current_block_hash : FieldElement;
  ss_highest_block_num : Z; ss_highest_block_hash : FieldElement }.
Inductive SyncStatusType := Syncing (s : SyncStatus) | NotSyncing.
Inductive BlockStatus := AcceptedOnL2 | AcceptedOnL1.

(** [BlockWithTxHashes] and [BlockWithTxs]. *)
Record RpcBlock (Tx : Type) := mk_rpc_block {
  rb_transactions : list Tx;
  rb_status : BlockStatus;
  rb_block_hash : FieldElement;
  rb_parent_hash : FieldElement;
  rb_block_number : Z;
  rb_new_root : FieldElement;
  rb_timestamp : Z;
  rb_sequencer_address : FieldElement;
  rb_l1_gas_price : option Z * Z;
  rb_starknet_version : string;
}.
Arguments mk_rpc_block {Tx}.
Arguments rb_transactions {Tx}.
Arguments rb_status {Tx}.
Arguments rb_block_hash {Tx}.
Arguments rb_parent_hash {Tx}.
Arguments rb_block_number {Tx}.
Arguments rb_new_root {Tx}.
Arguments rb_timestamp {Tx}.
Arguments rb_sequencer_address {Tx}.
Arguments rb_l1_gas_price {Tx}.
Arguments rb_starknet_version {Tx}.

Record FeeEstimate := mk_fee_estimate { fe_gas_price : Z; fe_gas_consumed : Z; fe_overall_fee : Z }.
Record StateUpdate := mk_state_update {
  su_block_hash : FieldElement; su_new_root : FieldElement; su_old_root : FieldElement; su_state_diff : RpcStateDiff }.

Record CoreEvent := mk_core_event {
  cev_from_address : FieldElement; cev_keys : list FieldElement; cev_data : list FieldElement }.
Record MsgToL1 := mk_msg_to_l1 {
  mtl_from_address : FieldElement; mtl_to_address : FieldElement; mtl_payload : list FieldElement }.
Inductive RpcExecutionResult := ResultSucceeded | ResultReverted (reason : string).

(** [starknet_core::types::ExecutionResources]. *)
Record CoreExecutionResources := mk_core_resources {
  steps : Z; memory_holes : option Z; range_check : Z; pedersen : Z; poseidon : Z; ec_op : Z; ecdsa : Z; bitwise : Z; keccak : Z }.

(** What only one of the four kinds of receipt has. *)
Inductive ReceiptKind := ReceiptDeclare | ReceiptDeployAccount (contract_address : FieldElement) | ReceiptInvoke
| ReceiptL1Handler (message_hash : FieldElement).
Record TransactionReceipt := mk_receipt {
  r_kind : ReceiptKind;
  r_transaction_hash : FieldElement;
  r_actual_fee : FieldElement;
  r_finality_status : TransactionFinalityStatus;
  r_block_hash : FieldElement;
  r_block_number : Z;
  r_messages_sent : list MsgToL1;
  r_events : list CoreEvent;
  r_execution_result : RpcExecutionResult;
  r_execution_resources : CoreExecutionResources;
}.

Section server.
  Context `{SF : StarknetFf} `{SA : StarknetApi} `{PT : PrimitiveTypes} `{SC : StarknetCrypto} {HH : HasherT}.
  Context `{LC : LogCodec} `{CT : ClassTools} {SH : SierraHash} {CV : ClassViews} {RF : RpcFormat}.
  Context {BHash : Type} `{EqDecision BHash} {SU : Substrate BHash} {RC : RpcClient BHash} {RR : RpcRuntime BHash}.
  Context `{CM : Commit} {SHs : Scale (list BHash)} {SHh : Scale BHash} {SFe : Scale StarkFelt} {SFs : Scale (list StarkFelt)}.
  Context {SD : Scale ThinStateDiff} {SL : Scale LastSyncedEventBlock} {SCh : Scale ClassHash} {SAc : Scale ApiContractClass}.
  Context {ST : StorageProvider BHash} {SV : Scale StarknetStorageSchemaVersion} (overrides : OverrideHandle BHash).
  Context (cache_more_things : bool) (starting_block : Z).

Abbreviation rpc A := (effr Database RpcError A).

Definition api {S A} (m : effr S StarknetRpcApiError A) : effr S RpcError A := emap_err RpcApi m.
Definition api_result {S A E} (e : StarknetRpcApiError) (r : result E A) : effr S RpcError A :=
  eret (map_err (fun _ => RpcApi e) r).
Definition api_option {S A} (e : StarknetRpcApiError) (o : option A) : effr S RpcError A := eret (ok_or o (RpcApi e)).
Definition refuse {S A} (e : StarknetRpcApiError) : effr S RpcError A := eret (Err (RpcApi e)).

(** [substrate_block_hash_from_starknet_block] as every method calls it, and the
    block of the digest; the [anyhow] error of the latter is passed on. *)
Definition block_id_hash (block_id : BlockId) : rpc BHash :=
  emap_err (fun _ => RpcApi BlockNotFound) (substrate_block_hash_from_starknet_block block_id).
Definition digest_block (substrate_block_hash : BHash) : rpc Block :=
  eret (map_err (fun _ => CallFailed) (get_block_by_block_hash substrate_block_hash)).

(** ** The chain *)
Definition current_block_number : rpc Z := eret (Ok best_number).

Definition current_spec_version : rpc string := eret (Ok "0.4.0"%string).

(** [H256::from] of the hash keeps its bytes. *)
Definition current_block_hash : effr Database StarknetRpcApiError (array 32) :=
  match get_block_by_block_hash best_hash with
  | Ok starknet_block => hash <-- elift (header_hash (b_header starknet_block));; eret (Ok (felt_to_array hash))
  | Err _ => eret (Err BlockNotFound)
  end.

Definition spec_version : rpc string := current_spec_version.
Definition block_number : rpc Z := current_block_number.

Definition block_hash_and_number : rpc BlockHashAndNumber :=
  block_number <-? current_block_number;;
  block_hash <-? emap_err (fun _ => RpcApi NoBlocks) current_block_hash;;
  block_hash <-- elift (unwrap (from_byte_slice_be (arr block_hash)));;
  eret (Ok (mk_bhn block_hash block_number)).

Definition chain_id : rpc FieldElement :=
  chain_id <-? api_result InternalServerError (runtime_chain_id best_hash);;
  eret (Ok (felt0 chain_id)).

Definition starknet_block_from_substrate_hash (target_number : Z) : result StarknetRpcApiError Block :=
  match client_hash target_number with
  | Ok (Some block_hash) =>
      Ok (match get_block_by_block_hash block_hash with Ok block => block | Err _ => block_default end)
  | _ => Err BlockNotFound
  end.

Definition syncing : rpc SyncStatusType :=
  match best_seen_block with
  | Ok best_seen_block =>
      let highest_number := default best_number best_seen_block in
      match starknet_block_from_substrate_hash starting_block, starknet_block_from_substrate_hash best_number,
            starknet_block_from_substrate_hash highest_number with
      | Ok starting, Ok current, Ok highest =>
          starting_block_hash <-- elift (header_hash (b_header starting));;
          current_block_hash <-- elift (header_hash (b_header current));;
          highest_block_hash <-- elift (header_hash (b_header highest));;
          eret (Ok (Syncing (mk_sync_status starting_block (felt0 starting_block_hash) best_number
            (felt0 current_block_hash) highest_number (felt0 highest_block_hash))))
      | _, _, _ => eret (Ok NotSyncing)
      end
  | Err _ => eret (Ok NotSyncing)
  end.

(** ** Blocks *)
Definition get_block_transaction_count (block_id : BlockId) : rpc Z :=
  substrate_block_hash <-? block_id_hash block_id;;
  starknet_block <-? digest_block substrate_block_hash;;
  eret (Ok (h_transaction_count (b_header starknet_block))).

(** The part of the header that the two block queries show. *)
Definition rpc_block {Tx} (transactions : list Tx) (status : BlockStatus) (block_hash : Felt252Wrapper) (header : Header)
  : outcome (RpcBlock Tx) :=
  let! parent_hash := felt_from_stark (h_parent_block_hash header) in
  let! new_root := felt_from_stark temporary_global_state_root_getter in
  let! sequencer_address := felt_from_new (h_sequencer_address header) in
  Ret (mk_rpc_block transactions status (felt0 block_hash) (felt0 parent_hash) (h_block_number header) (felt0 new_root)
    (h_block_timestamp header) (felt0 sequencer_address) (CoreResourcePrice_from (h_l1_gas_price header))
    (pretty (Z.to_N (h_protocol_version header)))).

Definition block_status (header : Header) : rpc BlockStatus :=
  l1_block <-? emap_err (fun _ => RpcApi InternalServerError) last_synced_l1_block_with_event;;
  eret (Ok (if h_block_number header <=? lseb_block_number l1_block then AcceptedOnL1 else AcceptedOnL2)).

Definition get_block_with_tx_hashes (block_id : BlockId) : rpc (RpcBlock FieldElement) :=
  substrate_block_hash <-? block_id_hash block_id;;
  starknet_block <-? digest_block substrate_block_hash;;
  chain_id <-? chain_id;;
  block_hash <-- elift (header_hash (b_header starknet_block));;
  cached <-- get_cached_transaction_hashes cache_more_things (to_stark block_hash);;
  transaction_hashes <-- elift (match cached with
    | Some tx_hashes => traverse fe_of_stark tx_hashes
    | None => Ret (map felt0 (transactions_hashes starknet_block (mk_felt chain_id)))
    end);;
  block_status <-? block_status (b_header starknet_block);;
  block_with_tx_hashes <-- elift (rpc_block transaction_hashes block_status block_hash (b_header starknet_block));;
  eret (Ok block_with_tx_hashes).

(** The hash at [index] among the cached ones, or computed. *)
Definition tx_hash_at (cached : option (list StarkFelt)) (chain_id : FieldElement) (index : nat) (tx : Transaction)
  : rpc FieldElement :=
  match cached with
  | Some cached_tx_hashes =>
      match cached_tx_hashes !! index with
      | Some fe => hash <-- elift (fe_of_stark fe);; eret (Ok hash)
      | None => eret (Err CallFailed)
      end
  | None => eret (Ok (felt0 (tx_compute_hash tx (mk_felt chain_id) false)))
  end.

Definition get_transaction_by_block_id_and_index (block_id : BlockId) (index : Z) : rpc CoreTransaction :=
  substrate_block_hash <-? block_id_hash block_id;;
  starknet_block <-? digest_block substrate_block_hash;;
  transaction <-? api_option InvalidTxnIndex (b_transactions starknet_block !! Z.to_nat index);;
  chain_id <-? chain_id;;
  block_hash <-- elift (header_hash (b_header starknet_block));;
  opt_cached_transaction_hashes <-- get_cached_transaction_hashes cache_more_things (to_stark block_hash);;
  transaction_hash <-? tx_hash_at opt_cached_transaction_hashes chain_id (Z.to_nat index) transaction;;
  eret (Ok (to_starknet_core_tx transaction transaction_hash)).

(** The loop over the transactions, from [index] on. *)
Fixpoint shown_txs (cached : option (list StarkFelt)) (chain_id : FieldElement) (index : nat) (txs : list Transaction)
  : rpc (list CoreTransaction) :=
  match txs with
  | [] => eret (Ok [])
  | tx :: txs' =>
      tx_hash <-? tx_hash_at cached chain_id index tx;;
      transactions <-? shown_txs cached chain_id (S index) txs';;
      eret (Ok (to_starknet_core_tx tx tx_hash :: transactions))
  end.

Definition get_block_with_txs (block_id : BlockId) : rpc (RpcBlock CoreTransaction) :=
  substrate_block_hash <-? block_id_hash block_id;;
  starknet_block <-? digest_block substrate_block_hash;;
  block_hash <-- elift (header_hash (b_header starknet_block));;
  chain_id <-? chain_id;;
  opt_cached_transaction_hashes <-- get_cached_transaction_hashes cache_more_things (to_stark block_hash);;
  transactions <-? shown_txs opt_cached_transaction_hashes chain_id 0 (b_transactions starknet_block);;
  block_with_txs <-- elift (rpc_block transactions AcceptedOnL2 block_hash (b_header starknet_block));;
  eret (Ok block_with_txs).

Definition get_state_diff (starknet_block_hash : BlockHash) : effr Database StarknetRpcApiError RpcStateDiff :=
  state_diff <-? emap_err (fun _ => InternalServerError) (state_diff starknet_block_hash);;
  rpc_state_diff <-- elift (to_rpc_state_diff state_diff);;
  eret (Ok rpc_state_diff).

(** The root of the parent: the parent block is looked up for its errors only. *)
Definition parent_root (header : Header) : rpc FieldElement :=
  if 0 <? h_block_number header then
    parent_block_hash <-- elift (felt_from_stark (h_parent_block_hash header));;
    substrate_parent_block_hash <-? block_id_hash (BIHash parent_block_hash);;
    _ <-? digest_block substrate_parent_block_hash;;
    root <-- elift (felt_from_stark temporary_global_state_root_getter);;
    eret (Ok (felt0 root))
  else eret (Ok fe_zero).

Definition get_state_update (block_id : BlockId) : rpc StateUpdate :=
  substrate_block_hash <-? block_id_hash block_id;;
  starknet_block <-? digest_block substrate_block_hash;;
  old_root <-? parent_root (b_header starknet_block);;
  hash <-- elift (header_hash (b_header starknet_block));;
  state_diff <-? emap_err (fun _ => RpcApi InternalServerError) (get_state_diff (mk_new (to_stark hash)));;
  new_root <-- elift (felt_from_stark temporary_global_state_root_getter);;
  eret (Ok (mk_state_update (felt0 hash) (felt0 new_root) old_root state_diff)).

(** ** Transactions *)

(** [find] among the cached hashes, or among the transactions themselves. *)
Definition find_tx (cached : option (list StarkFelt)) (chain_id : FieldElement) (txs : list Transaction)
    (transaction_hash : FieldElement) : option CoreTransaction :=
  match cached with
  | Some tx_hashes =>
      (fun x => to_starknet_core_tx (snd (snd x)) transaction_hash)
        <$> list_find (fun x => fst x = to_stark (mk_felt transaction_hash)) (zip tx_hashes txs)
  | None =>
      (fun x => to_starknet_core_tx (snd x) transaction_hash)
        <$> list_find (fun tx => felt0 (tx_compute_hash tx (mk_felt chain_id) false) = transaction_hash) txs
  end.

Definition execution_outcome (substrate_block_hash : BHash) (transaction_hash : FieldElement) : rpc (option string) :=
  api_result InternalServerError
    (rt_get_tx_execution_outcome substrate_block_hash (to_new TransactionHashT (mk_felt transaction_hash))).

Definition get_transaction_status (transaction_hash : FieldElement) : rpc TransactionStatus :=
  substrate_block_hash <-? emap_err (fun _ => RpcApi TxnHashNotFound)
    (block_hash_from_transaction_hash (to_stark (mk_felt transaction_hash)));;
  substrate_block_hash <-? api_option TxnHashNotFound substrate_block_hash;;
  starknet_block <-? digest_block substrate_block_hash;;
  chain_id <-? chain_id;;
  block_hash <-- elift (header_hash (b_header starknet_block));;
  cached <-- get_cached_transaction_hashes cache_more_things (to_stark block_hash);;
  let starknet_tx := find_tx cached chain_id (b_transactions starknet_block) transaction_hash in
  revert_error <-? execution_outcome substrate_block_hash transaction_hash;;
  eret (Ok (mk_tx_status TxAcceptedOnL2 (match revert_error with None => StatusSucceeded | Some _ => StatusReverted end))).

Definition get_transaction_by_hash (transaction_hash : FieldElement) : rpc CoreTransaction :=
  substrate_block_hash_from_db <-? emap_err (fun _ => RpcApi TxnHashNotFound)
    (block_hash_from_transaction_hash (to_stark (mk_felt transaction_hash)));;
  match substrate_block_hash_from_db with
  | None => refuse TxnHashNotFound
  | Some substrate_block_hash =>
      starknet_block <-? digest_block substrate_block_hash;;
      chain_id <-? chain_id;;
      block_hash <-- elift (header_hash (b_header starknet_block));;
      cached <-- get_cached_transaction_hashes cache_more_things (to_stark block_hash);;
      api_option TxnHashNotFound (find_tx cached chain_id (b_transactions starknet_block) transaction_hash)
  end.

(** *** Receipts *)
Definition event_conversion (event : StarknetEvent) : outcome CoreEvent :=
  let! from_address := felt_from_new (sev_from_address event) in
  let! keys := traverse felt_from_new (ec_keys (sev_content event)) in
  let! data := traverse felt_from_stark (ec_data (sev_content event)) in
  Ret (mk_core_event (felt0 from_address) (map felt0 keys) (map felt0 data)).

(** Twenty bytes below twelve zeros are a field element. *)
Definition message_conversion (message : MessageToL1) : outcome MsgToL1 :=
  let! from_address := felt_from_new (mtl1_from_address message) in
  let! to_address := unwrap_opt (from_bytes_be (be_array 32 (be_val (arr (mtl1_to_address message))))) in
  let! payload := traverse felt_from_stark (mtl1_payload message) in
  Ret (mk_msg_to_l1 (felt0 from_address) to_address (map felt0 payload)).

(** The loop that stops at the transaction with the hash, from [index] on. *)
Fixpoint find_by_hash (cached : option (list StarkFelt)) (transactions : list Transaction) (chain_id : Felt252Wrapper)
    (transaction_hash : FieldElement) (index : Z) (rest : list Transaction)
  : result StarknetRpcApiError (option (Z * Transaction)) :=
  match rest with
  | [] => Ok None
  | tx :: rest' =>
      let? tx_hash := try_txn_hash_from_cache index cached transactions chain_id in
      if bool_decide (tx_hash = mk_felt transaction_hash) then Ok (Some (index, tx))
      else find_by_hash cached transactions chain_id transaction_hash (index + 1) rest'
  end.

(** The third field of the last event. *)
Definition fee_of_events (fee_disabled : bool) (events : list CoreEvent) : outcome FieldElement :=
  if fee_disabled then Ret fe_zero
  else let! event := unwrap_opt (list.last events) in unwrap_opt (cev_data event !! 2%nat).

Definition no_resources : CoreExecutionResources := mk_core_resources 0 None 0 0 0 0 0 0 0.

Definition receipt_kind (transaction : Transaction) (message_hash : FieldElement) : ReceiptKind :=
  match transaction with
  | TDeclare _ => ReceiptDeclare
  | TDeployAccount tx => ReceiptDeployAccount (get_account_address tx)
  | TInvoke _ => ReceiptInvoke
  | TL1Handler _ => ReceiptL1Handler message_hash
  end.

Definition get_transaction_receipt (transaction_hash : FieldElement) : rpc TransactionReceipt :=
  substrate_block_hash <-? emap_err (fun _ => RpcApi InternalServerError)
    (block_hash_from_transaction_hash (to_stark (mk_felt transaction_hash)));;
  substrate_block_hash <-? api_option TxnHashNotFound substrate_block_hash;;
  starknet_block <-? digest_block substrate_block_hash;;
  let block_header := b_header starknet_block in
  block_hash <-- elift (header_hash block_header);;
  block_extrinsics <-? api_result InternalServerError (block_body substrate_block_hash);;
  block_extrinsics <-? api_option BlockNotFound block_extrinsics;;
  chain_id <-? chain_id;;
  fee_disabled <-? api_result InternalServerError (rt_is_transaction_fee_disabled substrate_block_hash);;
  transactions <-? api_result InternalServerError (rt_extrinsic_filter substrate_block_hash block_extrinsics);;
  txn_hashes <-- get_cached_transaction_hashes cache_more_things (to_stark block_hash);;
  found <-? eret (map_err RpcApi (find_by_hash txn_hashes transactions (mk_felt chain_id) transaction_hash 0 transactions));;
  found <-? api_option InternalServerError found;;
  let (tx_index, transaction) := found in
  let tx_index := wsub 64 (wadd 64 tx_index (zlen block_extrinsics)) (zlen transactions) in
  events <-? api_result InternalServerError (rt_get_events_for_tx_by_index substrate_block_hash (wrap 32 tx_index));;
  events <-- elift (unwrap_opt events);;
  revert_error <-? execution_outcome substrate_block_hash transaction_hash;;
  let execution_result := match revert_error with None => ResultSucceeded | Some message => ResultReverted message end in
  let message_hash := fe_zero in
  events_converted <-- elift (traverse event_conversion events);;
  actual_fee <-- elift (fee_of_events fee_disabled events_converted);;
  messages <-? api_result InternalServerError
    (rt_get_tx_messages_to_l1 substrate_block_hash (to_new TransactionHashT (mk_felt transaction_hash)));;
  messages_sent <-- elift (traverse message_conversion messages);;
  eret (Ok {| r_kind := receipt_kind transaction message_hash; r_transaction_hash := transaction_hash;
              r_actual_fee := actual_fee; r_finality_status := TxAcceptedOnL2; r_block_hash := felt0 block_hash;
              r_block_number := h_block_number block_header; r_messages_sent := messages_sent;
              r_events := events_converted; r_execution_result := execution_result;
              r_execution_resources := no_resources |}).

(** ** Storage and classes *)
Definition get_storage_at (contract_address key : FieldElement) (block_id : BlockId) : rpc FieldElement :=
  substrate_block_hash <-? block_id_hash block_id;;
  let contract_address := to_new ContractAddressT (mk_felt contract_address) in
  let key := to_new StorageKeyT (mk_felt key) in
  value <-? api_option RpcContractNotFound
    (so_get_storage_by_storage_key (for_block_hash overrides substrate_block_hash) substrate_block_hash contract_address key);;
  value <-- elift (felt_from_stark value);;
  eret (Ok (felt0 value)).

Definition get_class_at (block_id : BlockId) (contract_address : FieldElement) : rpc RpcContractClass :=
  substrate_block_hash <-? block_id_hash block_id;;
  contract_class <-? api_option RpcContractNotFound
    (so_contract_class_by_address (for_block_hash overrides substrate_block_hash) substrate_block_hash
       (to_new ContractAddressT (mk_felt contract_address)));;
  api_result RpcInvalidContractClass (to_rpc_contract_class contract_class).

Definition get_class_hash_at (block_id : BlockId) (contract_address : FieldElement) : rpc FieldElement :=
  substrate_block_hash <-? block_id_hash block_id;;
  class_hash <-? api_option RpcContractNotFound
    (so_contract_class_hash_by_address (for_block_hash overrides substrate_block_hash) substrate_block_hash
       (to_new ContractAddressT (mk_felt contract_address)));;
  class_hash <-- elift (felt_from_new class_hash);;
  eret (Ok (felt0 class_hash)).

Definition get_class (block_id : BlockId) (class_hash : FieldElement) : rpc RpcContractClass :=
  substrate_block_hash <-? block_id_hash block_id;;
  contract_class <-? api_option ClassHashNotFound
    (so_contract_class_by_class_hash (for_block_hash overrides substrate_block_hash) substrate_block_hash
       (to_new ClassHashT (mk_felt class_hash)));;
  api_result InternalServerError (to_rpc_contract_class contract_class).

Definition get_nonce (block_id : BlockId) (contract_address : FieldElement) : rpc FieldElement :=
  substrate_block_hash <-? block_id_hash block_id;;
  nonce <-? api_option RpcContractNotFound
    (so_nonce (for_block_hash overrides substrate_block_hash) substrate_block_hash
       (to_new ContractAddressT (mk_felt contract_address)));;
  nonce <-- elift (felt_from_new nonce);;
  eret (Ok (felt0 nonce)).

(** ** Calls and estimates *)
Definition convert_call_error {A} (best_block_hash : BHash) (call_result : result DispatchError A)
  : result StarknetRpcApiError A :=
  match call_result with
  | Ok val => Ok val
  | Err e =>
      match rt_convert_error best_block_hash e with
      | Ok starknet_error => Err (api_error_from starknet_error)
      | Err _ => Err InternalServerError
      end
  end.

Definition call (request : FunctionCall) (block_id : BlockId) : rpc (list string) :=
  substrate_block_hash <-? block_id_hash block_id;;
  let calldata := map (fun x => to_stark (mk_felt x)) (fc_calldata request) in
  result <-? api_result InternalServerError
    (rt_call substrate_block_hash (to_new ContractAddressT (mk_felt (fc_contract_address request)))
       (to_new EntryPointSelectorT (mk_felt (fc_entry_point_selector request))) calldata);;
  result <-? eret (map_err RpcApi (convert_call_error substrate_block_hash result));;
  eret (Ok (map (fun x => fe_lower_hex (felt0 x)) result)).

(** [collect] into a [Result], of conversions that may panic. *)
Fixpoint convert_all (request : list BroadcastedTransaction) : conversion (list UserTransaction) :=
  match request with
  | [] => Ret (Ok [])
  | tx :: request' => transaction <-c user_try_from tx;; transactions <-c convert_all request';; Ret (Ok (transaction :: transactions))
  end.

Definition lift_conversion {S A} (m : conversion A) : effr S RpcError A :=
  r <-- elift m;; api_result InternalServerError r.

Definition estimate_fee (request : list BroadcastedTransaction) (block_id : BlockId) : rpc (list FeeEstimate) :=
  substrate_block_hash <-? block_id_hash block_id;;
  chain_id <-? chain_id;;
  transactions <-? lift_conversion (convert_all request);;
  fee_estimates <-? api_result InternalServerError (rt_estimate_fee substrate_block_hash transactions);;
  fee_estimates <-? api_result RpcContractError fee_estimates;;
  eret (Ok (map (fun x => mk_fee_estimate 10 (snd x) (fst x)) fee_estimates)).

Definition estimate_message_fee (message : MsgFromL1) (block_id : BlockId) : rpc FeeEstimate :=
  substrate_block_hash <-? block_id_hash block_id;;
  chain_id <-? chain_id;;
  fee_estimate <-? api_result InternalServerError
    (rt_estimate_message_fee substrate_block_hash (HandleL1Message_from_msg message));;
  fee_estimate <-? api_result RpcContractError fee_estimate;;
  let '(gas_price, fee, gas) := fee_estimate in
  gas_price <-? api_option InternalServerError (if gas_price <=? u64_max then Some gas_price else None);;
  eret (Ok (mk_fee_estimate gas_price gas fee)).

(** ** Accounts of the genesis *)

(** [GenesisData] as the server reads it; [Account] is shown as it is. *)
Definition predeployed_account {Account : Type} (address_of : Account -> FieldElement) (fee_token_address : FieldElement)
    (account : Account) : eff Database (Account * FieldElement) :=
  balances <-- call (mk_function_call fee_token_address balance_of_selector [address_of account]) (BITag Latest);;
  balances <-- elift (unwrap balances);;
  balance_string <-- elift (unwrap_opt (balances !! 0%nat));;
  balance <-- elift (unwrap (felt_from_hex_be balance_string));;
  eret (account, felt0 balance).

Fixpoint predeployed_accounts_of {Account : Type} (address_of : Account -> FieldElement) (fee_token_address : FieldElement)
    (accounts : list Account) : eff Database (list (Account * FieldElement)) :=
  match accounts with
  | [] => eret []
  | account :: accounts' =>
      shown <-- predeployed_account address_of fee_token_address account;;
      rest <-- predeployed_accounts_of address_of fee_token_address accounts';;
      eret (shown :: rest)
  end.

Definition predeployed_accounts {Account : Type} (address_of : Account -> FieldElement)
    (genesis_data : result unit (Felt252Wrapper * list Account)) : rpc (list (Account * FieldElement)) :=
  genesis_data <-? eret (map_err (fun _ => CallFailed) genesis_data);;
  accounts <-- predeployed_accounts_of address_of (felt0 (fst genesis_data)) (snd genesis_data);;
  eret (Ok accounts).

(** ** Submissions *)
Section write.
  Context {PoolState PoolError TxHash : Type} {TP : TransactionPool BHash PoolState PoolError TxHash} {PE : PoolErrors PoolError}.

Definition submit_extrinsic (best_block_hash : BHash) (extrinsic : RuntimeCall)
  : effr (PoolState * Database) RpcError TxHash :=
  emap_err (fun e => RpcApi (if bad_proof e then ValidationFailure else InternalServerError))
    (on_fst (submit_one best_block_hash extrinsic)).

Definition convert_tx_to_extrinsic (best_block_hash : BHash) (transaction : UserTransaction)
  : effr (PoolState * Database) RpcError RuntimeCall :=
  api_result InternalServerError (rt_convert_transaction best_block_hash transaction).

(** What the three methods share: convert, submit, and the hash of the transaction. *)
Definition submit_transaction (best_block_hash : BHash) (transaction : UserTransaction)
  : effr (PoolState * Database) RpcError FieldElement :=
  extrinsic <-? convert_tx_to_extrinsic best_block_hash transaction;;
  submit_extrinsic best_block_hash extrinsic ;;?
  chain_id <-? on_snd chain_id;;
  eret (Ok (felt0 (user_compute_hash transaction (mk_felt chain_id) false))).

Definition add_invoke_transaction (invoke_transaction : BroadcastedInvokeTransaction)
  : effr (PoolState * Database) RpcError FieldElement :=
  transaction <-? lift_conversion (Ret (invoke_try_from invoke_transaction));;
  submit_transaction best_hash transaction.

(** The hash and the address. *)
Definition add_deploy_account_transaction (deploy_account_transaction : BroadcastedDeployAccountTransaction)
  : effr (PoolState * Database) RpcError (FieldElement * FieldElement) :=
  transaction <-? lift_conversion (Ret (deploy_account_try_from deploy_account_transaction));;
  transaction_hash <-? submit_transaction best_hash transaction;;
  match transaction with
  | UDeployAccount tx => eret (Ok (transaction_hash, felt0 (account_address tx)))
  | _ => refuse InternalServerError
  end.

Definition sierra_class_of (declare_transaction : BroadcastedDeclareTransaction) : option ApiContractClass :=
  match declare_transaction with
  | BDeclareV2 tx => Some (flattened_sierra_to_sierra_contract_class (bdec2_contract_class tx))
  | BDeclareV1 _ => None
  end.

(** A failure to store the class is only logged. *)
Definition keep_sierra_class (class_hash : Felt252Wrapper) (class : option ApiContractClass)
  : eff (PoolState * Database) unit :=
  match class with
  | Some class => _ <-- on_snd (store_sierra_class (to_new ClassHashT class_hash) class);; eret tt
  | None => eret tt
  end.

(** The hash of the transaction and of the class. *)
Definition add_declare_transaction (declare_transaction : BroadcastedDeclareTransaction)
  : effr (PoolState * Database) RpcError (FieldElement * FieldElement) :=
  let opt_sierra_contract_class := sierra_class_of declare_transaction in
  transaction <-? lift_conversion (declare_try_from declare_transaction);;
  match transaction with
  | UDeclare tx _ =>
      let class_hash := declare_class_hash tx in
      match so_contract_class_by_class_hash (for_block_hash overrides best_hash) best_hash (to_new ClassHashT class_hash) with
      | Some _ => refuse ClassAlreadyDeclared
      | None =>
          tx_hash <-? submit_transaction best_hash transaction;;
          keep_sierra_class class_hash opt_sierra_contract_class ;;;
          eret (Ok (tx_hash, felt0 class_hash))
      end
  | _ => refuse InternalServerError
  end.

End write.
End server.
