(* ===== verification/RpcProperties.v ===== *)
(** * Properties of the JSON-RPC server

    A transaction is found by its hash exactly when a mapped block has it; a
    submitted transaction reaches the pool as the extrinsic that is later shown under
    the hash that was returned; a receipt is that of the extrinsic found by the hash;
    the state queries answer from the storage of the pallet.  Two theorems show what
    the cache of transaction hashes can get wrong. *)
From S2P Require Import Prelude Bytes Deps Felt Hashers Transactions ComputeHash Blockifier Conversions Broadcasted Fee.
From S2P Require Import Execution Block CallTrace PalletStorage Pallet PalletEffects Runtime Simulations Db MappingSync.
From S2P Require Import Settlement L1Messages StateDiff Overrides Events RpcCore Rpc.
Local Open Scope Z_scope.

(** ** Transactions by hash *)
Section lookup.
  Context `{SF : StarknetFf} {SFL : StarknetFfLaws} `{SA : StarknetApi} {SAL : StarknetApiLaws}.
  Context `{PT : PrimitiveTypes} {PTL : PrimitiveTypesLaws} `{SC : StarknetCrypto} {HH : HasherT} `{CC : ContractClassI} `{LC : LogCodec} `{CM : Commit}.
  Context {BHash : Type} `{Countable BHash} {SH : Scale BHash} {SHs : Scale (list BHash)} {SB : Scale bool} {SFe : Scale StarkFelt}.
  Context {SFs : Scale (list StarkFelt)} {LH : ScaleLaws BHash} {LHs : ScaleLaws (list BHash)} {LB : ScaleLaws bool}.
  Context {LF : ScaleLaws StarkFelt} {LFs : ScaleLaws (list StarkFelt)}.
  Context (cache_more_things : bool) (sub_hash : SubHeader BHash -> BHash) (sync_from : Z).
  Context (header_of : BHash -> option (SubHeader BHash)) (c : Felt252Wrapper) (answered : BHash -> Prop).

(** The transactions of the chain's blocks can be told by the Starknet block hash, which
    is the key of the cache.  The hash itself does not ensure it: it is the hash of the
    header, and blocks of different forks can have the same header. *)
Definition identified : Prop :=
  forall h h' hd hd' b b' f, header_of h = Some hd -> header_of h' = Some hd' -> carries hd b f -> carries hd' b' f ->
    b_transactions b = b_transactions b' /\ (sub_number hd = 0 <-> sub_number hd' = 0).

(** A client that knows every header of the chain and answers with its chain id. *)
Record knows (SU : Substrate BHash) (RC : RpcClient BHash) : Prop := {
  knows_header : forall h hd, header_of h = Some hd -> client_header h = Ok (Some hd);
  knows_chain_id : runtime_chain_id best_hash = Ok c;
}.

(** A block listed in the database, other than genesis, has the transaction [x] with hash [t]. *)
Definition has_tx (db : Database) (t : FieldElement) (x : Transaction) : Prop :=
  exists h hd b f l, mapping_block_hash (to_stark f) db = Ret (Ok (Some l), db) /\ h ∈ l
    /\ header_of h = Some hd /\ carries hd b f /\ sub_number hd <> 0 /\ x ∈ b_transactions b /\ felt0 (tx_compute_hash x c false) = t.

Lemma to_stark_inj f g : to_stark f = to_stark g -> f = g.
Proof. intros Hfg. apply (to_new_inj TransactionHashT). unfold to_new. by rewrite Hfg. Qed.

Lemma mapped_txs_elem (h : BHash) (hd : SubHeader BHash) b t :
  t ∈ mapped_txs (fun _ => c) h hd b <->
  sub_number hd <> 0 /\ exists x, x ∈ b_transactions b /\ t = to_stark (tx_compute_hash x c false).
Proof.
  unfold mapped_txs, transactions_hashes. destruct (_ =? 0) eqn:E; zbool.
  - split; [by intros ?%elem_of_nil|tauto].
  - rewrite map_map, list_elem_of_fmap. naive_solver.
Qed.

Lemma stark_hash_eq x t : to_stark (tx_compute_hash x c false) = to_stark (mk_felt t) <-> felt0 (tx_compute_hash x c false) = t.
Proof. split; [by intros ->%to_stark_inj|]. intros <-. by destruct (tx_compute_hash x c false). Qed.

(** Looking through the cached hashes is looking through the transactions. *)
Lemma find_tx_spec cached txs t :
  cached = None \/ cached = Some (map to_stark (map (fun x => tx_compute_hash x c false) txs)) ->
  find_tx cached (felt0 c) txs t
  = (fun x => to_starknet_core_tx (snd x) t) <$> list_find (fun x => felt0 (tx_compute_hash x c false) = t) txs.
Proof.
  unfold find_tx. replace (mk_felt (felt0 c)) with c by by destruct c. intros [->| ->]; [done|].
  induction txs as [|x txs IH]; [done|]. cbn [map zip zip_with list_find fst snd].
  destruct (decide (felt0 _ = t)) as [E|E]; destruct (decide (to_stark _ = _)) as [E'|E'];
    [done|by destruct E'; apply stark_hash_eq|by destruct E; apply stark_hash_eq|].
  destruct (list_find _ txs) as [[i y]|]; destruct (list_find _ (zip _ txs)) as [[j z]|]; cbn in *; congruence.
Qed.

(** Genesis has no mapped transaction, whatever it carries. *)
Lemma cached_hashes m h hd b f :
  identified -> caches header_of (fun _ => c) m -> header_of h = Some hd -> carries hd b f -> sub_number hd <> 0 ->
  forall l, v_cache m !! to_stark f = Some l -> l = map to_stark (map (fun x => tx_compute_hash x c false) (b_transactions b)).
Proof.
  intros Hid Hca Hh Hc Hn l (h' & hd' & b' & f' & _ & Hh' & Hc' & Hf & ->)%Hca. apply to_stark_inj in Hf as <-.
  destruct (Hid h h' hd hd' b b' f Hh Hh' Hc Hc') as [Htxs Hz]. unfold mapped_txs, transactions_hashes.
  destruct (_ =? 0) eqn:E; zbool; [tauto|by rewrite Htxs].
Qed.

(** The query finds a transaction of a listed block with the hash, or there is none. *)
Lemma transaction_lookup (SU : Substrate BHash) (RC : RpcClient BHash) (db : Database) (t : FieldElement) :
  synced_by cache_more_things sub_hash sync_from header_of (fun _ => c) answered db ->
  (cache_more_things = true -> identified) -> knows SU RC ->
  (exists x, has_tx db t x /\ get_transaction_by_hash cache_more_things t db = Ret (Ok (to_starknet_core_tx x t), db))
  \/ (forall x, ~ has_tx db t x) /\ get_transaction_by_hash cache_more_things t db = Ret (Err (RpcApi TxnHashNotFound), db).
Proof.
  intros (m & Hr & Ha & Hca)%synced_by_caches Hid [Kh Kc]. unfold get_transaction_by_hash, emap_err, etry, ebind, eret.
  rewrite (rep_txs _ _ _ Hr). cbn [map_err].
  destruct (v_txs m !! to_stark (mk_felt t)) as [h|] eqn:Et.
  - left. destruct (agr_txs _ _ _ _ _ Ha _ _ Et) as (Hs & hd & b & f & Hh & Hc & (Hn & x0 & Hx0 & Ex0)%mapped_txs_elem & Hl).
    destruct (v_blocks m !! to_stark f) as [l|] eqn:El; [|by apply not_elem_of_nil in Hl].
    destruct (Hc) as [Hb Hf]. unfold digest_block, get_block_by_block_hash, chain_id, api_result, etry, ebind, eret, elift.
    rewrite (Kh h hd Hh), Hb. cbn [map_err]. rewrite Kc. cbn [map_err]. rewrite Hf.
    unfold get_cached_transaction_hashes, ebind, eret. rewrite (rep_cache _ _ _ Hr). unfold api_option, eret.
    rewrite find_tx_spec.
    + symmetry in Ex0. apply stark_hash_eq in Ex0.
      destruct (list_find_elem_of (fun x => felt0 (tx_compute_hash x c false) = t) _ x0 Hx0 Ex0) as [[i x] Hx].
      rewrite Hx. apply list_find_Some in Hx as (Hi & Hxt & _). exists x. split; [|done].
      exists h, hd, b, f, l. split_and!; try done; [|by eapply list_elem_of_lookup_2].
      by rewrite (rep_blocks _ _ _ Hr), El.
    + destruct cache_more_things; [|by left]. destruct (v_cache m !! to_stark f) as [l'|] eqn:El'; [|by left].
      right. f_equal. eapply cached_hashes; [by apply Hid|done..].
  - right. split; [|done]. intros x (h & hd & b & f & l & Hl & Hin & Hh & Hc & Hn & Hx & Ex).
    rewrite (rep_blocks _ _ _ Hr) in Hl. injection Hl as Hl.
    destruct (agr_mapped _ _ _ _ _ Ha h hd b f ltac:(by rewrite Hl) Hh Hc (to_stark (mk_felt t))) as [h' Eh']; [|congruence].
    apply mapped_txs_elem. split; [done|]. exists x. split; [done|]. symmetry. by apply stark_hash_eq.
Qed.

(** C12: a transaction is found by its hash exactly when a mapped block has it.  On a
    database that any rounds of syncing lead to, whatever failed in them, and with a
    client that now knows the chain: the query shows a transaction of a block listed in
    the database that has this hash, or answers that there is none, and then no listed
    block has one; it changes nothing.  Without the cache this needs nothing else.  With
    the cache it needs that blocks with the same Starknet block hash have the same
    transactions; on forks it can fail, see [fork_cache_hides_transaction]. *)
Theorem transaction_by_hash_exact (SU : Substrate BHash) (RC : RpcClient BHash) (db : Database) (t : FieldElement) :
  synced_by cache_more_things sub_hash sync_from header_of (fun _ => c) answered db ->
  (cache_more_things = true -> identified) -> knows SU RC ->
  (exists x, has_tx db t x /\ get_transaction_by_hash cache_more_things t db = Ret (Ok (to_starknet_core_tx x t), db))
  \/ (forall x, ~ has_tx db t x) /\ get_transaction_by_hash cache_more_things t db = Ret (Err (RpcApi TxnHashNotFound), db).
Proof. apply transaction_lookup. Qed.

End lookup.

(** ** Submissions *)
Section submission.
  Context `{SF : StarknetFf} {SFL : StarknetFfLaws} `{SA : StarknetApi} `{PT : PrimitiveTypes} `{SC : StarknetCrypto} {HH : HasherT}.
  Context `{CT : ClassTools} {SHa : SierraHash} {CFG : Config} {BHash : Type} {SU : Substrate BHash} {RC : RpcClient BHash} {RR : RpcRuntime BHash}.
  Context `{CM : Commit} {SCh : Scale ClassHash} {LCh : ScaleLaws ClassHash} {SAc : Scale ApiContractClass} {LAc : ScaleLaws ApiContractClass}.
  Context {ST : StorageProvider BHash} {SV : Scale StarknetStorageSchemaVersion} (overrides : OverrideHandle BHash).
  Context {PoolState PoolError TxHash : Type} {TP : TransactionPool BHash PoolState PoolError TxHash} {PE : PoolErrors PoolError}.

(** What the runtime of the best block answers when asked to convert a transaction, if
    it answers, is the conversion of [Runtime]. *)
Definition converts : Prop := forall u x, rt_convert_transaction best_hash u = Ok x -> x = convert_transaction u.

(** The three methods as one; all answer with the hash of the transaction. *)
Definition add_transaction (b : BroadcastedTransaction) : effr (PoolState * Database) RpcError FieldElement :=
  match b with
  | BInvoke t => add_invoke_transaction t
  | BDeployAccount t => x <-? add_deploy_account_transaction t;; eret (Ok (fst x))
  | BDeclare t => x <-? add_declare_transaction overrides t;; eret (Ok (fst x))
  end.

(** The class of a declaration as the best block has it. *)
Definition known_class (u : UserTransaction) : option ContractClass :=
  match u with
  | UDeclare tx _ => so_contract_class_by_class_hash (for_block_hash overrides best_hash) best_hash
                       (to_new ClassHashT (declare_class_hash tx))
  | _ => None
  end.

(** The database after a submission: the Sierra class of a version-2 declaration is
    kept under its class hash, and nothing else is written, unless the commit of just
    that entry fails. *)
Definition class_kept (ch : ClassHash) (cls : ApiContractClass) (db db' : Database) : Prop :=
  if commit_fails [(SIERRA_CONTRACT_CLASSES, enc ch, enc cls)] db then db' = db
  else get_sierra_class ch db' = Ret (Ok (Some cls), db')
       /\ forall k, k <> (SIERRA_CONTRACT_CLASSES, enc ch) -> db' !! k = db !! k.

Definition keeps_class (b : BroadcastedTransaction) (u : UserTransaction) (db db' : Database) : Prop :=
  match b, u with
  | BDeclare (BDeclareV2 t), UDeclare tx _ =>
      class_kept (to_new ClassHashT (declare_class_hash tx)) (flattened_sierra_to_sierra_contract_class (bdec2_contract_class t)) db db'
  | _, _ => db' = db
  end.

Lemma user_hash_stored u c o : user_compute_hash u c o = tx_compute_hash (stored_tx u) c o.
Proof. by destruct u. Qed.

(** Submitting: the conversion can fail before the pool is asked, the pool can refuse, and
    the chain id can fail after the pool has accepted. *)
Lemma submit_transaction_spec u pool db :
  converts -> submit_transaction best_hash u (pool, db)
  = if is_ok (rt_convert_transaction best_hash u) then
      match submit_one best_hash (convert_transaction u) pool with
      | Ret (Ok _, pool') =>
          match runtime_chain_id best_hash with
          | Ok c => Ret (Ok (felt0 (tx_compute_hash (stored_tx u) c false)), (pool', db))
          | Err _ => Ret (Err (RpcApi InternalServerError), (pool', db))
          end
      | Ret (Err e, pool') => Ret (Err (RpcApi (if bad_proof e then ValidationFailure else InternalServerError)), (pool', db))
      | Panic => Panic
      end
    else Ret (Err (RpcApi InternalServerError), (pool, db)).
Proof.
  intros Hcv. unfold submit_transaction, convert_tx_to_extrinsic, submit_extrinsic, api_result, emap_err, etry, ebind, on_fst, on_snd, eret.
  destruct (rt_convert_transaction best_hash u) as [x|] eqn:Hx; cbn [map_err is_ok]; [|done]. apply Hcv in Hx as ->.
  destruct (submit_one _ _ pool) as [[[x|e] pool']|]; cbn [map_err]; [|done..].
  unfold chain_id, api_result, etry, ebind, eret. destruct (runtime_chain_id best_hash) as [c|]; cbn [map_err]; [|done].
  rewrite <- user_hash_stored. by destruct c.
Qed.

Lemma keep_class_spec ch class (pool : PoolState) (db : Database) :
  exists db', keep_sierra_class ch class (pool, db) = Ret (tt, (pool, db'))
    /\ match class with Some cls => class_kept (to_new ClassHashT ch) cls db db' | None => db' = db end.
Proof.
  destruct class as [cls|]; [|by eexists]. unfold keep_sierra_class, store_sierra_class, on_snd, ebind, eret, class_kept, commit.
  destruct (commit_fails _ db); eexists; (split; [done|]); [done|]. cbn [fold_left]. unfold apply_change. split.
  - apply read_opt_hit. by rewrite lookup_insert_eq.
  - intros k Hk. by rewrite lookup_insert_ne.
Qed.

(** What an accepted submission did. *)
Record submitted (b : BroadcastedTransaction) (u : UserTransaction) (pool : PoolState) (db : Database) (c : Felt252Wrapper)
    (hash : FieldElement) (pool' : PoolState) (db' : Database) : Prop := {
  sub_pool : exists txh, submit_one best_hash (convert_transaction u) pool = Ret (Ok txh, pool');
  sub_chain_id : runtime_chain_id best_hash = Ok c;
  sub_hash : hash = felt0 (tx_compute_hash (stored_tx u) c false);
  sub_class : known_class u = None;
  sub_db : keeps_class b u db db';
}.

Lemma submit_plain b u pool db hash pool' db' :
  converts -> submit_transaction best_hash u (pool, db) = Ret (Ok hash, (pool', db')) ->
  known_class u = None -> (db' = db -> keeps_class b u db db') -> exists c, submitted b u pool db c hash pool' db'.
Proof.
  intros Hcv. rewrite (submit_transaction_spec _ _ _ Hcv). destruct (is_ok _); [|done].
  destruct (submit_one _ _ pool) as [[[x|e] pool1]|] eqn:E; [|done..]. destruct (runtime_chain_id best_hash) as [c|] eqn:Ec; [|done].
  intros [= <- <- <-] Hk Hd. exists c. split; eauto.
Qed.

Lemma invoke_submitted t pool db hash pool' db' :
  converts -> add_transaction (BInvoke t) (pool, db) = Ret (Ok hash, (pool', db')) ->
  exists u c, user_try_from (BInvoke t) = Ret (Ok u) /\ submitted (BInvoke t) u pool db c hash pool' db'.
Proof.
  intros Hcv. unfold add_transaction, add_invoke_transaction, lift_conversion, api_result, etry, ebind, elift, eret.
  cbn [user_try_from]. destruct (invoke_try_from t) as [u|] eqn:Eu; [|done]. cbn [map_err]. intros Hs.
  destruct (invoke_converts _ _ Eu) as [tx ->]. eapply submit_plain in Hs as [c Hs]; [by eexists _, c|done..].
Qed.

Lemma deploy_submitted t pool db hash pool' db' :
  converts -> add_transaction (BDeployAccount t) (pool, db) = Ret (Ok hash, (pool', db')) ->
  exists u c, user_try_from (BDeployAccount t) = Ret (Ok u) /\ submitted (BDeployAccount t) u pool db c hash pool' db'.
Proof.
  intros Hcv. unfold add_transaction, add_deploy_account_transaction, lift_conversion, api_result, etry, ebind, elift, eret.
  cbn [user_try_from]. destruct (deploy_account_try_from t) as [u|] eqn:Eu; [|done]. cbn [map_err].
  destruct (submit_transaction _ _ _) as [[[hash'|] [pool1 db1]]|] eqn:Hs; [|done..].
  destruct (deploy_converts _ _ Eu) as [tx ->].
  intros [= <- <- <-]. eapply submit_plain in Hs as [c Hs]; [by eexists _, c|done..].
Qed.

Lemma declare_submitted t pool db hash pool' db' :
  converts -> add_transaction (BDeclare t) (pool, db) = Ret (Ok hash, (pool', db')) ->
  exists u c, user_try_from (BDeclare t) = Ret (Ok u) /\ submitted (BDeclare t) u pool db c hash pool' db'.
Proof.
  intros Hcv. unfold add_transaction, add_declare_transaction, lift_conversion, api_result, etry, ebind, elift, eret.
  cbn [user_try_from]. destruct (declare_try_from t) as [[u|]|] eqn:Eu; [|done..]. cbn [map_err].
  destruct u as [tx cls|tx|tx]; [|done..]. destruct (so_contract_class_by_class_hash _ _ _) eqn:Ek; [done|].
  rewrite (submit_transaction_spec _ _ _ Hcv). destruct (is_ok _); [|done].
  destruct (submit_one _ _ pool) as [[[x|e] pool1]|] eqn:Es; [|done..]. destruct (runtime_chain_id best_hash) as [c|] eqn:Ec; [|done].
  destruct (keep_class_spec (declare_class_hash tx) (sierra_class_of t) pool1 db) as (db1 & -> & Hk).
  intros [= <- <- <-]. eexists _, c. split; [done|]. split; [by eexists|done|done|done|]. by destruct t.
Qed.

Lemma add_transaction_submitted b pool db hash pool' db' :
  converts -> add_transaction b (pool, db) = Ret (Ok hash, (pool', db')) ->
  exists u c, user_try_from b = Ret (Ok u) /\ submitted b u pool db c hash pool' db'.
Proof. destruct b; eauto using invoke_submitted, deploy_submitted, declare_submitted. Qed.

(** C13: what is submitted is what is shown.  A transaction that the server accepts
    converts to a user transaction whose extrinsic, and nothing else, is given to the
    pool; the extrinsic is read back from a block as the stored transaction, the
    hash that was returned is its hash under the chain id of the best block, and shown
    under that hash it has every field the user signed.  A declared class was not known
    to the best block, and its Sierra form is then read back under the class hash, unless
    the commit of that entry fails, in which case the database is as before; other
    submissions leave the database alone. *)
Theorem accepted_submission b pool db hash pool' db' :
  converts -> add_transaction b (pool, db) = Ret (Ok hash, (pool', db')) ->
  exists u c, user_try_from b = Ret (Ok u)
    /\ submitted b u pool db c hash pool' db'
    /\ extrinsic_filter [convert_transaction u] = [stored_tx u]
    /\ shown_as b hash (to_starknet_core_tx (stored_tx u) hash).
Proof.
  intros Hcv Hadd. destruct (add_transaction_submitted _ _ _ _ _ _ Hcv Hadd) as (u & c & Hu & Hs).
  exists u, c. split_and!; [done..|by destruct u|by apply accepted_shown].
Qed.

(** How a submission that converts to [u] is refused: by the conversion of the runtime,
    before the pool is asked; by the pool; or for want of the chain id, after the pool
    has accepted the extrinsic. *)
Definition not_submitted (u : UserTransaction) (pool : PoolState) (e : RpcError) (pool' : PoolState) : Prop :=
  (pool' = pool /\ e = RpcApi InternalServerError /\ is_ok (rt_convert_transaction best_hash u) = false)
  \/ (exists err, submit_one best_hash (convert_transaction u) pool = Ret (Err err, pool')
      /\ e = RpcApi (if bad_proof err then ValidationFailure else InternalServerError))
  \/ (exists txh, submit_one best_hash (convert_transaction u) pool = Ret (Ok txh, pool')
      /\ e = RpcApi InternalServerError /\ is_ok (runtime_chain_id best_hash) = false).

Lemma submit_refused u pool db e pool' db' :
  converts -> submit_transaction best_hash u (pool, db) = Ret (Err e, (pool', db')) -> db' = db /\ not_submitted u pool e pool'.
Proof.
  intros Hcv. rewrite (submit_transaction_spec _ _ _ Hcv). unfold not_submitted.
  destruct (is_ok _) eqn:Hx; [|intros [= <- <- <-]; auto 10]. destruct (submit_one _ _ pool) as [[[x|er] pool1]|] eqn:Es; [| |done].
  - destruct (runtime_chain_id best_hash) as [c|] eqn:Ec; [done|]. intros [= <- <- <-]. eauto 10.
  - intros [= <- <- <-]. eauto 10.
Qed.

(** C39: a refused submission leaves the database alone.  Either nothing was given to the
    pool, because the transaction does not convert, its class is already declared or the
    runtime does not answer the conversion; or the pool itself refused the extrinsic of
    the transaction, and the error says whether it was for a bad proof; or the pool
    accepted the extrinsic and only then the runtime did not give its chain id: the
    caller gets an internal error, and the extrinsic stays in the pool. *)
Theorem refused_submission b pool db e pool' db' :
  converts -> add_transaction b (pool, db) = Ret (Err e, (pool', db')) ->
  db' = db /\
  ((pool' = pool /\ ((e = RpcApi InternalServerError /\ exists err, user_try_from b = Ret (Err err))
                    \/ exists u cls, e = RpcApi ClassAlreadyDeclared /\ user_try_from b = Ret (Ok u) /\ known_class u = Some cls))
   \/ exists u, user_try_from b = Ret (Ok u) /\ known_class u = None /\ not_submitted u pool e pool').
Proof.
  intros Hcv. destruct b as [t|t|t]; cbn [add_transaction user_try_from];
    unfold add_invoke_transaction, add_deploy_account_transaction, add_declare_transaction, lift_conversion, api_result, etry, ebind, elift, eret.
  - destruct (invoke_try_from t) as [u|] eqn:Eu; cbn [map_err]; [|intros [= <- <- <-]; eauto 10].
    destruct (invoke_converts _ _ Eu) as [tx ->]. intros [-> Hs]%submit_refused; [|done]. eauto 10.
  - destruct (declare_try_from t) as [[u|]|] eqn:Eu; cbn [map_err]; [|intros [= <- <- <-]; eauto 10|done].
    destruct u as [tx cls|tx|tx]; [|by destruct (declare_converts _ _ Eu) as (? & ? & ?)..].
    destruct (so_contract_class_by_class_hash _ _ _) eqn:Ek; [intros [= <- <- <-]; eauto 10|].
    destruct (submit_transaction _ _ _) as [[[hash|er] [pool1 db1]]|] eqn:Es; [| |done].
    + by destruct (keep_class_spec (declare_class_hash tx) (sierra_class_of t) pool1 db1) as (db2 & -> & Hk).
    + intros [= <- <- <-]. apply submit_refused in Es as [-> Hs]; [|done]. split; [done|]. right. by exists (UDeclare tx cls).
  - destruct (deploy_account_try_from t) as [u|] eqn:Eu; cbn [map_err]; [|intros [= <- <- <-]; eauto 10].
    destruct (deploy_converts _ _ Eu) as [tx ->].
    destruct (submit_transaction _ _ _) as [[[hash|er] [pool1 db1]]|] eqn:Es; [done| |done].
    intros [= <- <- <-]. apply submit_refused in Es as [-> Hs]; [|done]. eauto 10.
Qed.

End submission.

(** ** State queries *)
Section queries.
  Context `{SF : StarknetFf} {SFL : StarknetFfLaws} `{SA : StarknetApi} {SAL : StarknetApiLaws} `{PT : PrimitiveTypes} `{SC : StarknetCrypto} {HH : HasherT}.
  Context `{LC : LogCodec} `{CV : ClassViews} `{TW : Twox} {BHash : Type} `{EqDecision BHash} {SU : Substrate BHash} {RC : RpcClient BHash}.
  Context {SHs : Scale (list BHash)} {SFs : Scale (list StarkFelt)} {ST : StorageProvider BHash} {RA : RuntimeStorageApi BHash}.
  Context {SN : forall t, Scale (newtype t)} {SNL : forall t, ScaleLaws (newtype t)} {SFe : Scale StarkFelt} {SFeL : ScaleLaws StarkFelt}.
  Context {SK : Scale (ContractAddress * StorageKey)} {SCl : Scale ContractClass} {SCL : ScaleLaws ContractClass}.
  Context {SV : Scale StarknetStorageSchemaVersion} {SVL : ScaleLaws StarknetStorageSchemaVersion}.

(** The values in the storage are elements of the field. *)
Record pallet_canonical (p : Pallet) : Prop := {
  can_storage : forall k, stark_canonical (storage p k);
  can_nonce : forall a, stark_canonical (new0 (nonce p a));
  can_class : forall a ch, contract_class_hashes (world p) !! a = Some ch -> stark_canonical (new0 ch);
}.

Lemma canonical_felt s : stark_canonical s -> exists f, felt_from_stark s = Ret f /\ to_stark f = s.
Proof.
  intros (f & Hf & Hv)%felt_from_stark_ret. exists f. split; [done|]. apply stark_val_inj.
  unfold stark_val at 1, to_stark. cbn [stark_bytes]. by rewrite felt_to_array_val.
Qed.

(** C19: the state queries answer from the storage of the pallet.  At a block whose
    storage is that of [p], a contract that is deployed has its storage, its nonce and its
    class hash shown as they are stored, and its class is shown as the class of that
    hash is; for any other address every query answers that there is no contract. *)
Theorem state_queries_answer h p db block_id a k :
  substrate_block_hash_from_starknet_block block_id db = Ret (Ok h, db) -> stores_pallet h p -> pallet_canonical p ->
  let addr := to_new ContractAddressT (mk_felt a) in
  let oh := overrides_handle (BHash := BHash) in
  match contract_class_hashes (world p) !! addr with
  | Some class_hash => exists v n ch,
      get_storage_at oh a k block_id db = Ret (Ok (felt0 v), db) /\ to_stark v = storage p (addr, to_new StorageKeyT (mk_felt k))
      /\ get_nonce oh block_id a db = Ret (Ok (felt0 n), db) /\ to_new NonceT n = nonce p addr
      /\ get_class_hash_at oh block_id a db = Ret (Ok (felt0 ch), db) /\ to_new ClassHashT ch = class_hash
      /\ forall cls shown, contract_classes (world p) !! class_hash = Some cls -> to_rpc_contract_class cls = Ok shown ->
           get_class_at oh block_id a db = Ret (Ok shown, db) /\ get_class oh block_id (felt0 ch) db = Ret (Ok shown, db)
  | None =>
      get_storage_at oh a k block_id db = Ret (Err (RpcApi RpcContractNotFound), db)
      /\ get_nonce oh block_id a db = Ret (Err (RpcApi RpcContractNotFound), db)
      /\ get_class_hash_at oh block_id a db = Ret (Err (RpcApi RpcContractNotFound), db)
      /\ get_class_at oh block_id a db = Ret (Err (RpcApi RpcContractNotFound), db)
  end.
Proof.
  intros Hid Hs [C1 C2 C3] addr oh.
  unfold get_storage_at, get_nonce, get_class_hash_at, get_class_at, get_class, block_id_hash, emap_err, etry, ebind, eret, elift,
    api_option, api_result, eret. rewrite Hid. cbn [map_err]. unfold oh. rewrite (handle_selects_v1 h p Hs).
  cbn [so_get_storage_by_storage_key so_contract_class_hash_by_address so_contract_class_by_address so_contract_class_by_class_hash so_nonce
    SchemaV1Override]. fold addr. unfold v1_contract_class_by_address.
  rewrite (v1_storage_spec h p _ _ Hs), (v1_nonce_spec h p _ Hs), (v1_class_hash_spec h p _ Hs).
  destruct (contract_class_hashes (world p) !! addr) as [class_hash|] eqn:Ech; [|done].
  destruct (canonical_felt _ (C1 (addr, to_new StorageKeyT (mk_felt k)))) as (v & Hv & Ev).
  destruct (canonical_felt _ (C2 addr)) as (n & Hn & En). destruct (canonical_felt _ (C3 _ _ Ech)) as (ch & Hch & Ec).
  exists v, n, ch. cbn [ok_or map_err]. unfold felt_from_new. rewrite Hv, Hn, Hch.
  assert (Hnew : forall t (x : newtype t) f, to_stark f = new0 x -> to_new t f = x) by (intros t [x] f; unfold to_new; simpl; congruence).
  split_and!; auto. intros cls shown Hcls Hsh.
  replace (mk_felt (felt0 ch)) with ch by by destruct ch.
  rewrite (Hnew _ _ _ Ec), !(v1_class_spec h p _ Hs), Hcls. cbn [ok_or map_err]. by rewrite Hsh.
Qed.

End queries.

(** ** Receipts *)
Section receipts.
  Context `{SF : StarknetFf} {SFL : StarknetFfLaws} `{SA : StarknetApi} {SAL : StarknetApiLaws} `{PT : PrimitiveTypes} {PTL : PrimitiveTypesLaws}.
  Context `{SC : StarknetCrypto} {HH : HasherT} `{CC : ContractClassI} `{LC : LogCodec} {CFG : Config}.
  Context {BHash : Type} {SU : Substrate BHash} {RC : RpcClient BHash} {RR : RpcRuntime BHash} {SH : Scale BHash} {SFe : Scale StarkFelt} {SFs : Scale (list StarkFelt)}.
  Context (cache_more_things : bool) (c : Felt252Wrapper).

(** The node at the block [h]: its header carries [b] with hash [f], its body and event
    records are those given, and the runtime answers from the storage [p]. *)
Record serves_block (h : BHash) (b : Block) (f : Felt252Wrapper) (body : list RuntimeCall)
    (records : list (Phase * RuntimeEvent)) (p : Pallet) (fee_disabled : bool) : Prop := {
  sb_block : get_block_by_block_hash h = Ok b;
  sb_hash : header_hash (b_header b) = Ret f;
  sb_body : block_body h = Ok (Some body);
  sb_filter : forall xts, rt_extrinsic_filter h xts = Ok (extrinsic_filter xts);
  sb_fee : rt_is_transaction_fee_disabled h = Ok fee_disabled;
  sb_events : forall i evs, get_events_for_tx_by_index i records = Ret evs -> rt_get_events_for_tx_by_index h i = Ok evs;
  sb_outcome : forall t, rt_get_tx_execution_outcome h t = Ok (get_tx_execution_outcome t p);
  sb_messages : forall t, rt_get_tx_messages_to_l1 h t = Ok (get_tx_messages_to_l1 t p);
  sb_chain_id : runtime_chain_id best_hash = Ok c;
}.

(** The transactions whose hashes the search compares: with an entry in the cache, those
    the entry was made from, and otherwise the ones in the body. *)
Definition compared (stored : option (list Transaction)) (txs : list Transaction) : list Transaction := default txs stored.
Definition cache_entry (stored : option (list Transaction)) : option (list StarkFelt) :=
  map (fun x => to_stark (tx_compute_hash x c false)) <$> stored.

Lemma try_hash_at stored txs k y :
  compared stored txs !! k = Some y -> try_txn_hash_from_cache (Z.of_nat k) (cache_entry stored) txs c = Ok (tx_compute_hash y c false).
Proof.
  unfold try_txn_hash_from_cache, cache_entry, compared. rewrite Nat2Z.id. destruct stored as [l|]; cbn; intros Hy; [|by rewrite Hy].
  rewrite list_lookup_fmap, Hy. cbn [fmap option_fmap option_map ok_or result_bind]. unfold to_stark. cbn [stark_bytes].
  rewrite (proj2 (felt_try_from_array_ok _ (tx_compute_hash y c false))); [done|]. apply felt_to_array_val.
Qed.

Lemma find_by_hash_first stored txs t before hbefore pre x post hpre y hpost :
  txs = before ++ pre ++ x :: post -> compared stored txs = hbefore ++ hpre ++ y :: hpost ->
  length hbefore = length before -> length hpre = length pre ->
  Forall (fun y => felt0 (tx_compute_hash y c false) <> t) hpre -> felt0 (tx_compute_hash y c false) = t ->
  find_by_hash (cache_entry stored) txs c t (Z.of_nat (length before)) (pre ++ x :: post) = Ok (Some (Z.of_nat (length before + length pre), x)).
Proof.
  revert before hbefore hpre. induction pre as [|z pre IH]; intros before hbefore [|w hpre] Htx Hcmp Hlb Hlp Hpre Hy; try done;
    cbn [app find_by_hash] in *.
  - rewrite (try_hash_at stored txs _ y) by (rewrite Hcmp, <- Hlb; by apply list_lookup_middle). cbn [result_bind].
    rewrite bool_decide_true by (destruct (tx_compute_hash y c false); simpl in *; congruence). by rewrite Nat.add_0_r.
  - rewrite (try_hash_at stored txs _ w) by (rewrite Hcmp, <- Hlb; by apply list_lookup_middle). cbn [result_bind].
    inversion_clear Hpre as [|? ? Hw Hpre'].
    rewrite bool_decide_false by (intros E; by rewrite E in Hw).
    specialize (IH (before ++ [z]) (hbefore ++ [w]) hpre). rewrite !length_app in IH. simpl in IH.
    replace (Z.of_nat (length before) + 1) with (Z.of_nat (length before + 1)) by lia.
    rewrite IH; [|by rewrite <- app_assoc|by rewrite <- app_assoc|lia|by injection Hlp|done|done]. do 3 f_equal. simpl. lia.
Qed.

Lemma filter_inherents inherents xts :
  Forall (fun xt => extrinsic_tx xt = None) inherents -> extrinsic_filter (inherents ++ xts) = extrinsic_filter xts.
Proof. unfold extrinsic_filter. induction 1 as [|xt l Hx _ IH]; [done|]. simpl. by rewrite Hx. Qed.

Lemma filter_length xts : Forall (fun xt => is_Some (extrinsic_tx xt)) xts -> length (extrinsic_filter xts) = length xts.
Proof. unfold extrinsic_filter. induction 1 as [|xt l [x Hx] _ IH]; [done|]. simpl. rewrite Hx. simpl. f_equal. exact IH. Qed.

Lemma filter_app xts xts' : extrinsic_filter (xts ++ xts') = extrinsic_filter xts ++ extrinsic_filter xts'.
Proof. apply omap_app. Qed.

(** The receipt of the transaction [x] at the index [i] of its block. *)
Definition receipt_at (t : FieldElement) (x : Transaction) (i : Z) (b : Block) (f : Felt252Wrapper)
    (records : list (Phase * RuntimeEvent)) (p : Pallet) (fee_disabled : bool) : outcome TransactionReceipt :=
  let tx_hash := to_new TransactionHashT (mk_felt t) in
  let! events := traverse event_conversion (events_at i records) in
  let! fee := fee_of_events fee_disabled events in
  let! messages := traverse message_conversion (get_tx_messages_to_l1 tx_hash p) in
  Ret {| r_kind := receipt_kind x fe_zero; r_transaction_hash := t; r_actual_fee := fee; r_finality_status := TxAcceptedOnL2;
         r_block_hash := felt0 f; r_block_number := h_block_number (b_header b); r_messages_sent := messages; r_events := events;
         r_execution_result := match get_tx_execution_outcome tx_hash p with None => ResultSucceeded | Some m => ResultReverted m end;
         r_execution_resources := no_resources |}.

(** C18: which extrinsic a receipt is of.  In a block whose inherents come first, the
    receipt for a hash shows exactly the kind, and the events that the records of the
    block have, of the extrinsic at the first position where the hashes compared have
    this hash, and the messages and the revert error stored for the hash.  When the hashes
    of the block are not cached, or the cache entry was made from the transactions in the
    body, that extrinsic is the first one whose transaction has this hash.  A cache entry
    is made from the block in the digest, though, which has only the transactions that
    succeeded; then the extrinsic can be another one, see [cached_receipt_of_another].
    When fees are charged and the extrinsic deposited no event the request panics. *)
Theorem receipt_of_extrinsic h b f inherents pre xt x post records p fee_disabled stored hpre y hpost t db :
  let body := inherents ++ pre ++ xt :: post in
  serves_block h b f body records p fee_disabled -> block_records records -> zlen body < 2 ^ 32 ->
  Forall (fun y => extrinsic_tx y = None) inherents -> Forall (fun y => is_Some (extrinsic_tx y)) (pre ++ xt :: post) ->
  extrinsic_tx xt = Some x ->
  block_hash_from_transaction_hash (to_stark (mk_felt t)) db = Ret (Ok (Some h), db) ->
  get_cached_transaction_hashes cache_more_things (to_stark f) db = Ret (cache_entry stored, db) ->
  compared stored (extrinsic_filter body) = hpre ++ y :: hpost -> length hpre = length pre ->
  Forall (fun y => felt0 (tx_compute_hash y c false) <> t) hpre -> felt0 (tx_compute_hash y c false) = t ->
  let i := zlen (inherents ++ pre) in
  get_transaction_receipt cache_more_things t db
  = match receipt_at t x i b f records p fee_disabled with Ret r => Ret (Ok r, db) | Panic => Panic end
  /\ (stored = None \/ stored = Some (extrinsic_filter body) ->
      felt0 (tx_compute_hash x c false) = t
      /\ Forall (fun y => felt0 (tx_compute_hash y c false) <> t) (extrinsic_filter pre))
  /\ (fee_disabled = false -> events_at i records = [] -> get_transaction_receipt cache_more_things t db = Panic).
Proof.
  intros body [B1 B2 B3 B4 B5 B6 B7 B8 B9] Hrec Hlen Hinh Hsome Hx Hmap Hcache Hcmp Hlp Hpre Ht i.
  assert (Hf : extrinsic_filter body = extrinsic_filter pre ++ x :: extrinsic_filter post).
  { unfold body. rewrite filter_inherents, filter_app by done. unfold extrinsic_filter at 2. simpl. by rewrite Hx. }
  apply list.Forall_app in Hsome as [Hsp [_ Hpost]%list.Forall_cons].
  assert (E : get_transaction_receipt cache_more_things t db
    = match receipt_at t x i b f records p fee_disabled with Ret r => Ret (Ok r, db) | Panic => Panic end).
  2:{ split; [exact E|]. split; [|intros -> Hev; rewrite E; unfold receipt_at; by rewrite Hev].
      intros Hst. assert (Hc : compared stored (extrinsic_filter body) = extrinsic_filter body) by (by destruct Hst as [->| ->]).
      rewrite Hc, Hf in Hcmp. apply app_inj_1 in Hcmp as [E1 [= E2 _]]; [|by rewrite filter_length].
      by rewrite E1, E2. }
  unfold get_transaction_receipt, digest_block, execution_outcome, api_option, api_result, chain_id, api_result, emap_err, etry, ebind, eret, elift.
  rewrite Hmap. cbn [map_err ok_or]. rewrite B1. cbn [map_err]. rewrite B2, B3. cbn [map_err ok_or]. rewrite B9, B5, B4. cbn [map_err].
  rewrite Hcache. replace (mk_felt (felt0 c)) with c by by destruct c.
  pose proof (find_by_hash_first stored _ t [] [] _ x _ _ y _ Hf Hcmp eq_refl ltac:(by rewrite filter_length) Hpre Ht) as Hfind.
  cbn [length] in Hfind. rewrite <- Hf in Hfind.
  change (Z.of_nat 0) with 0 in Hfind. rewrite Hfind. cbn [map_err ok_or].
  assert (Hl : zlen (extrinsic_filter body) = zlen pre + 1 + zlen post).
  { rewrite Hf. unfold zlen. rewrite length_app. cbn [length]. rewrite !filter_length by done. lia. }
  assert (Hlb : zlen body = zlen inherents + zlen pre + 1 + zlen post).
  { unfold body. rewrite !zlen_app, zlen_cons. lia. }
  assert (Hi : wrap 32 (wsub 64 (wadd 64 (Z.of_nat (0 + length (extrinsic_filter pre))) (zlen body)) (zlen (extrinsic_filter body))) = i).
  { unfold i. rewrite filter_length, zlen_app, Hl by done. pose proof (zlen_nonneg inherents). pose proof (zlen_nonneg pre).
    pose proof (zlen_nonneg post). fold (zlen pre). unfold wadd, wsub. rewrite (wrap_small 64 (_ + _)) by (unfold zlen in *; lia).
    rewrite (wrap_small 64) by (unfold zlen in *; lia). rewrite wrap_small by (unfold zlen in *; lia). unfold zlen in *. lia. }
  rewrite Hi, (B6 i (Some (events_at i records))) by (by apply events_by_index). cbn [map_err unwrap_opt]. rewrite B7. cbn [map_err].
  unfold receipt_at. destruct (traverse event_conversion _) as [evs|]; [|done]. cbn [outcome_bind].
  destruct (fee_of_events _ _) as [fee|]; [|done]. cbn [outcome_bind]. rewrite B8. cbn [map_err].
  by destruct (traverse message_conversion _).
Qed.

End receipts.

(** ** Witnesses *)
Module RpcWitness.
Export SyncWitness ReferenceVm BroadcastWitness L1Witness OverrideWitness.

#[export] Instance w_rpc : RpcClient Z := {|
  client_hash n := Ok (Some n);
  best_hash := 1;
  block_body _ := Ok None;
  event_records _ := Ok [];
  client_number n := Ok (Some n);
|}.

Lemma identified_two d0 d1 b0 b1 :
  find_starknet_block d0 = Ok b0 -> find_starknet_block d1 = Ok b1 -> header_hash (b_header b0) <> header_hash (b_header b1) ->
  identified (fun h : Z => if h =? 0 then Some (mk_sub 0 0 d0) else if h =? 1 then Some (mk_sub 1 0 d1) else None).
Proof.
  intros H0 H1 Hne h h' hd hd' b b' f Hh Hh' [Hb Hf] [Hb' Hf']. revert Hh Hh'.
  destruct (h =? 0), (h =? 1), (h' =? 0), (h' =? 1); intros [= <-] [= <-]; cbn [sub_digest sub_number] in *;
    (split; [congruence|first [done|exfalso; congruence]]).
Qed.

(** The two blocks of the chain of [SyncWitness] have different hashes. *)
Lemma w_identified : identified w_header.
Proof.
  apply (identified_two _ _ block_default w_block); [vm_compute; reflexivity..|]. intros H.
  apply (f_equal (fun o => match o with Ret f => felt_val f | Panic => 0 end)) in H. vm_compute in H. discriminate H.
Qed.

Lemma w_knows : knows w_header (felt_of_Z 5) w_client w_rpc.
Proof. constructor; [|reflexivity]. intros h hd Hh. cbn. by rewrite Hh. Qed.

(** A runtime that converts and filters as it should, and has no events. *)
#[export] Instance w_runtime : RpcRuntime Z := {|
  rt_call _ _ _ _ := Ok (Ok []);
  rt_convert_error _ e := Ok (convert_error e);
  rt_convert_transaction _ u := Ok (convert_transaction u);
  rt_estimate_fee _ _ := Ok (Ok []);
  rt_estimate_message_fee _ _ := Ok (Ok (0, 0, 0));
  rt_is_transaction_fee_disabled _ := Ok false;
  rt_extrinsic_filter _ xts := Ok (extrinsic_filter xts);
  rt_get_events_for_tx_by_index _ _ := Ok (Some []);
  rt_get_tx_execution_outcome _ t := Ok (get_tx_execution_outcome t w_pallet);
  rt_get_tx_messages_to_l1 _ t := Ok (get_tx_messages_to_l1 t w_pallet);
  best_number := 1;
  best_seen_block := Ok None;
|}.
#[export] Instance w_pool_errors : PoolErrors unit := {| bad_proof _ := true |}.

#[export] Instance ApiEntryPoint_eq_dec : EqDecision ApiEntryPoint.
Proof. solve_decision. Defined.
#[export] Program Instance ApiEntryPoint_countable : Countable ApiEntryPoint :=
  inj_countable' (fun e => (api_selector e, api_function_idx e)) (fun x => mk_api_ep (fst x) (snd x)) _.
Next Obligation. by intros []. Qed.
#[export] Instance ApiContractClass_eq_dec : EqDecision ApiContractClass.
Proof. solve_decision. Defined.
#[export] Program Instance ApiContractClass_countable : Countable ApiContractClass :=
  inj_countable' (fun c => (acc_sierra_program c, acc_entry_point_by_type c, acc_abi c))
    (fun x => mk_acc (fst (fst x)) (snd (fst x)) (snd x)) _.
Next Obligation. by intros []. Qed.

Lemma w_converts : converts.
Proof. by intros u x [= <-]. Qed.

(** A pool that refuses everything. *)
Definition full_pool : TransactionPool Z (list RuntimeCall) unit nat := {| submit_one _ _ := fun l => Ret (Err tt, l) |}.

#[export] Instance w_views : ClassViews := {|
  class_view _ := ViewV1; program_to_bytes p := p; gz_write l := Some l; COMPILER_VERSION := None |}.

Lemma canonical_small n : 0 <= n < P -> stark_canonical (mk_stark (be_array 32 n)).
Proof.
  intros Hn. unfold stark_canonical, stark_val. cbn [stark_bytes]. rewrite be_array_val; [lia|]. split; [lia|].
  apply (Z.lt_trans _ P); [lia|]. vm_compute. reflexivity.
Qed.

Lemma w_canonical : pallet_canonical w_pallet.
Proof.
  constructor.
  - intros k. unfold storage. cbn [world w_pallet storage_view]. rewrite lookup_empty. apply stark_default_canonical.
  - intros a. unfold nonce. cbn [world w_pallet nonces]. destruct (decide (a = address 7)) as [->|Hne].
    + rewrite lookup_singleton_eq. apply canonical_small. vm_compute. split; [discriminate|reflexivity].
    + rewrite lookup_singleton_ne by congruence. apply stark_default_canonical.
  - intros a ch. cbn [world w_pallet contract_class_hashes]. intros [<- <-]%lookup_singleton_Some.
    apply canonical_small. vm_compute. split; [discriminate|reflexivity].
Qed.

(** The transaction of the chain of [SyncWitness], its hash, and the body of its block. *)
Definition w_l1 : HandleL1MessageTransaction := mk_l1 1 (felt_of_Z 9) (felt_of_Z 2) [felt_of_Z 8].
Definition w_hash : FieldElement := felt0 (tx_compute_hash (TL1Handler w_l1) (felt_of_Z 5) false).
Definition w_body : list RuntimeCall := [RCOther; RCStarknet (consume_l1_message w_l1 5)].
Definition w_rpc_body : RpcClient Z := {|
  client_hash n := Ok (Some n); best_hash := 1; block_body _ := Ok (Some w_body); event_records _ := Ok []; client_number n := Ok (Some n) |}.

(** The same block after an invoke that failed. *)
Definition w_rpc_failed : RpcClient Z := {|
  client_hash n := Ok (Some n); best_hash := 1; event_records _ := Ok []; client_number n := Ok (Some n);
  block_body _ := Ok (Some [RCOther; RCStarknet (invoke (InvokeV1 (mk_iv1 0 [] (felt_of_Z 0) (felt_of_Z 3) [] false)));
                            RCStarknet (consume_l1_message w_l1 5)]) |}.
Definition w_runtime_free : RpcRuntime Z := {|
  rt_call _ _ _ _ := Ok (Ok []);
  rt_convert_error _ e := Ok (convert_error e);
  rt_convert_transaction _ u := Ok (convert_transaction u);
  rt_estimate_fee _ _ := Ok (Ok []);
  rt_estimate_message_fee _ _ := Ok (Ok (0, 0, 0));
  rt_is_transaction_fee_disabled _ := Ok true;
  rt_extrinsic_filter _ xts := Ok (extrinsic_filter xts);
  rt_get_events_for_tx_by_index _ _ := Ok (Some []);
  rt_get_tx_execution_outcome _ t := Ok (get_tx_execution_outcome t w_pallet);
  rt_get_tx_messages_to_l1 _ t := Ok (get_tx_messages_to_l1 t w_pallet);
  best_number := 1;
  best_seen_block := Ok None;
|}.

(** Two children of block 0 with the same Starknet header. *)
Definition fork_l1 : HandleL1MessageTransaction := mk_l1 2 (felt_of_Z 9) (felt_of_Z 2) [felt_of_Z 8].
Definition fork_hash : FieldElement := felt0 (tx_compute_hash (TL1Handler fork_l1) (felt_of_Z 5) false).
Definition fork_header (h : Z) : option (SubHeader Z) :=
  if h =? 2 then Some (mk_sub 1 0 [block_digest (mk_block (b_header w_block) [TL1Handler fork_l1]); DIRuntimeEnvironmentUpdated]) else w_header h.
Definition fork_id (hd : SubHeader Z) : Z := if (length (sub_digest hd) =? 2)%nat then 2 else sub_number hd.
Definition fork_client : Substrate Z := {|
  leaves := Ok [1; 2]; backend_header h := Ok (fork_header h); client_header h := Ok (fork_header h);
  runtime_chain_id h := Ok (w_chain_id h) |}.
Definition fork_round (cache : bool) (db : Database) : Database :=
  match sync_one_block (SU := fork_client) cache fork_id 0 db with Ret (_, db') => db' | Panic => db end.
Definition fork_db (cache : bool) : Database := fork_round cache (fork_round cache (fork_round cache ∅)).

End RpcWitness.
Import RpcWitness.

(** After one round the transaction of the second block is found. *)
Lemma transaction_by_hash_exact_witness :
  exists x, get_transaction_by_hash (SU := w_client) true
    (felt0 (tx_compute_hash (TL1Handler (mk_l1 1 (felt_of_Z 9) (felt_of_Z 2) [felt_of_Z 8])) (felt_of_Z 5) false)) (after ∅)
  = Ret (Ok x, after ∅).
Proof.
  assert (Hs : w_synced_by (after ∅)) by (apply (w_synced_after _ (Ok true) w_synced0); vm_compute; reflexivity).
  destruct (transaction_by_hash_exact true sub_number 0 w_header (felt_of_Z 5) (fun _ => True) w_client w_rpc (after ∅)
    (felt0 (tx_compute_hash (TL1Handler (mk_l1 1 (felt_of_Z 9) (felt_of_Z 2) [felt_of_Z 8])) (felt_of_Z 5) false))
    Hs (fun _ => w_identified) w_knows) as [(x & _ & H)|[_ H]].
  - eexists. exact H.
  - exfalso. apply (f_equal (fun o => match o with Ret (Ok _, _) => true | _ => false end)) in H. vm_compute in H. discriminate H.
Defined.

Abbreviation w_add := (fun TP b s => add_transaction (SU := w_client) (ST := pallet_storage w_pallet) (TP := TP) w_handle b s).
Abbreviation w_known := (known_class (ST := pallet_storage w_pallet) w_handle).

Lemma accepted_submission_witness :
  exists hash pool' db' u, w_add w_pool w_declare ([], ∅) = Ret (Ok hash, (pool', db'))
    /\ pool' = [convert_transaction u] /\ keeps_class w_declare u ∅ db'.
Proof.
  assert (Hok : match w_add w_pool w_declare ([], ∅) with Ret (Ok _, _) => true | _ => false end = true) by (vm_compute; reflexivity).
  destruct (w_add w_pool w_declare ([], ∅)) as [[[hash|] [pool' db']]|] eqn:E; [|discriminate Hok..].
  destruct (accepted_submission (SU := w_client) (ST := pallet_storage w_pallet) w_handle w_declare [] ∅ hash pool' db'
    w_converts E) as (u & c & _ & [[txh Hp] _ _ _ Hk] & _).
  exists hash, pool', db', u. split; [reflexivity|]. split; [|exact Hk]. cbn in Hp. injection Hp as _ Hp. symmetry. exact Hp.
Defined.

Lemma refused_submission_witness :
  exists e, w_add full_pool w_declare ([], ∅) = Ret (Err e, ([], ∅)) /\ e = RpcApi ValidationFailure.
Proof.
  exists (RpcApi ValidationFailure).
  assert (Hok : match w_add full_pool w_declare ([], ∅) with Ret (Err (RpcApi ValidationFailure), (pool, _)) => bool_decide (length pool = 0%nat) | _ => false end = true)
    by (vm_compute; reflexivity).
  destruct (w_add full_pool w_declare ([], ∅)) as [[[hash|[[]|]] [pool' db']]|] eqn:E; try discriminate Hok.
  destruct (refused_submission (SU := w_client) (ST := pallet_storage w_pallet) (TP := full_pool) w_handle w_declare [] ∅ _ pool' db'
    w_converts E) as (-> & _).
  apply bool_decide_eq_true_1 in Hok. destruct pool'; [|discriminate Hok]. split; reflexivity.
Defined.

Lemma state_queries_answer_witness :
  exists n, get_nonce (ST := pallet_storage w_pallet) w_handle (BITag Latest) (felt0 (felt_of_Z 7)) ∅ = Ret (Ok n, ∅).
Proof.
  pose proof (state_queries_answer (ST := pallet_storage w_pallet) (RA := pallet_api w_pallet) 1 w_pallet ∅ (BITag Latest)
    (felt0 (felt_of_Z 7)) fe_zero eq_refl (pallet_stores w_pallet 1) w_canonical) as H.
  cbv zeta in H. destruct (contract_class_hashes _ !! _) as [class_hash|] eqn:E in H; [|exfalso; vm_compute in E; discriminate E].
  destruct H as (v & n & ch & _ & _ & H & _). exists (felt0 n). exact H.
Defined.

(** Fees are charged and the message deposited no event: the receipt panics. *)
Lemma receipt_of_extrinsic_witness :
  get_transaction_receipt (SU := w_client) (RC := w_rpc_body) true w_hash (after ∅) = Panic.
Proof.
  assert (Hs : w_synced_by (after ∅)) by (apply (w_synced_after _ (Ok true) w_synced0); vm_compute; reflexivity).
  destruct (synced_by_agrees true sub_number 0 w_header w_chain_id _ _ Hs) as (m & Hr & _).
  destruct (header_hash (b_header w_block)) as [f|] eqn:Ef; [|vm_compute in Ef; discriminate Ef].
  assert (Hc : match header_hash (b_header w_block) with
               | Ret f => match cached_transaction_hashes_from_block_hash true (to_stark f) (after ∅) with
                          | Ret (Ok c, _) => bool_decide (c = Some [to_stark (tx_compute_hash (TL1Handler w_l1) (felt_of_Z 5) false)])
                          | _ => false end
               | Panic => false end = true) by (vm_compute; reflexivity).
  rewrite Ef, (rep_cache _ _ _ Hr) in Hc. apply bool_decide_eq_true_1 in Hc.
  apply (receipt_of_extrinsic (SU := w_client) (RC := w_rpc_body) true (felt_of_Z 5) 1 w_block f [RCOther] []
    (RCStarknet (consume_l1_message w_l1 5)) (TL1Handler w_l1) [] [] w_pallet false
    (Some [TL1Handler w_l1]) [] (TL1Handler w_l1) [] w_hash (after ∅)); try reflexivity.
  - constructor; try reflexivity; [exact Ef|]. intros i evs Hev. vm_compute in Hev. injection Hev as <-. reflexivity.
  - exists [], []. split; [reflexivity|]. split; constructor.
  - repeat constructor.
  - repeat constructor. eexists. reflexivity.
  - unfold get_cached_transaction_hashes, ebind. rewrite (rep_cache _ _ _ Hr), Hc. reflexivity.
  - constructor.
Defined.

(** The receipt of a transaction from the cache can be that of another extrinsic.  Block 1
    has an invoke that failed and then the message, which succeeded; its Starknet block has
    the message only.  With the cache on, the receipt for the hash of the message is that of
    the invoke: an invoke receipt.  Without the cache it is that of the message. *)
Theorem cached_receipt_of_another :
  match get_transaction_receipt (SU := w_client) (RC := w_rpc_failed) (RR := w_runtime_free) true w_hash (after ∅) with
  | Ret (Ok r, _) => match r_kind r with ReceiptInvoke => bool_decide (r_transaction_hash r = w_hash) | _ => false end
  | _ => false
  end = true
  /\ match get_transaction_receipt (SU := w_client) (RC := w_rpc_failed) (RR := w_runtime_free) false w_hash (after ∅) with
     | Ret (Ok r, _) => match r_kind r with ReceiptL1Handler _ => true | _ => false end
     | _ => false
     end = true.
Proof. split; vm_compute; reflexivity. Qed.

(** A transaction of a fork can be hidden by the cache.  Blocks 1 and 2 are children of
    block 0 whose Starknet blocks have the same header and different transactions.  Once
    both are synced, with the cache on, the transaction of block 2 is mapped to block 2 and
    yet not found; without the cache it is found. *)
Theorem fork_cache_hides_transaction :
  match block_hash_from_transaction_hash (BHash := Z) (to_stark (mk_felt fork_hash)) (fork_db true) with
  | Ret (Ok (Some h), _) => h =? 2 | _ => false end = true
  /\ match get_transaction_by_hash (SU := fork_client) (RC := w_rpc) true fork_hash (fork_db true) with
     | Ret (Err (RpcApi TxnHashNotFound), _) => true | _ => false end = true
  /\ match get_transaction_by_hash (SU := fork_client) (RC := w_rpc) false fork_hash (fork_db false) with
     | Ret (Ok _, _) => true | _ => false end = true.
Proof. split_and!; vm_compute; reflexivity. Qed.
