(* ===== verification/EndToEnd.v ===== *)
(** * From a submission to its lookup

    The components composed: a transaction that the JSON-RPC server accepts, that a
    block author dispatches and that is sealed in a block of the chain, is found by
    the hash the server returned once the mapping worker has followed the chain. *)
From S2P Require Import Prelude Bytes Deps Felt Hashers Transactions ComputeHash Blockifier Conversions Broadcasted Fee.
From S2P Require Import Execution Block CallTrace PalletStorage Pallet PalletEffects Chain ChainRun Runtime Simulations Db MappingSync MappingWorker.
From S2P Require Import Settlement L1Messages StateDiff Overrides Events RpcCore Rpc RpcProperties.
Local Open Scope Z_scope.

(** ** The Substrate chain under the Starknet blocks *)
Section carried.
  Context `{SF : StarknetFf} {SFL : StarknetFfLaws} `{SA : StarknetApi} {SAL : StarknetApiLaws}.
  Context `{PT : PrimitiveTypes} {PTL : PrimitiveTypesLaws} `{SC : StarknetCrypto}.
  Context `{FX : FixedPoint} `{LC : LogCodec} {LCL : LogCodecLaws}.
  Context `{BL : Blockifier} {BLL : BlockifierLaws} {CFG : Config} `{CM : Commit}.
  Context {BHash : Type} `{Countable BHash} {SH : Scale BHash} {SHs : Scale (list BHash)} {SB : Scale bool} {SFe : Scale StarkFelt}.
  Context {SFs : Scale (list StarkFelt)} {LH : ScaleLaws BHash} {LHs : ScaleLaws (list BHash)} {LB : ScaleLaws bool}.
  Context {LF : ScaleLaws StarkFelt} {LFs : ScaleLaws (list StarkFelt)}.
  Context (cache_more_things : bool) (sub_hash : SubHeader BHash -> BHash).
  Context (block_at : nat -> BHash) (header_at : nat -> SubHeader BHash).

(** The headers of a chain of [n] blocks, by hash. *)
Definition chain_header (n : nat) (h : BHash) : option (SubHeader BHash) :=
  (fun x => header_at (snd x)) <$> list_find (fun i => block_at i = h) (seq 0 n).

(** Block [i] of the Substrate chain has number [i], follows block [i - 1] and carries
    the Starknet block [i] in its digest; different Substrate blocks have different
    hashes. *)
Record carried (c : Chain) : Prop := {
  ca_distinct : forall i j, (i < length (sealed c))%nat -> (j < length (sealed c))%nat -> block_at i = block_at j -> i = j;
  ca_hash : forall i, (i < length (sealed c))%nat -> sub_hash (header_at i) = block_at i;
  ca_number : forall i, sub_number (header_at i) = Z.of_nat i;
  ca_parent : forall i, sub_parent_hash (header_at (S i)) = block_at i;
  ca_block : forall i b, sealed c !! i = Some b -> find_starknet_block (sub_digest (header_at i)) = Ok b;
}.

(** Different Starknet blocks of the chain have different hashes. *)
Definition distinct_hashes (c : Chain) : Prop :=
  forall i j b b' f, sealed c !! i = Some b -> sealed c !! j = Some b' ->
    header_hash (b_header b) = Ret f -> header_hash (b_header b') = Ret f -> i = j.

(** A node whose best and only leaf is the last block of the chain. *)
Record serves (SU : Substrate BHash) (c : Chain) : Prop := {
  se_leaves : leaves = Ok [block_at (length (sealed c) - 1)];
  se_backend : forall h, backend_header h = Ok (chain_header (length (sealed c)) h);
  se_client : forall h, client_header h = Ok (chain_header (length (sealed c)) h);
  se_chain_id : forall h, runtime_chain_id h = Ok ChainId;
}.

(** The hashes of the chain. *)
Definition chain_hashes (n : nat) : gset BHash := list_to_set (map block_at (seq 0 n)).

  Context {c : Chain} (Hreach : reachable c) (Hcar : carried c).
Abbreviation header_of := (chain_header (length (sealed c))).

Lemma chain_header_some h hd :
  header_of h = Some hd -> exists i b f, sealed c !! i = Some b /\ h = block_at i /\ hd = header_at i /\ carries hd b f.
Proof.
  unfold chain_header. rewrite fmap_Some. intros ([i0 i] & (Hi & <- & _)%list_find_Some & ->). cbn [snd].
  apply list_elem_of_lookup_2, elem_of_seq in Hi. destruct (lookup_lt_is_Some_2 (sealed c) i) as [b Hb]; [lia|].
  destruct (lk_hash _ _ _ _ (ci_linked _ (reachable_inv _ Hreach) _ _ Hb)) as (f & _ & Hf).
  exists i, b, f. split_and!; [done..|]. split; [by apply (ca_block _ Hcar)|done].
Qed.

Lemma chain_header_at i : (i < length (sealed c))%nat -> header_of (block_at i) = Some (header_at i).
Proof.
  intros Hi. unfold chain_header.
  destruct (list_find_elem_of (fun j => block_at j = block_at i) (seq 0 (length (sealed c))) i) as [[i0 j] Hj];
    [apply elem_of_seq; lia|done|]. rewrite Hj. apply list_find_Some in Hj as (Hj & He & _).
  apply list_elem_of_lookup_2, elem_of_seq in Hj. cbn. f_equal. f_equal. apply (ca_distinct _ Hcar); [lia|done|done].
Qed.

Lemma chain_nonempty : (0 < length (sealed c))%nat.
Proof.
  pose proof (reachable_inv _ Hreach) as I. pose proof (ci_length _ I) as Hl. pose proof (ci_number _ I). unfold zlen in Hl.
  destruct (phase c) eqn:Ep; [lia|]. pose proof (ci_building _ I Ep). lia.
Qed.

Lemma chain_identified : distinct_hashes c -> identified header_of.
Proof.
  intros Hd h h' hd hd' b b' f Hh Hh' [Hc Hf] [Hc' Hf'].
  apply chain_header_some in Hh as (i & b1 & f1 & Hb & -> & -> & [Hc1 _]).
  apply chain_header_some in Hh' as (j & b2 & f2 & Hb' & -> & -> & [Hc2 _]).
  assert (b1 = b) as -> by congruence. assert (b2 = b') as -> by congruence.
  assert (i = j) as <- by (by apply (Hd i j b b' f)). split; [congruence|done].
Qed.

Section client.
  Context {SU : Substrate BHash} (Hserv : serves SU c).

Lemma chain_truthful answered : truthful sub_hash header_of (fun _ => ChainId) answered SU.
Proof.
  constructor; [|intros h hd; rewrite (se_client _ _ Hserv); by intros [= Hb]|
    intros h hd _; by rewrite (se_client _ _ Hserv), (se_backend _ _ Hserv)|].
  - intros h hd Hb. rewrite (se_backend _ _ Hserv) in Hb. injection Hb as Hb. split; [done|]. apply chain_header_some in Hb as (i & b & f & Hi & -> & -> & _).
    apply (ca_hash _ Hcar). by eapply lookup_lt_Some.
  - intros h cid. rewrite (se_chain_id _ _ Hserv). by intros [= <-].
Qed.

Lemma chain_steady answered :
  steady sub_hash header_of (fun _ => ChainId) answered SU [block_at (length (sealed c) - 1)] (chain_hashes (length (sealed c))).
Proof.
  constructor.
  - apply chain_truthful.
  - apply (se_leaves _ _ Hserv).
  - intros h ->%list_elem_of_singleton. rewrite chain_header_at; [by eexists|]. pose proof chain_nonempty. lia.
  - intros h hd Hh. by rewrite (se_backend _ _ Hserv), Hh.
  - intros h hd (i & b & f & Hi & -> & -> & _)%chain_header_some. rewrite (ca_number _ Hcar). intros Hz.
    destruct i as [|i]; [done|]. rewrite (ca_parent _ Hcar). apply lookup_lt_Some in Hi. rewrite chain_header_at; [by eexists|lia].
  - intros h. eexists. apply (se_chain_id _ _ Hserv).
  - intros h hd (i & b & f & _ & _ & _ & [-> Hf])%chain_header_some. eauto.
  - intros h [hd (i & b & f & Hi & -> & _)%chain_header_some]. apply elem_of_list_to_set, list_elem_of_fmap.
    exists i. split; [done|]. apply elem_of_seq. apply lookup_lt_Some in Hi. lia.
Qed.

(** The only leaf has every block behind it. *)
Lemma chain_branch sync_from i b :
  sealed c !! i = Some b -> sync_from <= Z.of_nat i ->
  on_branch sync_from header_of (block_at (length (sealed c) - 1)) (block_at i).
Proof.
  intros Hi%lookup_lt_Some Hf. remember (length (sealed c) - 1 - i)%nat as k eqn:Ek. revert i Hi Hf Ek.
  induction k as [|k IH]; intros i Hi Hf Ek.
  - replace (length (sealed c) - 1)%nat with i by lia. eapply branch_leaf; [by apply chain_header_at|]. by rewrite (ca_number _ Hcar).
  - rewrite <- (ca_parent _ Hcar i). eapply branch_parent; [apply (IH (S i)); lia|apply chain_header_at; lia| | |].
    + rewrite (ca_number _ Hcar). lia.
    + rewrite (ca_parent _ Hcar). by apply chain_header_at.
    + by rewrite (ca_number _ Hcar).
Qed.

End client.
End carried.

(** ** The transactions of sealed blocks are found *)
Section found.
  Context `{SF : StarknetFf} {SFL : StarknetFfLaws} `{SA : StarknetApi} {SAL : StarknetApiLaws}.
  Context `{PT : PrimitiveTypes} {PTL : PrimitiveTypesLaws} `{SC : StarknetCrypto}.
  Context `{FX : FixedPoint} `{LC : LogCodec} {LCL : LogCodecLaws}.
  Context `{BL : Blockifier} {BLL : BlockifierLaws} {CFG : Config} `{CM : Commit}.
  Context {BHash : Type} `{Countable BHash} {SH : Scale BHash} {SHs : Scale (list BHash)} {SB : Scale bool} {SFe : Scale StarkFelt}.
  Context {SFs : Scale (list StarkFelt)} {LH : ScaleLaws BHash} {LHs : ScaleLaws (list BHash)} {LB : ScaleLaws bool}.
  Context {LF : ScaleLaws StarkFelt} {LFs : ScaleLaws (list StarkFelt)}.
  Context (cache_more_things : bool) (sub_hash : SubHeader BHash -> BHash).
  Context (block_at : nat -> BHash) (header_at : nat -> SubHeader BHash).

(** The genesis block has no transaction. *)
Lemma genesis_block_empty c b : reachable c -> sealed c !! 0%nat = Some b -> b_transactions b = [].
Proof.
  intros Hr. assert (Hc : (0 < length (sealed c))%nat /\ forall b, sealed c !! 0%nat = Some b -> b_transactions b = []); [|by apply Hc].
  clear b. induction Hr as [c [g now p b Hnow Hg Hb]|c c' _ [IHl IH] Hs].
  - split; [cbn; lia|]. apply genesis_build_inv in Hg as (h & w & _ & _ & ->). cbn [sealed]. intros b' [= <-].
    by apply (sealed_digest _ _ h) in Hb as ->.
  - destruct Hs; cbn [sealed] in *; [done..|]. rewrite length_app. split; [lia|]. intros b'. rewrite lookup_app_l by done. apply IH.
Qed.

Lemma sealed_transaction_block c tx :
  reachable c -> phase c = Idle -> tx ∈ chain_txs c -> exists i b, sealed c !! S i = Some b /\ tx ∈ b_transactions b.
Proof.
  intros Hr Hp. unfold chain_txs. rewrite (proj1 (ci_idle _ (reachable_inv _ Hr) Hp)), app_nil_r, list_elem_of_In, in_concat.
  intros (l & (b & <- & (i & Hi)%list_elem_of_In%list_elem_of_lookup_1)%in_map_iff & Hx%list_elem_of_In).
  destruct i as [|i]; [|eauto]. rewrite (genesis_block_empty _ _ Hr Hi) in Hx. by apply elem_of_nil in Hx.
Qed.

Lemma size_chain_hashes n : (size (chain_hashes block_at n) <= n)%nat.
Proof.
  unfold chain_hashes. rewrite <- (length_seq n 0) at 2. rewrite <- (length_map block_at (seq 0 n)).
  generalize (map block_at (seq 0 n)). intros l. induction l as [|x l IH]; [done|].
  cbn [list_to_set length]. pose proof (size_union_alt (C := gset BHash) {[x]} (list_to_set l)) as Hs.
  rewrite size_singleton in Hs. pose proof (subseteq_size (list_to_set l ∖ {[x]}) (list_to_set (C := gset BHash) l) ltac:(set_solver)). lia.
Qed.

(** The worker as the node starts it. *)
Definition node_worker : MappingSyncWorker := worker_new 6000 3 0.

Lemma node_worker_alive : alive 0 node_worker.
Proof. constructor; cbn; lia. Qed.

Lemma chain_transaction_found (c : Chain) (SU : Substrate BHash) (RC : RpcClient BHash) (tx : Transaction) (db : Database) polls :
  let header_of := chain_header block_at header_at (length (sealed c)) in
  (forall t db, commit_fails t db = false) -> (cache_more_things = true -> distinct_hashes c) -> reachable c -> phase c = Idle -> carried sub_hash block_at header_at c -> serves block_at header_at SU c -> tx ∈ chain_txs c ->
  synced_by cache_more_things sub_hash 0 header_of (fun _ => ChainId) (fun _ => True) db ->
  (forall tips db', current_syncing_tips db = Ret (Ok tips, db') -> known header_of tips) ->
  let hash := felt0 (tx_compute_hash tx ChainId false) in
  exists rs w' db', poll_all cache_more_things sub_hash polls (node_worker, db) = Ret (rs, (w', db'))
    /\ ((length (sealed c) + 2 <= fired rs)%nat ->
        exists x, x ∈ chain_txs c /\ felt0 (tx_compute_hash x ChainId false) = hash
          /\ get_transaction_by_hash cache_more_things hash db' = Ret (Ok (to_starknet_core_tx x hash), db')).
Proof.
  intros header_of Hcommit Hdist Hr Hp Hcar Hserv Htx Hdb Hk hash.
  pose proof (chain_steady sub_hash block_at header_at Hr Hcar Hserv (fun _ => True)) as HS.
  destruct (polls_map_chain cache_more_things sub_hash 0 header_of _ _ _ _ HS Hcommit polls node_worker db Hdb node_worker_alive Hk)
    as (rs & w' & db' & m' & E & Hw' & Hc' & Hall).
  exists rs, w', db'. split; [done|]. intros Hf.
  assert (Hs' : synced_by cache_more_things sub_hash 0 header_of (fun _ => ChainId) (fun _ => True) db')
    by exact (poll_all_synced_by _ _ _ _ _ _ _ _ HS _ _ _ _ _ _ node_worker_alive Hdb E).
  assert (Hkn : knows header_of ChainId SU RC).
  { constructor; [|apply (se_chain_id _ _ _ _ Hserv)]. intros h hd Hh. rewrite (se_client _ _ _ _ Hserv). by f_equal. }
  destruct (transaction_lookup cache_more_things sub_hash 0 header_of ChainId _ SU RC db' hash Hs'
    (fun Hc => chain_identified _ _ _ Hr Hcar (Hdist Hc)) Hkn) as [(x & Hx & Hq)|[Hno _]].
  - exists x. split; [|split; [|done]].
    + destruct Hx as (h & hd & b & f & l & _ & _ & (i & b1 & f1 & Hi & _ & _ & [Hb1 _])%(chain_header_some _ _ _ Hr Hcar) & [Hb _] & _ & Hx & _).
      assert (b1 = b) as -> by congruence. unfold chain_txs. apply elem_of_app. left. apply list_elem_of_In, in_concat.
      exists (b_transactions b). split; [|by apply list_elem_of_In]. apply in_map, list_elem_of_In. by eapply list_elem_of_lookup_2.
    + by destruct Hx as (? & ? & ? & ? & ? & _ & _ & _ & _ & _ & _ & ?).
  - destruct (sealed_transaction_block c tx Hr Hp Htx) as (i & b & Hi & Hin). destruct (Hno tx).
    pose proof (chain_header_at _ _ _ Hcar (S i) (lookup_lt_Some _ _ _ Hi)) as Hh.
    destruct (lk_hash _ _ _ _ (ci_linked _ (reachable_inv _ Hr) _ _ Hi)) as (f & _ & Hfh).
    assert (Hc : carries (header_at (S i)) b f) by (by split; [apply (ca_block _ _ _ _ Hcar)|]).
    assert (Hsy : is_synced (block_at (S i)) db' = Ret (Ok true, db')).
    { eapply Hall; [|by apply list_elem_of_singleton|by eapply chain_branch; [| |lia]]. pose proof (size_chain_hashes (length (sealed c))). lia. }
    destruct (synced_by_agrees _ _ _ _ _ _ _ Hs') as (m & Hrep & Ha). rewrite (rep_synced _ _ _ Hrep) in Hsy.
    injection Hsy as Hsy%bool_decide_eq_true. pose proof (agr_complete _ _ _ _ _ Ha _ _ _ _ I Hsy Hh Hc) as Hl.
    destruct (v_blocks m !! to_stark f) as [l|] eqn:El; [|by apply not_elem_of_nil in Hl].
    exists (block_at (S i)), (header_at (S i)), b, f, l. rewrite (rep_blocks _ _ _ Hrep), El. split_and!; try done.
    rewrite (ca_number _ _ _ _ Hcar). lia.
Qed.

(** ** Submission, block and lookup *)
  Context `{CT : !ClassTools} {SHa : SierraHash} {RR : RpcRuntime BHash}.
  Context {SCh : Scale ClassHash} {LCh : ScaleLaws ClassHash} {SAc : Scale ApiContractClass} {LAc : ScaleLaws ApiContractClass}.
  Context {ST : StorageProvider BHash} {SV : Scale StarknetStorageSchemaVersion} (overrides : OverrideHandle BHash).
  Context {PoolState PoolError TxHash : Type} {TP : TransactionPool BHash PoolState PoolError TxHash} {PE : PoolErrors PoolError}.

(** C5: an accepted transaction that makes it into a block is found by its hash.  The
    server accepts [b], which converts to the user transaction [u], and returns [hash];
    the block author dispatches its extrinsic successfully in the block being built on
    some reachable chain; from there the chain runs on, in any way, to one between blocks.
    On a node that is at this chain, with its last block as the only leaf, from any
    database the rounds before led to, every poll of the mapping worker returns, and once
    one poll per block and two more have run the synchronisation, [get_transaction_by_hash]
    answers with a transaction of the chain that has this hash: if no other transaction of
    the chain has it, with every field the user signed.

    What this needs: the commits of the database succeed, in these polls and in the rounds
    before (after one that fails the gap can stay, see [torn_round_leaves_gap]); the
    clients of those rounds gave the header of every block their backend had (see
    [unanswered_block_never_mapped]); the tips they left are blocks of the chain; different
    Substrate blocks of the chain have different hashes; and, only with the cache on,
    different Starknet blocks do (see [fork_cache_hides_transaction]). *)
Theorem submitted_transaction_found (SU0 SU : Substrate BHash) (RC0 RC : RpcClient BHash) b u pool db0 hash pool' db0' c0 call p1 c db polls :
  let header_of := chain_header block_at header_at (length (sealed c)) in
  (forall t db, commit_fails t db = false) -> (cache_more_things = true -> distinct_hashes c) ->
  converts (RC := RC0) -> (forall cid, runtime_chain_id (Substrate := SU0) (best_hash (RpcClient := RC0)) = Ok cid -> cid = ChainId) ->
  add_transaction (SU := SU0) (RC := RC0) overrides b (pool, db0) = Ret (Ok hash, (pool', db0')) ->
  user_try_from b = Ret (Ok u) -> convert_transaction u = RCStarknet call ->
  reachable c0 -> phase c0 = Building -> dispatch OriginNone call (state c0) = Ret (Ok tt, p1) ->
  rtc step (mk_chain _ Building p1 (sealed c0)) c -> phase c = Idle ->
  carried sub_hash block_at header_at c -> serves block_at header_at SU c ->
  synced_by cache_more_things sub_hash 0 header_of (fun _ => ChainId) (fun _ => True) db ->
  (forall tips db', current_syncing_tips db = Ret (Ok tips, db') -> known header_of tips) ->
  exists rs w' db', poll_all (SU := SU) cache_more_things sub_hash polls (node_worker, db) = Ret (rs, (w', db'))
    /\ ((length (sealed c) + 2 <= fired rs)%nat ->
        exists x, x ∈ chain_txs c /\ felt0 (tx_compute_hash x ChainId false) = hash
          /\ get_transaction_by_hash (SU := SU) (RC := RC) cache_more_things hash db' = Ret (Ok (to_starknet_core_tx x hash), db')
          /\ ((forall y, y ∈ chain_txs c -> felt0 (tx_compute_hash y ChainId false) = hash -> y = stored_tx u) ->
              shown_as b hash (to_starknet_core_tx x hash))).
Proof.
  intros header_of Hcommit Hdist Hcv Hcid Hadd Hu Hcall Hr0 Hb Hd Hsteps Hp Hcar Hserv Hdb Hk.
  destruct (add_transaction_submitted _ _ _ _ _ _ _ Hcv Hadd) as (u' & cid & Hu' & [_ Hc Hh _ _]).
  apply Hcid in Hc as ->. assert (u' = u) as -> by congruence.
  destruct c0 as [ph p0 bs0]; cbn [phase state sealed] in *; subst ph hash.
  assert (Hr1 : reachable (mk_chain _ Building p1 bs0)) by (eapply reachable_step; [exact Hr0|by eapply step_dispatch]).
  assert (Hr : reachable c) by by eapply steps_reachable.
  assert (Htx : stored_tx u ∈ chain_txs c).
  { destruct (steps_txs _ _ Hr1 Hsteps) as [new ->]. rewrite (dispatch_txs _ _ _ _ _ bs0 (ci_canonical _ (reachable_inv _ Hr0)) Hd).
    apply elem_of_app. left. apply elem_of_app. right. injection Hcall as <-. destruct u; apply list_elem_of_singleton; done. }
  destruct (chain_transaction_found c SU RC (stored_tx u) db polls Hcommit Hdist Hr Hp Hcar Hserv Htx Hdb Hk) as (rs & w' & db' & E & Hq).
  exists rs, w', db'. split; [done|]. intros (x & Hx & Hxh & Hget)%Hq. exists x. split_and!; [done..|].
  intros Hone. rewrite (Hone x Hx Hxh). by apply accepted_shown.
Qed.

End found.

(** ** Witness *)
Module EndToEndWitness.
Export ChainWitness RpcWitness.

(** The third invoke of the account, as a user broadcasts it; the block of [w_chain] in
    which it is dispatched, and the chain once that block is sealed. *)
Definition w_broadcast : BroadcastedTransaction :=
  BInvoke (mk_binv (felt0 (felt_of_Z 100)) [] (felt0 (felt_of_Z 2)) (felt0 account) [felt0 (felt_of_Z 4)] false).
Definition w_included : Pallet :=
  match dispatch OriginNone (invoke (w_invoke1 2)) (state w_chain) with Ret (_, p) => p | Panic => empty_pallet 0 end.
Definition w_sealed : Chain :=
  match act (mk_chain _ Building w_included (sealed w_chain)) AFinalize with Some c => c | None => w_chain end.

Lemma w_dispatch_included : dispatch OriginNone (invoke (w_invoke1 2)) (state w_chain) = Ret (Ok tt, w_included).
Proof.
  unfold w_included. assert (Hd : match dispatch OriginNone (invoke (w_invoke1 2)) (state w_chain) with
    | Ret (Ok _, _) => true | _ => false end = true) by (vm_compute; reflexivity).
  destruct (dispatch OriginNone (invoke (w_invoke1 2)) (state w_chain)) as [[[[]|e] p]|]; [reflexivity|discriminate Hd..].
Qed.

Lemma w_seals : rtc step (mk_chain _ Building w_included (sealed w_chain)) w_sealed.
Proof.
  apply rtc_once, (act_step _ AFinalize). unfold w_sealed.
  assert (Hs : is_Some (act (mk_chain _ Building w_included (sealed w_chain)) AFinalize))
    by (apply (bool_decide_eq_true_1 _); vm_compute; reflexivity).
  by destruct Hs as [c ->].
Qed.

(** The Substrate chain, with numbers for hashes, and the node at its last block. *)
Definition w_block_at (i : nat) : Z := Z.of_nat i.
Definition w_header_at (i : nat) : SubHeader Z :=
  mk_sub (Z.of_nat i) (Z.of_nat (i - 1)) (map block_digest (option_list (sealed w_sealed !! i))).
Definition w_node : Substrate Z := {|
  leaves := Ok [2];
  backend_header h := Ok (chain_header w_block_at w_header_at 3 h);
  client_header h := Ok (chain_header w_block_at w_header_at 3 h);
  runtime_chain_id _ := Ok (felt_of_Z 5);
|}.

Lemma w_length : length (sealed w_sealed) = 3%nat.
Proof. vm_compute. reflexivity. Qed.

Definition w_hashes : list Z :=
  map (fun b => match header_hash (H := SystemHash) (b_header b) with Ret f => felt_val f | Panic => 0 end) (sealed w_sealed).

Lemma w_hashes_distinct : NoDup w_hashes.
Proof. apply (bool_decide_eq_true_1 _). vm_compute. reflexivity. Qed.

Lemma w_carried : carried sub_number w_block_at w_header_at w_sealed.
Proof.
  constructor; unfold w_block_at, w_header_at; cbn [sub_number sub_parent_hash sub_digest]; [lia|lia|lia|intros i; lia|].
  intros i b Hb. rewrite Hb. change (map block_digest (option_list (Some b))) with [block_digest b]. unfold find_starknet_block, find_log. cbn [find_log_loop].
  by rewrite try_to_log_block.
Qed.

Lemma w_distinct : distinct_hashes w_sealed.
Proof.
  intros i j b b' f Hb Hb' Hf Hf'. apply (NoDup_lookup w_hashes i j (felt_val f) w_hashes_distinct); unfold w_hashes.
  - rewrite list_lookup_fmap, Hb. cbn [fmap option_fmap option_map]. by rewrite Hf.
  - rewrite list_lookup_fmap, Hb'. cbn [fmap option_fmap option_map]. by rewrite Hf'.
Qed.

Lemma w_serves : serves w_block_at w_header_at w_node w_sealed.
Proof. constructor; rewrite ?w_length; reflexivity. Qed.

Lemma w_database_known (header_of : Z -> option (SubHeader Z)) :
  forall tips db', current_syncing_tips (BHash := Z) ∅ = Ret (Ok tips, db') -> known header_of tips.
Proof.
  intros tips db'. unfold current_syncing_tips, read_opt, get, etry, ebind, eget, eret. rewrite lookup_empty.
  intros [= <- _]. constructor.
Qed.

Definition w_imports : list (Z * nat) := [(0, 0%nat); (1, 1%nat); (2, 1%nat); (3, 1%nat); (4, 1%nat)].
Abbreviation w_submit := (add_transaction (SU := w_client) (ST := pallet_storage w_pallet) (TP := w_pool) w_handle w_broadcast ([], ∅)).

End EndToEndWitness.
Import EndToEndWitness.

Lemma submitted_transaction_found_witness :
  exists hash st rs w' db' x, w_submit = Ret (Ok hash, st)
    /\ poll_all (HH := SystemHash) (SU := w_node) true sub_number w_imports (node_worker, ∅) = Ret (rs, (w', db'))
    /\ get_transaction_by_hash (HH := SystemHash) (SU := w_node) true hash db' = Ret (Ok (to_starknet_core_tx x hash), db').
Proof.
  assert (Hok : match w_submit with Ret (Ok _, _) => true | _ => false end = true) by (vm_compute; reflexivity).
  destruct w_submit as [[[hash|] [pool' db0']]|] eqn:E; [|discriminate Hok..].
  destruct (submitted_transaction_found (CM := commit_always) (ST := pallet_storage w_pallet) true sub_number w_block_at w_header_at w_handle w_client w_node w_rpc w_rpc
    w_broadcast (UInvoke (w_invoke1 2)) [] ∅ hash pool' db0' w_chain (invoke (w_invoke1 2)) w_included w_sealed ∅ w_imports
    ltac:(reflexivity) (fun _ => w_distinct) w_converts ltac:(intros ? [= <-]; vm_compute; reflexivity) E ltac:(vm_compute; reflexivity) eq_refl w_reachable ltac:(vm_compute; reflexivity) w_dispatch_included w_seals
    ltac:(vm_compute; reflexivity) w_carried w_serves ltac:(constructor) ltac:(apply w_database_known)) as (rs & w' & db' & Ep & H).
  assert (Hf : match poll_all (HH := SystemHash) (SU := w_node) true sub_number w_imports (node_worker, ∅) with
               | Ret (rs, _) => (fired rs =? 5)%nat | Panic => false end = true) by (vm_compute; reflexivity).
  rewrite Ep in Hf. apply Nat.eqb_eq in Hf. destruct H as (x & _ & _ & Hx & _); [rewrite Hf, w_length; lia|].
  exists hash, (pool', db0'), rs, w', db', x. split; [reflexivity|]. split; [exact Ep|exact Hx].
Defined.
