(* ===== verification/Trace.v ===== *)
(** * Traces

    Models [crates/client/rpc/src/trace_api.rs]: the trace of a transaction from the
    call trees of its execution, the simulation of transactions and the traces of a
    block, which is executed again on the state of its parent. *)
From S2P Require Import Prelude Bytes Deps Felt Hashers Transactions ComputeHash Blockifier Conversions Broadcasted Fee.
From S2P Require Import Execution Block CallTrace PalletStorage Pallet PalletEffects Runtime Simulations Db MappingSync.
From S2P Require Import Settlement L1Messages StateDiff Overrides Events RpcCore Rpc.
Local Open Scope Z_scope.

(** ** Data *)
Record TraceMessage := mk_trace_message {
  tm_order : Z; tm_payload : list FieldElement; tm_to_address : FieldElement; tm_from_address : FieldElement }.
Record TraceEvent := mk_trace_event { te_order : Z; te_keys : list FieldElement; te_data : list FieldElement }.

(** [FunctionInvocation] without its inner calls, and with them. *)
Record InvocationData := mk_invocation_data {
  fi_contract_address : FieldElement;
  fi_entry_point_selector : FieldElement;
  fi_calldata : list FieldElement;
  fi_caller_address : FieldElement;
  fi_class_hash : FieldElement;
  fi_entry_point_type : EntryPointType;
  fi_call_type : CallType;
  fi_result : list FieldElement;
  fi_events : list TraceEvent;
  fi_messages : list TraceMessage;
}.
#[warnings="-register-all"]
Inductive FunctionInvocation := mk_invocation (data : InvocationData) (calls : list FunctionInvocation).

Inductive ExecuteInvocation := InvocationSuccess (i : FunctionInvocation) | InvocationReverted (revert_reason : string).

(** [TransactionTrace]; its [state_diff] is always [None]. *)
Inductive TransactionTrace :=
| TraceInvoke (validate : option FunctionInvocation) (execute : ExecuteInvocation) (fee_transfer : option FunctionInvocation)
| TraceDeclare (validate fee_transfer : option FunctionInvocation)
| TraceDeployAccount (validate : option FunctionInvocation) (constructor : FunctionInvocation) (fee_transfer : option FunctionInvocation)
| TraceL1Handler (function : FunctionInvocation).

Record SimulatedTransaction := mk_simulated { sim_trace : TransactionTrace; sim_fee : FeeEstimate }.
Record TransactionTraceWithHash := mk_trace_with_hash { tth_hash : FieldElement; tth_trace : TransactionTrace }.

Inductive TryFuntionInvocationFromCallInfoError := FITransactionExecution (e : TransactionExecutionError) | FIContractNotFound.
Inductive ConvertCallInfoToExecuteInvocationError :=
| CITransactionExecutionFailed | CIGetFunctionInvocation (e : TryFuntionInvocationFromCallInfoError).

Definition convert_call_info_error_into (err : ConvertCallInfoToExecuteInvocationError) : StarknetRpcApiError :=
  match err with CITransactionExecutionFailed => RpcContractError | CIGetFunctionInvocation _ => InternalServerError end.

(** [CallInfo::get_sorted_l2_to_l1_payloads_length] of blockifier. *)
Class CallInfoPayloads := { sorted_payloads_length : CallInfo -> result TransactionExecutionError (list Z) }.

(** The calls of the runtime API used here. *)
Class TraceRuntime (BHash : Type) `{ContractClassI} := {
  rt_simulate_transactions : BHash -> list UserTransaction -> SimulationFlags
    -> result unit (result DispatchError (list (result PlaceHolderError TransactionExecutionInfo)));
  rt_re_execute_transactions : BHash -> list UserOrL1HandlerTransaction
    -> result unit (result DispatchError (result PlaceHolderError (list TransactionExecutionInfo)));
}.

(** ** Call trees *)
Abbreviation ClassHashCache := (gmap ContractAddress FieldElement).

Section invocation.
  Context `{SF : StarknetFf} `{CC : ContractClassI} {CP : CallInfoPayloads} {BHash : Type}.
  Context (storage_override : StorageOverride BHash) (substrate_block_hash : BHash).

Definition ordered_message (from_address : ContractAddress) (x : nat * OrderedL2ToL1Message) : outcome TraceMessage :=
  let (index, message) := x in
  let! payload := traverse fe_of_stark (mc_payload (om_message message)) in
  let! to_address := unwrap (from_byte_slice_be (arr (mc_to_address (om_message message)))) in
  let! from_address := fe_of_new from_address in
  Ret (mk_trace_message (Z.of_nat index) payload to_address from_address).

Definition collect_call_info_ordered_messages (call_info : CallInfo) : outcome (list TraceMessage) :=
  let messages := cx_l2_to_l1_messages (ci_execution call_info) in
  traverse (ordered_message (cep_storage_address (ci_call call_info))) (zip (seq 0 (length messages)) messages).

Definition fe_from_felt_bytes (s : StarkFelt) : outcome FieldElement := unwrap (from_byte_slice_be (arr (stark_bytes s))).

Definition ordered_event (event : OrderedEvent) : outcome TraceEvent :=
  let! keys := traverse (fun k => fe_from_felt_bytes (new0 k)) (ec_keys (oe_event event)) in
  let! data := traverse fe_from_felt_bytes (ec_data (oe_event event)) in
  Ret (mk_trace_event (oe_order event) keys data).
Definition blockifier_to_starknet_rs_ordered_events (ordered_events : list OrderedEvent) : outcome (list TraceEvent) :=
  traverse ordered_event ordered_events.

(** The class hash of a call: given, cached, or asked for and then cached. *)
Definition class_hash_of_call (call : CallEntryPoint) : effr ClassHashCache TryFuntionInvocationFromCallInfoError FieldElement :=
  match cep_class_hash call with
  | Some class_hash => hash <-- elift (fe_of_new class_hash);; eret (Ok hash)
  | None =>
      cache <-- eget id;;
      match cache !! cep_storage_address call with
      | Some cached_hash => eret (Ok cached_hash)
      | None =>
          computed_hash <-? eret (ok_or (so_contract_class_hash_by_address storage_override substrate_block_hash
                                           (cep_storage_address call)) FIContractNotFound);;
          computed_hash <-- elift (fe_from_felt_bytes (new0 computed_hash));;
          eput (fun cache => <[cep_storage_address call := computed_hash]> cache) ;;;
          eret (Ok computed_hash)
      end
  end.

(** The fields that are only converted. *)
Definition invocation_data (call_info : CallInfo) (class_hash : FieldElement) (events : list TraceEvent) (messages : list TraceMessage)
  : outcome InvocationData :=
  let call := ci_call call_info in
  let! contract_address := fe_of_new (cep_storage_address call) in
  let! entry_point_selector := fe_of_new (cep_entry_point_selector call) in
  let! calldata := traverse fe_of_stark (cep_calldata call) in
  let! caller_address := fe_of_new (cep_caller_address call) in
  let! result := traverse fe_of_stark (cx_retdata (ci_execution call_info)) in
  Ret (mk_invocation_data contract_address entry_point_selector calldata caller_address class_hash
         (cep_entry_point_type call) (cep_call_type call) result events messages).

Fixpoint try_get_funtion_invocation_from_call_info (call_info : CallInfo)
  : effr ClassHashCache TryFuntionInvocationFromCallInfoError FunctionInvocation :=
  let 'mk_ci call execution inner := call_info in
  messages <-- elift (collect_call_info_ordered_messages call_info);;
  events <-- elift (blockifier_to_starknet_rs_ordered_events (cx_events execution));;
  inner_calls <-? (fix each (l : list CallInfo) : effr ClassHashCache TryFuntionInvocationFromCallInfoError (list FunctionInvocation) :=
     match l with
     | [] => eret (Ok [])
     | ci :: l' => i <-? try_get_funtion_invocation_from_call_info ci;; rest <-? each l';; eret (Ok (i :: rest))
     end) inner;;
  _ <-? eret (map_err FITransactionExecution (sorted_payloads_length call_info));;
  class_hash <-? class_hash_of_call call;;
  data <-- elift (invocation_data call_info class_hash events messages);;
  eret (Ok (mk_invocation data inner_calls)).

(** [as_ref().map(..).transpose()]. *)
Definition optional_invocation (call_info : option CallInfo)
  : effr ClassHashCache ConvertCallInfoToExecuteInvocationError (option FunctionInvocation) :=
  match call_info with
  | None => eret (Ok None)
  | Some ci => i <-? emap_err CIGetFunctionInvocation (try_get_funtion_invocation_from_call_info ci);; eret (Ok (Some i))
  end.

(** The call that ran, which is missing only for [Declare]. *)
Definition executed_invocation (info : TransactionExecutionInfo)
  : effr ClassHashCache ConvertCallInfoToExecuteInvocationError FunctionInvocation :=
  ci <-- elift (unwrap_opt (tei_execute_call_info info));;
  emap_err CIGetFunctionInvocation (try_get_funtion_invocation_from_call_info ci).

Definition tx_trace_with_cache (tx_type : TxType) (tx_exec_info : TransactionExecutionInfo)
  : effr ClassHashCache ConvertCallInfoToExecuteInvocationError TransactionTrace :=
  validate_invocation <-? optional_invocation (tei_validate_call_info tx_exec_info);;
  fee_transfer_invocation <-? optional_invocation (tei_fee_transfer_call_info tx_exec_info);;
  match tx_type with
  | TxInvoke =>
      match tei_revert_error tx_exec_info with
      | Some e => eret (Ok (TraceInvoke validate_invocation (InvocationReverted e) fee_transfer_invocation))
      | None =>
          i <-? executed_invocation tx_exec_info;;
          eret (Ok (TraceInvoke validate_invocation (InvocationSuccess i) fee_transfer_invocation))
      end
  | TxDeclare => eret (Ok (TraceDeclare validate_invocation fee_transfer_invocation))
  | TxDeployAccount =>
      i <-? executed_invocation tx_exec_info;;
      eret (Ok (TraceDeployAccount validate_invocation i fee_transfer_invocation))
  | TxL1Handler => i <-? executed_invocation tx_exec_info;; eret (Ok (TraceL1Handler i))
  end.

(** The cache lives as long as the conversion of one transaction. *)
Definition tx_execution_infos_to_tx_trace (tx_type : TxType) (tx_exec_info : TransactionExecutionInfo)
  : outcome (result ConvertCallInfoToExecuteInvocationError TransactionTrace) :=
  let! r := tx_trace_with_cache tx_type tx_exec_info ∅ in Ret (fst r).

(** [u64] division. *)
Definition simulated_fee (tx_exec_info : TransactionExecutionInfo) : FeeEstimate :=
  let gas_consumed := from_option (fun x => cx_gas_consumed (ci_execution x)) 0 (tei_execute_call_info tx_exec_info) in
  let overall_fee := wrap 64 (tei_actual_fee tx_exec_info) in
  let gas_price := if 0 <? gas_consumed then overall_fee / gas_consumed else 0 in
  mk_fee_estimate gas_price gas_consumed overall_fee.

Fixpoint tx_execution_infos_to_simulated_transactions (tx_types : list TxType)
    (transaction_execution_results : list (result PlaceHolderError TransactionExecutionInfo))
  : outcome (result ConvertCallInfoToExecuteInvocationError (list SimulatedTransaction)) :=
  match tx_types, transaction_execution_results with
  | tx_type :: tx_types', Ok tx_exec_info :: rest =>
      let! r := tx_execution_infos_to_tx_trace tx_type tx_exec_info in
      match r with
      | Err e => Ret (Err e)
      | Ok transaction_trace =>
          let! rs := tx_execution_infos_to_simulated_transactions tx_types' rest in
          Ret (let? results := rs in Ok (mk_simulated transaction_trace (simulated_fee tx_exec_info) :: results))
      end
  | _ :: _, Err _ :: _ => Ret (Err CITransactionExecutionFailed)
  | _, _ => Ret (Ok [])
  end.

End invocation.

(** ** The methods *)
Section methods.
  Context `{SF : StarknetFf} `{SA : StarknetApi} `{PT : PrimitiveTypes} `{SC : StarknetCrypto} {HH : HasherT}.
  Context `{LC : LogCodec} `{CT : ClassTools} {SHa : SierraHash} {CP : CallInfoPayloads}.
  Context {BHash : Type} `{EqDecision BHash} {SU : Substrate BHash} {RC : RpcClient BHash} {TR : TraceRuntime BHash}.
  Context {SHs : Scale (list BHash)} {SFe : Scale StarkFelt} {SFs : Scale (list StarkFelt)} {SCh : Scale ClassHash} {SAc : Scale ApiContractClass}.
  Context {ST : StorageProvider BHash} {SV : Scale StarknetStorageSchemaVersion} (overrides : OverrideHandle BHash).

Abbreviation rpc A := (effr Database RpcError A).

(** The conversion of a request with its type; the conversions run one at a time and
    stop at the first error. *)
Definition typed_user_tx (tx : BroadcastedTransaction) : conversion (TxType * UserTransaction) :=
  match tx with
  | BInvoke invoke_tx => tx <-c Ret (invoke_try_from invoke_tx);; Ret (Ok (TxInvoke, tx))
  | BDeclare declare_tx => tx <-c declare_try_from declare_tx;; Ret (Ok (TxDeclare, tx))
  | BDeployAccount deploy_account_tx => tx <-c Ret (deploy_account_try_from deploy_account_tx);; Ret (Ok (TxDeployAccount, tx))
  end.

Fixpoint typed_user_txs (txs : list BroadcastedTransaction) : conversion (list TxType * list UserTransaction) :=
  match txs with
  | [] => Ret (Ok ([], []))
  | tx :: txs' =>
      x <-c typed_user_tx tx;;
      rest <-c typed_user_txs txs';;
      Ret (Ok (fst x :: fst rest, snd x :: snd rest))
  end.

Definition lift_trace {A} (m : outcome (result ConvertCallInfoToExecuteInvocationError A)) : rpc A :=
  r <-- elift m;; eret (map_err (fun e => RpcApi (convert_call_info_error_into e)) r).

Definition simulate_transactions (block_id : BlockId) (transactions : list BroadcastedTransaction)
    (simulation_flags : list SimulationFlag) : rpc (list SimulatedTransaction) :=
  substrate_block_hash <-? block_id_hash block_id;;
  chain_id <-? chain_id;;
  typed <-? lift_conversion (typed_user_txs transactions);;
  let (tx_types, user_transactions) := typed : list TxType * list UserTransaction in
  res <-? api_result InternalServerError
    (rt_simulate_transactions substrate_block_hash user_transactions (SimulationFlags_from simulation_flags));;
  res <-? api_result RpcContractError res;;
  lift_trace (tx_execution_infos_to_simulated_transactions (for_block_hash overrides substrate_block_hash) substrate_block_hash
                tx_types res).

(** The class a declaration is executed with again. *)
Definition declared_class (substrate_block_hash : BHash) (declare_tx : DeclareTransaction) : rpc ContractClass :=
  let class_hash := to_new ClassHashT (declare_class_hash declare_tx) in
  match declare_tx with
  | DeclareV0 _ | DeclareV1 _ =>
      api_option InternalServerError
        (so_contract_class_by_class_hash (for_block_hash overrides substrate_block_hash) substrate_block_hash class_hash)
  | DeclareV2 _ =>
      contract_class <-? emap_err (fun _ => RpcApi InternalServerError) (get_sierra_class class_hash);;
      contract_class <-? api_option InternalServerError contract_class;;
      casm <-? api_result InternalServerError
        (sierra_to_casm_contract_class (acc_sierra_program contract_class) (acc_entry_point_by_type contract_class));;
      api_option InternalServerError (contract_class_v1 casm)
  end.

Definition executable_again (substrate_block_hash : BHash) (tx : Transaction) : rpc UserOrL1HandlerTransaction :=
  match tx with
  | TInvoke invoke_tx => eret (Ok (User (UInvoke invoke_tx)))
  | TDeployAccount deploy_account_tx => eret (Ok (User (UDeployAccount deploy_account_tx)))
  | TDeclare declare_tx =>
      contract_class <-? declared_class substrate_block_hash declare_tx;;
      eret (Ok (User (UDeclare declare_tx contract_class)))
  | TL1Handler handle_l1_message_tx =>
      chain_id <-? chain_id;;
      let tx_hash := l1_handler_compute_hash handle_l1_message_tx (mk_felt chain_id) false in
      paid_fee <-? emap_err (fun _ => RpcApi InternalServerError) (get_fee_paid_for_l1_handler_tx (to_stark tx_hash));;
      eret (Ok (L1Handler handle_l1_message_tx paid_fee))
  end.

(** [u64] subtraction; the number is saturated to the width of Substrate's. *)
Definition previous_block_hash (substrate_block_hash : BHash) : rpc BHash :=
  starknet_block <-? api_result InternalServerError (get_block_by_block_hash substrate_block_hash);;
  let previous_block_number := wsub 64 (h_block_number (b_header starknet_block)) 1 in
  emap_err (fun _ => RpcApi InternalServerError) (substrate_block_hash_from_starknet_block (BINumber previous_block_number)).

(** The loop over the execution infos; the transaction at an index is unwrapped. *)
Fixpoint block_traces (substrate_block_hash : BHash) (chain_id : Felt252Wrapper)
    (block_transactions : list UserOrL1HandlerTransaction) (execution_infos : list TransactionExecutionInfo)
  : outcome (result ConvertCallInfoToExecuteInvocationError (list TransactionTraceWithHash)) :=
  match execution_infos with
  | [] => Ret (Ok [])
  | tx_exec_info :: infos =>
      match block_transactions with
      | [] => Panic
      | tx :: txs =>
          let! r := tx_execution_infos_to_tx_trace (for_block_hash overrides substrate_block_hash) substrate_block_hash
                      (TxType_from_user_or_l1 tx) tx_exec_info in
          match r with
          | Err e => Ret (Err e)
          | Ok trace_root =>
              let! rs := block_traces substrate_block_hash chain_id txs infos in
              Ret (let? traces := rs in
                   Ok (mk_trace_with_hash (felt0 (user_or_l1_compute_hash tx chain_id false)) trace_root :: traces))
          end
      end
  end.

Definition trace_block_transactions (block_id : BlockId) : rpc (list TransactionTraceWithHash) :=
  substrate_block_hash <-? block_id_hash block_id;;
  starknet_block <-? api_result InternalServerError (get_block_by_block_hash substrate_block_hash);;
  block_transactions <-? etraverse (executable_again substrate_block_hash) (b_transactions starknet_block);;
  previous_block_substrate_hash <-? previous_block_hash substrate_block_hash;;
  execution_infos <-? api_result InternalServerError
    (rt_re_execute_transactions previous_block_substrate_hash block_transactions);;
  execution_infos <-? api_result InternalServerError execution_infos;;
  execution_infos <-? api_result InternalServerError execution_infos;;
  chain_id <-? chain_id;;
  lift_trace (block_traces substrate_block_hash (mk_felt chain_id) block_transactions execution_infos).

End methods.
