(* ===== verification/RpcReadOnly.v ===== *)
(** * Queries do not write

    Every method of the RPC server that only answers a question leaves the database as
    it is, whatever the client and the runtime answer: the methods of [Rpc], those of
    [Trace] and [get_events]. *)
From S2P Require Import Prelude Bytes Deps Felt Hashers Transactions ComputeHash Blockifier Conversions Broadcasted Fee.
From S2P Require Import Execution Block CallTrace PalletStorage Pallet PalletEffects Runtime Simulations Db MappingSync.
From S2P Require Import Settlement L1Messages StateDiff Overrides Events RpcCore Rpc Trace.
Local Open Scope Z_scope.

(** A computation that ends in the state it started in. *)
Class ReadOnly {S A : Type} (m : eff S A) : Prop := read_only : forall s r s', m s = Ret (r, s') -> s' = s.

Section closure.
  Context {S : Type}.

#[export] Instance ret_read_only {A} (a : A) : ReadOnly (S := S) (eret a).
Proof. by intros s r s' [= _ <-]. Qed.
#[export] Instance panic_read_only {A} : ReadOnly (S := S) (A := A) epanic.
Proof. by intros s r s'. Qed.
#[export] Instance lift_read_only {A} (m : outcome A) : ReadOnly (S := S) (elift m).
Proof. intros s r s'. unfold elift. destruct m; [|done]. by intros [= _ <-]. Qed.
#[export] Instance get_read_only {A} (f : S -> A) : ReadOnly (eget f).
Proof. by intros s r s' [= _ <-]. Qed.
#[export] Instance assert_read_only b : ReadOnly (S := S) (eassert b).
Proof. intros s r s'. unfold eassert. destruct b; [|done]. by intros [= _ <-]. Qed.
#[export] Instance bind_read_only {A B} (m : eff S A) (f : A -> eff S B) :
  ReadOnly m -> (forall a, ReadOnly (f a)) -> ReadOnly (ebind m f).
Proof.
  intros Hm Hf s r s'. unfold ebind. destruct (m s) as [[a s1]|] eqn:E; [|done].
  apply Hm in E as ->. apply Hf.
Qed.
#[export] Instance try_read_only {E A B} (m : effr S E A) (f : A -> effr S E B) :
  ReadOnly m -> (forall a, ReadOnly (f a)) -> ReadOnly (etry m f).
Proof. intros Hm Hf. unfold etry. apply bind_read_only; [done|]. intros [a|e]; [apply Hf|apply ret_read_only]. Qed.
#[export] Instance map_err_read_only {E F A} (f : E -> F) (m : effr S E A) : ReadOnly m -> ReadOnly (emap_err f m).
Proof. intros Hm. unfold emap_err. apply bind_read_only; [done|]. intros. apply ret_read_only. Qed.
#[export] Instance traverse_read_only {E A B} (f : A -> effr S E B) l : (forall a, ReadOnly (f a)) -> ReadOnly (etraverse f l).
Proof.
  intros Hf. induction l as [|a l IH]; cbn [etraverse]; [apply ret_read_only|].
  apply try_read_only; [done|]. intros b. apply try_read_only; [done|]. intros bs. apply ret_read_only.
Qed.

(** A read-only step that succeeds, and the rest from the same state. *)
Lemma etry_reads {E A B} (m : effr S E A) `{!ReadOnly m} (f : A -> effr S E B) s b s' :
  etry m f s = Ret (Ok b, s') -> exists a, m s = Ret (Ok a, s) /\ f a s = Ret (Ok b, s').
Proof.
  unfold etry, ebind. destruct (m s) as [[[a|e] s1]|] eqn:Hm; [|done|done]. pose proof (read_only _ _ _ Hm) as ->. eauto.
Qed.

End closure.

(** Unfold the methods named, split on what they match on, and let the instances do
    the rest. *)
Ltac reads :=
  repeat match goal with
  | |- ReadOnly (match ?x with _ => _ end) => destruct x
  | |- ReadOnly (if ?x then _ else _) => destruct x
  | |- ReadOnly (let _ := _ in _) => cbv zeta
  | |- ReadOnly (ebind _ _) => apply bind_read_only; [|intros]
  | |- ReadOnly (etry _ _) => apply try_read_only; [|intros]
  | |- ReadOnly (emap_err _ _) => apply map_err_read_only
  | |- ReadOnly _ => apply _
  end.

Section queries.
  Context `{SF : StarknetFf} `{SA : StarknetApi} `{PT : PrimitiveTypes} `{SC : StarknetCrypto} {HH : HasherT}.
  Context `{LC : LogCodec} `{CT : ClassTools} {SHa : SierraHash} {CV : ClassViews} {RF : RpcFormat} {CP : CallInfoPayloads}.
  Context {BHash : Type} `{EqDecision BHash} {SU : Substrate BHash} {RC : RpcClient BHash} {RR : RpcRuntime BHash} {TR : TraceRuntime BHash}.
  Context `{CM : Commit} {SHs : Scale (list BHash)} {SHh : Scale BHash} {SFe : Scale StarkFelt} {SFs : Scale (list StarkFelt)}.
  Context {SD : Scale ThinStateDiff} {SL : Scale LastSyncedEventBlock} {SCh : Scale ClassHash} {SAc : Scale ApiContractClass}.
  Context {ST : StorageProvider BHash} {SV : Scale StarknetStorageSchemaVersion} (overrides : OverrideHandle BHash).
  Context (cache_more_things : bool) (starting_block : Z).

#[export] Instance read_opt_reads {T} `{Scale T} col key : ReadOnly (read_opt (T := T) col key).
Proof. unfold read_opt, get. reads. Qed.

#[export] Instance block_hash_reads block_id : ReadOnly (substrate_block_hash_from_starknet_block (BHash := BHash) block_id).
Proof. unfold substrate_block_hash_from_starknet_block, load_hash, mapping_block_hash. reads. Qed.
#[export] Instance block_number_reads block_id : ReadOnly (substrate_block_number_from_starknet_block (BHash := BHash) block_id).
Proof. unfold substrate_block_number_from_starknet_block. reads. Qed.
#[export] Instance cached_hashes_reads s : ReadOnly (get_cached_transaction_hashes cache_more_things s).
Proof. unfold get_cached_transaction_hashes, cached_transaction_hashes_from_block_hash. reads. Qed.
#[export] Instance block_id_hash_reads block_id : ReadOnly (block_id_hash (BHash := BHash) block_id).
Proof. unfold block_id_hash. reads. Qed.
#[export] Instance chain_id_reads : ReadOnly chain_id.
Proof. unfold chain_id, api_result. reads. Qed.
#[export] Instance digest_block_reads h : ReadOnly (digest_block h).
Proof. unfold digest_block. reads. Qed.

#[export] Instance tx_mapping_reads t : ReadOnly (block_hash_from_transaction_hash (BHash := BHash) t).
Proof. unfold block_hash_from_transaction_hash. reads. Qed.
#[export] Instance api_result_reads {A E} e (r : result E A) : ReadOnly (S := Database) (api_result e r).
Proof. unfold api_result. reads. Qed.
#[export] Instance api_option_reads {A} e (o : option A) : ReadOnly (S := Database) (api_option e o).
Proof. unfold api_option. reads. Qed.
#[export] Instance refuse_reads {A} e : ReadOnly (S := Database) (A := result RpcError A) (refuse e).
Proof. unfold refuse. reads. Qed.
#[export] Instance conversion_reads {A} (m : conversion A) : ReadOnly (S := Database) (lift_conversion m).
Proof. unfold lift_conversion. reads. Qed.
#[export] Instance tx_hash_reads cached c i tx : ReadOnly (tx_hash_at cached c i tx).
Proof. unfold tx_hash_at. reads. Qed.
#[export] Instance shown_txs_reads cached c i txs : ReadOnly (shown_txs cached c i txs).
Proof. revert i. induction txs as [|tx txs IH]; intros i; cbn [shown_txs]; reads. Qed.
#[export] Instance block_status_reads h : ReadOnly (block_status h).
Proof. unfold block_status, last_synced_l1_block_with_event. reads. Qed.
#[export] Instance parent_root_reads h : ReadOnly (parent_root (BHash := BHash) h).
Proof. unfold parent_root. reads. Qed.
#[export] Instance state_diff_reads h : ReadOnly (get_state_diff h).
Proof. unfold get_state_diff, state_diff. reads. Qed.
#[export] Instance outcome_reads (h : BHash) t : ReadOnly (execution_outcome h t).
Proof. unfold execution_outcome. reads. Qed.
#[export] Instance call_reads request block_id : ReadOnly (call request block_id).
Proof. unfold call. reads. Qed.

#[export] Instance block_events_reads n : ReadOnly (get_block_events (BHash := BHash) cache_more_things n).
Proof. unfold get_block_events, client_result. reads. Qed.
#[export] Instance filter_blocks_reads fuel f from cur evs :
  ReadOnly (filter_blocks (BHash := BHash) cache_more_things fuel f from cur evs).
Proof. revert cur evs. induction fuel as [|fuel IH]; intros cur evs; cbn [filter_blocks]; cbv zeta; reads. Qed.

#[export] Instance declared_class_reads h d : ReadOnly (declared_class overrides h d).
Proof. unfold declared_class, get_sierra_class. cbv zeta. reads. Qed.
#[export] Instance fee_paid_reads t : ReadOnly (get_fee_paid_for_l1_handler_tx t).
Proof. unfold get_fee_paid_for_l1_handler_tx, get. cbv zeta. reads. Qed.
#[export] Instance executable_again_reads h tx : ReadOnly (executable_again overrides h tx).
Proof. unfold executable_again. reads. Qed.
#[export] Instance previous_hash_reads h : ReadOnly (previous_block_hash (BHash := BHash) h).
Proof. unfold previous_block_hash. cbv zeta. reads. Qed.
#[export] Instance lift_trace_reads {A} (m : outcome (result ConvertCallInfoToExecuteInvocationError A)) : ReadOnly (lift_trace m).
Proof. unfold lift_trace. reads. Qed.

(** C22: no query writes.  Every read method of the server, the trace methods and the event
    query included, leaves the database as it found it, whether it answers or fails,
    and whatever the client, the runtime and the storage say. *)
Theorem queries_read_only (block_id : BlockId) (t a k : FieldElement) (i : Z) :
  (ReadOnly block_hash_and_number /\ ReadOnly chain_id /\ ReadOnly (syncing starting_block))
  /\ (ReadOnly (get_block_transaction_count (BHash := BHash) block_id)
      /\ ReadOnly (get_block_with_tx_hashes (BHash := BHash) cache_more_things block_id)
      /\ ReadOnly (get_block_with_txs (BHash := BHash) cache_more_things block_id)
      /\ ReadOnly (get_transaction_by_block_id_and_index (BHash := BHash) cache_more_things block_id i)
      /\ ReadOnly (get_state_update (BHash := BHash) block_id))
  /\ (ReadOnly (get_transaction_status (BHash := BHash) cache_more_things t)
      /\ ReadOnly (get_transaction_by_hash (BHash := BHash) cache_more_things t)
      /\ ReadOnly (get_transaction_receipt (BHash := BHash) cache_more_things t))
  /\ (ReadOnly (get_storage_at overrides a k block_id) /\ ReadOnly (get_class_at overrides block_id a)
      /\ ReadOnly (get_class_hash_at overrides block_id a) /\ ReadOnly (get_class overrides block_id k)
      /\ ReadOnly (get_nonce overrides block_id a))
  /\ (forall request, ReadOnly (call request block_id))
  /\ (forall request, ReadOnly (estimate_fee request block_id))
  /\ (forall message, ReadOnly (estimate_message_fee message block_id))
  /\ (forall txs flags, ReadOnly (simulate_transactions overrides block_id txs flags))
  /\ ReadOnly (trace_block_transactions overrides block_id)
  /\ (forall token address keys chunk from to,
        ReadOnly (get_events (BHash := BHash) cache_more_things token address keys chunk from to)).
Proof.
  split_and!; intros;
    unfold block_hash_and_number, current_block_number, current_block_hash, syncing, get_block_transaction_count, get_block_with_tx_hashes, get_block_with_txs,
      get_transaction_by_block_id_and_index, get_state_update, get_transaction_status, get_transaction_by_hash, get_transaction_receipt,
      get_storage_at, get_class_at, get_class_hash_at, get_class, get_nonce, estimate_fee, estimate_message_fee,
      simulate_transactions, trace_block_transactions, get_events, filter_events; cbv zeta; reads.
Qed.

End queries.
