(* ===== verification/TraceProperties.v ===== *)
(** * Properties of traces

    The cache of class hashes does not change any trace; the traces of a block or of a
    simulation have the kinds and the hashes of the transactions, in order. *)
From S2P Require Import Prelude Bytes Deps Felt Hashers Transactions ComputeHash Blockifier Conversions Broadcasted Fee.
From S2P Require Import Execution Block CallTrace PalletStorage Pallet PalletEffects Runtime Simulations Db MappingSync.
From S2P Require Import Settlement L1Messages StateDiff Overrides Events RpcCore Rpc RpcProperties Trace RpcReadOnly.
Local Open Scope Z_scope.

(** ** The cache *)
Section cache.
  Context `{SF : StarknetFf} `{CC : ContractClassI} {CP : CallInfoPayloads} {BHash : Type}.
  Context (storage_override : StorageOverride BHash) (h : BHash).

(** The reference: the same conversions, with the class hash asked for every time. *)
Definition rbind {E A B} (m : outcome (result E A)) (f : A -> outcome (result E B)) : outcome (result E B) :=
  let! r := m in match r with Ok a => f a | Err e => Ret (Err e) end.

Definition class_hash_asked (call : CallEntryPoint) : outcome (result TryFuntionInvocationFromCallInfoError FieldElement) :=
  match cep_class_hash call with
  | Some class_hash => let! hash := fe_of_new class_hash in Ret (Ok hash)
  | None =>
      match so_contract_class_hash_by_address storage_override h (cep_storage_address call) with
      | None => Ret (Err FIContractNotFound)
      | Some computed => let! hash := fe_from_felt_bytes (new0 computed) in Ret (Ok hash)
      end
  end.

Fixpoint invocation_of (ci : CallInfo) : outcome (result TryFuntionInvocationFromCallInfoError FunctionInvocation) :=
  let 'mk_ci call execution inner := ci in
  let! messages := collect_call_info_ordered_messages ci in
  let! events := blockifier_to_starknet_rs_ordered_events (cx_events execution) in
  rbind ((fix each (l : list CallInfo) :=
     match l with
     | [] => Ret (Ok [])
     | c :: l' => rbind (invocation_of c) (fun i => rbind (each l') (fun rest => Ret (Ok (i :: rest))))
     end) inner) (fun inner_calls =>
  rbind (Ret (map_err FITransactionExecution (sorted_payloads_length ci))) (fun _ =>
  rbind (class_hash_asked call) (fun class_hash =>
  let! data := invocation_data ci class_hash events messages in
  Ret (Ok (mk_invocation data inner_calls))))).

Definition map_invocation_err {A} (m : outcome (result TryFuntionInvocationFromCallInfoError A))
  : outcome (result ConvertCallInfoToExecuteInvocationError A) := let! r := m in Ret (map_err CIGetFunctionInvocation r).

Definition optional_of (ci : option CallInfo) : outcome (result ConvertCallInfoToExecuteInvocationError (option FunctionInvocation)) :=
  match ci with
  | None => Ret (Ok None)
  | Some ci => rbind (map_invocation_err (invocation_of ci)) (fun i => Ret (Ok (Some i)))
  end.

Definition executed_of (info : TransactionExecutionInfo) : outcome (result ConvertCallInfoToExecuteInvocationError FunctionInvocation) :=
  let! ci := unwrap_opt (tei_execute_call_info info) in map_invocation_err (invocation_of ci).

Definition trace_of (tx_type : TxType) (info : TransactionExecutionInfo)
  : outcome (result ConvertCallInfoToExecuteInvocationError TransactionTrace) :=
  rbind (optional_of (tei_validate_call_info info)) (fun v =>
  rbind (optional_of (tei_fee_transfer_call_info info)) (fun f =>
  match tx_type with
  | TxInvoke =>
      match tei_revert_error info with
      | Some e => Ret (Ok (TraceInvoke v (InvocationReverted e) f))
      | None => rbind (executed_of info) (fun i => Ret (Ok (TraceInvoke v (InvocationSuccess i) f)))
      end
  | TxDeclare => Ret (Ok (TraceDeclare v f))
  | TxDeployAccount => rbind (executed_of info) (fun i => Ret (Ok (TraceDeployAccount v i f)))
  | TxL1Handler => rbind (executed_of info) (fun i => Ret (Ok (TraceL1Handler i)))
  end)).

(** Every entry of the cache is what the storage would answer. *)
Definition coherent (cache : ClassHashCache) : Prop :=
  forall a hash, cache !! a = Some hash ->
    exists computed, so_contract_class_hash_by_address storage_override h a = Some computed /\ fe_from_felt_bytes (new0 computed) = Ret hash.

(** On a coherent cache the computation [m] answers [r] and leaves a coherent cache. *)
Definition matches {A} (m : eff ClassHashCache A) (r : outcome A) : Prop :=
  forall cache, coherent cache ->
    match r with Panic => m cache = Panic | Ret x => exists cache', m cache = Ret (x, cache') /\ coherent cache' end.

Lemma matches_ret {A} (a : A) : matches (eret a) (Ret a).
Proof. intros cache Hc. by exists cache. Qed.
Lemma matches_lift {A B} (o : outcome A) (f : A -> eff ClassHashCache B) (g : A -> outcome B) :
  (forall a, matches (f a) (g a)) -> matches (ebind (elift o) f) (outcome_bind o g).
Proof. intros Hf cache Hc. unfold ebind, elift. destruct o as [a|]; [|done]. by apply Hf. Qed.
Lemma matches_try {E A B} (m : effr ClassHashCache E A) r (f : A -> effr ClassHashCache E B) g :
  matches m r -> (forall a, matches (f a) (g a)) -> matches (etry m f) (rbind r g).
Proof.
  intros Hm Hf cache Hc. specialize (Hm cache Hc). unfold etry, ebind, rbind. destruct r as [x|]; [|by rewrite Hm].
  destruct Hm as (cache1 & -> & Hc1). cbn [outcome_bind]. destruct x as [a|e]; [by apply Hf|by apply matches_ret].
Qed.
Lemma matches_map_err {A} (m : effr ClassHashCache TryFuntionInvocationFromCallInfoError A) r :
  matches m r -> matches (emap_err CIGetFunctionInvocation m) (map_invocation_err r).
Proof.
  intros Hm cache Hc. specialize (Hm cache Hc). unfold emap_err, ebind, map_invocation_err. destruct r as [x|]; [|by rewrite Hm].
  destruct Hm as (cache1 & -> & Hc1). by exists cache1.
Qed.

Lemma coherent_insert cache a computed hash :
  coherent cache -> so_contract_class_hash_by_address storage_override h a = Some computed -> fe_from_felt_bytes (new0 computed) = Ret hash ->
  coherent (<[a := hash]> cache).
Proof.
  intros Hc Hs Hf a' hash'. destruct (decide (a' = a)) as [->|Hne].
  - rewrite lookup_insert_eq. intros [= <-]. eauto.
  - rewrite lookup_insert_ne by done. apply Hc.
Qed.

Lemma matches_class_hash call : matches (class_hash_of_call storage_override h call) (class_hash_asked call).
Proof.
  intros cache Hc. unfold class_hash_of_call, class_hash_asked, etry, ebind, eget, eput, elift, eret, id.
  destruct (cep_class_hash call) as [ch|]; [destruct (fe_of_new ch); cbn; eauto|].
  destruct (cache !! cep_storage_address call) as [hash|] eqn:E.
  - destruct (Hc _ _ E) as (computed & -> & ->). cbn. eauto.
  - destruct (so_contract_class_hash_by_address _ _ _) as [computed|] eqn:Es; cbn [ok_or]; [|eauto].
    destruct (fe_from_felt_bytes _) as [hash|] eqn:Ef; [|done]. cbn. eauto using coherent_insert.
Qed.

(** Call trees, by their depth and their width. *)
Lemma CallInfo_ind' (Q : CallInfo -> Prop) :
  (forall call execution inner, Forall Q inner -> Q (mk_ci call execution inner)) -> forall ci, Q ci.
Proof.
  intros H. fix F 1. intros [call execution inner]. apply H. induction inner as [|c inner IH]; constructor; [apply F|exact IH].
Qed.

Lemma matches_invocation ci : matches (try_get_funtion_invocation_from_call_info storage_override h ci) (invocation_of ci).
Proof.
  induction ci as [call execution inner IH] using CallInfo_ind'.
  cbn [try_get_funtion_invocation_from_call_info invocation_of].
  apply matches_lift. intros messages. apply matches_lift. intros events. apply matches_try.
  - induction IH as [|c inner Hc _ IHl]; [apply matches_ret|].
    apply matches_try; [exact Hc|]. intros i. apply matches_try; [exact IHl|]. intros rest. apply matches_ret.
  - intros inner_calls. apply matches_try; [apply matches_ret|]. intros _.
    apply matches_try; [apply matches_class_hash|]. intros class_hash. apply matches_lift. intros data. apply matches_ret.
Qed.

Lemma matches_optional ci : matches (optional_invocation storage_override h ci) (optional_of ci).
Proof.
  destruct ci as [ci|]; [|apply matches_ret]. apply matches_try; [apply matches_map_err, matches_invocation|]. intros i. apply matches_ret.
Qed.
Lemma matches_executed info : matches (executed_invocation storage_override h info) (executed_of info).
Proof. apply matches_lift. intros ci. apply matches_map_err, matches_invocation. Qed.

Lemma tx_trace_reference (tx_type : TxType) (info : TransactionExecutionInfo) :
  tx_execution_infos_to_tx_trace storage_override h tx_type info = trace_of tx_type info.
Proof.
  assert (Hm : matches (tx_trace_with_cache storage_override h tx_type info) (trace_of tx_type info)).
  { apply matches_try; [apply matches_optional|]. intros v. apply matches_try; [apply matches_optional|]. intros f.
    destruct tx_type; [destruct (tei_revert_error info)|..]; try apply matches_ret;
      (apply matches_try; [apply matches_executed|]; intros i; apply matches_ret). }
  unfold tx_execution_infos_to_tx_trace. specialize (Hm ∅). destruct (trace_of tx_type info) as [r|].
  - destruct Hm as (cache & -> & _); [|done]. intros a hash. by rewrite lookup_empty.
  - rewrite Hm; [done|]. intros a hash. by rewrite lookup_empty.
Qed.

(** C21: the cache of class hashes is invisible.  The trace of a transaction, or the error
    or panic instead of it, is the one obtained by asking the storage for the class hash
    of every call that does not name one. *)
Theorem trace_cache_transparent (tx_type : TxType) (info : TransactionExecutionInfo) :
  tx_execution_infos_to_tx_trace storage_override h tx_type info = trace_of tx_type info.
Proof. apply tx_trace_reference. Qed.

(** ** Kinds *)
Definition trace_type (t : TransactionTrace) : TxType :=
  match t with
  | TraceInvoke _ _ _ => TxInvoke | TraceDeclare _ _ => TxDeclare | TraceDeployAccount _ _ _ => TxDeployAccount
  | TraceL1Handler _ => TxL1Handler
  end.

Lemma rbind_ok {E A B} (m : outcome (result E A)) (f : A -> outcome (result E B)) b :
  rbind m f = Ret (Ok b) -> exists a, m = Ret (Ok a) /\ f a = Ret (Ok b).
Proof. unfold rbind. destruct m as [[a|e]|]; cbn; [eauto|done|done]. Qed.

Lemma trace_of_type tx_type info t : trace_of tx_type info = Ret (Ok t) -> trace_type t = tx_type.
Proof.
  intros (v & _ & (f & _ & Ht)%rbind_ok)%rbind_ok. destruct tx_type; [destruct (tei_revert_error info)|..];
    try (injection Ht as <-; reflexivity); by apply rbind_ok in Ht as (i & _ & [= <-]).
Qed.

Lemma simulated_typed types results sims :
  tx_execution_infos_to_simulated_transactions storage_override h types results = Ret (Ok sims) ->
  length types = length results ->
  exists infos, results = map Ok infos /\ map (fun s => trace_type (sim_trace s)) sims = types
    /\ map sim_fee sims = map simulated_fee infos
    /\ Forall2 (fun x s => trace_of (fst x) (snd x) = Ret (Ok (sim_trace s))) (zip types infos) sims.
Proof.
  revert results sims. induction types as [|ty types IH]; intros [|[info|] results] sims Hs Hl; try done.
  { injection Hs as <-. by exists []. }
  cbn [tx_execution_infos_to_simulated_transactions] in Hs. rewrite tx_trace_reference in Hs.
  destruct (trace_of ty info) as [[t|]|] eqn:Et; [|done..]. cbn [outcome_bind] in Hs.
  destruct (tx_execution_infos_to_simulated_transactions _ _ types results) as [[sims'|]|] eqn:Er; [|done..].
  injection Hs as <-. destruct (IH results sims' Er) as (infos & -> & H1 & H2 & H3); [by injection Hl|].
  exists (info :: infos). split_and!; [done|cbn; by rewrite (trace_of_type _ _ _ Et), H1|cbn; by rewrite H2|]. by constructor.
Qed.


End cache.

(** ** The traces of a block *)
Section block.
  Context `{SF : StarknetFf} `{SA : StarknetApi} `{PT : PrimitiveTypes} `{SC : StarknetCrypto} {HH : HasherT}.
  Context `{LC : LogCodec} `{CT : ClassTools} {SHa : SierraHash} {CP : CallInfoPayloads}.
  Context {BHash : Type} `{EqDecision BHash} {SU : Substrate BHash} {RC : RpcClient BHash} {TR : TraceRuntime BHash}.
  Context {SHs : Scale (list BHash)} {SFe : Scale StarkFelt} {SFs : Scale (list StarkFelt)} {SCh : Scale ClassHash} {SAc : Scale ApiContractClass}.
  Context {ST : StorageProvider BHash} {SV : Scale StarknetStorageSchemaVersion} (overrides : OverrideHandle BHash).

(** The runtime reports one execution per transaction. *)
Record one_each : Prop := {
  one_simulated : forall h txs flags results,
    rt_simulate_transactions h txs flags = Ok (Ok results) -> length results = length txs;
  one_executed : forall h ts infos, rt_re_execute_transactions h ts = Ok (Ok (Ok infos)) -> length infos = length ts;
}.

Definition trace_at (h : BHash) := trace_of (for_block_hash overrides h) h.

Lemma etry_ok {S E A B} (m : effr S E A) (f : A -> effr S E B) s b s' :
  etry m f s = Ret (Ok b, s') -> exists a s1, m s = Ret (Ok a, s1) /\ f a s1 = Ret (Ok b, s').
Proof. unfold etry, ebind. destruct (m s) as [[[a|e] s1]|]; [eauto|done|done]. Qed.

Lemma emap_err_ok {S E F A} (g : E -> F) (m : effr S E A) s a s' : emap_err g m s = Ret (Ok a, s') -> m s = Ret (Ok a, s').
Proof. unfold emap_err, ebind, eret. destruct (m s) as [[[x|e] s1]|]; cbn; congruence. Qed.

Lemma api_result_ok {S E A} e (r : result E A) (s : S) a s' : api_result e r s = Ret (Ok a, s') -> r = Ok a /\ s' = s.
Proof. unfold api_result, eret. destruct r; cbn; intros; simplify_eq; done. Qed.

Lemma chain_id_ok db c db' : chain_id db = Ret (Ok c, db') -> exists f, runtime_chain_id best_hash = Ok f /\ c = felt0 f.
Proof. unfold chain_id. intros (f & db1 & [Hf _]%api_result_ok & [= <- _])%etry_ok. eauto. Qed.

Lemma lift_trace_ok {A} (m : outcome (result ConvertCallInfoToExecuteInvocationError A)) db a db' :
  lift_trace m db = Ret (Ok a, db') -> m = Ret (Ok a).
Proof. unfold lift_trace, ebind, elift, eret. destruct m as [[x|e]|]; cbn; congruence. Qed.

Lemma typed_user_type tx ty u : typed_user_tx tx = Ret (Ok (ty, u)) -> ty = TxType_from_user u.
Proof.
  destruct tx as [t|t|t]; cbn [typed_user_tx]; intros (x & Hx & [= <- <-])%conv_bind_ok.
  - injection Hx as Hx. by destruct (invoke_converts _ _ Hx) as [? ->].
  - by destruct (declare_converts _ _ Hx) as (? & ? & ->).
  - injection Hx as Hx. by destruct (deploy_converts _ _ Hx) as [? ->].
Qed.

Lemma typed_user_types txs types users : typed_user_txs txs = Ret (Ok (types, users)) -> types = map TxType_from_user users.
Proof.
  revert types users. induction txs as [|tx txs IH]; intros types users; cbn [typed_user_txs]; [by intros [= <- <-]|].
  intros ([ty u] & Hx & ([types' users'] & Hr & [= <- <-])%conv_bind_ok)%conv_bind_ok. cbn.
  by rewrite (typed_user_type _ _ _ Hx), (IH _ _ Hr).
Qed.

Lemma executable_tx h tx db t db' : executable_again overrides h tx db = Ret (Ok t, db') -> tx_of t = tx.
Proof.
  destruct tx as [tx|tx|tx|tx]; cbn [executable_again].
  - by intros (cls & db1 & _ & [= <- _])%etry_ok.
  - by intros [= <- _].
  - by intros [= <- _].
  - by intros (c & db1 & _ & (fee & db2 & _ & [= <- _])%etry_ok)%etry_ok.
Qed.

Lemma executables_txs h txs db ts db' : etraverse (executable_again overrides h) txs db = Ret (Ok ts, db') -> map tx_of ts = txs.
Proof.
  revert db ts db'. induction txs as [|tx txs IH]; intros db ts db'; cbn [etraverse].
  - by intros [= <- _].
  - intros (t & db1 & Ht & (ts' & db2 & Hts & [= <- _])%etry_ok)%etry_ok. cbn. by rewrite (executable_tx _ _ _ _ _ Ht), (IH _ _ _ Hts).
Qed.

Lemma hash_of_executable t c : user_or_l1_compute_hash t c false = tx_compute_hash (tx_of t) c false.
Proof. by destruct t as [[]|]. Qed.

Lemma block_traces_typed h c txs infos traces :
  block_traces overrides h c txs infos = Ret (Ok traces) -> length infos = length txs ->
  map tth_hash traces = map (fun t => felt0 (tx_compute_hash (tx_of t) c false)) txs
  /\ map (fun t => trace_type (tth_trace t)) traces = map TxType_from_user_or_l1 txs
  /\ Forall2 (fun x t => trace_at h (TxType_from_user_or_l1 (fst x)) (snd x) = Ret (Ok (tth_trace t))) (zip txs infos) traces.
Proof.
  revert txs traces. induction infos as [|info infos IH]; intros [|t txs] traces Hs Hl; try done.
  { by injection Hs as <-. }
  cbn [block_traces] in Hs. rewrite tx_trace_reference in Hs. fold (trace_at h) in Hs.
  destruct (trace_at h _ info) as [[tr|]|] eqn:Et; [|done..]. cbn [outcome_bind] in Hs.
  destruct (block_traces overrides h c txs infos) as [[traces'|]|] eqn:Er; [|done..]. injection Hs as <-.
  destruct (IH txs traces' Er) as (H1 & H2 & H3); [by injection Hl|]. cbn.
  rewrite H1, H2, (trace_of_type _ _ _ _ _ Et), hash_of_executable. split_and!; [done..|]. by constructor.
Qed.

(** C20: traces have the types and the hashes of their transactions.  The traces of the
    block that the block id stands for are those of its transactions, in order: each has
    the hash and the kind of its transaction and is computed from the execution that the
    runtime reports at the preceding block number.  A simulation runs at the block that
    the block id stands for, and answers with one trace for each request, of the kind of
    the request, or with no trace at all. *)
Theorem traces_well_typed block_id db :
  one_each ->
  (forall traces db', trace_block_transactions overrides block_id db = Ret (Ok traces, db') ->
     exists h b c ts infos parent,
       substrate_block_hash_from_starknet_block block_id db = Ret (Ok h, db)
       /\ get_block_by_block_hash h = Ok b /\ runtime_chain_id best_hash = Ok c /\ map tx_of ts = b_transactions b
       /\ substrate_block_hash_from_starknet_block (BINumber (wsub 64 (h_block_number (b_header b)) 1)) db = Ret (Ok parent, db)
       /\ rt_re_execute_transactions parent ts = Ok (Ok (Ok infos))
       /\ map tth_hash traces = map (fun x => felt0 (tx_compute_hash x c false)) (b_transactions b)
       /\ map (fun t => trace_type (tth_trace t)) traces = map TxType_from_user_or_l1 ts
       /\ Forall2 (fun x t => trace_at h (TxType_from_user_or_l1 (fst x)) (snd x) = Ret (Ok (tth_trace t))) (zip ts infos) traces)
  /\ (forall txs flags sims db', simulate_transactions overrides block_id txs flags db = Ret (Ok sims, db') ->
     exists h types users infos,
       substrate_block_hash_from_starknet_block block_id db = Ret (Ok h, db)
       /\ typed_user_txs txs = Ret (Ok (types, users)) /\ types = map TxType_from_user users
       /\ rt_simulate_transactions h users (SimulationFlags_from flags) = Ok (Ok (map Ok infos))
       /\ map (fun s => trace_type (sim_trace s)) sims = types
       /\ Forall2 (fun x s => trace_at h (fst x) (snd x) = Ret (Ok (sim_trace s))) (zip types infos) sims).
Proof.
  intros [O1 O2]. split.
  - intros traces db'. unfold trace_block_transactions.
    intros (h & Hh%emap_err_ok & (b & [Hb _]%api_result_ok & (ts & Hts%executables_txs & (parent & Hp & Hrest)%etry_reads)%etry_reads)%etry_reads)%etry_reads; [|apply _..].
    apply etry_reads in Hrest as (r1 & [Hr1 _]%api_result_ok & (r2 & [-> _]%api_result_ok & (infos & [-> _]%api_result_ok
      & (f & (c & Hc & ->)%chain_id_ok & Ht%lift_trace_ok)%etry_reads)%etry_reads)%etry_reads); [|apply _..].
    unfold previous_block_hash in Hp. apply etry_reads in Hp as (b' & [Hb' _]%api_result_ok & Hp%emap_err_ok); [|apply _].
    assert (b' = b) as -> by congruence. replace (mk_felt (felt0 c)) with c in Ht by by destruct c.
    destruct (block_traces_typed _ _ _ _ _ Ht (O2 _ _ _ Hr1)) as (H1 & H2 & H3).
    exists h, b, c, ts, infos, parent. rewrite <- Hts, map_map. split_and!; done.
  - intros txs flags sims db'. unfold simulate_transactions.
    intros (h & Hh%emap_err_ok & (c & _ & (typed & Hty & Hrest)%etry_reads)%etry_reads)%etry_reads; [|apply _..]. destruct typed as [types users].
    apply etry_reads in Hrest as (r1 & [Hr1 _]%api_result_ok & (results & [-> _]%api_result_ok & Ht%lift_trace_ok)%etry_reads); [|apply _..].
    assert (Hu : typed_user_txs txs = Ret (Ok (types, users))).
    { revert Hty. unfold lift_conversion, ebind, elift. destruct (typed_user_txs txs) as [r|]; [|done]. by intros [-> _]%api_result_ok. }
    pose proof (typed_user_types _ _ _ Hu) as Htypes.
    destruct (simulated_typed _ _ _ _ _ Ht) as (infos & -> & H1 & _ & H3); [by rewrite (O1 _ _ _ _ Hr1), Htypes, length_map|].
    exists h, types, users, infos. split_and!; done.
Qed.

End block.

(** The messages of every call are numbered from zero, whatever the order in which the
    transaction sent them. *)
Theorem trace_messages_numbered `{StarknetFf} (call_info : CallInfo) ms :
  collect_call_info_ordered_messages call_info = Ret ms -> map tm_order ms = map Z.of_nat (seq 0 (length ms)).
Proof.
  unfold collect_call_info_ordered_messages. generalize (cx_l2_to_l1_messages (ci_execution call_info)) 0%nat. intros msgs. revert ms.
  induction msgs as [|m msgs IH]; intros ms n; cbn [length seq zip zip_with traverse]; [by intros [= <-]|].
  destruct (ordered_message _ (n, m)) as [x|] eqn:Ex; [|done]. cbn [outcome_bind].
  destruct (traverse _ _) as [xs|] eqn:Exs; [|done]. intros [= <-]. cbn. rewrite (IH _ _ Exs). f_equal.
  revert Ex. unfold ordered_message, outcome_bind. repeat case_match; try done. by intros [= <-].
Qed.

(** ** Witnesses *)
Module TraceWitness.
Export RpcWitness.

#[export] Instance w_payloads : CallInfoPayloads := {| sorted_payloads_length _ := Ok [] |}.

(** Every transaction is one call of the contract of [w_pallet]. *)
Definition w_call : CallInfo :=
  mk_ci (mk_cep None None EPL1Handler (mk_new stark_default) [] (address 7) (address 0) CTCall 0) (mk_cx [] [] [] false 0) [].
Definition w_info : TransactionExecutionInfo := mk_tei None (Some w_call) None 0 ∅ None.
#[export] Instance w_trace_runtime : TraceRuntime Z := {|
  rt_simulate_transactions _ txs _ := Ok (Ok (map (fun _ => Ok w_info) txs));
  rt_re_execute_transactions _ ts := Ok (Ok (Ok (map (fun _ => w_info) ts)));
|}.

Lemma w_one_each : one_each.
Proof. constructor; cbn; intros; simplify_eq; by rewrite length_map. Qed.

Definition w_fee_db : Database :=
  {[(L1_HANDLER_PAID_FEE, enc (to_stark (l1_handler_compute_hash w_l1 (felt_of_Z 5) false))) := rev (be_bytes 16 5)]}.
Abbreviation w_traces := (trace_block_transactions (SU := w_client) (ST := pallet_storage w_pallet) w_handle (BITag Latest) w_fee_db).

End TraceWitness.
Import TraceWitness.

Lemma traces_well_typed_witness :
  exists traces db b c, w_traces = Ret (Ok traces, db)
    /\ map tth_hash traces = map (fun x => felt0 (tx_compute_hash x c false)) (b_transactions b).
Proof.
  assert (Hok : match w_traces with Ret (Ok _, _) => true | _ => false end = true) by (vm_compute; reflexivity).
  destruct w_traces as [[[traces|] db]|] eqn:E; [|discriminate Hok..].
  destruct (traces_well_typed (SU := w_client) (ST := pallet_storage w_pallet) w_handle (BITag Latest) w_fee_db w_one_each) as [H _].
  destruct (H traces db E) as (h & b & c & ts & infos & parent & _ & _ & _ & _ & _ & _ & Hh & _).
  exists traces, db, b, c. split; [reflexivity|exact Hh].
Defined.
