(* ===== verification/DataAvailability.v ===== *)
(** * Data availability

    Models [crates/client/data-availability/src]: the encoding of a state diff as
    calldata ([utils.rs]), and the worker that proves, stores and publishes the
    diff of every block ([lib.rs], [sharp/mod.rs]).  The tasks of the blocks run
    concurrently, so the worker is a step relation on their stages. *)
From Stdlib Require Import Ascii.
From S2P Require Import Prelude Bytes Deps Felt Hashers Transactions Blockifier Block PalletStorage Db MappingSync.
From S2P Require Import Settlement Events StateDiff.
Local Open Scope Z_scope.

(** ** Calldata *)

(** [ethers::types::U256]: addition panics on overflow, and
    [from_str_radix(_, 16)] reads hexadecimal digits after an optional [0x]. *)
Class EthersU256 := {
  u256_add : U256 -> U256 -> outcome U256;
  u256_from_str_radix : string -> Z -> option U256;
}.

Fixpoint hex_value (acc : Z) (l : list ascii) : option Z :=
  match l with
  | [] => Some acc
  | c :: l' => match digit_value c with Some d => hex_value (acc * 16 + d) l' | None => None end
  end.

Class EthersU256Laws `{EU : EthersU256} : Prop := {
  u256_add_ret : forall a b c, u256_add a b = Ret c <-> bval c = bval a + bval b;
  u256_from_hex : forall digits n, hex_value 0 (String.list_ascii_of_string digits) = Some n ->
    digits <> ""%string -> 0 <= n < 2 ^ 256 -> exists u, u256_from_str_radix ("0x" ++ digits) 16 = Some u /\ bval u = n;
}.

Definition CLASS_FLAG_TRUE : string := "0x100000000000000000000000000000001".
Definition NONCE_BASE : string := "0xFFFFFFFFFFFFFFFF".

Section encoding.
  Context `{PT : PrimitiveTypes} `{EU : EthersU256} `{IM : IndexMap}.

(** [U256::from_big_endian] of the bytes of a felt; [U256::from] of an unsigned
    machine integer. *)
Definition u256_of_felt (s : StarkFelt) : U256 := u256_from_big_endian (stark_bytes s).

Definition da_word (class_flag : bool) (nonce_change : option Nonce) (num_changes : Z) : outcome U256 :=
  let word := u256_from_u128 0 in
  let! word :=
    if class_flag
    then let! flag := unwrap_opt (u256_from_str_radix CLASS_FLAG_TRUE 16) in u256_add word flag
    else Ret word in
  let! word :=
    match nonce_change with
    | Some new_nonce =>
        let! base := unwrap_opt (u256_from_str_radix NONCE_BASE 16) in
        let! n := u256_add (u256_of_felt (new0 new_nonce)) base in
        u256_add word n
    | None => Ret word
    end in
  u256_add word (u256_from_u128 num_changes).

(** The class of an address in the diff. *)
Definition class_flag_of (d : ThinStateDiff) (addr : ContractAddress) : option ClassHash :=
  match im_get addr (deployed_contracts d) with
  | Some class_hash => Some class_hash
  | None => im_get addr (replaced_classes d)
  end.

Definition class_felts (class_flag : option ClassHash) : list U256 :=
  match class_flag with Some class_hash => [u256_of_felt (new0 class_hash)] | None => [] end.

(** The part of one address in the loop over the storage diffs. *)
Definition storage_segment (d : ThinStateDiff) (nonce : option Nonce) (addr : ContractAddress)
    (writes : list (StorageKey * StarkFelt)) : outcome (list U256) :=
  let class_flag := class_flag_of d addr in
  let! word := da_word (bool_decide (is_Some class_flag)) nonce (zlen writes) in
  Ret (u256_of_felt (new0 addr) :: word :: class_felts class_flag
       ++ concat (map (fun kv : StorageKey * StarkFelt => [u256_of_felt (new0 (fst kv)); u256_of_felt (snd kv)]) writes)).

(** The loop takes the nonce of each address out of the map. *)
Fixpoint storage_segments (d : ThinStateDiff) (diffs : list (ContractAddress * list (StorageKey * StarkFelt)))
    (nonces : list (ContractAddress * Nonce)) : outcome (list (list U256) * list (ContractAddress * Nonce)) :=
  match diffs with
  | [] => Ret ([], nonces)
  | (addr, writes) :: diffs' =>
      let! seg := storage_segment d (im_get addr nonces) addr writes in
      let! r := storage_segments d diffs' (im_remove addr nonces) in
      Ret (seg :: fst r, snd r)
  end.

Definition nonce_segment (d : ThinStateDiff) (e : ContractAddress * Nonce) : outcome (list U256) :=
  let class_flag := class_flag_of d (fst e) in
  let! word := da_word (bool_decide (is_Some class_flag)) (Some (snd e)) 0 in
  Ret (u256_of_felt (new0 (fst e)) :: word :: class_felts class_flag).

Definition deployed_segment (e : ContractAddress * ClassHash) : outcome (list U256) :=
  let! word := da_word true None 0 in
  Ret [u256_of_felt (new0 (fst e)); word; u256_of_felt (new0 (snd e))].

Definition block_data_to_calldata (b : BlockDAData) : outcome (list U256) :=
  let d := da_state_diff b in
  let header :=
    [u256_of_felt (da_previous_state_root b); u256_of_felt (da_new_state_root b); u256_from_u128 (da_block_number b);
     u256_of_felt (new0 (da_block_hash b)); u256_of_felt (da_config_hash b); u256_from_u128 (da_num_addr_accessed b)] in
  let! r := storage_segments d (storage_diffs d) (sd_nonces d) in
  let! nonces := traverse (nonce_segment d) (snd r) in
  let! deployed := traverse deployed_segment (deployed_contracts d) in
  Ret (header ++ concat (fst r) ++ concat nonces ++ concat deployed
       ++ u256_from_u128 (zlen (declared_classes d))
       :: concat (map (fun e : ClassHash * CompiledClassHash => [u256_of_felt (new0 (fst e)); u256_of_felt (new0 (snd e))])
                    (declared_classes d))).

Definition get_bytes_from_state_diff (state_diff : list U256) : list byte :=
  concat (map (fun item => arr (u256_to_big_endian item)) state_diff).

End encoding.

(** ** Byte helpers *)

(** The slice [l] copied to the front, or to the back, of a zeroed buffer. *)
Definition zeros (n : nat) : list byte := replicate n Byte.x00.

Definition safe_split (key : list byte) : list byte * option (list byte) :=
  let length := zlen key in
  if (16 <? length) && (length <=? 32) then (drop 16 key ++ zeros (32 - List.length key), None)
  else if 32 <? length then (take 16 (drop 16 key), Some (drop 32 key))
  else (zeros 16, None).

Definition bytes_to_felt `{StarknetApi} (raw : list byte) : outcome StarkFelt :=
  let buf := if zlen raw <? 32 then zeros (32 - length raw) ++ raw else take 32 raw in
  match array_of_slice 32 buf with
  | Some a => unwrap_opt (stark_new a)
  | None => Panic
  end.

Definition bytes_to_key `{StarknetApi} (raw : list byte) : outcome (newtype PatriciaKeyT) :=
  let! f := bytes_to_felt raw in Ret (mk_new f).

(** A short byte string is read as a big-endian number, of a long one the first 32
    bytes count. *)
Lemma bytes_to_felt_val `{SA : StarknetApi} {SAL : StarknetApiLaws} raw f :
  bytes_to_felt raw = Ret f -> stark_val f = be_val (take 32 raw).
Proof.
  unfold bytes_to_felt. destruct (array_of_slice 32 _) as [a|] eqn:E; [|done]. apply array_of_slice_spec in E.
  destruct (stark_new a) as [f'|] eqn:Hf; [|done]. intros [= <-]. unfold stark_val.
  rewrite (stark_new_bytes _ _ Hf), E. destruct (zlen raw <? 32) eqn:Hl; [|done]. zbool. unfold zlen in Hl.
  rewrite take_ge by lia. apply be_val_zeros.
Qed.

Lemma bytes_to_felt_accepts `{SA : StarknetApi} {SAL : StarknetApiLaws} raw :
  be_val (take 32 raw) < P -> exists f, bytes_to_felt raw = Ret f.
Proof.
  intros Hv. unfold bytes_to_felt. destruct (array_of_slice 32 _) as [a|] eqn:E.
  - apply array_of_slice_spec in E. destruct (stark_new_accepts a) as [f ->]; [|by exists f]. rewrite E.
    destruct (zlen raw <? 32) eqn:Hl; [|done]. zbool. unfold zlen in Hl. unfold zeros.
    rewrite be_val_zeros. rewrite take_ge in Hv by lia. done.
  - apply array_of_slice_none in E. destruct E. destruct (zlen raw <? 32) eqn:Hl; zbool; unfold zlen in Hl.
    + unfold zeros. rewrite length_app, length_replicate. lia.
    + rewrite length_take. lia.
Qed.

Lemma safe_split_length key : length (fst (safe_split key)) = 16%nat.
Proof.
  unfold safe_split, zeros, zlen. destruct (_ && _) eqn:E; [zbool; cbn; rewrite length_app, length_drop, length_replicate; lia|].
  destruct (32 <? _) eqn:E2; zbool; cbn; [rewrite length_take, length_drop; lia|done].
Qed.

(** The bytes given to the layer determine the calldata. *)
Lemma get_bytes_inj `{PT : PrimitiveTypes} {PTL : PrimitiveTypesLaws} l l' :
  get_bytes_from_state_diff l = get_bytes_from_state_diff l' -> l = l'.
Proof.
  revert l'. unfold get_bytes_from_state_diff. induction l as [|x l IH]; intros [|y l'] H; cbn in H; [done|..].
  - apply (f_equal length) in H. rewrite length_app, arr_length in H. done.
  - apply (f_equal length) in H. rewrite length_app, arr_length in H. done.
  - apply app_inj_1 in H as [Hx Hl]; [|by rewrite !arr_length]. f_equal; [|by apply IH].
    apply bounded_eq. by rewrite <- !u256_to_big_endian_val, Hx.
Qed.

(** ** The word *)

(** The value of the word, and the layout its documentation gives: one bit for the
    class, 64 bits for the nonce, 64 bits for the number of changes. *)
Definition word_value (class_flag : bool) (nonce : option Nonce) (num_changes : Z) : Z :=
  (if class_flag then 2 ^ 128 + 1 else 0)
  + match nonce with Some n => stark_val (new0 n) + (2 ^ 64 - 1) | None => 0 end + num_changes.
Definition documented_word (class_flag : bool) (nonce : option Nonce) (num_changes : Z) : Z :=
  (if class_flag then 2 ^ 128 else 0)
  + match nonce with Some n => stark_val (new0 n) * 2 ^ 64 | None => 0 end + num_changes.

Definition canonical_nonce (n : Nonce) : Prop := stark_val (new0 n) < P.

Section word.
  Context `{PT : PrimitiveTypes} {PTL : PrimitiveTypesLaws} `{EU : EthersU256} {EUL : EthersU256Laws}.

Lemma u256_of_felt_val s : bval (u256_of_felt s) = stark_val s.
Proof. apply u256_from_big_endian_val. Qed.

Lemma u256_of_felt_inj s t : u256_of_felt s = u256_of_felt t -> s = t.
Proof. intros H. apply stark_val_inj. by rewrite <- !u256_of_felt_val, H. Qed.

Lemma add_small a b : bval a + bval b < 2 ^ 256 -> exists c, u256_add a b = Ret c /\ bval c = bval a + bval b.
Proof.
  intros H. pose proof (bounded_range _ a). pose proof (bounded_range _ b).
  destruct (bounded_of (2 ^ 256) (bval a + bval b)) as [c|] eqn:E;
    [apply bounded_of_spec in E|apply bounded_of_none in E; lia].
  exists c. by rewrite u256_add_ret.
Qed.

Lemma class_flag_value : exists u, u256_from_str_radix CLASS_FLAG_TRUE 16 = Some u /\ bval u = 2 ^ 128 + 1.
Proof. apply (u256_from_hex "100000000000000000000000000000001"); [reflexivity|done|lia]. Qed.

Lemma nonce_base_value : exists u, u256_from_str_radix NONCE_BASE 16 = Some u /\ bval u = 2 ^ 64 - 1.
Proof. apply (u256_from_hex "FFFFFFFFFFFFFFFF"); [reflexivity|done|lia]. Qed.

Lemma da_word_value class_flag nonce num_changes :
  0 <= num_changes < 2 ^ 64 -> (forall n, nonce = Some n -> canonical_nonce n) ->
  exists u, da_word class_flag nonce num_changes = Ret u /\ bval u = word_value class_flag nonce num_changes.
Proof.
  intros Hc Hn. assert (H0 : bval (u256_from_u128 0) = 0) by (apply u256_from_u128_val; lia).
  assert (Hc' : bval (u256_from_u128 num_changes) = num_changes) by (apply u256_from_u128_val; lia).
  assert (HP : P < 2 ^ 252) by reflexivity.
  assert (Hf : exists w, (if class_flag
      then let! flag := unwrap_opt (u256_from_str_radix CLASS_FLAG_TRUE 16) in u256_add (u256_from_u128 0) flag
      else Ret (u256_from_u128 0)) = Ret w /\ bval w = if class_flag then 2 ^ 128 + 1 else 0).
  { destruct class_flag; [|by eexists]. destruct class_flag_value as (f & -> & Hf). cbn.
    destruct (add_small (u256_from_u128 0) f) as (w & -> & Hw); [lia|]. exists w. split; [done|lia]. }
  destruct Hf as (w & Hw & Hwv). unfold da_word, word_value. rewrite Hw. cbn [outcome_bind].
  assert (Hwb : bval w < 2 ^ 129) by (rewrite Hwv; destruct class_flag; lia).
  destruct nonce as [n|].
  - specialize (Hn n eq_refl). unfold canonical_nonce in Hn. destruct nonce_base_value as (base & -> & Hb). cbn.
    destruct (add_small (u256_of_felt (new0 n)) base) as (x & -> & Hx); rewrite u256_of_felt_val in *; [lia|]. cbn.
    destruct (add_small w x) as (y & -> & Hy); [lia|]. cbn.
    destruct (add_small y (u256_from_u128 num_changes)) as (z & -> & Hz); [lia|]. exists z. split; [done|lia].
  - cbn. destruct (add_small w (u256_from_u128 num_changes)) as (z & -> & Hz); [lia|]. exists z. split; [done|lia].
Qed.

(** The data availability word against its documentation.  On a canonical nonce
    the word is computed without panic; it has the documented layout only for a
    contract whose class did not change and whose nonce did not change or became
    one.  In particular the word is ambiguous: a nonce of two without changes reads
    as a nonce of one with one change. *)
Theorem da_word_layout class_flag nonce num_changes :
  0 <= num_changes < 2 ^ 64 -> (forall n, nonce = Some n -> canonical_nonce n) ->
  exists u, da_word class_flag nonce num_changes = Ret u
    /\ bval u = word_value class_flag nonce num_changes
    /\ (bval u = documented_word class_flag nonce num_changes
        <-> class_flag = false /\ forall n, nonce = Some n -> stark_val (new0 n) = 1)
    /\ (forall n n', stark_val (new0 n) = 2 -> stark_val (new0 n') = 1 ->
          da_word class_flag (Some n) 0 = da_word class_flag (Some n') 1).
Proof.
  intros Hc Hn. destruct (da_word_value class_flag nonce num_changes Hc Hn) as (u & Hu & Hv).
  exists u. split_and!; [done|done| |].
  - rewrite Hv. unfold word_value, documented_word.
    assert (Hp : match nonce with Some n => 0 <= stark_val (new0 n) | None => True end)
      by (destruct nonce; [apply be_val_nonneg|done]).
    split.
    + intros Heq. destruct class_flag, nonce as [n|]; try nia; (split; [done|]); intros n' [= <-]. nia.
    + intros [-> Hx]. destruct nonce as [n|]; [rewrite (Hx n eq_refl)|]; lia.
  - intros n n' H2 H1. assert (H12 : 2 < P) by reflexivity.
    destruct (da_word_value class_flag (Some n) 0) as (x & -> & Hx); [lia|intros ? [= <-]; unfold canonical_nonce; lia|].
    destruct (da_word_value class_flag (Some n') 1) as (y & -> & Hy); [lia|intros ? [= <-]; unfold canonical_nonce; lia|].
    f_equal. apply bounded_eq. rewrite Hx, Hy. unfold word_value. lia.
Qed.

End word.

(** ** The calldata of a diff *)
Section calldata.
  Context `{PT : PrimitiveTypes} {PTL : PrimitiveTypesLaws} `{EU : EthersU256} {EUL : EthersU256Laws}.
  Context `{IM : IndexMap} {IML : IndexMapLaws}.












End calldata.

(** ** From the changes of a block to its calldata *)
Section published.
  Context `{SF : StarknetFf} `{SA : StarknetApi} `{PT : PrimitiveTypes} {PTL : PrimitiveTypesLaws} `{SC : StarknetCrypto} {HH : HasherT}.
  Context `{CC : ContractClassI} `{LC : LogCodec} `{TW : Twox} {TWL : TwoxLaws} `{EU : EthersU256} {EUL : EthersU256Laws}.
  Context `{IM : IndexMap} {IML : IndexMapLaws} {BHash : Type}.






End published.

(** ** The worker *)
Inductive DaMode := Validity | Volition | Sovereign.

Definition da_mode_default : DaMode := Sovereign.

(** The errors are printed, only their source matters. *)
Inductive DaTaskError := TaskDatabase (e : DbError) | TaskClient.

(** The client of the data availability layer, on the state of that layer. *)
Class DaClient (DaState : Type) := {
  get_mode : DaMode;
  last_published_state : effr DaState unit Z;
  publish_state_diff : list U256 -> effr DaState unit unit;
}.

(** The tasks of several blocks take turns between the accesses to the database
    and to the layer. *)
Inductive Stage := Proving | Storing | Querying | Publishing | Finished.

#[export] Instance Stage_eq_dec : EqDecision Stage.
Proof. solve_decision. Defined.

Record Task := mk_task { task_data : BlockDAData; task_stage : Stage }.

(** ** The prover service, [sharp/mod.rs] *)
Inductive CairoJobStatus := StatusUnknown | NotCreated | InProgress | Processed | Onchain | Invalid | Failed.

Definition status_as_str (status : CairoJobStatus) : string :=
  match status with
  | StatusUnknown => "UNKNOWN" | NotCreated => "NOT_CREATED" | InProgress => "IN_PROGRESS" | Processed => "PROCESSED"
  | Onchain => "ONCHAIN" | Invalid => "INVALID" | Failed => "FAILED"
  end.

Record CairoJobResponse := mk_job_response { cairo_job_key : array 16; job_version : Z }.

(** Nothing is sent: the answer is a new identifier, whatever was submitted. *)
Definition submit_pie (new_v4 : array 16) (pie : string) : result unit CairoJobResponse := Ok (mk_job_response new_v4 1).

Section da_worker.
  Context `{PT : PrimitiveTypes} `{EU : EthersU256} `{IM : IndexMap}.
  Context `{CM : Commit} {SD : Scale ThinStateDiff} {DaState : Type} {DC : DaClient DaState}.

(** [new_v4] is the identifier drawn for the job. *)
Definition prove (da_mode : DaMode) (block_hash : BlockHash) (new_v4 : array 16)
  : effr (DaState * Database) DaTaskError unit :=
  match da_mode with
  | Validity =>
      match submit_pie new_v4 "TODO" with
      | Ok job_resp => emap_err TaskDatabase (on_snd (update_cairo_job block_hash (cairo_job_key job_resp)))
      | Err _ => eret (Ok tt)
      end
  | _ => eret (Ok tt)
  end.

(** The three parts of [update_state]. *)
Definition store_diff (b : BlockDAData) : effr (DaState * Database) DaTaskError unit :=
  emap_err TaskDatabase (on_snd (store_state_diff (da_block_hash b) (da_state_diff b))).

Definition query_last_published : effr (DaState * Database) DaTaskError unit :=
  _ <-? emap_err (fun _ => TaskClient) (on_fst last_published_state);; eret (Ok tt).

Definition publish (b : BlockDAData) : effr (DaState * Database) DaTaskError unit :=
  match get_mode with
  | Validity | Volition => eret (Ok tt)
  | Sovereign =>
      calldata <-- elift (block_data_to_calldata b);;
      emap_err (fun _ => TaskClient) (on_fst (publish_state_diff calldata))
  end.

Definition update_state (b : BlockDAData) : effr (DaState * Database) DaTaskError unit :=
  store_diff b ;;? query_last_published ;;? publish b.

(** The task spawned for a block, run without interruption; errors are logged. *)
Definition block_task (new_v4 : array 16) (b : BlockDAData) : eff (DaState * Database) unit :=
  prove get_mode (da_block_hash b) new_v4 ;;; update_state b ;;; eret tt.

Definition stage_step (new_v4 : array 16) (t : Task) : eff (DaState * Database) Stage :=
  match task_stage t with
  | Proving => prove get_mode (da_block_hash (task_data t)) new_v4 ;;; eret Storing
  | Storing => r <-- store_diff (task_data t);; eret (if is_ok r then Querying else Finished)
  | Querying => r <-- query_last_published;; eret (if is_ok r then Publishing else Finished)
  | Publishing => publish (task_data t) ;;; eret Finished
  | Finished => eret Finished
  end.

(** A task that panics is dropped by the runtime. *)
Inductive da_step : list Task * (DaState * Database) -> list Task * (DaState * Database) -> Prop :=
| da_spawn ts s b : da_step (ts, s) (ts ++ [mk_task b Proving], s)
| da_advance ts s i t job st s' :
    ts !! i = Some t -> stage_step job t s = Ret (st, s') ->
    da_step (ts, s) (<[i := mk_task (task_data t) st]> ts, s')
| da_panics ts s i t job :
    ts !! i = Some t -> stage_step job t s = Panic ->
    da_step (ts, s) (<[i := mk_task (task_data t) Finished]> ts, s).

Inductive da_run (s0 : DaState * Database) : list Task * (DaState * Database) -> Prop :=
| da_run_start : da_run s0 ([], s0)
| da_run_step x y : da_run s0 x -> da_step x y -> da_run s0 y.

(** Four steps of a task alone are the task. *)
Lemma task_stages job b s :
  (st1 <-- stage_step job (mk_task b Proving);; st2 <-- stage_step job (mk_task b st1);;
   st3 <-- stage_step job (mk_task b st2);; stage_step job (mk_task b st3) ;;; eret tt) s
  = block_task job b s.
Proof.
  unfold block_task, update_state, stage_step, etry, ebind, eret. cbn [task_stage task_data].
  destruct (prove _ _ _ s) as [[r1 s1]|]; [|done]. cbn.
  destruct (store_diff b s1) as [[[u|e] s2]|]; cbn; [|done..].
  destruct (query_last_published s2) as [[[u'|e] s3]|]; cbn; [|done..].
  by destruct (publish b s3) as [[r4 s4]|].
Qed.

End da_worker.

(** A client whose layer keeps the diffs it was given, in order. *)
Class DaLedger {DaState : Type} (DC : DaClient DaState) (published : DaState -> list (list U256)) : Prop := {
  last_published_reads : forall s r s', last_published_state s = Ret (r, s') -> published s' = published s;
  publish_ok : forall cd s s', publish_state_diff cd s = Ret (Ok tt, s') -> published s' = published s ++ [cd];
  publish_err : forall cd s e s', publish_state_diff cd s = Ret (Err e, s') ->
    published s' = published s \/ published s' = published s ++ [cd];
}.

Section da_safety.
  Context `{PT : PrimitiveTypes} `{EU : EthersU256} `{IM : IndexMap}.
  Context `{CM : Commit} {SD : Scale ThinStateDiff} {SDL : ScaleLaws ThinStateDiff}.
  Context {DaState : Type} {DC : DaClient DaState} {published : DaState -> list (list U256)} {DL : DaLedger DC published}.

Definition diff_key (b : BlockDAData) : Z * list byte := (DA, da_key (da_block_hash b)).

Definition stored (db : Database) (b : BlockDAData) : Prop := db !! diff_key b = Some (enc (da_state_diff b)).

Lemma stored_read db b : stored db b -> state_diff (da_block_hash b) db = Ret (Ok (da_state_diff b), db).
Proof.
  unfold stored, state_diff, get, ebind, eget, eret. intros Hs. unfold diff_key in Hs. rewrite Hs. unfold decode_raw.
  by rewrite dec_enc.
Qed.

Lemma diff_key_inj b b' : diff_key b = diff_key b' -> da_block_hash b = da_block_hash b'.
Proof.
  unfold diff_key, da_key. intros [= H]. destruct (da_block_hash b) as [[x]], (da_block_hash b') as [[y]]. cbn in H.
  do 2 f_equal. by apply array_eq.
Qed.

(** What the stages do to the database and to the layer. *)
Lemma store_effect b (da : DaState) db r da' db' :
  store_diff b (da, db) = Ret (r, (da', db')) ->
  da' = da /\ (if is_ok r then db' = <[diff_key b := enc (da_state_diff b)]> db else db' = db).
Proof.
  unfold store_diff, emap_err, ebind, on_snd, store_state_diff, eret.
  destruct (commit_cases [(DA, da_key (da_block_hash b), enc (da_state_diff b))] db) as [E|E]; rewrite E; cbn;
    by intros [= <- <- <-].
Qed.

Lemma prove_effect mode b job (da : DaState) db r da' db' :
  prove mode (da_block_hash b) job (da, db) = Ret (r, (da', db')) ->
  da' = da /\ (db' = db \/ exists v, db' = <[diff_key b := v]> db).
Proof.
  destruct mode; cbn; [|by intros [= <- <- <-]; auto..]. unfold emap_err, ebind, on_snd, update_cairo_job, eret.
  destruct (commit_cases [(DA, da_key (da_block_hash b), arr job)] db) as [E|E]; rewrite E; cbn; intros [= <- <- <-]; [by auto|].
  split; [done|]. right. by eexists.
Qed.

Lemma query_effect (da : DaState) db r da' db' :
  query_last_published (da, db) = Ret (r, (da', db')) -> db' = db /\ published da' = published da.
Proof.
  unfold query_last_published, etry, emap_err, ebind, on_fst, eret.
  destruct (last_published_state da) as [[[z|e] da1]|] eqn:E; cbn; [| |done]; intros [= <- <- <-];
    (split; [done|by eapply last_published_reads]).
Qed.

Lemma publish_effect b (da : DaState) db r da' db' :
  publish b (da, db) = Ret (r, (da', db')) ->
  db' = db /\ (published da' = published da
               \/ exists cd, block_data_to_calldata b = Ret cd /\ published da' = published da ++ [cd]).
Proof.
  unfold publish. destruct get_mode; [by intros [= <- <- <-]; auto..|].
  unfold elift, emap_err, ebind, on_fst, eret. destruct (block_data_to_calldata b) as [cd|]; [|done].
  destruct (publish_state_diff cd da) as [[[[]|e] da1]|] eqn:E; cbn; [| |done]; intros [= <- <- <-]; (split; [done|]).
  - right. exists cd. split; [done|]. by apply publish_ok.
  - apply publish_err in E as [E|E]; [by left|]. right. by exists cd.
Qed.

(** The calldata [cd] was published by task [i]. *)
Definition published_by (ts : list Task) (db : Database) (i : nat) (cd : list U256) : Prop :=
  exists t, ts !! i = Some t /\ task_stage t = Finished /\ block_data_to_calldata (task_data t) = Ret cd
    /\ stored db (task_data t).

Record da_inv (s0 : DaState) (ts : list Task) (s : DaState * Database) : Prop := {
  di_stored : forall i t, ts !! i = Some t -> task_stage t = Querying \/ task_stage t = Publishing -> stored s.2 (task_data t);
  di_published : exists idx new, published s.1 = published s0 ++ new /\ NoDup idx /\ Forall2 (published_by ts s.2) idx new;
}.

(** Tasks other than [i] keep what they stored. *)
Definition others_kept (ts : list Task) (i : nat) (db db' : Database) : Prop :=
  forall j t, j <> i -> ts !! j = Some t -> stored db (task_data t) -> stored db' (task_data t).

Lemma insert_kept ts i t db v :
  NoDup (map (fun t => da_block_hash (task_data t)) ts) -> ts !! i = Some t ->
  others_kept ts i db (<[diff_key (task_data t) := v]> db).
Proof.
  intros Hn Hi j tj Hne Hj Hs. unfold stored. rewrite lookup_insert_ne; [done|]. intros Hk%diff_key_inj. apply Hne.
  eapply (NoDup_lookup _ j i (da_block_hash (task_data tj)) Hn).
  - rewrite list_lookup_fmap, Hj. done.
  - rewrite list_lookup_fmap, Hi, <- Hk. done.
Qed.

(** A task that has not finished moves to another stage. *)
Lemma inv_advance s0 ts i t st da db da' db' :
  da_inv s0 ts (da, db) -> ts !! i = Some t -> task_stage t <> Finished -> others_kept ts i db db' ->
  (st = Querying \/ st = Publishing -> stored db' (task_data t)) ->
  (published da' = published da
   \/ exists cd, st = Finished /\ published_by [mk_task (task_data t) st] db' 0 cd /\ published da' = published da ++ [cd]) ->
  da_inv s0 (<[i := mk_task (task_data t) st]> ts) (da', db').
Proof.
  intros [Hs (idx & new & Hp & Hn & Hby)] Hi Hnf Hkept Hst Hpub. cbn in *.
  assert (Hlen : (i < length ts)%nat) by (by eapply lookup_lt_Some).
  assert (Hby' : Forall2 (published_by (<[i := mk_task (task_data t) st]> ts) db') idx new).
  { eapply list.Forall2_impl; [exact Hby|]. intros j cd (tj & Hj & Hf & Hc & Hsj). assert (Hne : j <> i) by congruence.
    exists tj. split_and!; [by rewrite list_lookup_insert_ne|done|done|]. by eapply Hkept. }
  assert (Hnot : i ∉ idx).
  { intros Hin. apply list_elem_of_lookup in Hin as [k Hk]. destruct (Forall2_lookup_l _ _ _ _ _ Hby Hk) as (cd & _ & tj & Hj & Hf & _).
    congruence. }
  constructor; cbn.
  - intros j tj Hj Hq. destruct (decide (j = i)) as [->|Hne].
    + rewrite list_lookup_insert_eq in Hj by done. injection Hj as <-. by apply Hst.
    + rewrite list_lookup_insert_ne in Hj by done. by eapply Hkept, Hs.
  - destruct Hpub as [->|(cd & -> & (t' & [= <-] & Hf & Hc & Hst') & ->)]; [by exists idx, new|].
    exists (idx ++ [i]), (new ++ [cd]). split_and!; [by rewrite Hp, app_assoc| |].
    + apply list.NoDup_app. split_and!; [done| |apply NoDup_singleton]. intros x Hx ->%list_elem_of_singleton. done.
    + apply Forall2_app; [done|]. constructor; [|constructor]. eexists. split; [by apply list_lookup_insert_eq|]. done.
Qed.

Lemma inv_stage s0 ts i t job st s s' :
  NoDup (map (fun t => da_block_hash (task_data t)) ts) ->
  da_inv s0 ts s -> ts !! i = Some t -> stage_step job t s = Ret (st, s') ->
  da_inv s0 (<[i := mk_task (task_data t) st]> ts) s'.
Proof.
  intros Hn Hinv Hi Hst. destruct s as [da db], s' as [da' db']. unfold stage_step in Hst.
  destruct t as [b stage]. cbn [task_stage task_data] in *. destruct stage; unfold ebind, eret in Hst.
  - destruct (prove _ _ _ _) as [[r [da1 db1]]|] eqn:E; [|done]. injection Hst as <- <- <-.
    apply prove_effect in E as [-> E]. eapply (inv_advance s0 ts i (mk_task b Proving)); [exact Hinv|done|done| |by intros [[=]|[=]]|by left].
    destruct E as [->|[v ->]]; [by intros ???|]. by apply (insert_kept ts i (mk_task b Proving)).
  - destruct (store_diff _ _) as [[r [da1 db1]]|] eqn:E; [|done]. injection Hst as <- <- <-.
    apply store_effect in E as [-> E]. eapply (inv_advance s0 ts i (mk_task b Storing)); [exact Hinv|done|done| | |by left].
    + destruct (is_ok r); subst db1; [by apply (insert_kept ts i (mk_task b Storing))|by intros ???].
    + destruct (is_ok r); [|by intros [[=]|[=]]]. intros _. subst db1. apply lookup_insert_eq.
  - destruct (query_last_published _) as [[r [da1 db1]]|] eqn:E; [|done]. injection Hst as <- <- <-.
    apply query_effect in E as [-> E]. eapply (inv_advance s0 ts i (mk_task b Querying)); [exact Hinv|done|done|by intros ???| |by left].
    intros _. by apply (di_stored _ _ _ Hinv i _ Hi); left.
  - destruct (publish _ _) as [[r [da1 db1]]|] eqn:E; [|done]. injection Hst as <- <- <-.
    apply publish_effect in E as [-> E]. eapply (inv_advance s0 ts i (mk_task b Publishing)); [exact Hinv|done|done|by intros ???|by intros [[=]|[=]]|].
    destruct E as [E|(cd & Hcd & E)]; [by left|]. right. exists cd. split_and!; [done| |done]. eexists. split_and!; [done..|].
    by apply (di_stored _ _ _ Hinv i _ Hi); right.
  - injection Hst as <- <- <-. by rewrite list_insert_id.
Qed.

Lemma hashes_insert (ts : list Task) i t st :
  ts !! i = Some t ->
  map (fun t => da_block_hash (task_data t)) (<[i := mk_task (task_data t) st]> ts)
  = map (fun t => da_block_hash (task_data t)) ts.
Proof. intros Hi. rewrite list_fmap_insert. apply list_insert_id. by rewrite list_lookup_fmap, Hi. Qed.

Lemma run_prefix_hashes (x y : list Task * (DaState * Database)) :
  da_step x y -> NoDup (map (fun t => da_block_hash (task_data t)) y.1) ->
  NoDup (map (fun t => da_block_hash (task_data t)) x.1).
Proof.
  intros Hs. destruct Hs as [ts s b|ts s i t job st s' Hi _|ts s i t job Hi _]; cbn; [|by rewrite (hashes_insert _ _ _ _ Hi)..].
  rewrite map_app. by intros [? _]%list.NoDup_app.
Qed.

Lemma run_inv s0 x :
  da_run s0 x -> NoDup (map (fun t => da_block_hash (task_data t)) x.1) -> da_inv s0.1 x.1 x.2.
Proof.
  induction 1 as [|x y Hrun IH Hstep]; intros Hn.
  - constructor; [by intros i t|]. exists [], []. cbn. rewrite app_nil_r. split_and!; [done|constructor|constructor].
  - specialize (IH (run_prefix_hashes _ _ Hstep Hn)). pose proof (run_prefix_hashes _ _ Hstep Hn) as Hn'.
    destruct Hstep as [ts s b|ts s i t job st s' Hi Hst|ts s i t job Hi Hst]; cbn in *.
    + destruct IH as [Hs (idx & new & Hp & Hd & Hby)]. constructor.
      * intros i t Hi Hq. apply lookup_app_Some in Hi as [Hi|[_ Hi]]; [by eapply Hs|].
        destruct (i - length ts)%nat as [|k]; cbn in Hi; [injection Hi as <-; by destruct Hq|done].
      * exists idx, new. split_and!; [done..|]. eapply list.Forall2_impl; [exact Hby|].
        intros i cd (t & Hi & Ht). exists t. split; [by apply lookup_app_l_Some|done].
    + by eapply inv_stage.
    + destruct t as [b stage]. destruct (decide (stage = Finished)) as [->|Hne]; [by rewrite list_insert_id|].
      destruct s as [da db]. eapply (inv_advance s0.1 ts i (mk_task b stage)); [done..|by intros ???|by intros [[=]|[=]]|by left].
Qed.

(** C15: the diffs of blocks with distinct hashes, in any interleaving of their tasks
    and with any failures of the database and of the layer: what the layer receives
    is the calldata of spawned blocks, each at most once, and the diff of every
    published block can be read back from the database. *)
Theorem published_after_stored s0 ts da db :
  da_run s0 (ts, (da, db)) -> NoDup (map (fun t => da_block_hash (task_data t)) ts) ->
  exists idx new, published da = published s0.1 ++ new /\ NoDup idx
    /\ Forall2 (fun i cd => exists t, ts !! i = Some t /\ block_data_to_calldata (task_data t) = Ret cd
         /\ state_diff (da_block_hash (task_data t)) db = Ret (Ok (da_state_diff (task_data t)), db)) idx new.
Proof.
  intros Hrun Hn. destruct (run_inv _ _ Hrun Hn) as [_ (idx & new & Hp & Hd & Hby)]. exists idx, new.
  split_and!; [done..|]. eapply list.Forall2_impl; [exact Hby|]. intros i cd (t & Hi & _ & Hc & Hs). exists t.
  split_and!; [done..|]. by apply stored_read.
Qed.

End da_safety.

(** ** Witnesses *)
Module DaWitness.
Export DiffWitness.

(** The sum, when it fits, and the digits after [0x]. *)
#[export] Instance u256_ops : EthersU256 := {|
  u256_add a b := match bounded_of (2 ^ 256) (bval a + bval b) with Some c => Ret c | None => Panic end;
  u256_from_str_radix s _ :=
    match String.list_ascii_of_string s with
    | _ :: _ :: l => match hex_value 0 l with Some n => bounded_of (2 ^ 256) n | None => None end
    | _ => None
    end;
|}.
#[export] Instance u256_ops_laws : EthersU256Laws.
Proof.
  constructor.
  - intros a b c. cbn. rewrite <- bounded_of_spec. destruct (bounded_of _ _); split; congruence.
  - intros digits n Hn _ Hr. unfold u256_from_str_radix, u256_ops.
    change (String.list_ascii_of_string ("0x" ++ digits)) with ("0"%char :: "x"%char :: String.list_ascii_of_string digits).
    cbv iota beta. rewrite Hn. destruct (bounded_of (2 ^ 256) n) as [u|] eqn:E.
    + exists u. split; [done|]. by apply bounded_of_spec in E.
    + by apply bounded_of_none in E.
Qed.

#[export] Instance ThinStateDiff_eq_dec : EqDecision ThinStateDiff.
Proof. solve_decision. Defined.
#[export] Program Instance ThinStateDiff_countable : Countable ThinStateDiff :=
  inj_countable' (fun d => (declared_classes d, storage_diffs d, sd_nonces d, deployed_contracts d,
                            deprecated_declared_classes d, replaced_classes d))
    (fun '(a, b, c, d, e, f) => mk_diff a b c d e f) _.
Next Obligation. by intros []. Qed.

(** A layer that keeps what it is given. *)
#[export] Instance list_layer : DaClient (list (list U256)) := {|
  get_mode := Sovereign;
  last_published_state := eret (Ok 0);
  publish_state_diff cd := fun s => Ret (Ok tt, s ++ [cd]);
|}.
#[export] Instance list_ledger : DaLedger list_layer id.
Proof. constructor; unfold last_published_state, publish_state_diff, list_layer, eret; intros; simplify_eq; done. Qed.

(** A schedule: a spawn, or a step of a task. *)
Definition act (x : list Task * (list (list U256) * Database)) (a : BlockDAData + nat)
  : list Task * (list (list U256) * Database) :=
  match a with
  | inl b => (fst x ++ [mk_task b Proving], snd x)
  | inr i =>
      match fst x !! i with
      | Some t =>
          match stage_step (be_array 16 0) t (snd x) with
          | Ret (st, s') => (<[i := mk_task (task_data t) st]> (fst x), s')
          | Panic => (<[i := mk_task (task_data t) Finished]> (fst x), snd x)
          end
      | None => x
      end
  end.

Lemma act_run s0 l : forall x, da_run s0 x -> da_run s0 (fold_left act l x).
Proof.
  induction l as [|a l IH]; intros x Hx; [done|]. cbn. apply IH. destruct x as [ts s], a as [b|i]; cbn.
  - eapply da_run_step; [exact Hx|constructor].
  - destruct (ts !! i) as [t|] eqn:Hi; [|done]. destruct (stage_step _ t s) as [[st s']|] eqn:Hs;
      (eapply da_run_step; [exact Hx|]); [by eapply da_advance|by eapply da_panics].
Qed.

Definition w_data (n : Z) : BlockDAData :=
  mk_da_data (mk_new (mk_stark (be_array 32 n)))
    (mk_diff [] [(address 7, [(mk_new stark_default, mk_stark (be_array 32 5))])] [(address 7, mk_new (mk_stark (be_array 32 1)))] [] [] [])
    1 n stark_default stark_default stark_default.

(** Two blocks, the second one published first. *)
Definition w_run : list Task * (list (list U256) * Database) :=
  fold_left act [inl (w_data 1); inl (w_data 2); inr 0%nat; inr 1%nat; inr 1%nat; inr 0%nat; inr 1%nat; inr 1%nat; inr 0%nat; inr 0%nat]
    ([], ([], ∅)).

End DaWitness.
Import DaWitness.

Lemma da_word_layout_witness :
  exists u, da_word false (Some (mk_new (mk_stark (be_array 32 2)))) 0 = Ret u /\ bval u = 2 ^ 64 + 1.
Proof.
  destruct (da_word_layout false (Some (mk_new (mk_stark (be_array 32 2)))) 0) as (u & Hu & Hv & _).
  - lia.
  - intros n [= <-]. vm_compute. reflexivity.
  - exists u. split; [exact Hu|]. rewrite Hv. vm_compute. reflexivity.
Defined.


Lemma published_after_stored_witness :
  exists idx, length (w_run.2.1) = 2%nat /\ NoDup idx /\ length idx = 2%nat
    /\ Forall2 (fun i cd => exists t, w_run.1 !! i = Some t /\ block_data_to_calldata (task_data t) = Ret cd
         /\ state_diff (da_block_hash (task_data t)) w_run.2.2 = Ret (Ok (da_state_diff (task_data t)), w_run.2.2)) idx w_run.2.1.
Proof.
  assert (Hrun : da_run ([], ∅) (w_run.1, (w_run.2.1, w_run.2.2))).
  { rewrite <- !surjective_pairing. apply act_run. constructor. }
  destruct (published_after_stored ([], ∅) w_run.1 w_run.2.1 w_run.2.2 Hrun) as (idx & new & Hp & Hn & Hby).
  - apply (bool_decide_unpack _). vm_compute. exact I.
  - cbn [id fst app] in Hp. exists idx. assert (Hlen : length w_run.2.1 = 2%nat) by (vm_compute; reflexivity).
    split; [exact Hlen|]. split; [exact Hn|]. rewrite Hp. rewrite Hp in Hlen. split; [|exact Hby].
    etransitivity; [exact (Forall2_length Hby)|exact Hlen].
Defined.
