(* ===== verification/Files.v ===== *)
(** * Paths and files

    What the node uses of [std::path] and [std::fs].  A path is its list of
    components, which is how Rust compares and joins paths.  The file system
    itself is a parameter: a class of operations that may fail, with the
    documented behaviour of a file system as laws, and one that is kept in
    memory to show that the laws can hold. *)
From Stdlib Require Import Strings.Ascii.
From S2P Require Import Prelude Bytes Felt.
Local Open Scope Z_scope.

(** ** Paths *)
Record Path := mk_path { path_absolute : bool; path_components : list string }.

#[export] Instance Path_eq_dec : EqDecision Path.
Proof. solve_decision. Defined.

#[export] Program Instance Path_countable : Countable Path :=
  inj_countable' (fun p => (path_absolute p, path_components p)) (fun x => mk_path (fst x) (snd x)) _.
Next Obligation. by intros []. Qed.

(** The pieces of a text between slashes; [cur] is the piece being read. *)
Fixpoint split_slash (s : string) (cur : string) : list string :=
  match s with
  | EmptyString => [cur]
  | String c s' =>
      if Ascii.eqb c "/" then cur :: split_slash s' EmptyString
      else split_slash s' (String.append cur (String c EmptyString))
  end.

(** [Path::components]: empty pieces are skipped, and so is every [.] but one
    that starts a relative path. *)
Definition normal_component (s : string) : bool := negb (String.eqb s "") && negb (String.eqb s ".").

Definition path_of (s : string) : Path :=
  let pieces := split_slash s EmptyString in
  match s, pieces with
  | String "/" _, _ => mk_path true (filter normal_component pieces)
  | _, first :: rest =>
      mk_path false ((if String.eqb first "." then ["."%string] else filter normal_component [first])
                     ++ filter normal_component rest)
  | _, [] => mk_path false []
  end.

(** [Path::join]: an absolute path replaces, a relative one is appended. *)
Definition path_join (p q : Path) : Path :=
  if path_absolute q then q
  else if negb (path_absolute p) && (length (path_components p) =? 0)%nat then q
  else mk_path (path_absolute p) (path_components p ++ filter normal_component (path_components q)).

(** [Path::parent]: none for the root and for the empty path. *)
Definition path_parent (p : Path) : option Path :=
  match path_components p with
  | [] => None
  | _ => Some (mk_path (path_absolute p) (removelast (path_components p)))
  end.

(** ** The file system *)

(** [std::io::Error], by the kinds that are told apart here: that of the system
    and [InvalidData], for a file that is not a text. *)
Inductive IoError := OsError (code : Z) | InvalidData.

#[export] Instance IoError_eq_dec : EqDecision IoError.
Proof. solve_decision. Defined.

Class FileSystem := {
  Disk : Type;
  (** [File::open], [fs::read], [Path::exists], [fs::create_dir_all]. *)
  fs_open : Path -> Disk -> result IoError unit;
  fs_read : Path -> Disk -> result IoError (list byte);
  fs_exists : Path -> Disk -> bool;
  fs_create_dir_all : Path -> Disk -> result IoError unit * Disk;
  (** [File::create], and [io::copy] of bytes to the file so created. *)
  fs_create : Path -> Disk -> result IoError unit * Disk;
  fs_copy : Path -> list byte -> Disk -> result IoError unit * Disk;
  (** Two paths that lead to one file, as links and [..] can do. *)
  fs_same : Path -> Path -> bool;
}.

(** What a path holds, if it can be read. *)
Definition held `{FileSystem} (p : Path) (d : Disk) : option (list byte) := result_ok (fs_read p d).

(** Creating directories leaves the files alone; creating a file empties it, copying
    to it extends it, and neither touches what another path leads to, even when
    it fails. *)
Class FileSystemLaws `{FS : FileSystem} : Prop := {
  exists_read : forall p d c, held p d = Some c -> fs_exists p d = true;
  dirs_frame : forall p q d, held q (snd (fs_create_dir_all p d)) = held q d;
  create_empty : forall p d d', fs_create p d = (Ok tt, d') -> held p d' = Some [];
  create_frame : forall p q d, fs_same p q = false -> held q (snd (fs_create p d)) = held q d;
  copy_extends : forall p b c d d', fs_copy p b d = (Ok tt, d') -> held p d = Some c -> held p d' = Some (c ++ b);
  copy_frame : forall p q b d, fs_same p q = false -> held q (snd (fs_copy p b d)) = held q d;
}.

(** [fs::read_to_string]. *)
Definition read_to_string `{FileSystem} (p : Path) (d : Disk) : result IoError string :=
  let? b := fs_read p d in
  if utf8_valid b then Ok (String.string_of_list_byte b) else Err InvalidData.

(** An operation of the file system as an effect on the disk. *)
Definition io `{FileSystem} {A} (f : Disk -> result IoError A * Disk) : effr Disk IoError A := fun d => Ret (f d).

Definition io_read `{FileSystem} {A} (f : Disk -> result IoError A) : effr Disk IoError A := fun d => Ret (f d, d).

(** ** Writing a file *)
Section write.
  Context `{FS : FileSystem}.

(** [write_content_to_disk] of [commands/setup.rs]. *)
Definition write_content_to_disk (content : list byte) (dest : Path) : effr Disk IoError unit :=
  dir <-- elift (unwrap_opt (path_parent dest));;
  io (fs_create_dir_all dir) ;;?
  io (fs_create dest) ;;?
  io (fs_copy dest content).

Context {FSL : FileSystemLaws}.

(** A write that succeeds leaves the content in its place; whatever its outcome,
    other files stay as they were. *)
Lemma write_content_spec content dest d r d' :
  write_content_to_disk content dest d = Ret (r, d') ->
  (r = Ok tt -> held dest d' = Some content)
  /\ (forall q, fs_same dest q = false -> held q d' = held q d).
Proof.
  unfold write_content_to_disk, etry, ebind, elift, io, eret.
  destruct (path_parent dest) as [dir|]; [|done]. simpl.
  pose proof (fun q => dirs_frame dir q d) as H1.
  destruct (fs_create_dir_all dir d) as [[[]|e] d1]; [|intros [= <- <-]; split; [done|intros; apply H1]].
  pose proof (fun q => create_frame dest q d1) as H2. pose proof (create_empty dest d1) as H3.
  destruct (fs_create dest d1) as [[[]|e] d2]; simpl in *;
    [|intros [= <- <-]; split; [done|]; intros q Hq; by rewrite H2, H1].
  pose proof (fun q => copy_frame dest q content d2) as H4. pose proof (copy_extends dest content [] d2) as H5.
  destruct (fs_copy dest content d2) as [r3 d3]; simpl in *. intros [= <- <-]. split.
  - intros ->. by apply H5, H3.
  - intros q Hq. by rewrite H4, H2, H1.
Qed.

End write.

(** ** A file system in memory *)
Module MemoryFiles.

#[export] Instance memory : FileSystem := {|
  Disk := gmap Path (list byte);
  fs_open p d := result_map (fun _ => tt) (ok_or (d !! p) (OsError 2));
  fs_read p d := ok_or (d !! p) (OsError 2);
  fs_exists p d := bool_decide (is_Some (d !! p));
  fs_create_dir_all _ d := (Ok tt, d);
  fs_create p d := (Ok tt, <[p := []]> d);
  fs_copy p b d := (Ok tt, alter (fun c => c ++ b) p d);
  fs_same p q := bool_decide (p = q);
|}.

#[export] Instance memory_laws : FileSystemLaws.
Proof.
  split; unfold held; simpl.
  - intros p d c. destruct (d !! p); [|done]. intros _. apply bool_decide_eq_true. eauto.
  - done.
  - intros p d d' [= <-]. by rewrite lookup_insert_eq.
  - intros p q d H. apply bool_decide_eq_false in H. by rewrite lookup_insert_ne.
  - intros p b c d d' [= <-]. rewrite lookup_alter_eq. destruct (d !! p); [|done]. by intros [= ->].
  - intros p q b d H. apply bool_decide_eq_false in H. by rewrite lookup_alter_ne.
Qed.

End MemoryFiles.
