(* ===== verification/Engines.v ===== *)
(** * Opening the database

    Models [Backend::open] of [crates/client/db/src/lib.rs] and
    [db_opening_utils]: which database the node opens, and the adapter that lets
    parity-db serve as the key-value database of [Db].  The engines themselves are
    parameters.  The theorems say what the node finds in the database it opened, and
    that the adapter does what [Db] assumes, except that failures are panics. *)
From S2P Require Import Prelude Bytes Deps Felt Block Db Files.
Local Open Scope Z_scope.

(** ** The engines *)

(** [sp_database::Change]. *)
Inductive DbChange :=
| ChangeSet (column : Z) (key value : list byte)
| ChangeRemove (column : Z) (key : list byte)
| ChangeStore (column : Z) (hash value : list byte)
| ChangeReference (column : Z) (hash : list byte)
| ChangeRelease (column : Z) (hash : list byte).

(** What the sources use of kvdb-rocksdb and parity-db.  [Store] holds the databases
    of both, by path; an open database is named by its path.  Options are the number
    of columns and, for parity-db, those with a tree index. *)
Class Engines := {
  Store : Type;
  kvdb_open : Path -> Z -> bool -> effr Store string unit;
  pdb_open_or_create : Path -> Z -> list Z -> effr Store string unit;
  pdb_commit : Path -> list (Z * list byte * option (list byte)) -> effr Store string unit;
  pdb_get : Path -> Z -> list byte -> effr Store string (option (list byte));
  pdb_get_size : Path -> Z -> list byte -> effr Store string (option Z);
}.

(** ** Opening *)

(** [sc_client_db::DatabaseSource]. *)
Inductive DatabaseSource :=
| SourceAuto (paritydb_path rocksdb_path : Path) (cache_size : Z)
| SourceRocksDb (path : Path) (cache_size : Z)
| SourceParityDb (path : Path)
| SourceCustom.

(** The database behind [Arc<dyn Database>]. *)
Inductive Handle := RocksDb (path : Path) | ParityDb (path : Path).

Definition starknet_database_dir (db_config_dir : Path) (db_path : string) : Path :=
  path_join (path_join db_config_dir (path_of "starknet")) (path_of db_path).

Section open.
  Context `{EN : Engines}.

Definition open_kvdb_rocksdb (path : Path) (create : bool) : effr Store string Handle :=
  kvdb_open path NUM_COLUMNS create ;;? eret (Ok (RocksDb path)).

Definition open_parity_db (path : Path) : effr Store string Handle :=
  pdb_open_or_create path NUM_COLUMNS [BLOCK_MAPPING] ;;? eret (Ok (ParityDb path)).

Definition open_database (source : DatabaseSource) : effr Store string Handle :=
  match source with
  | SourceParityDb path => open_parity_db path
  | SourceRocksDb path _ => open_kvdb_rocksdb path true
  | SourceAuto paritydb_path rocksdb_path _ =>
      db <-- open_kvdb_rocksdb rocksdb_path false;;
      match db with
      | Ok db => eret (Ok db)
      | Err _ => open_parity_db paritydb_path
      end
  | SourceCustom => eret (Err "Missing feature flags `parity-db`"%string)
  end.

(** [Backend::open]; the stores share the database. *)
Definition backend_open (database : DatabaseSource) (db_config_dir : Path) : effr Store string Handle :=
  source <-? eret (match database with
                   | SourceRocksDb _ _ => Ok (SourceRocksDb (starknet_database_dir db_config_dir "rockdb") 0)
                   | SourceParityDb _ => Ok (SourceParityDb (starknet_database_dir db_config_dir "paritydb"))
                   | SourceAuto _ _ _ =>
                       Ok (SourceAuto (starknet_database_dir db_config_dir "paritydb")
                             (starknet_database_dir db_config_dir "rockdb") 0)
                   | SourceCustom => Err "Supported db sources: `rocksdb` | `paritydb` | `auto`"%string
                   end);;
  open_database source.

(** ** The adapter for parity-db *)

Definition handle_err {A} (m : effr Store string A) : eff Store A :=
  r <-- m;;
  match r with Ok a => eret a | Err _ => epanic end.

Definition adapt_change (change : DbChange) : outcome (Z * list byte * option (list byte)) :=
  match change with
  | ChangeSet col key value => Ret (wrap 8 col, key, Some value)
  | ChangeRemove col key => Ret (wrap 8 col, key, None)
  | _ => Panic
  end.

Definition adapter_commit (path : Path) (transaction : list DbChange) : effr Store DbError unit :=
  changes <-- elift (traverse adapt_change transaction);;
  handle_err (pdb_commit path changes) ;;;
  eret (Ok tt).

Definition adapter_get (path : Path) (col : Z) (key : list byte) : eff Store (option (list byte)) :=
  handle_err (pdb_get path (wrap 8 col) key).

Definition adapter_contains (path : Path) (col : Z) (key : list byte) : eff Store bool :=
  size <-- handle_err (pdb_get_size path (wrap 8 col) key);;
  eret (match size with Some _ => true | None => false end).

Definition adapter_value_size (path : Path) (col : Z) (key : list byte) : eff Store (option Z) :=
  handle_err (pdb_get_size path (wrap 8 col) key).

Definition adapter_supports_ref_counting : bool := true.

(** The prefix is drained; without one to drain the range is out of bounds. *)
Definition adapter_sanitize_key (key : list byte) : outcome (list byte) :=
  if (32 <=? length key)%nat then Ret (drop (length key - 32) key) else Panic.

End open.

(** ** What the engines keep *)

(** Applying a change of parity-db. *)
Definition pdb_apply (db : Database) (c : Z * list byte * option (list byte)) : Database :=
  match snd c with Some value => <[fst c := value]> db | None => delete (fst c) db end.

Definition known_column (column : Z) : bool := (0 <=? column) && (column <? NUM_COLUMNS).

(** [rocks] and [parity] say which databases are on the disk.  A database that is
    opened holds what it held, or nothing if it was created; opening fails without a
    database unless one may be created.  Failed attempts to open an existing database
    change nothing. *)
Class EnginesLaws `{EN : Engines} (rocks parity : Store -> Path -> option Database) : Prop := {
  kvdb_open_ok : forall p n create s s', kvdb_open p n create s = Ret (Ok tt, s') ->
    (create = true \/ is_Some (rocks s p)) /\ rocks s' p = Some (default ∅ (rocks s p))
    /\ (forall q, q <> p -> rocks s' q = rocks s q) /\ (forall q, parity s' q = parity s q);
  kvdb_open_err : forall p n s e s', kvdb_open p n false s = Ret (Err e, s') ->
    forall q, rocks s' q = rocks s q /\ parity s' q = parity s q;
  pdb_open_ok : forall p n trees s s', pdb_open_or_create p n trees s = Ret (Ok tt, s') ->
    parity s' p = Some (default ∅ (parity s p)) /\ (forall q, q <> p -> parity s' q = parity s q)
    /\ (forall q, rocks s' q = rocks s q);
  pdb_commit_ok : forall p t s db s', parity s p = Some db -> Forall (fun c => known_column (fst (fst c)) = true) t ->
    pdb_commit p t s = Ret (Ok tt, s') -> parity s' p = Some (fold_left pdb_apply t db);
  pdb_get_ok : forall p c k s db v s', parity s p = Some db -> pdb_get p c k s = Ret (Ok v, s') ->
    v = db !! (c, k) /\ parity s' p = Some db;
  pdb_get_size_ok : forall p c k s db v s', parity s p = Some db -> pdb_get_size p c k s = Ret (Ok v, s') ->
    v = option_map zlen (db !! (c, k)) /\ parity s' p = Some db;
}.

(** A write of the stores, as they build it with [Transaction::set]. *)
Definition set_change (c : Change) : DbChange := ChangeSet (fst (fst c)) (snd (fst c)) (snd c).
Definition known_change (c : Change) : bool := known_column (fst (fst c)).

(** A database that refuses columns that were not opened, and is otherwise always
    able to commit. *)
Definition checked_columns : Commit := {| commit_fails t _ := negb (forallb known_change t) |}.

Section laws.
  Context `{EN : Engines} (rocks parity : Store -> Path -> option Database) {ENL : EnginesLaws rocks parity}.

Lemma adapt_set t : forallb known_change t = true ->
  traverse adapt_change (map set_change t) = Ret (map (fun c => (fst c, Some (snd c))) t).
Proof.
  induction t as [|[[col key] value] t IH]; [done|]. cbn. intros [Hc Ht]%andb_prop. rewrite (IH Ht). cbn.
  unfold known_change, known_column, NUM_COLUMNS in Hc. cbn in Hc. zbool. by rewrite wrap_small by lia.
Qed.

Lemma pdb_apply_sets t db :
  fold_left pdb_apply (map (fun c => (fst c, Some (snd c))) t) db = fold_left apply_change t db.
Proof. revert db. induction t as [|c t IH]; intros db; [done|]. cbn. by rewrite IH. Qed.

Lemma adapter_commit_refines path t s db r s' :
  forallb known_change t = true -> parity s path = Some db ->
  adapter_commit path (map set_change t) s = Ret (r, s') ->
  r = Ok tt /\ parity s' path = Some (fold_left apply_change t db).
Proof.
  intros Ht Hs. unfold adapter_commit, ebind at 1, elift. rewrite (adapt_set t Ht). unfold handle_err, ebind, eret, epanic.
  destruct (pdb_commit path _ s) as [[[[]|e] s1]|] eqn:E; [|done..]. intros [= <- <-]. split; [done|].
  rewrite <- pdb_apply_sets. refine (pdb_commit_ok path _ s db s1 Hs _ E). rewrite Forall_map. cbn.
  rewrite forallb_forall in Ht. apply list.Forall_forall. intros c Hc. by apply Ht, list_elem_of_In.
Qed.

Lemma adapter_get_refines path c k s db v s' :
  known_column c = true -> parity s path = Some db -> adapter_get path c k s = Ret (v, s') ->
  v = db !! (c, k) /\ parity s' path = Some db.
Proof.
  intros Hc Hs. unfold known_column, NUM_COLUMNS in Hc. zbool. unfold adapter_get, handle_err, ebind, eret, epanic.
  rewrite wrap_small by lia. destruct (pdb_get path c k s) as [[[w|e] s1]|] eqn:E; [|done..]. intros [= <- <-].
  by eapply pdb_get_ok.
Qed.

Lemma adapter_commits_refine path ts s db r s' :
  Forall (fun t => forallb known_change t = true) ts -> parity s path = Some db ->
  efor (fun t => adapter_commit path (map set_change t)) ts s = Ret (r, s') ->
  r = Ok tt /\ exists db', efor (commit (H := checked_columns)) ts db = Ret (Ok tt, db') /\ parity s' path = Some db'.
Proof.
  intros Hts. revert s db. induction Hts as [|t ts Ht _ IH]; intros s db Hs; cbn [efor].
  { intros [= <- <-]. split; [done|]. by exists db. }
  unfold etry at 1, ebind at 1. destruct (adapter_commit _ _ s) as [[r1 s1]|] eqn:E; [|done].
  apply (adapter_commit_refines _ _ _ _ _ _ Ht Hs) in E as [-> Hs1]. intros Hr.
  destruct (IH s1 _ Hs1 Hr) as (-> & db' & Hdb & Hs'). split; [done|]. exists db'. split; [|done].
  unfold etry at 1, ebind at 1, commit at 1. cbn [commit_fails checked_columns]. by rewrite Ht.
Qed.

Lemma open_parity_db_spec path s h s' :
  open_parity_db path s = Ret (Ok h, s') ->
  h = ParityDb path /\ parity s' path = Some (default ∅ (parity s path)) /\ forall q, rocks s' q = rocks s q.
Proof.
  unfold open_parity_db, etry, ebind, eret. destruct (pdb_open_or_create _ _ _ s) as [[[[]|e] s1]|] eqn:E; [|done..].
  intros [= <- <-]. by apply pdb_open_ok in E as (H1 & _ & H3).
Qed.

(** C27: the node on parity-db.  What [Backend::open] finds at the path for parity-db, or
    the empty database, is the database the stores start from.  Any transactions of the
    stores that return have then done what [commit] of [Db] does, none of them with an
    error, for failures of the engine are panics; reads answer from that database; and
    opening it again finds it. *)
Theorem parity_backend_refines (configured dir : Path) (s s1 s2 : Store) (h : Handle) (ts : list (list Change))
    (r : result DbError unit) :
  let path := starknet_database_dir dir "paritydb" in
  backend_open (SourceParityDb configured) dir s = Ret (Ok h, s1) ->
  Forall (fun t => forallb known_change t = true) ts ->
  efor (fun t => adapter_commit path (map set_change t)) ts s1 = Ret (r, s2) ->
  h = ParityDb path /\ r = Ok tt
  /\ exists db, efor (commit (H := checked_columns)) ts (default ∅ (parity s path)) = Ret (Ok tt, db)
     /\ (forall column key v s3, known_column column = true -> adapter_get path column key s2 = Ret (v, s3) ->
         get column key db = Ret (v, db))
     /\ forall h' s3, backend_open (SourceParityDb configured) dir s2 = Ret (Ok h', s3) ->
         h' = h /\ parity s3 path = Some db.
Proof.
  intros path Ho Hts Hr. apply open_parity_db_spec in Ho as (-> & Hs1 & _). fold path in Hs1 |- *. split; [done|].
  destruct (adapter_commits_refine path ts s1 _ r s2 Hts Hs1 Hr) as (-> & db & Hdb & Hs2). split; [done|].
  exists db. split; [done|]. split.
  - intros column key v s3 Hc Hg. apply (adapter_get_refines _ _ _ _ _ _ _ Hc Hs2) in Hg as [-> _]. done.
  - intros h' s3 Ho'. apply open_parity_db_spec in Ho' as (-> & Hs3 & _). fold path in Hs3. by rewrite Hs2 in Hs3.
Qed.

(** Which database is opened for the other sources.  With [auto] an existing RocksDB is
    used if it can be opened and none is created; in every other case, also when there
    is one that cannot be opened just now, the node goes on with parity-db, whatever
    that holds. *)
Theorem backend_open_sources (database : DatabaseSource) (dir : Path) (s s' : Store) (h : Handle) :
  let rocksdb := starknet_database_dir dir "rockdb" in
  let paritydb := starknet_database_dir dir "paritydb" in
  backend_open database dir s = Ret (Ok h, s') ->
  match database with
  | SourceCustom => False
  | SourceParityDb _ => h = ParityDb paritydb /\ parity s' paritydb = Some (default ∅ (parity s paritydb))
  | SourceRocksDb _ _ => h = RocksDb rocksdb /\ rocks s' rocksdb = Some (default ∅ (rocks s rocksdb))
  | SourceAuto _ _ _ =>
      (h = RocksDb rocksdb /\ is_Some (rocks s rocksdb) /\ rocks s' rocksdb = rocks s rocksdb)
      \/ (h = ParityDb paritydb /\ (exists e s1, kvdb_open rocksdb NUM_COLUMNS false s = Ret (Err e, s1))
          /\ rocks s' rocksdb = rocks s rocksdb /\ parity s' paritydb = Some (default ∅ (parity s paritydb)))
  end.
Proof.
  intros rocksdb paritydb. destruct database as [pp rp cs|rp cs|pp|]; unfold backend_open; unfold etry at 1, ebind at 1, eret at 1;
    cbn [open_database]; [| | |done].
  - unfold ebind at 1, open_kvdb_rocksdb, etry, ebind, eret. fold rocksdb paritydb.
    destruct (kvdb_open rocksdb NUM_COLUMNS false s) as [[[[]|e] s1]|] eqn:E; [| |done].
    + intros [= <- <-]. left. apply kvdb_open_ok in E as ([?|[db Hdb]] & H2 & _); [done|]. split; [done|].
      rewrite H2, Hdb. by split.
    + pose proof (kvdb_open_err _ _ _ _ _ E) as Hsame. intros Ho. apply open_parity_db_spec in Ho as (-> & H2 & H3). right.
      split; [done|]. split; [eauto|]. destruct (Hsame rocksdb) as [H4 _]. destruct (Hsame paritydb) as [_ H5].
      by rewrite H3, H4, H2, H5.
  - unfold open_kvdb_rocksdb, etry, ebind, eret. fold rocksdb.
    destruct (kvdb_open rocksdb NUM_COLUMNS true s) as [[[[]|e] s1]|] eqn:E; [|done..]. intros [= <- <-].
    by apply kvdb_open_ok in E as (_ & H2 & _).
  - intros Ho. by apply open_parity_db_spec in Ho as (-> & H2 & _).
Qed.

End laws.

(** ** The columns of the stores *)
Section columns.
  Context {BHash : Type} {SH : Scale BHash} {SHs : Scale (list BHash)} {SB : Scale bool} {SF : Scale StarkFelt}.
  Context {SFs : Scale (list StarkFelt)} {ThinStateDiff : Type} {SD : Scale ThinStateDiff} {SL : Scale LastSyncedEventBlock}.
  Context {SCh : Scale ClassHash} {SierraClass : Type} {SS : Scale SierraClass}.

Definition always_commits : Commit := {| commit_fails _ _ := false |}.

Lemma commit_known t db :
  forallb known_change t = true -> commit (H := checked_columns) t db = commit (H := always_commits) t db.
Proof. intros Ht. unfold commit. cbn [commit_fails checked_columns always_commits]. by rewrite Ht. Qed.

Lemma hashes_known cache (c : MappingCommitment BHash) known : forallb known_change (hashes_transaction cache c known) = true.
Proof.
  unfold hashes_transaction. rewrite !forallb_app. cbn [forallb]. apply andb_true_intro. split; [done|]. apply andb_true_intro. split.
  - apply forallb_forall. intros x Hx. by apply in_map_iff in Hx as (y & <- & _).
  - by destruct cache.
Qed.

(** Every write of the stores is to a column that the database was opened with: on a
    database that refuses other columns no write fails. *)
Theorem store_writes_known (cache : bool) (h : BHash) (c : MappingCommitment BHash) (tips : list BHash) (b : BlockHash)
    (diff : ThinStateDiff) (job : array 16) (e : LastSyncedEventBlock) (ch : ClassHash) (class : SierraClass) (tx : StarkFelt)
    (fee : Z) (db : Database) :
  write_none (CM := checked_columns) h db = write_none (CM := always_commits) h db
  /\ write_hashes (CM := checked_columns) cache c db = write_hashes (CM := always_commits) cache c db
  /\ write_current_syncing_tips (CM := checked_columns) tips db = write_current_syncing_tips (CM := always_commits) tips db
  /\ store_state_diff (CM := checked_columns) b diff db = store_state_diff (CM := always_commits) b diff db
  /\ update_cairo_job (CM := checked_columns) b job db = update_cairo_job (CM := always_commits) b job db
  /\ update_last_proved_block (CM := checked_columns) b db = update_last_proved_block (CM := always_commits) b db
  /\ update_last_synced_l1_block_with_event (CM := checked_columns) e db
     = update_last_synced_l1_block_with_event (CM := always_commits) e db
  /\ store_sierra_class (CM := checked_columns) ch class db = store_sierra_class (CM := always_commits) ch class db
  /\ store_fee_paid_for_l1_handler_tx (CM := checked_columns) tx fee db
     = store_fee_paid_for_l1_handler_tx (CM := always_commits) tx fee db.
Proof.
  split_and!; try (by apply commit_known). unfold write_hashes, ebind. destruct (mapping_block_hash _ db) as [[known db1]|]; [|done].
  apply commit_known, hashes_known.
Qed.

End columns.

(** ** Witnesses *)
Module EnginesWitness.

(** Engines that keep every database in memory. *)
Definition on_path (p : Path) (db : option Database) (f : Path -> option Database) : Path -> option Database :=
  fun q => if bool_decide (q = p) then db else f q.

#[export] Instance memory_engines : Engines := {|
  Store := (Path -> option Database) * (Path -> option Database);
  kvdb_open p _ create := fun '(rocks, parity) =>
    match rocks p with
    | Some db => Ret (Ok tt, (rocks, parity))
    | None => if create then Ret (Ok tt, (on_path p (Some ∅) rocks, parity)) else Ret (Err "no database"%string, (rocks, parity))
    end;
  pdb_open_or_create p _ _ := fun '(rocks, parity) => Ret (Ok tt, (rocks, on_path p (Some (default ∅ (parity p))) parity));
  pdb_commit p t := fun '(rocks, parity) => Ret (Ok tt, (rocks, on_path p (option_map (fold_left pdb_apply t) (parity p)) parity));
  pdb_get p c k := fun s => Ret (Ok (default ∅ (snd s p) !! (c, k)), s);
  pdb_get_size p c k := fun s => Ret (Ok (option_map zlen (default ∅ (snd s p) !! (c, k))), s);
|}.

Lemma on_path_eq p db f : on_path p db f p = db.
Proof. unfold on_path. by rewrite bool_decide_true. Qed.
Lemma on_path_ne p q db f : q <> p -> on_path p db f q = f q.
Proof. intros Hq. unfold on_path. by rewrite bool_decide_false. Qed.

Definition in_rocks (s : Store) : Path -> option Database := fst s.
Definition in_parity (s : Store) : Path -> option Database := snd s.

#[export] Instance memory_engines_laws : EnginesLaws in_rocks in_parity.
Proof.
  unfold in_rocks, in_parity. constructor.
  - intros p n create [rocks parity] s'. cbn. destruct (rocks p) as [db|] eqn:E.
    + intros [= <-]. cbn. rewrite E. split_and!; [right; eauto|done..].
    + destruct create; [|done]. intros [= <-]. cbn. split_and!; [by left|apply on_path_eq|intros q; apply on_path_ne|done].
  - intros p n [rocks parity] e s'. cbn. destruct (rocks p); [done|]. by intros [= _ <-] q.
  - intros p n trees [rocks parity] s' [= <-]. cbn. split_and!; [apply on_path_eq|intros q; apply on_path_ne|done].
  - intros p t [rocks parity] db s' Hp _ [= <-]. cbn in *. by rewrite on_path_eq, Hp.
  - intros p c k [rocks parity] db v s' Hp [= <- <-]. cbn in *. by rewrite Hp.
  - intros p c k [rocks parity] db v s' Hp [= <- <-]. cbn in *. by rewrite Hp.
Qed.

Definition w_store : Store := (fun _ => None, fun _ => None).
Definition w_dir : Path := path_of "/base/chains/dev".
Definition w_transactions : list (list Change) := [[(META, CURRENT_SYNCING_TIPS, bytes_of "tips")]; [(DA, LAST_PROVED_BLOCK, bytes_of "block")]].

End EnginesWitness.
Import EnginesWitness.

Lemma parity_backend_refines_witness :
  exists s1 s2 db, backend_open (SourceParityDb w_dir) w_dir w_store = Ret (Ok (ParityDb (starknet_database_dir w_dir "paritydb")), s1)
  /\ efor (fun t => adapter_commit (starknet_database_dir w_dir "paritydb") (map set_change t)) w_transactions s1 = Ret (Ok tt, s2)
  /\ get META CURRENT_SYNCING_TIPS db = Ret (Some (bytes_of "tips"), db).
Proof.
  eexists _, _.
  destruct (parity_backend_refines in_rocks in_parity w_dir w_dir w_store _ _ _ w_transactions _ eq_refl ltac:(repeat constructor) eq_refl)
    as (_ & _ & db & _ & Hget & _).
  exists db. split; [reflexivity|]. split; [reflexivity|].
  eapply (Hget META CURRENT_SYNCING_TIPS); [reflexivity|]. cbn. rewrite on_path_eq. reflexivity.
Defined.
