(* ===== verification/Genesis.v ===== *)
(** * The genesis of a chain

    Models the genesis data of [crates/primitives/genesis-config/src/lib.rs],
    its reader in [crates/client/genesis-data-provider], the conversion into the
    pallet's configuration of [crates/pallets/starknet/src/genesis_loader.rs],
    and of the node [chain_spec.rs] and [genesis_block.rs].  The theorems say
    which genesis data a chain can start from and in what state, and that the
    block the node puts in the genesis digest is the one the pallet counts. *)
From Stdlib Require Import Strings.Ascii.
From S2P Require Import Prelude Bytes Deps Felt Hashers Transactions ComputeHash Blockifier Conversions Fee.
From S2P Require Import Execution Block CallTrace PalletStorage Pallet PalletEffects PalletProperties Chain ChainRun.
From S2P Require Import Db MappingSync Files.
Local Open Scope Z_scope.

(** ** Genesis data *)
Record HexFelt := mk_hex { hex0 : FieldElement }.

Definition hex_felt_from (felt : Felt252Wrapper) : HexFelt := mk_hex (felt0 felt).

Record PredeployedAccount := mk_account {
  pa_contract_address : HexFelt;
  pa_class_hash : HexFelt;
  pa_name : string;
  pa_private_key : option (list byte);
  pa_public_key : HexFelt;
}.

(** [mp_genesis_config::ContractClass]. *)
Inductive GenesisClass `{ContractClassI} :=
| GPath (path : string) (version : Z)
| GClass (class : ContractClass).

Record GenesisData `{ContractClassI} := mk_genesis_data {
  gd_contract_classes : list (HexFelt * GenesisClass);
  gd_sierra_class_hash_to_casm_class_hash : list (HexFelt * HexFelt);
  gd_contracts : list (HexFelt * HexFelt);
  gd_predeployed_accounts : list PredeployedAccount;
  gd_storage : list ((HexFelt * HexFelt) * HexFelt);
  gd_fee_token_address : HexFelt;
}.

Record GenesisLoader `{ContractClassI} := mk_loader { loader_base_path : Path; loader_data : GenesisData }.

(** *** Private keys

    [buffer_to_hex] gives a text or nothing to the serializer; [hex_to_buffer]
    starts from the text that [String::deserialize] found, or its error. *)
Inductive Serialized := SerializeStr (s : string) | SerializeNone.
Inductive DeError := NotAString | Custom.

(** The [hex] crate: two digits for a byte, and only digits are decoded. *)
Class HexCrate := {
  FromHexError : Type;
  hex_encode : list byte -> string;
  hex_decode : string -> result FromHexError (list byte);
}.

Definition is_hex_digit (c : ascii) : bool :=
  let n := nat_of_ascii c in
  ((48 <=? n) && (n <=? 57) || (65 <=? n) && (n <=? 70) || (97 <=? n) && (n <=? 102))%nat.

Class HexCrateLaws `{HX : HexCrate} : Prop := {
  hex_decode_encode : forall b, hex_decode (hex_encode b) = Ok b;
  hex_decode_digits : forall s b, hex_decode s = Ok b -> Forall (fun c => is_hex_digit c = true) (String.list_ascii_of_string s);
  hex_encode_empty : forall b, hex_encode b = EmptyString -> b = [];
}.

Definition buffer_to_hex `{HexCrate} (buffer : option (list byte)) : Serialized :=
  match buffer with
  | Some inner_buffer => SerializeStr (String.append "0x" (hex_encode inner_buffer))
  | None => SerializeNone
  end.

Definition hex_to_buffer `{HexCrate} (deserialized : result DeError string) : result DeError (option (list byte)) :=
  let? hex_string := deserialized in
  if String.eqb hex_string "" then Ok None
  else map_err (fun _ => Custom) (result_map Some (hex_decode hex_string)).

(** ** Reading the genesis *)

(** [serde_json] at the types of the genesis, and [ContractClassV1::try_from] a
    compiled class. *)
Class GenesisFormat `{ContractClassI} := {
  JsonError : Type;
  genesis_from_str : string -> result JsonError GenesisData;
  class_v0_from_str : string -> result JsonError ContractClass;
  CasmContractClass : Type;
  casm_from_str : string -> result JsonError CasmContractClass;
  class_v1_try_from : CasmContractClass -> result unit ContractClass;
}.

Definition GENESIS_ASSETS_DIR : string := "genesis-assets/".
Definition GENESIS_ASSETS_FILE : string := "genesis.json".
(** The constant of the same name in [genesis-data-provider/src/constants.rs]. *)
Definition PROVIDER_ASSETS_DIR : string := "genesis-assets".

Inductive LoadGenesisDataError := InvalidJson | InvalidPath.

Section loader.
  Context `{FS : FileSystem} `{SF : StarknetFf} `{SA : StarknetApi} {CC : ContractClassI} {GF : GenesisFormat}.

(** [OnDiskGenesisConfig::load_genesis_data]. *)
Definition load_genesis_data (data_path : Path) (d : Disk) : result LoadGenesisDataError GenesisData :=
  let genesis_path := path_join (path_join data_path (path_of PROVIDER_ASSETS_DIR)) (path_of GENESIS_ASSETS_FILE) in
  match read_to_string genesis_path d with
  | Err _ => Err InvalidPath
  | Ok s => map_err (fun _ => InvalidJson) (genesis_from_str s)
  end.

(** [load_genesis] of [chain_spec.rs]. *)
Definition load_genesis (data_path : Path) (d : Disk) : outcome GenesisLoader :=
  let genesis_path := path_join (path_join data_path (path_of GENESIS_ASSETS_DIR)) (path_of GENESIS_ASSETS_FILE) in
  let! genesis_file_content := unwrap (read_to_string genesis_path d) in
  let! genesis_data := unwrap (genesis_from_str genesis_file_content) in
  Ret (mk_loader _ data_path genesis_data).

(** The last case is [unimplemented!]. *)
Definition read_contract_class_from_json (json_str : string) (version : Z) : outcome ContractClass :=
  if version =? 0 then unwrap (class_v0_from_str json_str)
  else if version =? 1 then
    let! casm_contract_class := unwrap (casm_from_str json_str) in
    unwrap (class_v1_try_from casm_contract_class)
  else Panic.

(** The closure that [genesis_config_from] maps over the classes. *)
Definition load_class (loader : GenesisLoader) (d : Disk) (e : HexFelt * GenesisClass) : outcome (ClassHash * ContractClass) :=
  let '(hash, class) := e in
  let! hash := felt_into_new ClassHashT (mk_felt (hex0 hash)) in
  match class with
  | GPath path version =>
      let! json_str := unwrap (read_to_string (path_join (loader_base_path loader) (path_of path)) d) in
      let! class := read_contract_class_from_json json_str version in
      Ret (hash, class)
  | GClass class => Ret (hash, class)
  end.

(** [From<GenesisLoader> for GenesisConfig]. *)
Definition genesis_config_from (loader : GenesisLoader) (d : Disk) : outcome GenesisConfig :=
  let! contract_classes := traverse (load_class loader d) (gd_contract_classes (loader_data loader)) in
  let! sierra_to_casm_class_hash := traverse (fun '(sierra_hash, casm_hash) =>
      let! sierra_hash := felt_into_new ClassHashT (mk_felt (hex0 sierra_hash)) in
      let! casm_hash := felt_into_new ClassHashT (mk_felt (hex0 casm_hash)) in
      Ret (sierra_hash, casm_hash)) (gd_sierra_class_hash_to_casm_class_hash (loader_data loader)) in
  let! contracts := traverse (fun '(address, hash) =>
      let! address := felt_into_new ContractAddressT (mk_felt (hex0 address)) in
      let! hash := felt_into_new ClassHashT (mk_felt (hex0 hash)) in
      Ret (address, hash)) (gd_contracts (loader_data loader)) in
  let! storage := traverse (fun '(key, value) =>
      let! address := felt_into_new ContractAddressT (mk_felt (hex0 (fst key))) in
      let! storage_key := felt_into_new StorageKeyT (mk_felt (hex0 (snd key))) in
      let! value := felt_into_stark (mk_felt (hex0 value)) in
      Ret ((address, storage_key), value)) (gd_storage (loader_data loader)) in
  let! fee_token_address := felt_into_new ContractAddressT (mk_felt (hex0 (gd_fee_token_address (loader_data loader)))) in
  Ret (mk_genesis contracts sierra_to_casm_class_hash contract_classes storage fee_token_address).

End loader.

(** ** The chain specification *)

(** [SealingMode] of [runtime/src/config.rs], the storage item [Sealing]. *)
Inductive SealingMode := SealDefault | SealManual | SealInstant (finalize : bool).

#[export] Instance SealingMode_eq_dec : EqDecision SealingMode.
Proof. solve_decision. Defined.

Definition is_default (mode : SealingMode) : bool := match mode with SealDefault => true | _ => false end.

(** Keys derived from a seed phrase, and the configuration directories of
    [sc_service::BasePath]. *)
Class NodeEnvironment := {
  AuraId : Type;
  GrandpaId : Type;
  aura_from_string : string -> result unit AuraId;
  grandpa_from_string : string -> result unit GrandpaId;
  BasePath : Type;
  base_path_from : Path -> BasePath;
  from_project : BasePath;
  config_dir : BasePath -> string -> Path;
}.

Inductive ChainType := Development | LocalChain.

(** [sc_service::GenericChainSpec]: the genesis is built on demand, from files. *)
Record ChainSpec `{FileSystem} (G : Type) := mk_spec {
  spec_name : string;
  spec_id : string;
  spec_type : ChainType;
  spec_genesis : Disk -> outcome G;
}.
Arguments mk_spec {_} {G}.
Arguments spec_name {_} {G}.
Arguments spec_id {_} {G}.
Arguments spec_type {_} {G}.
Arguments spec_genesis {_} {G}.

Record RuntimeGenesisConfig `{ContractClassI} `{NodeEnvironment} := mk_runtime_genesis {
  system_code : list byte;
  aura_authorities : list AuraId;
  grandpa_authorities : list (GrandpaId * Z);
  starknet_config : GenesisConfig;
}.

Record DevGenesisExt `{ContractClassI} `{NodeEnvironment} := mk_dev_genesis {
  dev_genesis_config : RuntimeGenesisConfig;
  dev_sealing : SealingMode;
}.

Definition DEV_CHAIN_ID : string := "dev".

Section chain_spec.
  Context `{FS : FileSystem} `{SF : StarknetFf} `{SA : StarknetApi} {CC : ContractClassI} {GF : GenesisFormat}.
  Context {NE : NodeEnvironment} (WASM_BINARY : option (list byte)).

Definition authority_keys_from_seed (s : string) : outcome (AuraId * GrandpaId) :=
  let! aura := unwrap (aura_from_string (String.append "//" s)) in
  let! grandpa := unwrap (grandpa_from_string (String.append "//" s)) in
  Ret (aura, grandpa).

Definition testnet_genesis (genesis_loader : GenesisLoader) (wasm_binary : list byte)
    (initial_authorities : list (AuraId * GrandpaId)) (d : Disk) : outcome RuntimeGenesisConfig :=
  let! starknet_genesis_config := genesis_config_from genesis_loader d in
  Ret (mk_runtime_genesis _ _ wasm_binary (map fst initial_authorities)
         (map (fun x => (snd x, 1)) initial_authorities) starknet_genesis_config).

(** What is logged is of no effect, but the contracts are looked up by position. *)
Definition print_development_accounts (genesis_loader : GenesisLoader) : outcome unit :=
  let contracts := gd_contracts (loader_data genesis_loader) in
  let! no_validate := unwrap_opt (contracts !! 0%nat) in
  let! argent := unwrap_opt (contracts !! 1%nat) in
  let! oz := unwrap_opt (contracts !! 2%nat) in
  let! cairo_1_no_validate := unwrap_opt (contracts !! 3%nat) in
  let! argent_pk := unwrap (felt_from_hex_be "0x00c1cf1490de1352865301bb8705143f3ef938f97fdf892f1090dcb5ac7bcd1d") in
  Ret tt.

Definition development_config (sealing : SealingMode) (base_path : BasePath) : result string (ChainSpec DevGenesisExt) :=
  let? wasm_binary := ok_or WASM_BINARY "Development wasm not available"%string in
  let chain_id := DEV_CHAIN_ID in
  Ok (mk_spec "Development" chain_id Development (fun d =>
        let! genesis_loader := load_genesis (config_dir base_path chain_id) d in
        let! _ := print_development_accounts genesis_loader in
        let! alice := authority_keys_from_seed "Alice" in
        let! genesis_config := testnet_genesis genesis_loader wasm_binary [alice] d in
        Ret (mk_dev_genesis _ _ genesis_config sealing))).

Definition local_testnet_config (base_path : BasePath) (chain_id : string)
  : result string (ChainSpec RuntimeGenesisConfig) :=
  let? wasm_binary := ok_or WASM_BINARY "Development wasm not available"%string in
  Ok (mk_spec "Local Testnet" chain_id LocalChain (fun d =>
        let! genesis_loader := load_genesis (config_dir base_path chain_id) d in
        let! alice := authority_keys_from_seed "Alice" in
        let! bob := authority_keys_from_seed "Bob" in
        testnet_genesis genesis_loader wasm_binary [alice; bob] d)).

End chain_spec.

(** ** The genesis storage and the genesis block *)
Section genesis.
  Context `{FS : FileSystem} `{SF : StarknetFf} `{SA : StarknetApi} `{PT : PrimitiveTypes} `{SC : StarknetCrypto}.
  Context `{FX : FixedPoint} `{LC : LogCodec} `{BL : Blockifier} {CFG : Config} {GF : GenesisFormat} {NE : NodeEnvironment}.

(** [DevGenesisExt::assimilate_storage], on the storage items [Sealing] and those
    of the pallet. *)
Definition dev_assimilate_storage (ext : DevGenesisExt) : eff (SealingMode * Pallet) unit :=
  on_fst (eput (fun _ => dev_sealing ext)) ;;;
  on_snd (genesis_build (starknet_config (dev_genesis_config ext))).

(** The generated [assimilate_storage] of the runtime, which does not know [Sealing]. *)
Definition runtime_assimilate_storage (config : RuntimeGenesisConfig) : eff (SealingMode * Pallet) unit :=
  on_snd (genesis_build (starknet_config config)).

(** The header of the genesis block, which has no extrinsics.  [trie_root] and the
    default of a hash are Substrate's. *)
Record GenesisHeader (BHash : Type) := mk_genesis_header {
  gh_header : SubHeader BHash;
  gh_extrinsics_root : BHash;
  gh_state_root : BHash;
}.

Definition construct_genesis_block {BHash StateVersion : Type} (trie_root : list (list byte) -> StateVersion -> BHash)
    (hash_default : BHash) (state_root : BHash) (state_version : StateVersion) : GenesisHeader BHash :=
  let extrinsics_root := trie_root [] state_version in
  let digest := [DIConsensus MADARA_ENGINE_ID (log_encode (LogBlock block_default))] in
  mk_genesis_header _ (mk_sub 0 hash_default digest) extrinsics_root state_root.

(** The storage that a chain with this genesis starts from. *)
Definition genesis_start (loader : GenesisLoader) (d : Disk) : outcome (unit * Pallet) :=
  let! config := genesis_config_from loader d in
  genesis_build config (empty_pallet 0).

End genesis.
Arguments gh_header {BHash}.

(** *** The configuration of the runtime

    [impl pallet_starknet::Config for Runtime] of [runtime/src/pallets.rs], with the
    default features. *)
Definition runtime_config `{StarknetFf} `{StarknetCrypto} : Config := {|
  SystemHash := PedersenHasher;
  L1GasPrice := mk_rp None 10;
  TransactionLongevity := u64_max;
  DisableTransactionFee := false;
  DisableNonceValidation := false;
  InvokeTxMaxNSteps := 1000000;
  ValidateMaxNSteps := 1000000;
  ProtocolVersion := 0;
  ChainId := SN_GOERLI_CHAIN_ID;
  MaxRecursionDepth := 50;
  ProgramHash := SN_OS_PROGRAM_HASH;
|}.

(** ** Which genesis a chain starts from *)

(** The map a list of entries builds: the last entry of a key counts. *)
Definition entries {K A} `{Countable K} (l : list (K * A)) : gmap K A := list_to_map (reverse l).

Lemma foldl_entries {K A} `{Countable K} (l : list (K * A)) :
  foldl (fun m kv => <[fst kv := snd kv]> m) (∅ : gmap K A) l = entries l.
Proof.
  unfold entries. induction l as [|[k a] l IH] using rev_ind; [done|]. by rewrite foldl_app, reverse_snoc, IH.
Qed.

Lemma entries_lookup {K A} `{Countable K} (l : list (K * A)) k : is_Some (entries l !! k) <-> k ∈ l.*1.
Proof.
  unfold entries. split.
  - intros [a Ha]. apply elem_of_list_to_map_2 in Ha. rewrite elem_of_reverse in Ha. apply list_elem_of_fmap. by exists (k, a).
  - intros Hk. destruct (list_to_map (reverse l) !! k) eqn:E; [eauto|]. apply not_elem_of_list_to_map in E.
    destruct E. by rewrite fmap_reverse, elem_of_reverse.
Qed.

Lemma entries_elem {K A} `{Countable K} (l : list (K * A)) k a : entries l !! k = Some a -> (k, a) ∈ l.
Proof. unfold entries. intros Ha. apply elem_of_list_to_map_2 in Ha. by rewrite elem_of_reverse in Ha. Qed.

Lemma entries_unique {K A} `{Countable K} (l : list (K * A)) k a : NoDup l.*1 -> (k, a) ∈ l -> entries l !! k = Some a.
Proof.
  intros Hn Ha. apply elem_of_list_to_map_1; [|by rewrite elem_of_reverse].
  by rewrite fmap_reverse, reverse_Permutation.
Qed.

(** Running a [map] whose closure may panic, element by element. *)
Lemma traverse_iff {A B} (f : A -> outcome B) l ys : traverse f l = Ret ys <-> Forall2 (fun x y => f x = Ret y) l ys.
Proof.
  split; [apply traverse_inv|]. induction 1 as [|x y l ys Hx _ IH]; simpl; [done|]. by rewrite Hx, IH.
Qed.

Lemma forallb_same {A} (f g : A -> bool) l : (forall x, f x = g x) -> forallb f l = forallb g l.
Proof. intros Hf. induction l as [|x l IH]; simpl; [done|]. by rewrite Hf, IH. Qed.

Section genesis_loops.
  Context `{BL : Blockifier}.

(** A loop of the genesis build over one map of the world: the setter [F] of the map
    respects composition, and classes are looked up in a map that [F] leaves alone. *)
Context {X K A : Type} `{Countable K} (F : (gmap K A -> gmap K A) -> World -> World).
Context (F_id : forall w, F (fun m => m) w = w) (F_comp : forall f g w, F f (F g w) = F (fun m => f (g m)) w).
Context (entry : X -> K * A).

Definition put_all (l : list X) (m : gmap K A) : gmap K A := foldl (fun m kv => <[fst kv := snd kv]> m) m (map entry l).

Lemma efor_put (body : X -> eff Pallet unit) l p :
  (forall x, body x = eput (set_world (F (insert (fst (entry x)) (snd (entry x)))))) ->
  efor_ body l p = Ret (tt, set_world (F (put_all l)) p).
Proof.
  intros Hb. revert p. induction l as [|x l IH]; intros p; cbn [efor_].
  - unfold eret, set_world, put_all. simpl. rewrite F_id. by destruct p.
  - unfold ebind. rewrite Hb. unfold eput. rewrite IH. unfold set_world. simpl. rewrite F_comp. done.
Qed.

Lemma efor_checked (body : X -> eff Pallet unit) (check : X -> ClassHash) l p :
  (forall f w, contract_classes (F f w) = contract_classes w) ->
  (forall x, body x = (p <-- eget id;; eassert (has_class p (check x)) ;;;
                       eput (set_world (F (insert (fst (entry x)) (snd (entry x))))))) ->
  efor_ body l p
  = if forallb (fun x => has_class p (check x)) l then Ret (tt, set_world (F (put_all l)) p) else Panic.
Proof.
  intros HF Hb. revert p. induction l as [|x l IH]; intros p; cbn [efor_ forallb].
  - unfold eret, set_world, put_all. simpl. rewrite F_id. by destruct p.
  - unfold ebind at 1. rewrite Hb. unfold ebind, eget, eassert, eput. cbn [id].
    destruct (has_class p (check x)); [|done]. rewrite IH. cbn [andb].
    assert (Hc : forall c, has_class (set_world (F (insert (fst (entry x)) (snd (entry x)))) p) c = has_class p c).
    { intros c. unfold has_class. simpl. by rewrite HF. }
    rewrite (forallb_same _ (fun x => has_class p (check x))) by (intros; apply Hc).
    destruct (forallb _ l); [|done]. unfold set_world. simpl. rewrite F_comp. done.
Qed.

End genesis_loops.
#[local] Arguments put_all : simpl never.

(** ** The genesis build *)
Section genesis_properties.
  Context `{FS : FileSystem} `{SF : StarknetFf} {SFL : StarknetFfLaws} `{SA : StarknetApi} {SAL : StarknetApiLaws}.
  Context `{PT : PrimitiveTypes} {PTL : PrimitiveTypesLaws} `{SC : StarknetCrypto}.
  Context `{FX : FixedPoint} `{LC : LogCodec} {LCL : LogCodecLaws} `{BL : Blockifier} {CFG : Config} {GF : GenesisFormat}.

(** The hash of a class read from the genesis data. *)
Definition class_hash_of (h : HexFelt) : ClassHash := to_new ClassHashT (mk_felt (hex0 h)).
Definition address_of (h : HexFelt) : ContractAddress := to_new ContractAddressT (mk_felt (hex0 h)).

(** An entry of the genesis data gives a class: it holds the class, or it names a
    file that reads as a class of version 0, or as a compiled class of version 1. *)
Definition class_loads (loader : GenesisLoader) (d : Disk) (e : HexFelt * GenesisClass) (c : ClassHash * ContractClass)
  : Prop :=
  fst c = class_hash_of (fst e)
  /\ match snd e with
     | GClass class => snd c = class
     | GPath path version =>
         exists json, read_to_string (path_join (loader_base_path loader) (path_of path)) d = Ok json
         /\ ((version = 0 /\ class_v0_from_str json = Ok (snd c))
             \/ (version = 1 /\ exists casm, casm_from_str json = Ok casm /\ class_v1_try_from casm = Ok (snd c)))
     end.

(** The configuration that the data and the loaded classes make up. *)
Definition config_of (g : GenesisData) (classes : list (ClassHash * ContractClass)) : GenesisConfig :=
  mk_genesis (map (fun '(a, h) => (address_of a, class_hash_of h)) (gd_contracts g))
    (map (fun '(s, c) => (class_hash_of s, class_hash_of c)) (gd_sierra_class_hash_to_casm_class_hash g))
    classes
    (map (fun '(k, v) => ((address_of (fst k), to_new StorageKeyT (mk_felt (hex0 (snd k)))), to_stark (mk_felt (hex0 v))))
       (gd_storage g))
    (address_of (gd_fee_token_address g)).

Lemma read_class_exact json version class :
  read_contract_class_from_json json version = Ret class <->
  (version = 0 /\ class_v0_from_str json = Ok class)
  \/ (version = 1 /\ exists casm, casm_from_str json = Ok casm /\ class_v1_try_from casm = Ok class).
Proof.
  unfold read_contract_class_from_json. destruct (Z.eqb_spec version 0) as [->|H0].
  { destruct (class_v0_from_str json); simpl; split; intros H; intuition congruence. }
  destruct (Z.eqb_spec version 1) as [->|H1]; [|split; [done|intuition]].
  destruct (casm_from_str json) as [casm|]; simpl;
    [|split; [done|]; intros [[]|(_ & ? & ? & _)]; congruence].
  destruct (class_v1_try_from casm) eqn:E; simpl; split; intros H; simplify_eq; eauto 6;
    destruct H as [[]|(_ & ? & ? & ?)]; congruence.
Qed.

Lemma load_class_exact loader d e c : load_class loader d e = Ret c <-> class_loads loader d e c.
Proof.
  destruct e as [h [path version|class]], c as [c k]; unfold load_class, class_loads; cbn [fst snd];
    rewrite felt_into_new_ret; cbn [outcome_bind]; fold (class_hash_of h).
  - destruct (read_to_string _ d) as [json|] eqn:Er; cbn [unwrap outcome_bind].
    2: { split; [done|]. intros (_ & ? & ? & _). done. }
    pose proof (read_class_exact json version) as Hx.
    destruct (read_contract_class_from_json json version) as [k'|]; cbn [outcome_bind]; split.
    + intros [= <- <-]. split; [done|]. exists json. split; [done|]. by apply Hx.
    + intros (-> & json' & [= <-] & Hk). apply Hx in Hk. by injection Hk as ->.
    + done.
    + intros (-> & json' & [= <-] & Hk). by apply Hx in Hk.
  - split; [by intros [= <- <-]|]. by intros [-> ->].
Qed.

Lemma classes_exact loader d l classes :
  traverse (load_class loader d) l = Ret classes <-> Forall2 (class_loads loader d) l classes.
Proof.
  rewrite traverse_iff. split; intros H; (eapply Forall2_impl; [|exact H]); intros; by apply load_class_exact.
Qed.

Lemma genesis_config_exact loader d g :
  genesis_config_from loader d = Ret g <->
  exists classes, Forall2 (class_loads loader d) (gd_contract_classes (loader_data loader)) classes
                  /\ g = config_of (loader_data loader) classes.
Proof.
  unfold genesis_config_from.
  rewrite (traverse_ret _ (fun '(s, c) => (class_hash_of s, class_hash_of c)))
    by (intros [s c] _; by rewrite !felt_into_new_ret).
  rewrite (traverse_ret _ (fun '(a, h) => (address_of a, class_hash_of h)))
    by (intros [a h] _; by rewrite !felt_into_new_ret).
  rewrite (traverse_ret _ (fun '(k, v) =>
      ((address_of (fst k), to_new StorageKeyT (mk_felt (hex0 (snd k)))), to_stark (mk_felt (hex0 v)))))
    by (intros [k v] _; by rewrite !felt_into_new_ret, felt_into_stark_ret).
  rewrite felt_into_new_ret. cbn [outcome_bind].
  setoid_rewrite <- classes_exact.
  destruct (traverse (load_class loader d) _) as [classes|]; cbn [outcome_bind].
  - split; [intros [= <-]; by exists classes|]. by intros (? & [= <-] & ->).
  - split; [done|]. by intros (? & ? & _).
Qed.

(** The classes that contracts and Sierra classes refer to are part of the genesis. *)
Definition coherent (g : GenesisConfig) : bool :=
  forallb (fun x => bool_decide (fst x ∈ (gen_contract_classes g).*1)) (gen_sierra_to_casm_class_hash g)
  && forallb (fun x => bool_decide (snd x ∈ (gen_contract_classes g).*1)) (gen_contracts g).

(** The storage after the genesis build, [h] being the hash of block 0. *)
Definition genesis_pallet (g : GenesisConfig) (h : Felt252Wrapper) : Pallet :=
  mk_pallet _
    (mk_world _ (entries (gen_contracts g)) (entries (gen_contract_classes g))
       (entries (map (fun x => (fst x, mk_new (new0 (snd x)))) (gen_sierra_to_casm_class_hash g))) ∅
       (entries (gen_storage g)))
    (mk_ledger [] [] ∅ ∅ ∅ {[0 := h]} None (gen_fee_token_address g) (mk_new stark_default) (Some true) ∅)
    (mk_system 0 [block_digest (new_block (empty_pallet 0) 0)] [] 0 (Some V1)).

Lemma put_all_entries {K A} `{Countable K} (l : list (K * A)) : put_all id l ∅ = entries l.
Proof. unfold put_all. by rewrite map_id, foldl_entries. Qed.

Lemma genesis_build_exact g h :
  header_hash (b_header (new_block (empty_pallet 0) 0)) = Ret h ->
  genesis_build g (empty_pallet 0) = if coherent g then Ret (tt, genesis_pallet g h) else Panic.
Proof.
  intros Hh. unfold genesis_build. unfold ebind at 1.
  assert (store_block 0 (empty_pallet 0) = Ret (tt, with_block (empty_pallet 0) 0 h)) as ->.
  { unfold store_block, ebind, eget, eassert, eput, elift. cbn [id]. rewrite Hh. reflexivity. }
  unfold ebind at 1, eput at 1. unfold ebind at 1. rewrite (efor_put set_contract_classes ltac:(by intros []) ltac:(by intros ? ? []) id) by (by intros []).
  set (q := set_world _ (set_system _ _)).
  assert (Hq : forall c, has_class q c = bool_decide (c ∈ (gen_contract_classes g).*1)).
  { intros c. unfold has_class. subst q. cbn. rewrite put_all_entries. apply bool_decide_ext, entries_lookup. }
  unfold ebind at 1. unfold coherent.
  rewrite (efor_checked set_compiled_class_hashes ltac:(by intros []) ltac:(by intros ? ? [])
             (fun x : ClassHash * ClassHash => (fst x, mk_new (new0 (snd x)))) _ fst) by (by intros ? [] || by intros []).
  rewrite (forallb_same _ _ _ (fun x => Hq (fst x))). destruct (forallb _ (gen_sierra_to_casm_class_hash g)); [|done].
  set (q2 := set_world _ q). assert (Hq2 : forall c, has_class q2 c = has_class q c) by done.
  unfold ebind at 1.
  rewrite (efor_checked set_contract_class_hashes ltac:(by intros []) ltac:(by intros ? ? []) id _ snd)
    by (by intros ? [] || by intros []).
  rewrite (forallb_same _ _ _ (fun x => eq_trans (Hq2 (snd x)) (Hq (snd x)))).
  destruct (forallb _ (gen_contracts g)); [|done]. cbn [andb].
  unfold ebind at 1. rewrite (efor_put set_storage_view ltac:(by intros []) ltac:(by intros ? ? []) id) by (by intros []).
  unfold ebind, eput, genesis_pallet. subst q q2. rewrite <- !put_all_entries.
  unfold put_all. rewrite !map_id. reflexivity.
Qed.

Lemma genesis_header_wf : in_width 8 ProtocolVersion = true -> header_wf (b_header (new_block (empty_pallet 0) 0)).
Proof. intros Hv. constructor; first [apply to_stark_canonical|apply stark_default_canonical|done]. Qed.

(** C24: which genesis a chain starts from, and in what state.  The genesis data read
    from the configuration directory gives a storage exactly when every class of it
    can be loaded (from the data itself, or from a file of version 0 or 1) and the
    classes that contracts and Sierra classes refer to are among them; everything else
    panics.  The storage then holds the contracts, classes, compiled class hashes and
    storage entries of the data, the last entry of a key counting, and the hash of
    block 0.  Every deployed contract has its class, and a contract whose address
    occurs once has the class hash the data gives it. *)
Theorem genesis_state (loader : GenesisLoader) (d : Disk) (p : Pallet) :
  in_width 8 ProtocolVersion = true ->
  ((exists q, genesis_start loader d = Ret (tt, q)) <->
   exists classes, Forall2 (class_loads loader d) (gd_contract_classes (loader_data loader)) classes
                   /\ coherent (config_of (loader_data loader) classes) = true)
  /\ (genesis_start loader d = Ret (tt, p) ->
      (exists classes h, Forall2 (class_loads loader d) (gd_contract_classes (loader_data loader)) classes
                         /\ header_hash (b_header (new_block (empty_pallet 0) 0)) = Ret h
                         /\ p = genesis_pallet (config_of (loader_data loader) classes) h)
      /\ (forall a c, contract_class_hashes (world p) !! a = Some c -> is_Some (contract_classes (world p) !! c))
      /\ (forall a c, NoDup (map (fun x => address_of (fst x)) (gd_contracts (loader_data loader))) ->
           (a, c) ∈ gd_contracts (loader_data loader) ->
           contract_class_hashes (world p) !! address_of a = Some (class_hash_of c))).
Proof.
  intros Hv. destruct (header_hash_ret _ (genesis_header_wf Hv)) as [h Hh]. unfold genesis_start.
  pose proof (genesis_config_exact loader d) as Hc. destruct (genesis_config_from loader d) as [g|]; cbn [outcome_bind].
  2: { split; [|done]. split; [by intros []|]. intros (classes & Hl & _). specialize (Hc (config_of (loader_data loader) classes)).
       destruct Hc as [_ Hc]. by discriminate Hc; exists classes. }
  destruct (proj1 (Hc g) eq_refl) as (classes & Hl & ->). rewrite (genesis_build_exact _ h Hh). split.
  - split.
    + intros [q Hq]. exists classes. split; [done|]. by destruct (coherent _).
    + intros (classes' & Hl' & Hco). assert (E : Ret (config_of (loader_data loader) classes) = Ret (config_of (loader_data loader) classes'))
        by (apply Hc; by exists classes').
      injection E as ->. rewrite Hco. by eexists.
  - destruct (coherent (config_of (loader_data loader) classes)) eqn:Hco; [|done]. intros [= <-]. split_and!.
    + by exists classes, h.
    + intros a c Ha. cbn in Ha |- *. apply entries_lookup. apply entries_elem in Ha. apply andb_true_iff in Hco as [_ Hco].
      rewrite forallb_forall in Hco. apply list_elem_of_In, Hco, bool_decide_eq_true in Ha. exact Ha.
    + intros a c Hn Ha. apply (entries_unique (gen_contracts (config_of (loader_data loader) classes))).
      * change (NoDup (map fst (map (fun '(a, h) => (address_of a, class_hash_of h)) (gd_contracts (loader_data loader))))).
        rewrite map_map. erewrite map_ext; [exact Hn|]. by intros [].
      * apply list_elem_of_In, in_map_iff. exists (a, c). split; [done|by apply list_elem_of_In].
Qed.

(** *** The genesis block *)

Lemma to_stark_zero : to_stark ZERO = stark_default.
Proof. apply stark_val_inj. unfold stark_val, to_stark. simpl. rewrite felt_to_array_val. reflexivity. Qed.

Lemma run_first c l c' b : run c l = Some c' -> sealed c !! 0%nat = Some b -> sealed c' !! 0%nat = Some b.
Proof.
  revert c. induction l as [|a l IH]; intros c; cbn [run]; [by intros [= ->]|].
  destruct (act c a) as [c1|] eqn:E; [|done]. intros Hr Hb. apply (IH c1); [done|].
  apply act_step in E. destruct E; cbn in *; [done|done|]. by rewrite lookup_app_l by (by eapply lookup_lt_Some).
Qed.

Lemma run_from_first g l c : run_from g 0 l = Some c -> sealed c !! 0%nat = Some (new_block (empty_pallet 0) 0).
Proof.
  unfold run_from, start. destruct (in_width 64 0) eqn:Hw; [|done].
  destruct (genesis_build g _) as [[[] p]|] eqn:E2; [|done]. destruct (find_starknet_block _) as [b0|] eqn:E3; [|done].
  intros Hr. rewrite (run_first _ _ _ b0 Hr eq_refl).
  apply genesis_build_inv in E2 as (h & w & _ & _ & ->). by apply (sealed_digest _ _ h) in E3 as ->.
Qed.

(** The default header and that of the pallet's block 0 differ in the protocol
    version, if at all. *)
Lemma genesis_headers : in_width 8 ProtocolVersion = true ->
  exists d1 d2, header_data header_default = Ret d1 /\ header_data (b_header (new_block (empty_pallet 0) 0)) = Ret d2
  /\ (d1 = d2 <-> ProtocolVersion = 0).
Proof.
  intros Hv. destruct (header_data_ret header_default) as (d1 & E1 & V1).
  { constructor; first [apply stark_default_canonical|done]. }
  destruct (header_data_ret _ (genesis_header_wf Hv)) as (d2 & E2 & V2). exists d1, d2. split_and!; [done|done|].
  cbn [b_header new_block h_parent_block_hash h_protocol_version] in V2.
  change (parent_block_hash (empty_pallet 0) 0) with ZERO in V2. rewrite to_stark_zero in V2. split.
  - intros ->. rewrite V1 in V2. by injection V2.
  - intros Hz. rewrite Hz in V2. apply felt_vals_inj. by rewrite V1, V2.
Qed.

Section digest.
  Context {BLL : BlockifierLaws} `{CM : Commit} {BHash : Type} {SH : Scale BHash} {SHs : Scale (list BHash)}.
  Context {SB : Scale bool} {SFe : Scale StarkFelt} {SFs : Scale (list StarkFelt)}.
  Context (cache_more_things : bool) (sub_hash : SubHeader BHash -> BHash).

(** C25: the genesis block of the node is the block 0 of the pallet.  The node puts a
    default Starknet block into the digest of the genesis block, the mapping
    synchronisation records the genesis under the hash [f] of that block, and the
    pallet, on any chain that runs from a genesis, names the hash [h] it computed for
    its own block 0 as the parent of block 1.  The two hashes are equal when the
    protocol version is 0, as the runtime configures it; if they are equal with
    another version, the two headers are a collision of the hash function. *)
Theorem genesis_block_agrees {StateVersion : Type} (trie_root : list (list byte) -> StateVersion -> BHash)
    (hash_default state_root : BHash) (state_version : StateVersion) (g : GenesisConfig) (l : list action) (c : Chain) :
  in_width 8 ProtocolVersion = true -> run_from g 0 l = Some c ->
  let header := gh_header (construct_genesis_block trie_root hash_default state_root state_version) in
  exists f h,
    find_starknet_block (sub_digest header) = Ok block_default
    /\ header_hash (b_header block_default) = Ret f
    /\ (forall db, sync_genesis_block cache_more_things sub_hash header db
                   = db_op (write_hashes cache_more_things (mk_commitment (sub_hash header) (to_stark f) [])) db)
    /\ block_hash (ledger (state c)) !! 0 = Some h
    /\ (forall b, sealed c !! 1%nat = Some b -> h_parent_block_hash (b_header b) = to_stark h)
    /\ (ProtocolVersion = 0 -> f = h)
    /\ (f = h -> ProtocolVersion = 0
                 \/ exists d1 d2, d1 <> d2 /\ compute_hash_on_wrappers d1 = compute_hash_on_wrappers d2).
Proof.
  intros Hv Hr header. destruct (genesis_headers Hv) as (d1 & d2 & E1 & E2 & Hd).
  pose proof (reachable_inv _ (run_from_reachable _ _ _ _ Hr)) as Hi.
  pose proof (run_from_first _ _ _ Hr) as H0. destruct (ci_linked _ Hi _ _ H0) as [_ (h & Hh & Eh) _ _].
  exists (compute_hash_on_wrappers d1), h.
  assert (Hb : find_starknet_block (sub_digest header) = Ok block_default).
  { change (sub_digest header) with [block_digest block_default].
    unfold find_starknet_block, find_log. cbn [find_log_loop]. by rewrite try_to_log_block. }
  unfold header_hash in Eh. rewrite E2 in Eh. cbn [outcome_bind] in Eh. injection Eh as <-.
  split_and!; [done|unfold header_hash; cbn [b_header block_default]; by rewrite E1| |done| | |].
  - intros db. unfold sync_genesis_block. rewrite Hb. unfold header_hash. cbn [b_header block_default]. by rewrite E1.
  - intros b Hb1. destruct (ci_linked _ Hi _ _ Hb1) as [_ _ (b' & h' & Hb' & Eh' & ->) _].
    rewrite H0 in Hb'. injection Hb' as <-. unfold header_hash in Eh'. rewrite E2 in Eh'. by injection Eh' as <-.
  - intros Hz. apply Hd in Hz. by subst.
  - intros He. destruct (decide (d1 = d2)) as [Hq|Hq]; [left; by apply Hd|right; by exists d1, d2].
Qed.

End digest.
End genesis_properties.

(** ** Private keys

    [hex_to_buffer] reads bare digits, but [buffer_to_hex] writes a prefix that no
    decoder of digits accepts, so what is written is never read back. *)
Theorem private_keys_not_read_back `{HX : HexCrate} {HXL : HexCrateLaws} (b : list byte) :
  (b <> [] -> hex_to_buffer (Ok (hex_encode b)) = Ok (Some b))
  /\ exists s, buffer_to_hex (Some b) = SerializeStr s /\ hex_to_buffer (Ok s) = Err Custom.
Proof.
  split.
  - intros Hb. unfold hex_to_buffer. cbn [result_bind]. destruct (String.eqb_spec (hex_encode b) "") as [He|_].
    + by apply hex_encode_empty in He.
    + by rewrite hex_decode_encode.
  - eexists. split; [reflexivity|]. unfold hex_to_buffer. cbn [result_bind String.append String.eqb].
    destruct (hex_decode _) as [b'|] eqn:E; [|done]. apply hex_decode_digits in E. cbn [String.list_ascii_of_string] in E.
    inversion E as [|? ? _ E']. by inversion E'.
Qed.

(** ** Witnesses *)
Module GenesisWitness.
Export ChainWitness DbWitness MemoryFiles.

(** A configuration directory with a genesis file and a class of version 0. *)
Definition w_data : GenesisData := {|
  gd_contract_classes := [(mk_hex (felt0 (felt_of_Z 1)), GPath "genesis-assets/Account.json" 0)];
  gd_sierra_class_hash_to_casm_class_hash := [];
  gd_contracts := [(mk_hex (felt0 account), mk_hex (felt0 (felt_of_Z 1)))];
  gd_predeployed_accounts := [];
  gd_storage := [];
  gd_fee_token_address := mk_hex (felt0 (felt_of_Z 3));
|}.

#[export] Instance w_format : GenesisFormat := {|
  JsonError := unit;
  genesis_from_str s := if String.eqb s "genesis" then Ok w_data else Err tt;
  class_v0_from_str s := if String.eqb s "class" then Ok 0%nat else Err tt;
  CasmContractClass := unit;
  casm_from_str _ := Err tt;
  class_v1_try_from _ := Err tt;
|}.

Definition w_dir : Path := path_of "/madara/chains/dev".
Definition w_disk : Disk :=
  <[path_of "/madara/chains/dev/genesis-assets/genesis.json" := bytes_of "genesis"]>
  {[path_of "/madara/chains/dev/genesis-assets/Account.json" := bytes_of "class"]}.
Definition w_loader : GenesisLoader := mk_loader _ w_dir w_data.

Lemma w_loads : load_genesis w_dir (w_disk : Disk) = Ret w_loader.
Proof. vm_compute. reflexivity. Qed.

End GenesisWitness.
Import GenesisWitness.

Lemma w_version : in_width 8 (@ProtocolVersion config) = true.
Proof. reflexivity. Qed.

Lemma genesis_state_witness :
  exists p, genesis_start w_loader w_disk = Ret (tt, p)
  /\ contract_class_hashes (world p) !! to_new ContractAddressT account = Some (to_new ClassHashT (felt_of_Z 1)).
Proof.
  destruct (genesis_state w_loader w_disk (empty_pallet 0) w_version) as [[_ Hs] _].
  destruct Hs as [p Hp].
  { exists [(class_hash_of (mk_hex (felt0 (felt_of_Z 1))), 0%nat)]. split; [|vm_compute; reflexivity].
    constructor; [|constructor]. split; [reflexivity|]. exists "class"%string. split; [vm_compute; reflexivity|].
    left. split; reflexivity. }
  exists p. split; [exact Hp|].
  destruct (genesis_state w_loader w_disk p w_version) as [_ H]. destruct (H Hp) as (_ & _ & Hc).
  apply (Hc (mk_hex (felt0 account)) (mk_hex (felt0 (felt_of_Z 1)))); [apply NoDup_singleton|left].
Defined.

Lemma genesis_block_agrees_witness :
  exists f, header_hash header_default = Ret f /\ block_hash (ledger (state w_chain)) !! 0 = Some f
  /\ forall b, sealed w_chain !! 1%nat = Some b -> h_parent_block_hash (b_header b) = to_stark f.
Proof.
  destruct (genesis_block_agrees (BHash := Z) true sub_number (fun _ _ => 7) 0 8 tt w_genesis w_actions w_chain w_version w_run)
    as (f & h & _ & Hf & _ & Hh & Hb & He & _).
  specialize (He eq_refl). subst h. exists f. split; [exact Hf|]. split; [exact Hh|exact Hb].
Defined.
