(* ===== verification/Setup.v ===== *)
(** * The setup command

    Models [crates/node/src/commands/setup.rs] and [configs.rs]: copying the
    configuration of a chain, from a directory or over the network, into the
    configuration directory, with the checksums of the index.  The theorems say
    what is installed when the command succeeds and what is not when it fails,
    and that a chain then starts from the genesis that was installed. *)
From S2P Require Import Prelude Bytes Deps Felt Hashers Transactions ComputeHash Blockifier Conversions Fee.
From S2P Require Import Execution Block CallTrace PalletStorage Pallet PalletEffects PalletProperties Chain ChainRun.
From S2P Require Import Db MappingSync Files Genesis.
Local Open Scope Z_scope.

(** ** The index *)
Record FileInfos := mk_file { fi_name : string; fi_sha3_256 : option string; fi_url : option string }.
Record Configs := mk_configs { remote_base_path : string; genesis_assets : list FileInfos }.

(** ** The command line *)
Record SetupSource := mk_source { from_remote : option string; from_local : option string }.
Record SetupCmd := mk_setup { setup_chain : option string; setup_base_path : option Path; setup_source : SetupSource }.

Definition setup_chain_id (cmd : SetupCmd) : string := default "" (setup_chain cmd).

(** URLs and requests; the answer to a request depends on how many were made
    before.  [configs_from_slice] is [serde_json], [sha3_256_hex] the digest printed
    in hexadecimal. *)
Class Remote := {
  Url : Type;
  UrlError : Type;
  url_parse : string -> result UrlError Url;
  url_join : Url -> string -> result UrlError Url;
  HttpError : Type;
  http_get : nat -> Url -> result HttpError (list byte);
  ConfigsError : Type;
  configs_from_slice : list byte -> result ConfigsError Configs;
  sha3_256_hex : list byte -> string;
}.

(** [sc_cli::Error]: the messages keep their parts. *)
Inductive AppError `{Remote} :=
| AppIo (e : IoError) | AppUrl (e : UrlError) | AppHttp (e : HttpError) | AppJson (e : ConfigsError).
Inductive InputMessage `{Remote} :=
| InvalidUrl (e : UrlError) | MissingSource (p : Path) | DigestMismatch (name hash file_hash : string).
Inductive Error `{Remote} := Application (e : AppError) | Input (m : InputMessage) | Io (e : IoError).

Inductive ConfigSource `{Remote} := Local (path : Path) | RemoteAt (url : Url).

Section setup.
  Context `{FS : FileSystem} {RM : Remote} {NE : NodeEnvironment}.

(** The disk, and the number of requests made. *)
Abbreviation World := (Disk * nat)%type.

Definition fetch (url : Url) : effr World HttpError (list byte) := fun '(d, n) => Ret (http_get n url, (d, S n)).

(** The source that is displayed, with the children joined. *)
Fixpoint join_url (url : Url) (childs : list string) : result UrlError Url :=
  match childs with
  | [] => Ok url
  | child :: childs' => let? full := url_join url child in join_url full childs'
  end.

Definition display (source : ConfigSource) (child_path : option (list string)) : result Error ConfigSource :=
  match source with
  | Local path_buf =>
      Ok (Local (foldl (fun full child => path_join full (path_of child)) path_buf (default [] child_path)))
  | RemoteAt url => map_err (fun e => Application (AppUrl e)) (result_map RemoteAt (join_url url (default [] child_path)))
  end.

Definition load_config (source : ConfigSource) : effr World Error (list byte) :=
  match source with
  | Local source_configs_path =>
      let index_file_path := path_join source_configs_path (path_of "index.json") in
      emap_err (fun e => Application (AppIo e)) (on_fst (io_read (fs_read index_file_path)))
  | RemoteAt source_configs_url => emap_err (fun e => Application (AppHttp e)) (fetch source_configs_url)
  end.

Definition load_asset (source : ConfigSource) (asset : FileInfos) : effr World Error (list byte) :=
  match source with
  | Local source_config_dir_path =>
      let asset_path := path_join (path_join source_config_dir_path (path_of GENESIS_ASSETS_DIR)) (path_of (fi_name asset)) in
      found <-- on_fst (eget (fs_exists asset_path));;
      if negb found then eret (Err (Input (MissingSource asset_path)))
      else emap_err Io (on_fst (io_read (fs_read asset_path)))
  | RemoteAt source_configs_dir_url =>
      dir_url <-? eret (map_err (fun e => Application (AppUrl e)) (url_join source_configs_dir_url GENESIS_ASSETS_DIR));;
      full_url <-? eret (map_err (fun e => Application (AppUrl e)) (url_join dir_url (fi_name asset)));;
      emap_err (fun e => Application (AppHttp e)) (fetch full_url)
  end.

(** The check of the [sha3_256] of an asset. *)
Definition check_digest (asset : FileInfos) (asset_file_content : list byte) : result Error unit :=
  match fi_sha3_256 asset with
  | Some file_hash =>
      let hash := sha3_256_hex asset_file_content in
      if String.eqb hash file_hash then Ok tt else Err (Input (DigestMismatch (fi_name asset) hash file_hash))
  | None => Ok tt
  end.

(** The body of the loop over the assets. *)
Definition install_asset (source : ConfigSource) (assets_dir_dest_path : Path) (asset : FileInfos) : effr World Error unit :=
  asset_file_content <-? load_asset source asset;;
  eret (check_digest asset asset_file_content) ;;?
  let asset_dest_path := path_join assets_dir_dest_path (path_of (fi_name asset)) in
  eret (display source (Some [GENESIS_ASSETS_DIR; fi_name asset])) ;;?
  emap_err Io (on_fst (write_content_to_disk asset_file_content asset_dest_path)).

(** [dest_config_dir_path] and [config_source] of [run]. *)
Definition dest_config_dir (cmd : SetupCmd) : Path :=
  config_dir (default from_project (option_map base_path_from (setup_base_path cmd))) (setup_chain_id cmd).

Definition config_source (cmd : SetupCmd) : outcome (result Error ConfigSource) :=
  match from_local (setup_source cmd) with
  | Some src_cfg_dir_path => Ret (Ok (Local (path_of src_cfg_dir_path)))
  | None =>
      match from_remote (setup_source cmd) with
      | Some src_cfg_dir_url =>
          Ret (let? url := map_err (fun e => Input (InvalidUrl e)) (url_parse src_cfg_dir_url) in Ok (RemoteAt url))
      | None => Panic
      end
  end.

Definition setup_run (cmd : SetupCmd) : effr World Error unit :=
  let dest_config_dir_path := dest_config_dir cmd in
  source <-? elift (config_source cmd);;
  configs_file_content <-? load_config source;;
  configs <-? eret (map_err (fun e => Application (AppJson e)) (configs_from_slice configs_file_content));;
  emap_err Io (on_fst (write_content_to_disk configs_file_content (path_join dest_config_dir_path (path_of "index.json")))) ;;?
  let assets_dir_dest_path := path_join dest_config_dir_path (path_of GENESIS_ASSETS_DIR) in
  efor (install_asset source assets_dir_dest_path) (genesis_assets configs).

End setup.

(** ** What a run installs *)
Section setup_properties.
  Context `{FS : FileSystem} {FSL : FileSystemLaws} {RM : Remote} {NE : NodeEnvironment}.

Definition index_path (dir : Path) : Path := path_join dir (path_of "index.json").
Definition asset_path (dir : Path) (a : FileInfos) : Path :=
  path_join (path_join dir (path_of GENESIS_ASSETS_DIR)) (path_of (fi_name a)).

(** A content passes the checksum of the index, if it has one. *)
Definition verified (a : FileInfos) (c : list byte) : bool :=
  match fi_sha3_256 a with Some h => String.eqb (sha3_256_hex c) h | None => true end.

(** What the source answers: from the disk [d], or to the request number [n]. *)
Definition provides_index (source : ConfigSource) (d : Disk) (n : nat) (c : list byte) : Prop :=
  match source with
  | Local p => held (index_path p) d = Some c
  | RemoteAt u => http_get n u = Ok c
  end.
Definition provides (source : ConfigSource) (d : Disk) (n : nat) (a : FileInfos) (c : list byte) : Prop :=
  match source with
  | Local p => held (asset_path p a) d = Some c
  | RemoteAt u => exists u1 u2, url_join u GENESIS_ASSETS_DIR = Ok u1 /\ url_join u1 (fi_name a) = Ok u2 /\ http_get n u2 = Ok c
  end.

(** Distinct files are written, and none of them is read from. *)
Definition separate (source : ConfigSource) (dir : Path) (l : list FileInfos) : Prop :=
  (forall i j a b, l !! i = Some a -> l !! j = Some b -> i <> j -> fs_same (asset_path dir a) (asset_path dir b) = false)
  /\ match source with
     | Local p => forall a b, a ∈ l -> b ∈ l -> fs_same (asset_path dir a) (asset_path p b) = false
     | RemoteAt _ => True
     end.

Lemma provides_fun source d n a c c' : provides source d n a c -> provides source d n a c' -> c = c'.
Proof.
  destruct source; cbn; [congruence|]. intros (u1 & u2 & ? & ? & ?) (u1' & u2' & ? & ? & ?). congruence.
Qed.

(** The source has a content for the asset that passes its checksum. *)
Definition offers (source : ConfigSource) (d : Disk) (n : nat) (a : FileInfos) : Prop :=
  exists c, provides source d n a c /\ verified a c = true.

Lemma load_asset_spec source a d n r d' n' :
  load_asset source a (d, n) = Ret (r, (d', n')) ->
  d' = d /\ match r with
            | Ok c => provides source d n a c /\ n' = match source with Local _ => n | RemoteAt _ => S n end
            | Err _ => forall c, ~ provides source d n a c
            end.
Proof.
  destruct source as [p|u]; unfold load_asset, provides.
  - unfold ebind, on_fst, eget. fold (asset_path p a). pose proof (exists_read (asset_path p a) d) as Hex. unfold held in *.
    destruct (fs_exists _ d); simpl.
    + unfold emap_err, ebind, io_read, eret. intros [= <- <- <-]. split; [done|]. by destruct (fs_read _ d).
    + unfold eret. intros [= <- <- <-]. split; [done|]. intros c Hc. by specialize (Hex c Hc).
  - unfold etry, ebind, emap_err, ebind, eret, fetch. destruct (url_join u _) as [u1|] eqn:E1; simpl;
      [|intros [= <- <- <-]; split; [done|]; intros c (? & ? & ? & _); congruence].
    destruct (url_join u1 _) as [u2|] eqn:E2; simpl;
      [|intros [= <- <- <-]; split; [done|]; intros c (? & ? & ? & ? & _); congruence].
    intros [= <- <- <-]. split; [done|]. destruct (http_get n u2) eqn:E3; simpl; [by eauto 6|].
    intros c (? & ? & ? & ? & ?). congruence.
Qed.

Lemma check_digest_verified a c : verified a c = is_ok (check_digest a c).
Proof. unfold verified, check_digest. destruct (fi_sha3_256 a); [|done]. by destruct (String.eqb _ _). Qed.

Lemma display_provided source d n a c :
  provides source d n a c -> exists shown, display source (Some [GENESIS_ASSETS_DIR; fi_name a]) = Ok shown.
Proof.
  destruct source as [p|u]; cbn; [by eauto|]. intros (u1 & u2 & -> & H2 & _). cbn. rewrite H2. by eauto.
Qed.

(** One asset: written only if the source offers it, and then it fails only by an error
    of the file system. *)
Lemma install_asset_spec source dir a d n r d' n' :
  install_asset source (path_join dir (path_of GENESIS_ASSETS_DIR)) a (d, n) = Ret (r, (d', n')) ->
  (forall q, fs_same (asset_path dir a) q = false -> held q d' = held q d)
  /\ match r with
     | Ok _ => exists c, provides source d n a c /\ verified a c = true /\ held (asset_path dir a) d' = Some c
                        /\ n' = match source with Local _ => n | RemoteAt _ => S n end
     | Err e => (d' = d /\ ~ offers source d n a) \/ exists e', e = Io e'
     end.
Proof.
  unfold install_asset. unfold etry at 1, ebind at 1.
  destruct (load_asset source a (d, n)) as [[r1 [d1 n1]]|] eqn:El; [|done]. apply load_asset_spec in El as [-> Hc].
  destruct r1 as [c|e]; [|unfold eret; intros [= <- <- <-]; split; [done|]; left; split; [done|]; intros (c & Hp & _); by apply (Hc c)].
  destruct Hc as [Hp ->]. unfold etry at 1, ebind at 1.
  unfold eret at 1. pose proof (check_digest_verified a c) as Hv. destruct (check_digest a c) as [[]|e].
  2: { unfold eret. intros [= <- <- <-]. split; [done|]. left. split; [done|]. intros (c' & Hp' & Hv').
       by rewrite (provides_fun _ _ _ _ _ _ Hp' Hp), Hv in Hv'. }
  unfold etry, ebind at 1, eret at 1. destruct (display_provided _ _ _ _ _ Hp) as [shown ->].
  unfold emap_err, ebind, on_fst. fold (asset_path dir a).
  destruct (write_content_to_disk c (asset_path dir a) d) as [[rw dw]|] eqn:Ew; [|done].
  apply write_content_spec in Ew as [Hw Hfr]. unfold eret. intros [= <- <- <-]. split; [exact Hfr|].
  destruct rw as [[]|e]; cbn; [exists c; by auto|right; by eauto].
Qed.

(** How far a run got: the first [k] assets hold what the source provided, checked; the
    others are as they were.  A run that stopped at asset [k] did so because the source
    does not offer it, or at an error of the file system, which can leave it in pieces. *)
Definition installed_upto (source : ConfigSource) (dir : Path) (l : list FileInfos) (d : Disk) (n : nat)
    (r : result Error unit) (d' : Disk) (k : nat) : Prop :=
  (r = Ok tt -> (length l <= k)%nat)
  /\ forall i a, l !! i = Some a ->
     if (i <? k)%nat
     then exists c, provides source d (n + i) a c /\ verified a c = true /\ held (asset_path dir a) d' = Some c
     else (held (asset_path dir a) d' = held (asset_path dir a) d /\ (i = k -> ~ offers source d (n + i) a))
          \/ (held (asset_path dir a) d' = held (asset_path dir a) d \/ i = k) /\ exists e, r = Err (Io e).

(** What the source provides, from another disk on which it finds the same. *)
Lemma provides_same source d d1 n n1 a c :
  match source with Local p => held (asset_path p a) d1 = held (asset_path p a) d | RemoteAt _ => n1 = n end ->
  provides source d1 n1 a c <-> provides source d n a c.
Proof. destruct source; cbn; [by intros ->|by intros ->]. Qed.

Lemma installed_cons source dir a l d n r d' d1 k c :
  separate source dir (a :: l) -> provides source d n a c -> verified a c = true -> held (asset_path dir a) d' = Some c ->
  (forall q, fs_same (asset_path dir a) q = false -> held q d1 = held q d) ->
  installed_upto source dir l d1 (match source with Local _ => n | RemoteAt _ => S n end) r d' k ->
  installed_upto source dir (a :: l) d n r d' (S k).
Proof.
  intros [Hsep Hsrc] Hp Hv Hh Hfr [Hlen Hall]. split; [intros Hr; cbn; apply Hlen in Hr; lia|].
  intros [|i] b Hi; cbn in Hi.
  { injection Hi as <-. exists c. by rewrite Nat.add_0_r. }
  assert (Hsame : forall c', provides source d1 (match source with Local _ => n | RemoteAt _ => S n end + i) b c'
                             <-> provides source d (n + S i) b c').
  { intros c'. apply provides_same. destruct source; [|lia]. apply Hfr, Hsrc; [left|right]. by eapply list_elem_of_lookup_2. }
  assert (Hb : held (asset_path dir b) d1 = held (asset_path dir b) d) by (apply Hfr; by apply (Hsep 0%nat (S i))).
  specialize (Hall i b Hi). change (S i <? S k)%nat with (i <? k)%nat. revert Hall.
  destruct (i <? k)%nat; intros Hall.
  - destruct Hall as (c' & Hc%Hsame & Hrest). by exists c'.
  - rewrite <- Hb. destruct Hall as [[H1 H2]|[H1 H2]]; [left|right].
    + split; [done|]. intros [= ->] (c' & ?%Hsame & ?). apply (H2 eq_refl). by exists c'.
    + split; [|done]. destruct H1 as [?|<-]; by auto.
Qed.

(** The loop: what it leaves alone, and how far it gets. *)
Lemma install_loop source dir l d n r d' n' :
  efor (install_asset source (path_join dir (path_of GENESIS_ASSETS_DIR))) l (d, n) = Ret (r, (d', n')) ->
  (forall q, (forall a, a ∈ l -> fs_same (asset_path dir a) q = false) -> held q d' = held q d)
  /\ (separate source dir l -> exists k, installed_upto source dir l d n r d' k).
Proof.
  revert d n. induction l as [|a l IH]; intros d n; cbn [efor].
  { unfold eret. intros [= <- <- <-]. split; [done|]. intros _. exists 0%nat. by split. }
  unfold etry at 1, ebind at 1.
  destruct (install_asset source _ a (d, n)) as [[r1 [d1 n1]]|] eqn:Ea; [|done].
  apply install_asset_spec in Ea as (Hfr & Hok). destruct r1 as [[]|e].
  2: { unfold eret. intros [= <- <- <-]. split; [intros q Hq; apply Hfr, Hq; left|]. intros [Hsep _]. exists 0%nat. split; [done|].
       intros i b Hi. cbn. destruct Hok as [[-> Hno]|[e' ->]].
       - left. split; [done|]. intros ->. cbn in Hi. injection Hi as <-. by rewrite Nat.add_0_r.
       - right. split; [|by eauto]. destruct i as [|i]; [by right|left]. apply Hfr. by apply (Hsep 0%nat (S i)). }
  destruct Hok as (c & Hp & Hv & Hh & ->). intros Hl. apply IH in Hl as [Hfr' Hin].
  split. { intros q Hq. rewrite Hfr' by (intros; apply Hq; by right). apply Hfr, Hq. left. }
  intros Hsep. pose proof Hsep as [Hd Hsrc]. destruct Hin as [k Hk].
  { split; [intros i j x y Hx Hy Hn; apply (Hd (S i) (S j)); [done|done|congruence]|].
    destruct source; [|done]. intros x y Hx Hy. apply Hsrc; by right. }
  exists (S k). eapply installed_cons; [done|exact Hp|done| |exact Hfr|exact Hk].
  rewrite Hfr'; [done|]. intros b [i Hi]%list_elem_of_lookup. by apply (Hd (S i) 0%nat).
Qed.

Lemma load_config_spec source d n r d' n' :
  load_config source (d, n) = Ret (r, (d', n')) ->
  d' = d /\ match r with
            | Ok c => provides_index source d n c /\ n' = match source with Local _ => n | RemoteAt _ => S n end
            | Err _ => forall c, ~ provides_index source d n c
            end.
Proof.
  destruct source as [p|u]; unfold load_config, provides_index, index_path, held, emap_err, ebind, on_fst, io_read, fetch, eret;
    intros [= <- <- <-]; (split; [done|]).
  - by destruct (fs_read _ d).
  - by destruct (http_get n u).
Qed.

Lemma index_fun source d n c c' : provides_index source d n c -> provides_index source d n c' -> c = c'.
Proof. destruct source; cbn; congruence. Qed.

(** The source has an index that reads as [configs]. *)
Definition has_index (cmd : SetupCmd) (d : Disk) (n : nat) (source : ConfigSource) (content : list byte) (configs : Configs) : Prop :=
  config_source cmd = Ret (Ok source) /\ provides_index source d n content /\ configs_from_slice content = Ok configs.

(** The parts of a run that got as far as writing: the source, the index it provided,
    the write of the index and the loop. *)
Lemma setup_run_inv cmd d n r d' n' :
  setup_run cmd (d, n) = Ret (r, (d', n')) ->
  (d' = d /\ (exists e, r = Err e) /\ forall source content configs, ~ has_index cmd d n source content configs)
  \/ exists source content configs rw d1 n1,
      has_index cmd d n source content configs
      /\ n1 = match source with Local _ => n | RemoteAt _ => S n end
      /\ write_content_to_disk content (index_path (dest_config_dir cmd)) d = Ret (rw, d1)
      /\ match rw with
         | Ok _ => efor (install_asset source (path_join (dest_config_dir cmd) (path_of GENESIS_ASSETS_DIR)))
                     (genesis_assets configs) (d1, n1) = Ret (r, (d', n'))
         | Err e => r = Err (Io e) /\ d' = d1
         end.
Proof.
  unfold setup_run, etry at 1, ebind at 1, elift, has_index. destruct (config_source cmd) as [[source|e]|] eqn:Es; [| |done].
  2: { unfold eret. intros [= <- <- <-]. left. split_and!; [done|by eauto|]. by intros ? ? ? (? & _). }
  unfold etry at 1, ebind at 1. destruct (load_config source (d, n)) as [[rc [dc nc]]|] eqn:Ec; [|done].
  apply load_config_spec in Ec as [-> Hc]. destruct rc as [content|e].
  2: { unfold eret. intros [= <- <- <-]. left. split_and!; [done|by eauto|]. intros ? c ? ([= <-] & ? & _). by apply (Hc c). }
  destruct Hc as [Hi ->]. unfold etry at 1, ebind at 1, eret at 1.
  destruct (configs_from_slice content) as [configs|e] eqn:Ej; cbn [map_err].
  2: { unfold eret. intros [= <- <- <-]. left. split_and!; [done|by eauto|]. intros ? c ? ([= <-] & Hc & Hj).
       rewrite (index_fun _ _ _ _ _ Hc Hi) in Hj. congruence. }
  unfold etry, ebind at 1, emap_err, ebind at 1, on_fst. fold (index_path (dest_config_dir cmd)).
  destruct (write_content_to_disk content _ d) as [[rw dw]|] eqn:Ew; [|done].
  intros Hr. right. exists source, content, configs, rw, dw, (match source with Local _ => n | RemoteAt _ => S n end).
  split_and!; try done. destruct rw as [[]|e]; [exact Hr|]. unfold eret in Hr. cbn in Hr. by injection Hr as <- <- <-.
Qed.

(** *** The command returns *)
Definition returns {S A} (m : eff S A) : Prop := forall s, exists a s', m s = Ret (a, s').

Lemma returns_try {S E A B} (m : effr S E A) (k : A -> effr S E B) :
  returns m -> (forall a, returns (k a)) -> returns (etry m k).
Proof.
  intros Hm Hk s. unfold etry, ebind. destruct (Hm s) as ([a|e] & s' & ->); [apply Hk|]. by exists (Err e), s'.
Qed.

Lemma returns_for {S E A} (f : A -> effr S E unit) l : (forall x, x ∈ l -> returns (f x)) -> returns (efor f l).
Proof.
  induction l as [|x l IH]; intros Hf; cbn [efor]; [intros s; by exists (Ok tt), s|].
  apply returns_try; [apply Hf; left|]. intros _. apply IH. intros y Hy. apply Hf. by right.
Qed.

(** Below a directory that has a component, or with one of its own, a relative path can
    be written: it has a parent. *)
Lemma join_components p q :
  path_absolute q = false -> path_components p <> [] \/ filter normal_component (path_components q) <> [] ->
  path_components (path_join p q) <> [].
Proof.
  intros Hq Hc. unfold path_join. rewrite Hq. destruct (negb (path_absolute p) && _) eqn:E; cbn [path_components].
  - apply andb_true_iff in E as [_ E]. apply Nat.eqb_eq, length_zero_iff_nil in E. destruct Hc as [Hc|Hc]; [done|].
    intros He. by rewrite He in Hc.
  - intros [? ?]%app_nil. naive_solver.
Qed.

Lemma write_returns content dest :
  path_components dest <> [] -> returns (emap_err Io (on_fst (T := nat) (write_content_to_disk content dest))).
Proof.
  intros Hd [d n]. unfold write_content_to_disk, path_parent. destruct (path_components dest) as [|x l]; [done|].
  unfold emap_err, ebind, on_fst, etry, ebind, elift, io, eret, unwrap_opt.
  destruct (fs_create_dir_all _ d) as [[[]|e] d1]; [|by eauto]. destruct (fs_create _ d1) as [[[]|e] d2]; [|by eauto].
  destruct (fs_copy _ _ d2) as [r3 d3]. by eauto.
Qed.

Lemma install_returns source dir a :
  path_absolute (path_of (fi_name a)) = false -> path_components dir <> [] -> returns (install_asset source dir a).
Proof.
  intros Hn Hd. unfold install_asset. apply returns_try.
  { intros [d n]. unfold load_asset. destruct source.
    - unfold ebind, on_fst, eget. destruct (fs_exists _ d); cbn; unfold emap_err, ebind, io_read, eret; by eauto.
    - unfold etry, ebind, eret. destruct (url_join _ _); cbn; [|by eauto]. destruct (url_join _ _); cbn; [|by eauto].
      unfold emap_err, ebind, fetch, eret. by eauto. }
  intros c. apply returns_try; [intros s; by eexists _, _|]. intros _. apply returns_try; [intros s; by eexists _, _|]. intros _.
  apply write_returns, join_components; [done|by left].
Qed.

Lemma setup_returns cmd d n :
  (is_Some (from_local (setup_source cmd)) \/ is_Some (from_remote (setup_source cmd))) ->
  (forall source content configs a, has_index cmd d n source content configs -> a ∈ genesis_assets configs ->
   path_absolute (path_of (fi_name a)) = false) ->
  exists r d' n', setup_run cmd (d, n) = Ret (r, (d', n')).
Proof.
  intros Hs Hn. unfold setup_run, etry at 1, ebind at 1, elift.
  destruct (config_source cmd) as [[source|e]|] eqn:Es; [|by eexists _, _, _|].
  2: { unfold config_source in Es. destruct (from_local _); [done|]. destruct (from_remote _); [done|]. by destruct Hs as [[]|[]]. }
  unfold etry at 1, ebind at 1. destruct (load_config source (d, n)) as [[rc [dc nc]]|] eqn:Ec.
  2: { exfalso. revert Ec. by destruct source. }
  apply load_config_spec in Ec as [-> Hc]. destruct rc as [content|e]; [|by eexists _, _, _]. destruct Hc as [Hi _].
  unfold etry at 1, ebind at 1, eret at 1. destruct (configs_from_slice content) as [configs|] eqn:Ej; cbn [map_err]; [|by eexists _, _, _].
  match goal with |- exists r d' n', ?m (d, nc) = _ => cut (returns m); [intros Hm; destruct (Hm (d, nc)) as (? & [? ?] & ->); by eauto|] end.
  apply returns_try; [by apply write_returns, join_components; [|right]|].
  intros _. apply returns_for. intros a Ha. apply install_returns; [by eapply (Hn source content configs)|by apply join_components; [|right]].
Qed.

(** The index too is a file of its own. *)
Definition apart (source : ConfigSource) (dir : Path) (l : list FileInfos) : Prop :=
  separate source dir l
  /\ (forall a, a ∈ l -> fs_same (index_path dir) (asset_path dir a) = false /\ fs_same (asset_path dir a) (index_path dir) = false)
  /\ match source with
     | Local p => forall a, a ∈ l -> fs_same (index_path dir) (asset_path p a) = false
     | RemoteAt _ => True
     end.

Lemma installed_after source dir l d d1 n r d' k :
  apart source dir l -> (forall q, fs_same (index_path dir) q = false -> held q d1 = held q d) ->
  installed_upto source dir l d1 (match source with Local _ => n | RemoteAt _ => S n end) r d' k ->
  installed_upto source dir l d (S n) r d' k.
Proof.
  intros (_ & Hidx & Hs) Hq [Hlen Hall]. split; [done|]. intros i a Ha. pose proof (list_elem_of_lookup_2 _ _ _ Ha) as Hin.
  assert (Hsame : forall c', provides source d1 (match source with Local _ => n | RemoteAt _ => S n end + i) a c'
                             <-> provides source d (S n + i) a c').
  { intros c'. apply provides_same. destruct source; [|done]. by apply Hq, Hs. }
  assert (Hb : held (asset_path dir a) d1 = held (asset_path dir a) d) by (by apply Hq, Hidx).
  specialize (Hall i a Ha). revert Hall. destruct (i <? k)%nat; intros Hall.
  - destruct Hall as (c' & Hc%Hsame & Hrest). by exists c'.
  - rewrite <- Hb. destruct Hall as [[H1 H2]|?]; [left|by right]. split; [done|]. intros Hik (c' & ?%Hsame & ?).
    apply (H2 Hik). by exists c'.
Qed.

Lemma setup_installed cmd d n r d' n' :
  setup_run cmd (d, n) = Ret (r, (d', n')) ->
  let dir := dest_config_dir cmd in
  (d' = d /\ (exists e, r = Err e) /\ forall source content configs, ~ has_index cmd d n source content configs)
  \/ exists source content configs,
      has_index cmd d n source content configs
      /\ (forall q, fs_same (index_path dir) q = false ->
           (forall a, a ∈ genesis_assets configs -> fs_same (asset_path dir a) q = false) -> held q d' = held q d)
      /\ (apart source dir (genesis_assets configs) ->
          (held (index_path dir) d' = Some content \/ exists e, r = Err (Io e))
          /\ (r = Ok tt -> held (index_path dir) d' = Some content)
          /\ exists k, installed_upto source dir (genesis_assets configs) d (S n) r d' k).
Proof.
  intros Hr dir. apply setup_run_inv in Hr as [Hr|(source & content & configs & rw & d1 & n1 & Hs & -> & Hw & Hr)];
    [by left|right]. exists source, content, configs. split_and!; [done| |]; fold dir in Hw, Hr;
    apply write_content_spec in Hw as [Hok Hfr]; destruct rw as [[]|e].
  - apply install_loop in Hr as [Hq _]. intros q Hq1 Hq2. rewrite Hq by done. by apply Hfr.
  - destruct Hr as [-> ->]. intros q Hq1 _. by apply Hfr.
  - intros Hap. pose proof Hap as (Hsep & Hidx & _). apply install_loop in Hr as [Hq Hin]. destruct (Hin Hsep) as [k Hk].
    assert (Hx : held (index_path dir) d' = Some content) by (rewrite Hq; [by apply Hok|]; intros a Ha; by apply Hidx).
    split_and!; [by left|done|]. exists k. by eapply installed_after.
  - destruct Hr as [-> ->]. intros (_ & Hidx & _). split_and!; [right; by eauto|done|]. exists 0%nat. split; [done|].
    intros i a Ha. cbn. right. split; [left|by eauto]. apply Hfr, Hidx. by eapply list_elem_of_lookup_2.
Qed.

(** C26: what the setup command installs.  With a source given and relative names in
    the index that the source provides, the command returns.  If the source provides no
    index that can be read, the command fails and leaves the disk alone.  Otherwise only
    the index and the assets it lists are written in the configuration directory.

    If these are distinct files, apart from those that are read ([apart]), then the index
    is the one that the source provided, and there is a [k] such that the first [k] assets
    hold what the source provided for them, checked, and the later ones are as they were;
    [k] is all of them when the run succeeds.  A run that stops at asset [k] without an
    error of the file system has left it as it was, and the source provides no content for
    it that passes its checksum.  Only after an error of the file system can the file that
    was being written, asset [k] or the index, hold something else. *)
Theorem setup_installs (cmd : SetupCmd) (d : Disk) (n : nat) :
  (is_Some (from_local (setup_source cmd)) \/ is_Some (from_remote (setup_source cmd))) ->
  (forall source content configs a, has_index cmd d n source content configs -> a ∈ genesis_assets configs ->
   path_absolute (path_of (fi_name a)) = false) ->
  let dir := dest_config_dir cmd in
  exists r d' n', setup_run cmd (d, n) = Ret (r, (d', n'))
  /\ ((d' = d /\ (exists e, r = Err e) /\ forall source content configs, ~ has_index cmd d n source content configs)
      \/ exists source content configs,
          has_index cmd d n source content configs
          /\ (forall q, fs_same (index_path dir) q = false ->
               (forall a, a ∈ genesis_assets configs -> fs_same (asset_path dir a) q = false) -> held q d' = held q d)
          /\ (apart source dir (genesis_assets configs) ->
              (held (index_path dir) d' = Some content \/ exists e, r = Err (Io e))
              /\ (r = Ok tt -> held (index_path dir) d' = Some content)
              /\ exists k, installed_upto source dir (genesis_assets configs) d (S n) r d' k)).
Proof.
  intros Hs Hn dir. destruct (setup_returns cmd d n Hs Hn) as (r & d' & n' & Hr). exists r, d', n'.
  split; [done|]. by apply setup_installed in Hr.
Qed.

(** *** Starting from what was installed *)
Section start.
  Context `{SF : StarknetFf} {CC : ContractClassI} {GF : GenesisFormat}.

(** A chain starts from the genesis that setup installed.  After a successful
    setup whose index lists [genesis.json], if the source provided for it a text that
    reads as the genesis data [g], then both the chain specification of the node and
    the genesis provider of the RPC server load [g] from the configuration
    directory. *)
Theorem setup_then_load (cmd : SetupCmd) (d : Disk) (n : nat) (d' : Disk) (n' : nat)
    (source : ConfigSource) (content : list byte) (configs : Configs) (i : nat) (a : FileInfos) (c : list byte) (g : GenesisData) :
  setup_run cmd (d, n) = Ret (Ok tt, (d', n')) ->
  config_source cmd = Ret (Ok source) -> provides_index source d n content -> configs_from_slice content = Ok configs ->
  apart source (dest_config_dir cmd) (genesis_assets configs) ->
  genesis_assets configs !! i = Some a -> fi_name a = "genesis.json"%string -> provides source d (S n + i) a c ->
  utf8_valid c = true -> genesis_from_str (String.string_of_list_byte c) = Ok g ->
  load_genesis (dest_config_dir cmd) d' = Ret (mk_loader _ (dest_config_dir cmd) g)
  /\ load_genesis_data (dest_config_dir cmd) d' = Ok g.
Proof.
  intros Hr Hs Hi Hj Hap Ha Hn Hp Hu Hg.
  assert (Hh : held (asset_path (dest_config_dir cmd) a) d' = Some c).
  { apply setup_installed in Hr as [(_ & [e He] & _)|(source' & content' & configs' & (Hs' & Hi' & Hj') & _ & Hin)]; [done|].
    rewrite Hs in Hs'. injection Hs' as <-. assert (content' = content) as -> by (by eapply index_fun).
    rewrite Hj in Hj'. injection Hj' as <-. destruct (Hin Hap) as (_ & _ & k & Hlen & Hget). specialize (Hget i a Ha).
    rewrite (proj2 (Nat.ltb_lt i k)) in Hget by (specialize (Hlen eq_refl); apply lookup_lt_Some in Ha; lia).
    destruct Hget as (c' & Hp' & _ & Hh). rewrite Hh. f_equal. by eapply provides_fun. }
  unfold asset_path in Hh. rewrite Hn in Hh. unfold load_genesis, load_genesis_data, read_to_string.
  change (path_of PROVIDER_ASSETS_DIR) with (path_of GENESIS_ASSETS_DIR). change GENESIS_ASSETS_FILE with "genesis.json"%string.
  unfold held in Hh. destruct (fs_read _ d') as [c'|]; [|done]. injection Hh as ->.
  cbn [result_bind]. rewrite Hu. cbn [unwrap outcome_bind]. by rewrite Hg.
Qed.

End start.
End setup_properties.

(** ** Witnesses *)
Module SetupWitness.
Export GenesisWitness.

Definition w_configs : Configs :=
  mk_configs "" [mk_file "genesis.json" (Some "seven") None; mk_file "Account.json" None None].

#[export] Instance w_remote : Remote := {|
  Url := string;
  UrlError := unit;
  url_parse s := Ok s;
  url_join u s := Ok (String.append u s);
  HttpError := unit;
  http_get _ _ := Err tt;
  ConfigsError := unit;
  configs_from_slice c := if bool_decide (c = bytes_of "index") then Ok w_configs else Err tt;
  sha3_256_hex c := (if length c =? 7 then "seven" else "other")%nat%string;
|}.

#[export] Instance w_environment : NodeEnvironment := {|
  AuraId := string;
  GrandpaId := string;
  aura_from_string s := Ok s;
  grandpa_from_string s := Ok s;
  BasePath := Path;
  base_path_from p := p;
  from_project := path_of "/var/madara";
  config_dir p id := path_join (path_join p (path_of "chains")) (path_of id);
|}.

Definition w_cmd : SetupCmd := mk_setup (Some "dev"%string) (Some (path_of "/madara")) (mk_source None (Some "/configs"%string)).

Definition w_before : Disk :=
  <[path_of "/configs/index.json" := bytes_of "index"]>
  (<[path_of "/configs/genesis-assets/genesis.json" := bytes_of "genesis"]>
  {[path_of "/configs/genesis-assets/Account.json" := bytes_of "class"]}).

Lemma ret_inj {A B C} (a a' : A) (b b' : B) (c c' : C) : Ret (a, (b, c)) = Ret (a', (b', c')) -> a = a' /\ b = b' /\ c = c'.
Proof. by intros [= -> -> ->]. Qed.

Definition w_after : Disk :=
  match setup_run w_cmd (w_before, 0%nat) with Ret (_, (d', _)) => d' | Panic => w_before end.

Lemma w_setup : setup_run w_cmd (w_before, 0%nat) = Ret (Ok tt, (w_after, 0%nat)).
Proof.
  assert (H : match setup_run w_cmd (w_before, 0%nat) with Ret (Ok tt, (_, O)) => true | _ => false end = true)
    by (vm_compute; reflexivity).
  unfold w_after. revert H. generalize (setup_run w_cmd (w_before, 0%nat)). by intros [[[[]|] [d' [|n']]]|].
Qed.

Lemma w_relative source content configs a :
  has_index w_cmd w_before 0 source content configs -> a ∈ genesis_assets configs -> path_absolute (path_of (fi_name a)) = false.
Proof.
  intros (_ & _ & Hj). revert Hj. cbn. destruct (bool_decide _); [|done]. intros [= <-].
  intros [->|[->|[]%not_elem_of_nil]%elem_of_cons]%elem_of_cons; reflexivity.
Qed.

Lemma w_apart : apart (Local (path_of "/configs")) (dest_config_dir w_cmd) (genesis_assets w_configs).
Proof.
  split; [split|split].
  - intros [|[|i]] [|[|j]] a b Ha Hb Hij; try done; injection Ha as <-; injection Hb as <-; vm_compute; reflexivity.
  - intros a b [->|[->|[]%not_elem_of_nil]%elem_of_cons]%elem_of_cons
      [->|[->|[]%not_elem_of_nil]%elem_of_cons]%elem_of_cons; vm_compute; reflexivity.
  - intros a [->|[->|[]%not_elem_of_nil]%elem_of_cons]%elem_of_cons; vm_compute; by split.
  - intros a [->|[->|[]%not_elem_of_nil]%elem_of_cons]%elem_of_cons; vm_compute; reflexivity.
Qed.

End SetupWitness.
Import SetupWitness.

Lemma setup_installs_witness :
  exists k, setup_run w_cmd (w_before, 0%nat) = Ret (Ok tt, (w_after, 0%nat))
    /\ installed_upto (Local (path_of "/configs")) (dest_config_dir w_cmd) (genesis_assets w_configs) w_before 1 (Ok tt) w_after k.
Proof.
  destruct (setup_installs w_cmd w_before 0 (or_introl (mk_is_Some _ _ eq_refl)) w_relative) as (r & d' & n' & Hr & H).
  rewrite w_setup in Hr. apply ret_inj in Hr as (<- & <- & _).
  destruct H as [(_ & [e He] & _)|(source & content & configs & (Hs & _ & Hj) & _ & H)]; [discriminate He|].
  injection Hs as <-. assert (configs = w_configs) as -> by (revert Hj; cbn; destruct (bool_decide _); congruence).
  destruct (H w_apart) as (_ & _ & k & Hk). exists k. split; [exact w_setup|exact Hk].
Defined.

Lemma setup_then_load_witness :
  load_genesis (dest_config_dir w_cmd) w_after = Ret (mk_loader _ (dest_config_dir w_cmd) w_data).
Proof.
  apply (setup_then_load w_cmd w_before 0 w_after 0 (Local (path_of "/configs")) (bytes_of "index") w_configs 0
    (mk_file "genesis.json" (Some "seven"%string) None) (bytes_of "genesis") w_data w_setup);
    [reflexivity|vm_compute; reflexivity|vm_compute; reflexivity|exact w_apart|reflexivity|reflexivity|vm_compute; reflexivity
    |vm_compute; reflexivity|vm_compute; reflexivity].
Defined.
