(* ===== verification/EthereumConfig.v ===== *)
(** * Configuring the Ethereum clients

    Models [crates/client/data-availability/src/ethereum/config.rs] with the checks of
    endpoints in [utils.rs], and how the data availability client
    ([ethereum/mod.rs]) and the settlement client
    ([crates/client/settlement/src/ethereum/client.rs]) are built from that
    configuration.  Parsing is done by libraries, which are parameters. *)
From S2P Require Import Prelude Bytes Deps Files DataAvailability.
Local Open Scope Z_scope.

Definition DEFAULT_ETHEREUM_NODE : string := "127.0.0.1:8545".
Definition DEFAULT_SEQUENCER_KEY : string := "ac0974bec39a17e36ba4a6b4d238ff944bacb478cbed5efcae784d7bf4f2ff80".
Definition DEFAULT_STARKNET_CORE_CONTRACTS : string := "0x5FbDB2315678afecb367f032d93F642f64180aa3".
Definition DEFAULT_CHAIN_ID : Z := 31337.

Record EthereumConfig := mk_eth_config {
  ec_http_provider : string;
  ec_core_contracts : string;
  ec_sequencer_key : string;
  ec_chain_id : Z;
  ec_mode : DaMode;
  ec_poll_interval_ms : option Z;
}.

(** The fields that are present in a file. *)
Record EthereumConfigFields := mk_eth_fields {
  ef_http_provider : option string;
  ef_core_contracts : option string;
  ef_sequencer_key : option string;
  ef_chain_id : option Z;
  ef_mode : option DaMode;
  ef_poll_interval_ms : option Z;
}.

(** What is used of ethers, url and serde_json.  [fields_from_reader] is given the
    content of the file, or the error in reading it. *)
Class EthersBuild := {
  HttpProvider : Type;
  http_provider_try_from : string -> option HttpProvider;
  provider_interval : Z -> HttpProvider -> HttpProvider;
  LocalWalletT : Type;
  wallet_parse : string -> option LocalWalletT;
  wallet_with_chain_id : Z -> LocalWalletT -> LocalWalletT;
  eth_address_parse : string -> option (array 20);
  url_scheme : string -> option string;
  fields_from_reader : result IoError (list byte) -> option EthereumConfigFields;
}.

Definition default_http : string := String.append "http://" DEFAULT_ETHEREUM_NODE.

Definition ethereum_config_default : EthereumConfig :=
  mk_eth_config default_http DEFAULT_STARKNET_CORE_CONTRACTS DEFAULT_SEQUENCER_KEY DEFAULT_CHAIN_ID da_mode_default None.

(** [Deserialize]: a missing field has its default. *)
Definition config_of_fields (f : EthereumConfigFields) : EthereumConfig :=
  mk_eth_config (default default_http (ef_http_provider f)) (default DEFAULT_STARKNET_CORE_CONTRACTS (ef_core_contracts f))
    (default DEFAULT_SEQUENCER_KEY (ef_sequencer_key f)) (default DEFAULT_CHAIN_ID (ef_chain_id f))
    (default da_mode_default (ef_mode f)) (ef_poll_interval_ms f).

(** [DaError]; the payloads that are errors of the libraries are left out. *)
Inductive DaError :=
| FailedOpeningConfig (e : IoError) | FailedParsingConfig | FailedConversion | FailedBuildingClient
| FailedDataSubmission | FailedDataFetching | FailedDataValidation | InvalidHttpEndpoint (endpoint : string).

(** [settlement::ethereum::errors::Error], likewise. *)
Inductive EthereumError :=
| UrlParser | LocalWallet | HexParser | ContractError | ProviderError | MissingTransactionRecepit.

Section build.
  Context `{EB : EthersBuild} `{FS : FileSystem}.

Definition ethereum_config_from_reader (content : result IoError (list byte)) : option EthereumConfig :=
  option_map config_of_fields (fields_from_reader content).

(** [TryFrom<&PathBuf> for EthereumConfig]. *)
Definition ethereum_config_try_from (path : Path) (d : Disk) : result DaError EthereumConfig :=
  let? _ := map_err FailedOpeningConfig (fs_open path d) in
  ok_or (ethereum_config_from_reader (fs_read path d)) FailedParsingConfig.

Definition has_scheme (schemes : list string) (endpoint : string) : bool :=
  match url_scheme endpoint with Some scheme => existsb (String.eqb scheme) schemes | None => false end.

Definition is_valid_ws_endpoint : string -> bool := has_scheme ["ws"%string; "wss"%string].
Definition is_valid_http_endpoint : string -> bool := has_scheme ["http"%string; "https"%string].

(** The clients: [SignerMiddleware] is the provider with the wallet. *)
Record EthereumClient := mk_eth_client {
  client_http_provider : HttpProvider;
  client_signer : HttpProvider * LocalWalletT;
  client_cc_address : array 20;
  client_mode : DaMode;
}.

Record StarknetContractClient := mk_contract_client {
  contract_address : array 20;
  contract_signer : HttpProvider * LocalWalletT;
}.

Definition da_client_try_from (conf : EthereumConfig) : result DaError EthereumClient :=
  if negb (is_valid_http_endpoint (ec_http_provider conf)) then Err (InvalidHttpEndpoint (ec_http_provider conf)) else
  let? provider := ok_or (http_provider_try_from (ec_http_provider conf)) FailedBuildingClient in
  let? wallet := ok_or (wallet_parse (ec_sequencer_key conf)) FailedConversion in
  let signer := (provider, wallet_with_chain_id (ec_chain_id conf) wallet) in
  let? cc_address := ok_or (eth_address_parse (ec_core_contracts conf)) FailedConversion in
  Ok (mk_eth_client provider signer cc_address (ec_mode conf)).

Definition settlement_client_try_from (config : EthereumConfig) : result EthereumError StarknetContractClient :=
  let? provider := ok_or (http_provider_try_from (ec_http_provider config)) UrlParser in
  let provider := match ec_poll_interval_ms config with
                  | Some poll_interval_ms => provider_interval poll_interval_ms provider
                  | None => provider
                  end in
  let? wallet := ok_or (wallet_parse (ec_sequencer_key config)) LocalWallet in
  let signer := (provider, wallet_with_chain_id (ec_chain_id config) wallet) in
  let? address := ok_or (eth_address_parse (ec_core_contracts config)) HexParser in
  Ok (mk_contract_client address signer).

(** The two clients built from one configuration.  The data availability client is
    built exactly when the settlement client is and the endpoint is an HTTP one; both
    then talk to the same contract with the same wallet.  They poll alike only without
    [poll_interval_ms], which the data availability client ignores. *)
Theorem ethereum_clients_agree (conf : EthereumConfig) :
  (is_ok (da_client_try_from conf) = is_valid_http_endpoint (ec_http_provider conf) && is_ok (settlement_client_try_from conf))
  /\ (forall da st, da_client_try_from conf = Ok da -> settlement_client_try_from conf = Ok st ->
      client_cc_address da = contract_address st /\ snd (client_signer da) = snd (contract_signer st)
      /\ fst (contract_signer st) = match ec_poll_interval_ms conf with
                                    | Some t => provider_interval t (fst (client_signer da))
                                    | None => fst (client_signer da)
                                    end).
Proof.
  unfold da_client_try_from, settlement_client_try_from. destruct (is_valid_http_endpoint _); cbn [negb andb]; [|done].
  destruct (http_provider_try_from _); cbn; [|done]. destruct (wallet_parse _); cbn; [|done].
  destruct (eth_address_parse _); cbn; [|done]. split; [done|]. intros da st [= <-] [= <-]. done.
Qed.

(** A file without fields is the default configuration. *)
Lemma config_of_nothing : config_of_fields (mk_eth_fields None None None None None None) = ethereum_config_default.
Proof. done. Qed.

End build.
