(* ===== verification/Node.v ===== *)
(** * Starting the node

    Models [crates/node/src/commands/run.rs], the choice of a chain specification
    in [command.rs], [starknet.rs], and of [service.rs] the components of a node, with
    the database it opens, the tasks that a full node starts and the inherent data
    that its blocks are authored with; of the runtime,
    [ConsensusOnTimestampSet].  What Substrate, the layers' clients and serde do is
    a parameter.  Built with the default features, the only data availability layer
    is Ethereum. *)
From S2P Require Import Prelude Bytes Deps Felt Hashers Transactions ComputeHash Blockifier Conversions Fee.
From S2P Require Import Execution Block CallTrace PalletStorage Pallet PalletEffects PalletProperties Chain ChainRun.
From S2P Require Import Validation Db MappingSync Files Engines Genesis Setup DataAvailability EthereumConfig.
Local Open Scope Z_scope.

(** ** The command line *)
Inductive DaLayer := DaEthereum.
Definition da_layer_display (l : DaLayer) : string := match l with DaEthereum => "Ethereum" end.

Inductive SettlementLayer := SettlementEthereum.

Inductive Sealing := Manual | Instant | InstantFinality.

Definition sealing_mode_from (value : Sealing) : SealingMode :=
  match value with
  | Manual => SealManual
  | Instant => SealInstant false
  | InstantFinality => SealInstant true
  end.

(** The fields of [sc_cli::RunCmd] that the node reads or writes. *)
Inductive RpcMethods := Auto | Safe | Unsafe.
Record SharedParams := mk_shared { shared_chain : option string; shared_dev : bool; shared_base_path : option Path }.
Record RunCmd := mk_run {
  shared_params : SharedParams; force_authoring : bool; alice : bool; tmp : bool; rpc_external : bool;
  rpc_methods : RpcMethods }.

Record L1Messages := mk_l1_messages {
  l1_messages_config : option Path; provider_url : option string; l1_contract_address : option string }.

Record ExtendedRunCmd := mk_extended {
  run_base : RunCmd;
  run_sealing : option Sealing;
  run_da_layer : option DaLayer;
  run_da_conf : option Path;
  run_settlement : option SettlementLayer;
  run_settlement_conf : option Path;
  run_cache : bool;
  run_l1_messages_worker : L1Messages;
}.

Definition override_dev_environment (cmd : ExtendedRunCmd) : ExtendedRunCmd :=
  let shared := shared_params (run_base cmd) in
  mk_extended (mk_run (mk_shared (Some "dev"%string) false (shared_base_path shared)) true true true true Unsafe)
    (run_sealing cmd) (run_da_layer cmd) (run_da_conf cmd) (run_settlement cmd) (run_settlement_conf cmd)
    (run_cache cmd) (run_l1_messages_worker cmd).

(** What the commands use of other crates: the base path of Substrate's parameters,
    the creation of a runner and the reader of the configuration of the L1 worker,
    given the content of the file or the error in reading it. *)
Class RunEnvironment `{NodeEnvironment} `{Remote} := {
  CliError : Type;
  shared_params_base_path : SharedParams -> result CliError (option BasePath);
  create_runner : ExtendedRunCmd -> result CliError unit;
  l1_config_from_reader : result IoError (list byte) -> option (Url * array 20);
  JsonSpec : Type;
  spec_from_json_file : Path -> result string JsonSpec;
}.

Record L1MessagesWorkerConfig `{RunEnvironment} := mk_l1_config { http_provider : Url; contract_address : array 20 }.

Inductive L1MessagesWorkerConfigError `{RunEnvironment} :=
| FileNotFound (e : IoError) | InvalidFile | InvalidProviderUrl (e : UrlError) | InvalidContractAddress.

(** The errors in a configuration that are turned into texts. *)
Inductive ConfError := ConfJson | ConfDa (e : DaError) | ConfSettlement (e : EthereumError).

(** [sc_cli::Error], with the parts of its messages. *)
Inductive RunMessage `{RunEnvironment} :=
| NoFileInBasePath (p : Path) | InvalidConf (e : ConfError) | L1Config (e : L1MessagesWorkerConfigError).
Inductive RunError `{RunEnvironment} := RunCli (e : CliError) | RunIo (e : IoError) | RunInput (m : RunMessage).

(** What [run_node] gives to [new_full]. *)
Record StartArguments `{EthersBuild} `{RunEnvironment} := mk_start {
  start_sealing : SealingMode;
  start_da_client : option EthereumClient;
  start_cache : bool;
  start_l1_messages : option L1MessagesWorkerConfig;
  start_settlement : option (SettlementLayer * Path);
}.

Section run.
  Context `{FS : FileSystem} {NE : NodeEnvironment} {RM : Remote} {EB : EthersBuild} {RE : RunEnvironment}.

Definition run_base_path (cmd : ExtendedRunCmd) : result CliError BasePath :=
  let? base_path := shared_params_base_path (shared_params (run_base cmd)) in
  Ok (default from_project base_path).

Definition run_chain_id (cmd : ExtendedRunCmd) : string := default "" (shared_chain (shared_params (run_base cmd))).

Definition chain_config_dir (cmd : ExtendedRunCmd) : result CliError Path :=
  let? base_path := run_base_path cmd in Ok (config_dir base_path (run_chain_id cmd)).

Definition init_da_client (da_layer : DaLayer) (da_path : Path) (d : Disk) : result RunError EthereumClient :=
  let? _ := map_err RunIo (fs_open da_path d) in
  match da_layer with
  | DaEthereum =>
      let? ethereum_conf := ok_or (ethereum_config_from_reader (fs_read da_path d)) (RunInput (InvalidConf ConfJson)) in
      map_err (fun e => RunInput (InvalidConf (ConfDa e))) (da_client_try_from ethereum_conf)
  end.

(** [L1MessagesWorkerConfig::new_from_file] and [new_from_params]. *)
Definition new_from_file (path : Path) (d : Disk) : result L1MessagesWorkerConfigError L1MessagesWorkerConfig :=
  let? _ := map_err FileNotFound (fs_open path d) in
  let? config := ok_or (l1_config_from_reader (fs_read path d)) InvalidFile in
  Ok (mk_l1_config _ _ _ (fst config) (snd config)).

Definition new_from_params (provider_url contract_address : string)
  : result L1MessagesWorkerConfigError L1MessagesWorkerConfig :=
  let? http_provider := map_err InvalidProviderUrl (url_parse provider_url) in
  let? contract_address := ok_or (eth_address_parse contract_address) InvalidContractAddress in
  Ok (mk_l1_config _ _ _ http_provider contract_address).

Definition extract_l1_messages_worker_config (run_cmd : L1Messages) (d : Disk)
  : result L1MessagesWorkerConfigError (option L1MessagesWorkerConfig) :=
  match l1_messages_config run_cmd with
  | Some config_path => let? config := new_from_file config_path d in Ok (Some config)
  | None =>
      match provider_url run_cmd, l1_contract_address run_cmd with
      | Some url, Some address => let? config := new_from_params url address in Ok (Some config)
      | _, _ => Ok None
      end
  end.

(** The configuration file of a layer: the one given, or the one of that name in the
    configuration directory, which has to exist. *)
Definition layer_conf (given : option Path) (chain_config_dir : Path) (name : string) (d : Disk) : result RunError Path :=
  match given with
  | Some conf => Ok conf
  | None =>
      let path_conf_json := path_join chain_config_dir (path_of name) in
      if negb (fs_exists path_conf_json d) then Err (RunInput (NoFileInBasePath path_conf_json)) else Ok path_conf_json
  end.

Definition run_node (cmd : ExtendedRunCmd) (d : Disk) : result RunError StartArguments :=
  let cmd := if shared_dev (shared_params (run_base cmd)) then override_dev_environment cmd else cmd in
  let? _ := map_err RunCli (create_runner cmd) in
  let? chain_config_dir := map_err RunCli (chain_config_dir cmd) in
  let? da_client :=
    match run_da_layer cmd with
    | Some da_layer =>
        let? da_conf := layer_conf (run_da_conf cmd) chain_config_dir (String.append (da_layer_display da_layer) ".json") d in
        let? client := init_da_client da_layer da_conf d in Ok (Some client)
    | None => Ok None
    end in
  let? l1_messages_worker_config :=
    map_err (fun e => RunInput (L1Config e)) (extract_l1_messages_worker_config (run_l1_messages_worker cmd) d) in
  let? settlement_config :=
    match run_settlement cmd with
    | Some SettlementEthereum =>
        let? settlement_conf := layer_conf (run_settlement_conf cmd) chain_config_dir "settlement_conf.json" d in
        Ok (Some (SettlementEthereum, settlement_conf))
    | None => Ok None
    end in
  Ok (mk_start _ _ _ _ (default SealDefault (option_map sealing_mode_from (run_sealing cmd))) da_client (run_cache cmd)
        l1_messages_worker_config settlement_config).

End run.

(** ** The chain specification *)
Section spec.
  Context `{FS : FileSystem} `{SF : StarknetFf} `{SA : StarknetApi} {CC : ContractClassI} {GF : GenesisFormat}.
  Context {NE : NodeEnvironment} {RM : Remote} {EB : EthersBuild} {RE : RunEnvironment} (WASM_BINARY : option (list byte)).

Inductive LoadedSpec :=
| SpecDev (s : ChainSpec DevGenesisExt)
| SpecRuntime (s : ChainSpec RuntimeGenesisConfig)
| SpecFile (s : JsonSpec).

(** [load_spec]; errors are texts, that of the base path is left out. *)
Definition load_spec (run : ExtendedRunCmd) (id : string) : result string LoadedSpec :=
  if String.eqb id DEV_CHAIN_ID then
    let sealing := default SealDefault (option_map sealing_mode_from (run_sealing run)) in
    let? base_path := map_err (fun _ => "base path"%string) (run_base_path run) in
    let? spec := development_config WASM_BINARY sealing base_path in Ok (SpecDev spec)
  else if String.eqb id "" || String.eqb id "local" || String.eqb id "madara-local" then
    let? base_path := map_err (fun _ => "base path"%string) (run_base_path run) in
    let? spec := local_testnet_config WASM_BINARY base_path id in Ok (SpecRuntime spec)
  else let? spec := spec_from_json_file (path_of id) in Ok (SpecFile spec).

End spec.

(** ** The service *)

(** The fields of Substrate's [Configuration] that the service reads.  The chain
    specification is its id and the function that builds its storage, of type [G], from
    the files on the disk. *)
Record Configuration `{FileSystem} `{NodeEnvironment} (G : Type) := mk_configuration {
  role_is_authority : bool;
  offchain_worker_enabled : bool;
  disable_grandpa : bool;
  has_telemetry_endpoints : bool;
  conf_database : DatabaseSource;
  conf_base_path : BasePath;
  chain_spec_id : string;
  build_storage : Disk -> outcome (result string G);
}.
Arguments mk_configuration {_ _ G}.
Arguments role_is_authority {_ _ G}.
Arguments offchain_worker_enabled {_ _ G}.
Arguments disable_grandpa {_ _ G}.
Arguments has_telemetry_endpoints {_ _ G}.
Arguments conf_database {_ _ G}.
Arguments conf_base_path {_ _ G}.
Arguments chain_spec_id {_ _ G}.
Arguments build_storage {_ _ G}.

(** [db_config_dir] of [starknet.rs]. *)
Definition db_config_dir `{FileSystem} `{NodeEnvironment} {G : Type} (config : Configuration G) : Path :=
  config_dir (conf_base_path config) (chain_spec_id config).

(** [sp_blockchain::Error], as far as the builder of the genesis block makes one. *)
Inductive BlockchainError := StorageError (e : string).

(** The tasks of a node that its own code spawns.  [TaskNetwork] stands for those of
    [spawn_tasks], which serve the RPC methods, with the channel for sealing commands if
    there is one; the other tasks that functions of Substrate spawn by themselves, for the
    import queue, the transaction pool and the network, are part of the steps below. *)
Inductive Task `{EthersBuild} `{RunEnvironment} :=
| TaskTelemetry
| TaskOffchainWorkers
| TaskNetwork (command_sink : bool)
| TaskMappingSync
| TaskCommitmentStateDiff
| TaskDataAvailability (c : EthereumClient)
| TaskSettlement (c : StarknetContractClient)
| TaskManualSeal
| TaskInstantSeal (finalize : bool)
| TaskAura
| TaskGrandpaVoter
| TaskL1Messages (c : L1MessagesWorkerConfig).

(** The tasks spawned so far, with whether they are essential, and whether the network
    was started. *)
Record TaskManager `{EthersBuild} `{RunEnvironment} := mk_manager { tasks : list (bool * Task); network_started : bool }.

(** The steps of Substrate that may fail. *)
Class ServiceSteps `{RunEnvironment} (G : Type) := {
  ServiceError : Type;
  from_io : IoError -> ServiceError;
  from_string : string -> ServiceError;
  service_other : ConfError -> ServiceError;
  telemetry_worker_new : result ServiceError unit;
  new_db_backend : result ServiceError unit;
  new_full_parts : G -> result ServiceError unit;
  grandpa_block_import : result ServiceError unit;
  aura_import_queue : result ServiceError unit;
  genesis_hash : option unit;
  build_network : bool -> result ServiceError unit;
  spawn_tasks : result ServiceError unit;
  slot_duration : result ServiceError unit;
  start_aura : result ServiceError unit;
  run_grandpa_voter : result ServiceError unit;
}.

Section service.
  Context `{FS : FileSystem} {NE : NodeEnvironment} {RM : Remote} {EB : EthersBuild} {RE : RunEnvironment}.
  Context {G : Type} {SS : ServiceSteps G} {EN : Engines}.

Definition spawn (essential : bool) (t : Task) : effr TaskManager ServiceError unit :=
  eput (fun m => mk_manager _ _ _ _ (tasks m ++ [(essential, t)]) (network_started m)) ;;; eret (Ok tt).
Definition start_network : effr TaskManager ServiceError unit :=
  eput (fun m => mk_manager _ _ _ _ (tasks m) true) ;;; eret (Ok tt).

(** A step of Substrate, with its error. *)
Definition service_step {A} (r : result ServiceError A) : effr TaskManager ServiceError A := eret r.

(** [MadaraGenesisBlockBuilder::new] of [genesis_block.rs]: it builds the storage of the
    chain specification. *)
Definition genesis_block_builder_new (config : Configuration G) (d : Disk) : outcome (result BlockchainError G) :=
  let! genesis_storage := build_storage config d in
  Ret (map_err StorageError genesis_storage).

Definition build_aura_grandpa_import_queue : effr TaskManager ServiceError unit :=
  service_step slot_duration ;;? service_step aura_import_queue.

Definition build_manual_seal_import_queue : effr TaskManager ServiceError unit := eret (Ok tt).

(** What is returned of the components: the database of the node and whether it caches. *)
Definition new_partial (config : Configuration G) (build_import_queue : effr TaskManager ServiceError unit)
    (cache_more_things : bool) (d : Disk) : effr (TaskManager * Store) ServiceError (Handle * bool) :=
  on_fst (if has_telemetry_endpoints config then service_step telemetry_worker_new else eret (Ok tt)) ;;?
  on_fst (service_step new_db_backend) ;;?
  genesis_block_builder <-- elift (let! r := genesis_block_builder_new config d in unwrap r);;
  on_fst (service_step (new_full_parts genesis_block_builder)) ;;?
  on_fst (if has_telemetry_endpoints config then spawn false TaskTelemetry else eret (Ok tt)) ;;?
  on_fst (service_step grandpa_block_import) ;;?
  madara_backend <-? emap_err from_string (on_snd (backend_open (conf_database config) (db_config_dir config)));;
  on_fst build_import_queue ;;?
  eret (Ok (madara_backend, cache_more_things)).

Definition run_manual_seal_authorship (sealing : SealingMode) (commands_stream : bool) : effr TaskManager ServiceError unit :=
  t <-- (match sealing with
         | SealManual => eassert commands_stream ;;; eret TaskManualSeal
         | SealInstant finalize => eret (TaskInstantSeal finalize)
         | SealDefault => epanic
         end);;
  spawn true t.

(** The client of the settlement layer, from its configuration file. *)
Definition settlement_client (layer_kind : SettlementLayer) (config_path : Path) (d : Disk)
  : result ServiceError StarknetContractClient :=
  match layer_kind with
  | SettlementEthereum =>
      let? _ := map_err from_io (fs_open config_path d) in
      let? ethereum_conf := ok_or (ethereum_config_from_reader (fs_read config_path d)) (service_other ConfJson) in
      map_err (fun e => service_other (ConfSettlement e)) (settlement_client_try_from ethereum_conf)
  end.

(** The workers of [new_full], in its order. *)
Definition spawn_da_workers (da_client : option EthereumClient) : effr TaskManager ServiceError unit :=
  match da_client with
  | Some da_client => spawn true TaskCommitmentStateDiff ;;? spawn true (TaskDataAvailability da_client)
  | None => eret (Ok tt)
  end.

Definition spawn_settlement_worker (settlement_config : option (SettlementLayer * Path)) (d : Disk)
  : effr TaskManager ServiceError unit :=
  match settlement_config with
  | Some (layer_kind, config_path) =>
      settlement_provider <-? eret (settlement_client layer_kind config_path d);;
      spawn true (TaskSettlement settlement_provider)
  | None => eret (Ok tt)
  end.

(** Aura, for an authority. *)
Definition spawn_aura (config : Configuration G) : effr TaskManager ServiceError unit :=
  if role_is_authority config then
    service_step slot_duration ;;? service_step start_aura ;;? spawn true TaskAura
  else eret (Ok tt).

Definition spawn_grandpa_voter (enable_grandpa : bool) : effr TaskManager ServiceError unit :=
  if enable_grandpa then service_step run_grandpa_voter ;;? spawn true TaskGrandpaVoter else eret (Ok tt).

Definition spawn_l1_messages_worker (config : option L1MessagesWorkerConfig) : effr TaskManager ServiceError unit :=
  match config with
  | Some l1_messages_worker_config => spawn false (TaskL1Messages l1_messages_worker_config)
  | None => eret (Ok tt)
  end.

Definition new_full (config : Configuration G) (args : StartArguments) (d : Disk) : effr (TaskManager * Store) ServiceError unit :=
  let sealing := start_sealing args in
  let build_import_queue := if is_default sealing then build_aura_grandpa_import_queue else build_manual_seal_import_queue in
  new_partial config build_import_queue (start_cache args) d ;;?
  on_fst (
  elift (unwrap_opt genesis_hash) ;;;
  service_step (build_network (is_default sealing)) ;;?
  (if offchain_worker_enabled config then spawn false TaskOffchainWorkers else eret (Ok tt)) ;;?
  let enable_grandpa := negb (disable_grandpa config) && is_default sealing in
  let command_sink := match sealing with SealManual => true | _ => false end in
  service_step spawn_tasks ;;?
  spawn true (TaskNetwork command_sink) ;;?
  spawn true TaskMappingSync ;;?
  spawn_da_workers (start_da_client args) ;;?
  spawn_settlement_worker (start_settlement args) d ;;?
  if role_is_authority config && negb (is_default sealing) then
    run_manual_seal_authorship sealing command_sink ;;?
    start_network
  else
    spawn_aura config ;;?
    spawn_grandpa_voter enable_grandpa ;;?
    spawn_l1_messages_worker (start_l1_messages args) ;;?
    start_network).

(** The node as the command line starts it: the runner calls [new_full] on the
    arguments and the configuration it made of the command line. *)
Definition start_node (config : Configuration G) (cmd : ExtendedRunCmd) (d : Disk)
  : effr (TaskManager * Store) (RunError + ServiceError) unit :=
  args <-? eret (map_err inl (run_node cmd d));;
  emap_err inr (new_full config args d).

End service.

(** ** Inherent data *)

(** The sequencer address of a block authored by Aura: what the offchain storage, if the
    backend has one, holds under its key. *)
Definition aura_sequencer_address (offchain_storage : option (option (list byte))) : InherentDataProvider :=
  match offchain_storage with
  | Some value =>
      match provider_try_from (default (arr DEFAULT_SEQUENCER_ADDRESS) value) with
      | Ok provider => provider
      | Err _ => provider_default
      end
  | None => provider_default
  end.

Definition MILLISECS_PER_BLOCK : Z := 6000.
Definition SLOT_DURATION : Z := MILLISECS_PER_BLOCK.
Definition MinimumPeriod : Z := SLOT_DURATION / 2.

(** [MockTimestampInherentDataProvider], on the thread's [TIMESTAMP]. *)
Definition mock_provide_timestamp : eff Z Z := fun timestamp =>
  let timestamp' := wadd 64 timestamp SLOT_DURATION in Ret (timestamp', timestamp').

Section inherents.
  Context {IN : Inherents}.

Definition mock_provide_inherent_data : effr (Z * InherentData) InherentsError unit :=
  timestamp <-- on_fst mock_provide_timestamp;;
  on_snd (put_data timestamp_identifier (ValueU64 timestamp)).

(** The providers of a block authored by Aura, in the order of the tuple. *)
Definition aura_inherent_data (slot timestamp : Z) (offchain_storage : option (option (list byte)))
  : effr InherentData InherentsError unit :=
  provide_slot slot ;;?
  provide_timestamp timestamp ;;?
  provide_inherent_data (aura_sequencer_address offchain_storage).

(** The inherent data of a block: manual and instant sealing provide the time only. *)
Definition authored_inherent_data (sealing : SealingMode) (slot timestamp : Z) (offchain_storage : option (option (list byte)))
  : effr (Z * InherentData) InherentsError unit :=
  if is_default sealing then on_snd (aura_inherent_data slot timestamp offchain_storage) else mock_provide_inherent_data.

End inherents.

(** [ConsensusOnTimestampSet::on_timestamp_set]: [aura] is Aura's own check. *)
Definition on_timestamp_set (stored : SealingMode) (aura : Z -> outcome unit) (moment : Z) : outcome unit :=
  if bool_decide (stored <> SealDefault) then Ret tt else aura moment.

(** ** Which tasks run *)
Section service_properties.
  Context `{FS : FileSystem} {NE : NodeEnvironment} {RM : Remote} {EB : EthersBuild} {RE : RunEnvironment}.
  Context {G : Type} {SS : ServiceSteps G} {EN : Engines}.

Definition idle : TaskManager := mk_manager _ _ _ _ [] false.

(** Who authors the blocks of an authority. *)
Definition author_task (sealing : SealingMode) : Task :=
  match sealing with SealDefault => TaskAura | SealManual => TaskManualSeal | SealInstant finalize => TaskInstantSeal finalize end.

(** All the tasks of a node that has started, in the order they were spawned, with
    whether the node ends when they do. *)
Definition node_tasks (config : Configuration G) (sealing : SealingMode) (da : option EthereumClient)
    (settlement : option StarknetContractClient) (l1 : option L1MessagesWorkerConfig) : list (bool * Task) :=
  (if has_telemetry_endpoints config then [(false, TaskTelemetry)] else [])
  ++ (if offchain_worker_enabled config then [(false, TaskOffchainWorkers)] else [])
  ++ [(true, TaskNetwork (bool_decide (sealing = SealManual))); (true, TaskMappingSync)]
  ++ match da with Some c => [(true, TaskCommitmentStateDiff); (true, TaskDataAvailability c)] | None => [] end
  ++ match settlement with Some c => [(true, TaskSettlement c)] | None => [] end
  ++ (if role_is_authority config then [(true, author_task sealing)] else [])
  ++ (if bool_decide (sealing = SealDefault) && negb (disable_grandpa config) then [(true, TaskGrandpaVoter)] else [])
  ++ (if role_is_authority config && bool_decide (sealing <> SealDefault) then []
      else match l1 with Some c => [(false, TaskL1Messages c)] | None => [] end).

(** The settlement client that the arguments ask for. *)
Definition settlement_of (args : StartArguments) (d : Disk) : option StarknetContractClient :=
  match start_settlement args with Some (layer, path) => result_ok (settlement_client layer path d) | None => None end.

(** A step that returns and, when it succeeds, has spawned the tasks [l] under the
    condition [Q], and started the network if [b] says so. *)
Definition adds (b : bool) (l : list (bool * Task)) (Q : Prop) (m : effr TaskManager ServiceError unit) : Prop :=
  forall s, exists r s', m s = Ret (r, s')
    /\ match r with
       | Ok _ => network_started s' = (b || network_started s) /\ tasks s' = tasks s ++ l /\ Q
       | Err _ => network_started s' = network_started s
       end.

Lemma adds_try b l1 Q1 m1 l2 Q2 m2 : adds false l1 Q1 m1 -> adds b l2 Q2 m2 -> adds b (l1 ++ l2) (Q1 /\ Q2) (m1 ;;? m2).
Proof.
  intros H1 H2 s. unfold etry, ebind. destruct (H1 s) as ([[]|e] & s1 & -> & R1); [|by exists (Err e), s1].
  destruct R1 as (N1 & E1 & q1). destruct (H2 s1) as (r2 & s2 & -> & R2). exists r2, s2. split; [done|].
  cbn in N1. destruct r2 as [[]|e]; [|congruence]. destruct R2 as (N2 & E2 & q2).
  split; [by rewrite N2, N1|]. split; [|done]. by rewrite E2, E1, app_assoc.
Qed.

Lemma adds_step {A} (r : result ServiceError A) l Q (k : A -> effr TaskManager ServiceError unit) :
  (forall a, r = Ok a -> adds false l Q (k a)) -> adds false l Q (a <-? service_step r;; k a).
Proof.
  intros Hk s. unfold etry, ebind, service_step, eret. destruct r as [a|e]; [by apply Hk|by exists (Err e), s].
Qed.

Lemma adds_step_last (r : result ServiceError unit) : adds false [] True (service_step r).
Proof. intros s. exists r, s. split; [done|]. destruct r; [|done]. by rewrite app_nil_r. Qed.

Lemma adds_spawn e t : adds false [(e, t)] True (spawn e t).
Proof. intros s. by eexists _, _. Qed.

Lemma adds_nothing : adds false [] True (eret (Ok tt)).
Proof. apply adds_step_last. Qed.

Lemma adds_network : adds true [] True start_network.
Proof. intros s. eexists _, _. split; [reflexivity|]. by rewrite app_nil_r. Qed.

Lemma adds_genesis b l Q m : genesis_hash = Some tt -> adds b l Q m -> adds b l Q (elift (unwrap_opt genesis_hash) ;;; m).
Proof. intros Hg Hm s. unfold ebind, elift. rewrite Hg. apply Hm. Qed.

Lemma adds_weaken b l l' (Q Q' : Prop) m : adds b l Q m -> l = l' -> (Q -> Q') -> adds b l' Q' m.
Proof.
  intros Hm <- HQ s. destruct (Hm s) as (r & s' & Hr & H). exists r, s'. split; [done|]. destruct r; [|done]. naive_solver.
Qed.

Lemma default_decide sealing : bool_decide (sealing = SealDefault) = is_default sealing.
Proof. by destruct sealing. Qed.
Lemma not_default_decide sealing : bool_decide (sealing <> SealDefault) = negb (is_default sealing).
Proof. by destruct sealing. Qed.

(** The last part of [new_full]: authoring, finality and the L1 messages. *)
Lemma authoring_tasks config args :
  let sealing := start_sealing args in
  adds true ((if role_is_authority config then [(true, author_task sealing)] else [])
             ++ (if is_default sealing && negb (disable_grandpa config) then [(true, TaskGrandpaVoter)] else [])
             ++ (if role_is_authority config && negb (is_default sealing) then []
                 else match start_l1_messages args with Some c => [(false, TaskL1Messages c)] | None => [] end)) True
    (if role_is_authority config && negb (is_default sealing) then
       run_manual_seal_authorship sealing (match sealing with SealManual => true | _ => false end) ;;? start_network
     else
       spawn_aura config ;;?
       spawn_grandpa_voter (negb (disable_grandpa config) && is_default sealing) ;;?
       spawn_l1_messages_worker (start_l1_messages args) ;;?
       start_network).
Proof.
  intros sealing. unfold spawn_aura, spawn_grandpa_voter, spawn_l1_messages_worker.
  destruct (role_is_authority config && negb (is_default sealing)) eqn:E.
  - apply andb_true_iff in E as [-> E]. subst sealing. destruct (start_sealing args) as [| |fin]; [done|..];
      (eapply adds_weaken; [eapply adds_try; [apply adds_spawn|apply adds_network]|done|done]).
  - eapply adds_weaken; [|shelve|shelve]. eapply adds_try.
    { instantiate (2 := if role_is_authority config then [(true, TaskAura)] else []). instantiate (1 := True).
      destruct (role_is_authority config); [|apply adds_nothing].
      apply adds_step; intros _ _. apply adds_step; intros _ _. apply adds_spawn. }
    eapply adds_try.
    { instantiate (2 := if negb (disable_grandpa config) && is_default sealing then [(true, TaskGrandpaVoter)] else []).
      instantiate (1 := True). destruct (negb _ && _); [|apply adds_nothing]. apply adds_step; intros _ _. apply adds_spawn. }
    eapply adds_try; [|apply adds_network].
    instantiate (2 := match start_l1_messages args with Some c => [(false, TaskL1Messages c)] | None => [] end). instantiate (1 := True).
    destruct (start_l1_messages args); [apply adds_spawn|apply adds_nothing].
    Unshelve. 2: done. rewrite (andb_comm (is_default sealing)), app_nil_r. f_equal. subst sealing.
    destruct (role_is_authority config); [|done]. by destruct (start_sealing args).
Qed.

(** A step on the tasks and the store that returns, leaves the network as it is and, when
    it succeeds, has spawned the tasks [l] and left a store of [R]. *)
Definition leads {A} (l : list (bool * Task)) (R : Store -> Prop) (m : effr (TaskManager * Store) ServiceError A)
    (s : TaskManager) (store : Store) : Prop :=
  exists r s' store', m (s, store) = Ret (r, (s', store')) /\ network_started s' = network_started s
    /\ (is_ok r = true -> tasks s' = tasks s ++ l /\ R store').

Lemma leads_fst {A} l1 Q m1 l2 R (k : effr (TaskManager * Store) ServiceError A) s store :
  adds false l1 Q m1 -> (forall s1, leads l2 R k s1 store) -> leads (l1 ++ l2) R (on_fst m1 ;;? k) s store.
Proof.
  intros H1 Hk. unfold leads, etry, ebind, on_fst. destruct (H1 s) as ([[]|e] & s1 & -> & H); [|by eexists _, s1, store].
  destruct H as (Hn & Ht & _). destruct (Hk s1) as (r & s' & store' & -> & Hn' & Hr). exists r, s', store'.
  split; [done|]. split; [by rewrite Hn', Hn|]. intros Hok. destruct (Hr Hok) as [-> HR]. by rewrite Ht, <- app_assoc.
Qed.

Lemma partial_runs config biq cache d storage s store :
  build_storage config d = Ret (Ok storage) ->
  (forall st, exists r st', backend_open (conf_database config) (db_config_dir config) st = Ret (r, st')) ->
  adds false [] True biq ->
  leads (if has_telemetry_endpoints config then [(false, TaskTelemetry)] else [])
    (fun store' => exists h, backend_open (conf_database config) (db_config_dir config) store = Ret (Ok h, store'))
    (new_partial config biq cache d) s store.
Proof.
  intros Hb Ho Hq. unfold new_partial. apply (leads_fst [] True).
  { destruct (has_telemetry_endpoints config); [apply adds_step_last|apply adds_nothing]. }
  intros s1. apply (leads_fst [] True); [apply adds_step_last|]. intros s2.
  unfold leads, ebind at 1, elift, genesis_block_builder_new. rewrite Hb. cbn [outcome_bind map_err unwrap].
  change (leads (if has_telemetry_endpoints config then [(false, TaskTelemetry)] else []) 
    (fun store' => exists h, backend_open (conf_database config) (db_config_dir config) store = Ret (Ok h, store'))
    (on_fst (service_step (new_full_parts storage)) ;;?
     on_fst (if has_telemetry_endpoints config then spawn false TaskTelemetry else eret (Ok tt)) ;;?
     on_fst (service_step grandpa_block_import) ;;?
     madara_backend <-? emap_err from_string (on_snd (backend_open (conf_database config) (db_config_dir config)));;
     on_fst biq ;;? eret (Ok (madara_backend, cache))) s2 store).
  apply (leads_fst [] True); [apply adds_step_last|]. intros s3. rewrite <- (app_nil_r (if has_telemetry_endpoints config then _ else _)).
  apply (leads_fst _ True); [destruct (has_telemetry_endpoints config); [apply adds_spawn|apply adds_nothing]|].
  intros s4. apply (leads_fst [] True); [apply adds_step_last|]. intros s5.
  unfold leads, etry, ebind, emap_err, ebind, on_snd, eret. destruct (Ho store) as ([h|e] & store1 & E); rewrite E; cbn;
    [|by eexists _, s5, store1].
  unfold on_fst. destruct (Hq s5) as ([[]|e] & s6 & -> & H6); [|by eexists _, s6, store1].
  destruct H6 as (Hn & Ht & _). eexists _, s6, store1. split; [done|]. split; [done|]. by eauto.
Qed.

Lemma queue_adds sealing : adds false [] True (if is_default sealing then build_aura_grandpa_import_queue else build_manual_seal_import_queue).
Proof. destruct (is_default sealing); [apply adds_step; intros _ _; apply adds_step_last|apply adds_nothing]. Qed.

(** The rest of [new_full], after the components are there. *)
Lemma service_tasks config args d :
  genesis_hash = Some tt ->
  adds true ((if offchain_worker_enabled config then [(false, TaskOffchainWorkers)] else [])
      ++ [(true, TaskNetwork (bool_decide (start_sealing args = SealManual)))] ++ [(true, TaskMappingSync)]
      ++ match start_da_client args with Some c => [(true, TaskCommitmentStateDiff); (true, TaskDataAvailability c)] | None => [] end
      ++ match settlement_of args d with Some c => [(true, TaskSettlement c)] | None => [] end
      ++ (if role_is_authority config then [(true, author_task (start_sealing args))] else [])
      ++ (if is_default (start_sealing args) && negb (disable_grandpa config) then [(true, TaskGrandpaVoter)] else [])
      ++ (if role_is_authority config && negb (is_default (start_sealing args)) then []
          else match start_l1_messages args with Some c => [(false, TaskL1Messages c)] | None => [] end))
      (is_Some (start_settlement args) -> is_Some (settlement_of args d))
      (elift (unwrap_opt genesis_hash) ;;;
       service_step (build_network (is_default (start_sealing args))) ;;?
       (if offchain_worker_enabled config then spawn false TaskOffchainWorkers else eret (Ok tt)) ;;?
       service_step spawn_tasks ;;?
       spawn true (TaskNetwork (match start_sealing args with SealManual => true | _ => false end)) ;;?
       spawn true TaskMappingSync ;;?
       spawn_da_workers (start_da_client args) ;;?
       spawn_settlement_worker (start_settlement args) d ;;?
       (if role_is_authority config && negb (is_default (start_sealing args)) then
          run_manual_seal_authorship (start_sealing args) (match start_sealing args with SealManual => true | _ => false end) ;;? start_network
        else
          spawn_aura config ;;?
          spawn_grandpa_voter (negb (disable_grandpa config) && is_default (start_sealing args)) ;;?
          spawn_l1_messages_worker (start_l1_messages args) ;;?
          start_network)).
Proof.
  intros Hg. apply adds_genesis; [done|]. eapply adds_weaken; [eapply adds_try; [apply adds_step_last|]|shelve|shelve]. eapply adds_try.
  { instantiate (2 := if offchain_worker_enabled config then [(false, TaskOffchainWorkers)] else []). instantiate (1 := True).
    destruct (offchain_worker_enabled config); [apply adds_spawn|apply adds_nothing]. }
  eapply adds_try; [apply adds_step_last|]. eapply adds_try; [apply adds_spawn|]. eapply adds_try; [apply adds_spawn|].
  eapply adds_try.
  { instantiate (2 := match start_da_client args with Some c => [(true, TaskCommitmentStateDiff)] ++ [(true, TaskDataAvailability c)] | None => [] end).
    instantiate (1 := True). unfold spawn_da_workers. destruct (start_da_client args); [|apply adds_nothing].
    eapply adds_weaken; [eapply adds_try; apply adds_spawn|done|done]. }
  eapply adds_try; [|apply authoring_tasks].
  instantiate (2 := match settlement_of args d with Some c => [(true, TaskSettlement c)] | None => [] end).
  instantiate (1 := is_Some (start_settlement args) -> is_Some (settlement_of args d)). unfold settlement_of, spawn_settlement_worker.
  destruct (start_settlement args) as [[layer path]|]; [|eapply adds_weaken; [apply adds_nothing|done|by intros _ []]].
  apply adds_step. intros c ->. eapply adds_weaken; [apply adds_spawn|done|by eauto].
  Unshelve. 2: tauto. cbn. do 2 f_equal. by destruct (start_sealing args).
Qed.

Lemma new_full_spec config args d storage s store :
  genesis_hash = Some tt -> build_storage config d = Ret (Ok storage) ->
  (forall st, exists r st', backend_open (conf_database config) (db_config_dir config) st = Ret (r, st')) ->
  exists r s' store', new_full config args d (s, store) = Ret (r, (s', store'))
    /\ network_started s' = (is_ok r || network_started s)
    /\ (is_ok r = true ->
        tasks s' = tasks s ++ node_tasks config (start_sealing args) (start_da_client args) (settlement_of args d) (start_l1_messages args)
        /\ (is_Some (start_settlement args) -> is_Some (settlement_of args d))
        /\ exists h, backend_open (conf_database config) (db_config_dir config) store = Ret (Ok h, store')).
Proof.
  intros Hg Hb Ho. unfold new_full, etry at 1, ebind at 1.
  destruct (partial_runs config _ (start_cache args) d storage s store Hb Ho (queue_adds (start_sealing args)))
    as (r & s1 & store1 & -> & Hn & Hr). destruct r as [h|e]; [|by eexists _, s1, store1].
  destruct (Hr eq_refl) as [Ht HR]. unfold on_fst.
  pose proof (service_tasks config args d Hg) as Hrest.
  destruct (Hrest s1) as (r & s2 & E & H2). cbv zeta. rewrite E. exists r, s2, store1. split; [done|].
  destruct r as [[]|e]; [|split; [by rewrite H2|done]]. destruct H2 as (Hn2 & Ht2 & HQ). split; [by rewrite Hn2, Hn|]. intros _.
  split; [|done]. rewrite Ht2, Ht, <- app_assoc. unfold node_tasks. by rewrite default_decide, not_default_decide.
Qed.

(** *** From the command line *)

(** The command line that counts: [--dev] replaces part of it. *)
Definition effective (cmd : ExtendedRunCmd) : ExtendedRunCmd :=
  if shared_dev (shared_params (run_base cmd)) then override_dev_environment cmd else cmd.

(** The configuration file of a layer, as the options document it. *)
Definition conf_at (given : option Path) (dir : Path) (name : string) (d : Disk) (path : Path) : Prop :=
  given = Some path \/ (given = None /\ path = path_join dir (path_of name) /\ fs_exists path d = true).

Lemma layer_conf_spec given dir name d path : layer_conf given dir name d = Ok path <-> conf_at given dir name d path.
Proof.
  unfold layer_conf, conf_at. destruct given as [p|].
  - split; [intros [= ->]; by left|]. by intros [[= ->]|(? & _)].
  - destruct (fs_exists _ d) eqn:E; cbn; split; intros H.
    + injection H as <-. by right.
    + destruct H as [?|(_ & -> & _)]; done.
    + done.
    + destruct H as [?|(_ & -> & He)]; congruence.
Qed.

(** The data availability client that the command line asks for. *)
Definition da_client_at (cmd : ExtendedRunCmd) (dir : Path) (d : Disk) (client : option EthereumClient) : Prop :=
  match run_da_layer cmd with
  | Some _ => exists c path conf, client = Some c /\ conf_at (run_da_conf cmd) dir "Ethereum.json" d path
                /\ ethereum_config_from_reader (fs_read path d) = Some conf /\ da_client_try_from conf = Ok c
  | None => client = None
  end.
Definition settlement_at (cmd : ExtendedRunCmd) (dir : Path) (d : Disk) (client : option StarknetContractClient) : Prop :=
  match run_settlement cmd with
  | Some _ => exists c path conf, client = Some c /\ conf_at (run_settlement_conf cmd) dir "settlement_conf.json" d path
                /\ ethereum_config_from_reader (fs_read path d) = Some conf /\ settlement_client_try_from conf = Ok c
  | None => client = None
  end.

Definition sealing_of (cmd : ExtendedRunCmd) : SealingMode := default SealDefault (option_map sealing_mode_from (run_sealing cmd)).

(** The configuration of the worker for L1 messages that the command line asks for: that
    of the file given, or else the URL and the address given, if both are. *)
Definition l1_config_at (options : L1Messages) (d : Disk) (config : option L1MessagesWorkerConfig) : Prop :=
  match l1_messages_config options with
  | Some path => exists url address, config = Some (mk_l1_config _ _ _ url address)
                   /\ l1_config_from_reader (fs_read path d) = Some (url, address)
  | None =>
      match provider_url options, l1_contract_address options with
      | Some u, Some a => exists url address, config = Some (mk_l1_config _ _ _ url address)
                            /\ url_parse u = Ok url /\ eth_address_parse a = Some address
      | _, _ => config = None
      end
  end.

Lemma extract_l1_spec options d config :
  extract_l1_messages_worker_config options d = Ok config -> l1_config_at options d config.
Proof.
  unfold extract_l1_messages_worker_config, l1_config_at, new_from_file, new_from_params.
  destruct (l1_messages_config options) as [path|].
  - destruct (fs_open path d); cbn; [|done]. destruct (l1_config_from_reader _) as [[url address]|]; cbn; [|done].
    intros [= <-]. by eauto.
  - destruct (provider_url options) as [u|], (l1_contract_address options) as [a|]; try by intros [= <-].
    destruct (url_parse u); cbn; [|done]. destruct (eth_address_parse a); cbn; [|done]. intros [= <-]. by eauto.
Qed.

Lemma run_node_spec cmd d args :
  run_node cmd d = Ok args ->
  exists dir, chain_config_dir (effective cmd) = Ok dir
  /\ start_sealing args = sealing_of cmd /\ da_client_at cmd dir d (start_da_client args)
  /\ l1_config_at (run_l1_messages_worker cmd) d (start_l1_messages args)
  /\ (start_settlement args = None <-> run_settlement cmd = None)
  /\ (is_Some (settlement_of args d) -> settlement_at cmd dir d (settlement_of args d)).
Proof.
  unfold run_node. fold (effective cmd).
  assert (Hf : run_da_layer (effective cmd) = run_da_layer cmd /\ run_da_conf (effective cmd) = run_da_conf cmd
    /\ run_settlement (effective cmd) = run_settlement cmd /\ run_settlement_conf (effective cmd) = run_settlement_conf cmd
    /\ run_l1_messages_worker (effective cmd) = run_l1_messages_worker cmd /\ run_sealing (effective cmd) = run_sealing cmd).
  { unfold effective. by destruct (shared_dev _). }
  destruct Hf as (-> & -> & -> & -> & -> & ->). unfold da_client_at, settlement_at, settlement_of.
  destruct (create_runner _); cbn; [|done]. destruct (chain_config_dir (effective cmd)) as [dir|]; cbn; [|done]. intros Hr.
  exists dir. split; [done|].
  assert (Hda : exists client, da_client_at cmd dir d client
    /\ result_bind (map_err (fun e => RunInput (L1Config e)) (extract_l1_messages_worker_config (run_l1_messages_worker cmd) d))
         (fun l1 => result_bind (match run_settlement cmd with
            | Some SettlementEthereum => let? p := layer_conf (run_settlement_conf cmd) dir "settlement_conf.json" d in Ok (Some (SettlementEthereum, p))
            | None => Ok None end)
          (fun st => Ok (mk_start _ _ _ _ (sealing_of cmd) client (run_cache (effective cmd)) l1 st))) = Ok args).
  { unfold da_client_at. destruct (run_da_layer cmd) as [[]|]; [|by exists None].
    destruct (layer_conf (run_da_conf cmd) dir _ d) as [path|] eqn:El; [|done]. apply layer_conf_spec in El. cbn in Hr.
    unfold init_da_client in Hr. destruct (fs_open path d); cbn in Hr; [|done].
    destruct (ethereum_config_from_reader (fs_read path d)) as [conf|] eqn:Ec; cbn in Hr; [|done].
    destruct (da_client_try_from conf) as [c|] eqn:Ed; cbn in Hr; [|done]. exists (Some c). split; [|exact Hr]. by exists c, path, conf. }
  clear Hr. destruct Hda as (client & Hc & Hr).
  destruct (extract_l1_messages_worker_config _ d) as [l1|] eqn:Hl1; cbn in Hr; [|done]. apply extract_l1_spec in Hl1.
  destruct (run_settlement cmd) as [[]|]; cbn in Hr.
  - destruct (layer_conf (run_settlement_conf cmd) dir _ d) as [path|] eqn:El; cbn in Hr; [|done]. injection Hr as <-.
    apply layer_conf_spec in El. cbn. split_and!; [done|done|done|done|]. unfold settlement_client.
    destruct (fs_open path d); cbn; [|by intros []].
    destruct (ethereum_config_from_reader (fs_read path d)) as [conf|] eqn:Ec; cbn; [|by intros []].
    destruct (settlement_client_try_from conf) as [c|] eqn:Ed; cbn; [|by intros []]. intros _. by exists c, path, conf.
  - injection Hr as <-. cbn. done.
Qed.

(** C28: which tasks a node started from the command line runs.  Given that the client
    has a genesis block once it is built, that the storage of the chain specification can
    be built and that opening the database returns, the start returns; if it fails the
    network is not started.  When it succeeds it has opened the database configured, and
    the tasks that it has spawned, apart from those internal to Substrate, are exactly
    these, in this order: telemetry if there are endpoints
    for it; the offchain workers if they are enabled; the tasks of the network, with a
    channel for sealing commands under manual sealing; the mapping synchronisation; the
    data availability worker and the one that feeds it when a layer is chosen, and the
    settlement worker likewise, each configured from the file given or else from the file
    of its name in the configuration directory; for an authority, Aura unless another
    sealing is chosen; the GRANDPA voter unless it is disabled or another sealing is
    chosen; and the worker for L1 messages when it is configured, from the file or the
    parameters given, except on an authority with manual or instant sealing, where it is
    never started. *)
Theorem node_workers (config : Configuration G) (cmd : ExtendedRunCmd) (d : Disk) (store : Store) (storage : G) :
  genesis_hash = Some tt -> build_storage config d = Ret (Ok storage) ->
  (forall st, exists r st', backend_open (conf_database config) (db_config_dir config) st = Ret (r, st')) ->
  exists r m store', start_node config cmd d (idle, store) = Ret (r, (m, store'))
  /\ network_started m = is_ok r
  /\ (r = Ok tt -> exists dir da settlement l1 h,
      chain_config_dir (effective cmd) = Ok dir
      /\ da_client_at cmd dir d da /\ settlement_at cmd dir d settlement /\ l1_config_at (run_l1_messages_worker cmd) d l1
      /\ tasks m = node_tasks config (sealing_of cmd) da settlement l1
      /\ backend_open (conf_database config) (db_config_dir config) store = Ret (Ok h, store')).
Proof.
  intros Hg Hb Ho. unfold start_node, etry, ebind, eret. destruct (run_node cmd d) as [args|e] eqn:Er; cbn;
    [|by exists (Err (inl e)), idle, store].
  destruct (new_full_spec config args d storage idle store Hg Hb Ho) as (r & m & store' & Hn & Hnet & Hm).
  unfold emap_err, ebind. rewrite Hn. exists (map_err inr r), m, store'. split; [done|].
  rewrite orb_false_r in Hnet. destruct r as [[]|e]; [|by split]. destruct (Hm eq_refl) as (Hrun & Hs & h & Hh).
  split; [done|]. intros _. destruct (run_node_spec _ _ _ Er) as (dir & Hdir & Hse & Hda & Hl1 & Hst & Hsa).
  exists dir, (start_da_client args), (settlement_of args d), (start_l1_messages args), h.
  change (tasks idle ++ ?l) with l in Hrun. rewrite Hse in Hrun. split_and!; try done.
  destruct (run_settlement cmd) as [l|] eqn:Ec; [apply Hsa, Hs|unfold settlement_at; rewrite Ec].
  - destruct (start_settlement args); [by eauto|]. discriminate (proj1 Hst eq_refl).
  - unfold settlement_of. by rewrite (proj2 Hst eq_refl).
Qed.

(** Without a storage the start panics: the error of the builder of the genesis block is
    unwrapped, and a panic of the chain specification is not caught. *)
Theorem start_without_storage_panics (config : Configuration G) (args : StartArguments) (d : Disk) s :
  telemetry_worker_new = Ok tt -> new_db_backend = Ok tt -> (forall storage, build_storage config d <> Ret (Ok storage)) ->
  new_full config args d s = Panic.
Proof.
  intros Ht Hd Hb. destruct s as [m store]. unfold new_full, new_partial, etry, ebind, on_fst, service_step, elift, eret, genesis_block_builder_new.
  assert (E : (if has_telemetry_endpoints config then eret telemetry_worker_new else eret (Ok tt)) m = Ret (Ok tt, m))
    by (rewrite Ht; by destruct (has_telemetry_endpoints config)).
  unfold eret in E. rewrite E, Hd. destruct (build_storage config d) as [[storage|e]|]; [|done..]. by destruct (Hb storage).
Qed.

End service_properties.

(** ** Authoring blocks *)
Section authoring.
  Context `{SF : StarknetFf} {SFL : StarknetFfLaws} `{SA : StarknetApi} {SAL : StarknetApiLaws}.
  Context `{PT : PrimitiveTypes} {PTL : PrimitiveTypesLaws} `{SC : StarknetCrypto}.
  Context `{FX : FixedPoint} `{LC : LogCodec} {LCL : LogCodecLaws}.
  Context `{BL : Blockifier} {BLL : BlockifierLaws} {CFG : Config}.

(** An address that the inherent call accepts. *)
Definition valid_address (addr : array 32) : bool :=
  match stark_new addr with Some s => patricia_check s | None => false end.

(** The address of the next block: the one stored offchain if it has 32 bytes and Aura
    authors, the default otherwise. *)
Definition next_address (sealing : SealingMode) (offchain_storage : option (option (list byte))) : array 32 :=
  match sealing, offchain_storage with
  | SealDefault, Some (Some stored) => default DEFAULT_SEQUENCER_ADDRESS (array_of_slice 32 stored)
  | _, _ => DEFAULT_SEQUENCER_ADDRESS
  end.

Lemma aura_address offchain :
  provider_sequencer_address (aura_sequencer_address offchain) = next_address SealDefault offchain.
Proof.
  unfold aura_sequencer_address, provider_try_from, next_address. destruct offchain as [[stored|]|]; [| |done];
    cbn [default from_option id]; [by destruct (array_of_slice 32 stored)|by rewrite array_of_slice_arr].
Qed.

Lemma differing_identifiers {IN : Inherents} {held slot_identifier} {IL : InherentsLaws held slot_identifier} :
  INHERENT_IDENTIFIER <> timestamp_identifier /\ INHERENT_IDENTIFIER <> slot_identifier /\ timestamp_identifier <> slot_identifier.
Proof. pose proof identifiers_differ as Hd. rewrite !list.NoDup_cons in Hd. set_solver. Qed.

Lemma next_inherent {IN : Inherents} {held slot_identifier} {IL : InherentsLaws held slot_identifier} sealing slot timestamp offchain mock :
  exists mock' data, authored_inherent_data sealing slot timestamp offchain (mock, inherent_data_new) = Ret (Ok tt, (mock', data))
    /\ create_inherent data = Ret (Some (set_sequencer_address (next_address sealing offchain))).
Proof.
  assert (Hnew : forall identifier, held inherent_data_new !! identifier = None) by (intros; rewrite entries_new; apply lookup_empty).
  destruct differing_identifiers as (Hst & Hss & Hts).
  unfold authored_inherent_data, create_inherent. destruct (is_default sealing) eqn:Hs.
  - assert (sealing = SealDefault) as -> by (by destruct sealing). unfold on_snd, aura_inherent_data, etry, ebind.
    rewrite provide_slot_puts. destruct (put_data_fresh slot_identifier (ValueU64 slot) inherent_data_new (Hnew _)) as (d1 & -> & E1).
    cbn [snd]. rewrite provide_timestamp_puts.
    destruct (put_data_fresh timestamp_identifier (ValueU64 timestamp) d1) as (d2 & -> & E2).
    { rewrite E1, lookup_insert_ne by done. apply Hnew. }
    destruct (provide_then_get (aura_sequencer_address offchain) d2) as (d & -> & Hd).
    { rewrite E2, E1, !lookup_insert_ne by done. apply Hnew. }
    eexists _, d. split; [done|]. rewrite Hd. cbn. by rewrite aura_address.
  - unfold mock_provide_inherent_data, ebind, on_fst, on_snd, mock_provide_timestamp. cbn [fst snd].
    destruct (put_data_fresh timestamp_identifier (ValueU64 (wadd 64 mock SLOT_DURATION)) inherent_data_new (Hnew _)) as (d1 & -> & E1).
    eexists _, d1. split; [done|]. unfold sequencer_address_inherent_data. rewrite get_address_absent;
      [by destruct sealing|]. rewrite E1, lookup_insert_ne by done. apply Hnew.
Qed.

(** One dispatched call, whatever its result. *)
Definition dispatched (p p' : Pallet) : Prop := exists o c r, dispatch o c p = Ret (r, p').

(** The sequencer flag, once set, stays set until the block is finalized. *)
Lemma dispatched_flag p p' :
  nonces_canonical p -> dispatched p p' -> seq_addr_update (ledger p) = Some true -> seq_addr_update (ledger p') = Some true.
Proof.
  intros Hn (o & c & r & Hd) Hs. destruct r as [[]|e]; [|by apply dispatch_err in Hd as ->].
  destruct (call_tx c) as [tx|] eqn:Hc.
  - destruct (dispatch_tx_inv _ _ _ _ _ Hc Hd Hn) as (p1 & infos & [El _ _] & -> & _).
    cbn [recorded ledger]. rewrite El. by destruct c.
  - destruct c; try done. by apply dispatch_seq_inv in Hd as (_ & a & _ & _ & ->).
Qed.

Lemma dispatched_inv p p' bs :
  rtc dispatched p p' -> chain_inv (mk_chain _ Building p bs) ->
  chain_inv (mk_chain _ Building p' bs)
  /\ (seq_addr_update (ledger p) = Some true -> seq_addr_update (ledger p') = Some true).
Proof.
  induction 1 as [p|p q p' (o & c & r & Hd) _ IH]; intros Hi; [done|].
  destruct IH as [Hi' Hf]; [by eapply dispatch_inv|]. split; [done|]. intros Hs. apply Hf.
  apply (dispatched_flag p); [apply Hi|by exists o, c, r|done].
Qed.

Lemma dispatch_sequencer addr p :
  (1 <? block_number p) = false \/ seq_addr_update (ledger p) = None ->
  dispatch OriginNone (set_sequencer_address addr) p
  = match stark_new addr with
    | Some s => if patricia_check s
                then Ret (Ok tt, set_ledger (set_seq_addr_update (Some true)) (set_ledger (put_sequencer_address (mk_new s)) p))
                else Ret (Err (PErr SequencerAddressNotValid), p)
    | None => Ret (Err (PErr SequencerAddressNotValid), p)
    end.
Proof.
  intros Hs. unfold dispatch. cbn [call_body].
  unfold set_sequencer_address_call, ensure, ensure_none, etry, ebind, eget, eret, eassert, eput. cbn [id].
  destruct Hs as [Hs|Hs]; rewrite Hs; [|destruct (1 <? block_number p)]; cbn;
    (destruct (stark_new addr) as [s|]; cbn; [by destruct (patricia_check s)|done]).
Qed.

(** C23: the blocks a node authors can be finalized.  Whatever the sealing mode, the
    inherent data of a block gives the pallet one call, for the address stored
    offchain when Aura authors and 32 bytes are stored, for the default otherwise.
    When the address is a contract address, or the block is the first, the block can
    be finalized after any further calls.  When it is not, from the second block on
    the call is refused and finalization panics, so that no block can be authored. *)
Theorem authored_block_finalizes {IN : Inherents} {held slot_identifier} {IL : InherentsLaws held slot_identifier} (c : Chain) (digest : list DigestItem) (now : Z) (sealing : SealingMode)
    (offchain : option (option (list byte))) (slot timestamp mock : Z) :
  reachable c -> phase c = Idle -> omap try_to_log digest = [] -> in_width 64 now = true ->
  sys_block_number (system (state c)) + 1 < 2 ^ 32 -> in_width 8 ProtocolVersion = true ->
  let p0 := initialize_block digest now (state c) in
  let addr := next_address sealing offchain in
  (exists mock' data, authored_inherent_data sealing slot timestamp offchain (mock, inherent_data_new) = Ret (Ok tt, (mock', data))
    /\ create_inherent data = Ret (Some (set_sequencer_address addr)))
  /\ exists r p1, dispatch OriginNone (set_sequencer_address addr) p0 = Ret (r, p1)
     /\ (valid_address addr = true \/ sys_block_number (system (state c)) = 0 ->
         forall p2, rtc dispatched p1 p2 -> in_width 128 (zlen (pending (ledger p2))) = true ->
         in_width 128 (zlen (sys_events (system p2))) = true -> exists p3, on_finalize p2 = Ret (tt, p3))
     /\ (valid_address addr = false -> sys_block_number (system (state c)) <> 0 ->
         r = Err (PErr SequencerAddressNotValid) /\ p1 = p0 /\ on_finalize p1 = Panic).
Proof.
  intros Hr Hp Hd Hnow Hb Hv p0 addr. apply reachable_inv in Hr. split; [apply next_inherent|].
  destruct c as [ph p bs]. cbn in Hp. subst ph. cbn [state] in *.
  pose proof (initialize_inv p bs digest now Hr Hd Hnow Hb) as Hi. fold p0 in Hi.
  destruct (ci_idle _ Hr eq_refl) as (_ & _ & Hflag). cbn [state] in Hflag.
  assert (Hf0 : seq_addr_update (ledger p0) = if sys_block_number (system p) =? 0 then Some true else None) by exact Hflag.
  assert (Hn0 : block_number p0 = sys_block_number (system p) + 1) by exact (block_number_inv _ Hi).
  pose proof (ci_number _ Hr) as Hpos. cbn [state] in Hpos.
  assert (Hds := dispatch_sequencer addr p0). rewrite Hf0, Hn0 in Hds. specialize (Hds ltac:(
    destruct (sys_block_number (system p) =? 0) eqn:E; zbool; [left; by rewrite E|by right])).
  assert (Hgo : forall p1 p2, chain_inv (mk_chain _ Building p1 bs) -> seq_addr_update (ledger p1) = Some true ->
    rtc dispatched p1 p2 -> in_width 128 (zlen (pending (ledger p2))) = true ->
    in_width 128 (zlen (sys_events (system p2))) = true -> exists p3, on_finalize p2 = Ret (tt, p3)).
  { intros p1 p2 Hi1 Hs1 Hstar Ht He. destruct (dispatched_inv _ _ bs Hstar Hi1) as [Hi2 Hs2]. specialize (Hs2 Hs1).
    destruct (new_block_wf (mk_chain _ Building p2 bs) Hi2 eq_refl Hv Ht He) as [Hw _].
    destruct (finalize_seals (mk_chain _ Building p2 bs) Hi2 Hw Hs2) as [h Hf]. by eexists. }
  assert (Hdis : forall r p1, dispatch OriginNone (set_sequencer_address addr) p0 = Ret (r, p1) -> chain_inv (mk_chain _ Building p1 bs))
    by (intros; by eapply dispatch_inv).
  rewrite Hds in Hdis |- *.
  unfold valid_address. destruct (stark_new addr) as [s|]; [destruct (patricia_check s)|];
    (eexists _, _; split; [reflexivity|]; split; [|]).
  - intros _ p2. apply Hgo; [by eapply Hdis|done].
  - done.
  - intros [?|Hz]; [done|]. intros p2. apply Hgo; [done|]. by rewrite Hf0, Hz.
  - intros _ Hz. split_and!; [done|done|]. rewrite on_finalize_spec, Hf0. by rewrite (proj2 (Z.eqb_neq _ _) Hz).
  - intros [?|Hz]; [done|]. intros p2. apply Hgo; [done|]. by rewrite Hf0, Hz.
  - intros _ Hz. split_and!; [done|done|]. rewrite on_finalize_spec, Hf0. by rewrite (proj2 (Z.eqb_neq _ _) Hz).
Qed.

End authoring.

(** ** Time under manual sealing *)

(** [pallet_timestamp]: the first time is accepted, and later ones that are at least
    [MinimumPeriod] after the stored one; on others the call panics. *)
Class TimestampPallet := { timestamp_set : Z -> Z -> outcome Z }.
Class TimestampPalletLaws `{TP : TimestampPallet} : Prop := {
  timestamp_accepts : forall prev now, prev = 0 \/ prev + MinimumPeriod <= now -> timestamp_set prev now = Ret now;
  timestamp_refuses : forall prev now, prev <> 0 -> now < prev + MinimumPeriod -> timestamp_set prev now = Panic;
}.

(** An attempt to seal a block, on the thread's time and the stored one: the thread's
    time moves whether or not the block can be built. *)
Definition seal_attempt `{TimestampPallet} (s : Z * Z) : bool * (Z * Z) :=
  match mock_provide_timestamp (fst s) with
  | Ret (moment, timestamp) =>
      match timestamp_set (snd s) moment with
      | Ret stored => (true, (timestamp, stored))
      | Panic => (false, (timestamp, snd s))
      end
  | Panic => (false, s)
  end.

Fixpoint seal_attempts `{TimestampPallet} (n : nat) (s : Z * Z) : list bool * (Z * Z) :=
  match n with
  | O => ([], s)
  | S n' => let '(ok, s1) := seal_attempt s in let '(oks, s2) := seal_attempts n' s1 in (ok :: oks, s2)
  end.

Lemma seal_attempt_time `{TimestampPallet} t stored :
  0 <= t -> t + SLOT_DURATION < 2 ^ 64 ->
  seal_attempt (t, stored) = match timestamp_set stored (t + SLOT_DURATION) with
                             | Ret x => (true, (t + SLOT_DURATION, x))
                             | Panic => (false, (t + SLOT_DURATION, stored))
                             end.
Proof.
  intros H0 H1. assert (0 <= SLOT_DURATION) by done. unfold seal_attempt, mock_provide_timestamp, wadd. cbn [fst snd].
  by rewrite wrap_small by lia.
Qed.

(** On a new chain every block is accepted, the time advancing by one slot each.  After
    a restart the thread's time starts over: a node that has sealed [k] blocks fails
    to seal the next [k] times, and only then goes on. *)
Theorem mock_time_restarts `{TP : TimestampPallet} {TPL : TimestampPalletLaws} (k : nat) :
  (0 < k)%nat -> SLOT_DURATION * (Z.of_nat k + 1) < 2 ^ 64 ->
  let time n := SLOT_DURATION * Z.of_nat n in
  seal_attempts k (0, 0) = (repeat true k, (time k, time k))
  /\ seal_attempts k (0, time k) = (repeat false k, (time k, time k))
  /\ fst (seal_attempt (time k, time k)) = true.
Proof.
  intros Hk Hb time. assert (HS : SLOT_DURATION = 6000) by done. assert (HM : MinimumPeriod = 3000) by done.
  assert (Hup : forall n i, (i + n <= k)%nat ->
    seal_attempts n (time i, time i) = (repeat true n, (time (i + n)%nat, time (i + n)%nat))).
  { induction n as [|n IH]; intros i Hi; cbn [seal_attempts repeat]; [by rewrite Nat.add_0_r|].
    rewrite seal_attempt_time by (unfold time; lia). rewrite timestamp_accepts by (right; unfold time; lia).
    replace (time i + SLOT_DURATION) with (time (S i)) by (unfold time; lia).
    rewrite (IH (S i)) by lia. by rewrite Nat.add_succ_r. }
  assert (Hdown : forall n i, (i + n <= k)%nat ->
    seal_attempts n (time i, time k) = (repeat false n, (time (i + n)%nat, time k))).
  { induction n as [|n IH]; intros i Hi; cbn [seal_attempts repeat]; [by rewrite Nat.add_0_r|].
    rewrite seal_attempt_time by (unfold time; lia). rewrite timestamp_refuses by (unfold time; lia).
    replace (time i + SLOT_DURATION) with (time (S i)) by (unfold time; lia).
    rewrite (IH (S i)) by lia. by rewrite Nat.add_succ_r. }
  split_and!.
  - exact (Hup k 0%nat ltac:(lia)).
  - exact (Hdown k 0%nat ltac:(lia)).
  - rewrite seal_attempt_time by (unfold time; lia). by rewrite timestamp_accepts by (right; unfold time; lia).
Qed.

(** ** The sealing mode in the runtime *)
Section sealing.
  Context `{FS : FileSystem} `{SF : StarknetFf} `{SA : StarknetApi} `{PT : PrimitiveTypes} `{SC : StarknetCrypto}.
  Context `{FX : FixedPoint} `{LC : LogCodec} `{BL : Blockifier} {CFG : Config} {GF : GenesisFormat}.
  Context {NE : NodeEnvironment} {RM : Remote} {EB : EthersBuild} {RE : RunEnvironment} (WASM_BINARY : option (list byte)).

(** The chosen sealing mode reaches the runtime on the development chain only: the
    genesis of a local chain leaves the stored mode as it was, so that a node that
    seals manually still runs Aura's check of the time. *)
Theorem sealing_stored_on_dev_only (run : ExtendedRunCmd) (id : string) (d : Disk) (s s' : SealingMode * Pallet)
    (aura : Z -> outcome unit) (moment : Z) :
  (forall spec ext, load_spec WASM_BINARY run id = Ok (SpecDev spec) -> spec_genesis spec d = Ret ext ->
   dev_assimilate_storage ext s = Ret (tt, s') -> fst s' = sealing_of run)
  /\ (forall spec config, load_spec WASM_BINARY run id = Ok (SpecRuntime spec) -> spec_genesis spec d = Ret config ->
      runtime_assimilate_storage config s = Ret (tt, s') -> fst s = SealDefault ->
      fst s' = SealDefault /\ on_timestamp_set (fst s') aura moment = aura moment).
Proof.
  unfold load_spec. split.
  - intros spec ext. destruct (String.eqb id DEV_CHAIN_ID).
    2: { destruct (_ || _); [destruct (run_base_path run); cbn; [|done]; by destruct (local_testnet_config _ _ _)|].
         by destruct (spec_from_json_file _). }
    destruct (run_base_path run); cbn; [|done]. unfold development_config. destruct WASM_BINARY as [w|]; cbn; [|done].
    intros [= <-]. cbn. destruct (load_genesis _ d); cbn; [|done]. destruct (print_development_accounts _); cbn; [|done].
    destruct (authority_keys_from_seed "Alice"); cbn; [|done]. destruct (testnet_genesis _ _ _ d); cbn; [|done].
    intros [= <-]. unfold dev_assimilate_storage, ebind, on_fst, on_snd, eput. destruct s as [m p]. cbn.
    destruct (genesis_build _ p) as [[[] p']|]; [|done]. by intros [= <-].
  - intros spec config _ _. unfold runtime_assimilate_storage, on_snd. destruct s as [m p]. cbn.
    destruct (genesis_build _ p) as [[[] p']|]; [|done]. by intros [= <-] ->.
Qed.

End sealing.

(** ** Witnesses *)
Module NodeWitness.
Export SetupWitness InherentsReference.

(** Clients that are named by the texts they are built from. *)
#[export] Instance w_ethers : EthersBuild := {|
  HttpProvider := string;
  http_provider_try_from endpoint := Some endpoint;
  provider_interval _ provider := provider;
  LocalWalletT := string;
  wallet_parse key := Some key;
  wallet_with_chain_id _ wallet := wallet;
  eth_address_parse _ := Some (be_array 20 1);
  url_scheme _ := Some "http"%string;
  fields_from_reader content :=
    match content with Ok _ => Some (mk_eth_fields None None None None None None) | Err _ => None end;
|}.

#[export] Instance w_run_environment : RunEnvironment := {|
  CliError := unit;
  shared_params_base_path p := Ok (shared_base_path p);
  create_runner _ := Ok tt;
  l1_config_from_reader _ := None;
  JsonSpec := unit;
  spec_from_json_file _ := Ok tt;
|}.

#[export] Instance w_steps : ServiceSteps unit := {|
  ServiceError := unit;
  from_io _ := tt;
  from_string _ := tt;
  service_other _ := tt;
  telemetry_worker_new := Ok tt;
  new_db_backend := Ok tt;
  new_full_parts _ := Ok tt;
  grandpa_block_import := Ok tt;
  aura_import_queue := Ok tt;
  genesis_hash := Some tt;
  build_network _ := Ok tt;
  spawn_tasks := Ok tt;
  slot_duration := Ok tt;
  start_aura := Ok tt;
  run_grandpa_voter := Ok tt;
|}.

(** Engines that open and keep nothing. *)
#[export] Instance w_engines : Engines := {|
  Store := unit;
  kvdb_open _ _ _ := eret (Ok tt);
  pdb_open_or_create _ _ _ := eret (Ok tt);
  pdb_commit _ _ := eret (Ok tt);
  pdb_get _ _ _ := eret (Ok None);
  pdb_get_size _ _ _ := eret (Ok None);
|}.

(** A node with an L1 contract to listen to, under manual sealing. *)
Definition w_run_cmd : ExtendedRunCmd :=
  mk_extended (mk_run (mk_shared (Some "dev"%string) false (Some (path_of "/madara"))) false false false false Auto)
    (Some Manual) None None None None false (mk_l1_messages None (Some "http://l1"%string) (Some "0x1"%string)).

Definition w_authority : Configuration unit :=
  mk_configuration true true false false (SourceRocksDb (path_of "/madara/db") 0) (path_of "/madara") "dev" (fun _ => Ret (Ok tt)).

Lemma w_opens : forall st, exists r st', backend_open (EN := w_engines) (conf_database w_authority) (db_config_dir w_authority) st = Ret (r, st').
Proof. intros st. eexists _, _. reflexivity. Qed.

#[export] Instance w_timestamp : TimestampPallet := {|
  timestamp_set prev now := if (prev =? 0) || (prev + MinimumPeriod <=? now) then Ret now else Panic |}.

#[export] Instance w_timestamp_laws : TimestampPalletLaws.
Proof.
  split; intros prev now; cbn.
  - intros [->|H]; [done|]. by rewrite (proj2 (Z.leb_le _ _) H), orb_true_r.
  - intros H1 H2. by rewrite (proj2 (Z.eqb_neq _ _) H1), (proj2 (Z.leb_gt _ _) H2).
Qed.

(** The chain after its first block. *)
Abbreviation w_first := (firstn 5 w_actions).
Definition w_idle : Chain :=
  match run_from w_genesis 0 w_first with Some c => c | None => mk_chain _ Idle (empty_pallet 0) [] end.

Lemma w_idle_run : run_from w_genesis 0 w_first = Some w_idle.
Proof.
  unfold w_idle. assert (H : is_Some (run_from w_genesis 0 w_first)); [|by destruct H as [c ->]].
  apply (bool_decide_eq_true_1 _). vm_compute. reflexivity.
Qed.

Lemma w_idle_state : phase w_idle = Idle /\ sys_block_number (system (state w_idle)) = 1.
Proof. split; vm_compute; reflexivity. Qed.

Lemma w_genesis_hash : genesis_hash = Some tt.
Proof. reflexivity. Qed.

End NodeWitness.
Import NodeWitness.

Lemma node_workers_witness :
  exists m, start_node (EN := w_engines) w_authority w_run_cmd w_before (idle, tt) = Ret (Ok tt, (m, tt))
  /\ tasks m = [(false, TaskOffchainWorkers); (true, TaskNetwork true); (true, TaskMappingSync); (true, TaskManualSeal)].
Proof.
  destruct (node_workers (EN := w_engines) w_authority w_run_cmd w_before tt tt w_genesis_hash eq_refl w_opens) as (r & m & store' & Hs & _ & Hok).
  assert (Hr : r = Ok tt).
  { destruct r as [[]|e]; [reflexivity|]. exfalso.
    apply (f_equal (fun o => match o with Ret (Ok _, _) => true | _ => false end)) in Hs. vm_compute in Hs. discriminate Hs. }
  destruct store'. exists m. destruct (Hok Hr) as (dir & da & st & l1 & h & _ & Hda & Hst & _ & Ht & _).
  cbn in Hda, Hst. subst da st. rewrite Hr in Hs. split; [exact Hs|exact Ht].
Defined.

Lemma authored_block_finalizes_witness :
  exists p1, dispatch OriginNone (set_sequencer_address DEFAULT_SEQUENCER_ADDRESS) (initialize_block [] 7000 (state w_idle))
             = Ret (Ok tt, p1) /\ exists p3, on_finalize p1 = Ret (tt, p3).
Proof.
  destruct w_idle_state as [Hp Hn].
  destruct (authored_block_finalizes w_idle [] 7000 SealManual None 0 0 0 (run_from_reachable _ _ _ _ w_idle_run) Hp eq_refl eq_refl
    ltac:(rewrite Hn; reflexivity) w_version) as [_ (r & p1 & Hd & Hok & _)].
  cbn [next_address] in Hd, Hok. exists p1.
  assert (He : match dispatch OriginNone (set_sequencer_address DEFAULT_SEQUENCER_ADDRESS) (initialize_block [] 7000 (state w_idle)) with
               | Ret (Ok tt, p) => in_width 128 (zlen (pending (ledger p))) && in_width 128 (zlen (sys_events (system p)))
               | _ => false end = true) by (vm_compute; reflexivity).
  rewrite Hd in He. destruct r as [[]|e]; [|discriminate He]. apply andb_true_iff in He as [He1 He2].
  split; [exact Hd|]. apply (Hok ltac:(left; vm_compute; reflexivity) p1); [constructor|exact He1|exact He2].
Defined.
