(* ===== verification/Ethereum.v ===== *)
(** * The Ethereum side

    Models [crates/client/settlement/src/ethereum], the settlement provider over the
    Starknet core contract, and [crates/client/data-availability/src/ethereum], the
    data availability client over the same contract.  The contract is a parameter:
    its calls, with what it is documented to keep as laws.  The provider is shown to
    keep the promise that the settlement loop relies on, as long as no update is
    reverted. *)
From S2P Require Import Prelude Bytes Deps Felt Hashers Transactions ComputeHash Blockifier Fee Block PalletStorage.
From S2P Require Import Db MappingSync Snos StateDiff DataAvailability Files EthereumConfig.
From S2P Require Import Settlement.
Local Open Scope Z_scope.

(** ** The core contract *)

(** [TransactionReceipt]: whether the transaction succeeded. *)
Record TransactionReceipt := mk_receipt { rc_status : bool }.

(** The calls of the contract, through the ethers library; [L1] is the state of the
    layer.  A transaction is sent and its receipt waited for.  The block number is
    an [I256], given by its raw word. *)
Class CoreContract (L1 : Type) := {
  cc_program_hash : effr L1 unit U256;
  cc_config_hash : effr L1 unit U256;
  cc_state_root : effr L1 unit U256;
  cc_state_block_number : effr L1 unit U256;
  PendingTransaction : Type;
  cc_update_state : list U256 -> effr L1 unit PendingTransaction;
  cc_update_state_with_data : list U256 -> U256 -> U256 -> effr L1 unit PendingTransaction;
  cc_receipt : PendingTransaction -> effr L1 unit (option TransactionReceipt);
}.

(** ** The settlement provider *)
Section provider.
  Context `{SA : StarknetApi} `{PT : PrimitiveTypes} `{CA : StarkCasts} {BHash L1 : Type} {CT : CoreContract L1}.

Definition convert_u256_to_felt (word : U256) : result (SettlementError BHash) StarkFelt :=
  ok_or (stark_new (u256_to_big_endian word)) StarknetApiError.

Definition convert_felt_to_u256 (felt : StarkFelt) : U256 := u256_from_big_endian (stark_bytes felt).

(** The methods of [StarknetContractClient]. *)
Definition client_read (m : effr L1 unit U256) : effr L1 EthereumError U256 := emap_err (fun _ => ContractError) m.

Definition client_update_state (program_output : list U256) : effr L1 EthereumError TransactionReceipt :=
  pending <-? emap_err (fun _ => ContractError) (cc_update_state program_output);;
  receipt <-? emap_err (fun _ => ProviderError) (cc_receipt pending);;
  eret (ok_or receipt MissingTransactionRecepit).

(** [?] on an error of the client. *)
Definition from_ethereum {A} (m : effr L1 EthereumError A) : effr L1 (SettlementError BHash) A :=
  emap_err (fun _ => EthereumClient) m.

(** A word of the contract as a felt. *)
Definition read_felt (m : effr L1 unit U256) : effr L1 (SettlementError BHash) StarkFelt :=
  word <-? from_ethereum (client_read m);; eret (convert_u256_to_felt word).

#[export] Instance ethereum_provider : SettlementProvider BHash L1 := {|
  is_initialized := word <-? from_ethereum (client_read cc_program_hash);; eret (Ok (negb (bval word =? 0)));
  get_chain_spec :=
    program_hash <-? read_felt cc_program_hash;;
    config_hash <-? read_felt cc_config_hash;;
    eret (Ok (mk_spec config_hash program_hash));
  get_state :=
    block_number <-? read_felt cc_state_block_number;;
    state_root <-? read_felt cc_state_root;;
    eret (Ok (mk_state state_root block_number));
  update_state program_output :=
    from_ethereum (client_update_state (map convert_felt_to_u256 (into_encoded_vec program_output))) ;;?
    eret (Ok tt);
|}.

End provider.

(** ** The data availability client *)
Section da.
  Context {L1 : Type} {CT : CoreContract L1} (mode : DaMode).

(** The number of the last state, as the signed integer the contract keeps. *)
Definition signed (word : U256) : Z := if bval word <? 2 ^ 255 then bval word else bval word - 2 ^ 256.

(** [DaClient for EthereumClient]: the receipt is waited for, not looked at. *)
Definition ethereum_da_client `{PT : PrimitiveTypes} : DaClient L1 := {|
  get_mode := mode;
  last_published_state := word <-? cc_state_block_number;; eret (Ok (signed word));
  publish_state_diff state_diff :=
    pending <-? (match mode with
                 | Sovereign => cc_update_state state_diff
                 | _ => cc_update_state_with_data state_diff (u256_from_u128 0) (u256_from_u128 0)
                 end);;
    cc_receipt pending ;;?
    eret (Ok tt);
|}.

End da.

(** ** What the contract keeps

    The program outputs accepted so far, oldest first, each as the words it was
    sent as. *)
Section ledger.
  Context `{SA : StarknetApi} `{PT : PrimitiveTypes} `{CA : StarkCasts} {L1 : Type} {CT : CoreContract L1}.

Definition output_words (o : StarknetOsOutput) : list U256 := map convert_felt_to_u256 (into_encoded_vec o).

(** A transaction sent and waited for. *)
Definition update_transaction (program_output : list U256) : effr L1 unit (option TransactionReceipt) :=
  pending <-? cc_update_state program_output;; cc_receipt pending.

(** Reading changes nothing.  The state is the one of the last accepted output,
    whose second word is the new root and whose third is the number, or else the one
    the contract was initialized with.  Only outputs of the Starknet OS program are
    accepted.  A transaction that is mined is accepted exactly when its receipt says
    so, and any other may have been accepted. *)
Class CoreContractLaws (genesis : StarknetState) (accepted : L1 -> list (list U256)) : Prop := {
  cc_program_hash_reads : within (fun s s' => accepted s' = accepted s) cc_program_hash;
  cc_config_hash_reads : within (fun s s' => accepted s' = accepted s) cc_config_hash;
  cc_state_root_reads : within (fun s s' => accepted s' = accepted s) cc_state_root;
  cc_state_block_number_reads : within (fun s s' => accepted s' = accepted s) cc_state_block_number;
  cc_state_root_last : forall s w s', cc_state_root s = Ret (Ok w, s') ->
    match list.last (accepted s) with
    | Some words => words !! 1%nat = Some w
    | None => w = convert_felt_to_u256 (st_state_root genesis)
    end;
  cc_state_block_number_last : forall s w s', cc_state_block_number s = Ret (Ok w, s') ->
    match list.last (accepted s) with
    | Some words => words !! 2%nat = Some w
    | None => w = convert_felt_to_u256 (st_block_number genesis)
    end;
  accepted_outputs : forall s words, words ∈ accepted s -> zlen words < 2 ^ 64 /\ exists o, words = output_words o;
  update_mined : forall words s receipt s', update_transaction words s = Ret (Ok (Some receipt), s') ->
    accepted s' = if rc_status receipt then accepted s ++ [words] else accepted s;
  update_unknown : forall words s r s', update_transaction words s = Ret (r, s') ->
    accepted s' = accepted s \/ accepted s' = accepted s ++ [words];
}.

(** No update is reverted: a transaction that is mined succeeds. *)
Definition never_reverts : Prop :=
  forall words s receipt s', update_transaction words s = Ret (Ok (Some receipt), s') -> rc_status receipt = true.

(** The output that the words encode. *)
Definition decode_words (words : list U256) : option StarknetOsOutput :=
  match decode (reader_new (map (fun w => mk_stark (u256_to_big_endian w)) words)) with
  | Ret (Ok o, _) => Some o
  | _ => None
  end.

Definition outputs_of (accepted : L1 -> list (list U256)) (s : L1) : list StarknetOsOutput :=
  omap decode_words (accepted s).

End ledger.

(** ** The provider keeps the promise of the settlement loop *)
Section laws.
  Context `{SA : StarknetApi} `{PT : PrimitiveTypes} `{CA : StarkCasts}.
  Context {SAL : StarknetApiLaws} {PTL : PrimitiveTypesLaws} {CAL : StarkCastsLaws}.
  Context {BHash L1 : Type} {CT : CoreContract L1} (genesis : StarknetState) (accepted : L1 -> list (list U256)).
  Context {CTL : CoreContractLaws genesis accepted}.

Lemma convert_bytes f : u256_to_big_endian (convert_felt_to_u256 f) = stark_bytes f.
Proof. apply array_val_inj. unfold convert_felt_to_u256. by rewrite u256_to_big_endian_val, u256_from_big_endian_val. Qed.

Lemma convert_roundtrip f g : convert_u256_to_felt (BHash := BHash) (convert_felt_to_u256 f) = Ok g -> g = f.
Proof.
  unfold convert_u256_to_felt. rewrite convert_bytes. destruct (stark_new _) eqn:E; [|done]. intros [= <-].
  apply stark_new_bytes in E. destruct f, s; simpl in *; by subst.
Qed.

Lemma decode_output o : zlen (output_words o) < 2 ^ 64 -> decode_words (output_words o) = Some o.
Proof.
  intros Hl. unfold decode_words, output_words. rewrite map_map.
  rewrite (map_ext _ id) by (intros f; rewrite convert_bytes; by destruct f). rewrite map_id.
  pose proof (decode_encode o [] []) as H. cbn [app length] in H. rewrite app_nil_r in H.
  unfold reader_new, into_encoded_vec. rewrite H; [done|].
  revert Hl. unfold output_words, into_encoded_vec, zlen. by rewrite length_map.
Qed.

Lemma decode_cons o l :
  zlen (output_words o) < 2 ^ 64 -> omap decode_words (output_words o :: l) = o :: omap decode_words l.
Proof.
  intros Hl. change (omap decode_words (output_words o :: l)) with
    (match decode_words (output_words o) with Some x => x :: omap decode_words l | None => omap decode_words l end).
  by rewrite decode_output.
Qed.

Lemma output_head o : exists rest, output_words o =
  map convert_felt_to_u256 [prev_state_root o; new_state_root o; snos_block_number o] ++ rest.
Proof.
  unfold output_words, into_encoded_vec. cbn [encode_to snos_codec].
  rewrite encode_append, (encode_append (messages_to_l1 o)), (encode_append (snos_config_hash o)),
    (encode_append (snos_block_hash o)), <- !app_assoc, map_app. eexists. f_equal.
Qed.

(** The words of an accepted output, in terms of the outputs. *)
Lemma outputs_snoc s s' o :
  accepted s' = accepted s ++ [output_words o] -> outputs_of accepted s' = outputs_of accepted s ++ [o].
Proof.
  intros H. unfold outputs_of. rewrite H, omap_app. f_equal.
  rewrite decode_cons; [done|]. apply (accepted_outputs (CoreContractLaws := CTL) s'). rewrite H. set_solver.
Qed.

Lemma outputs_last s :
  match list.last (accepted s) with
  | Some words => exists o, words = output_words o /\ list.last (outputs_of accepted s) = Some o
  | None => outputs_of accepted s = []
  end.
Proof.
  unfold outputs_of. pose proof (accepted_outputs (CoreContractLaws := CTL) s) as Ho. revert Ho.
  destruct (accepted s) as [|words l _] using rev_ind; [done|]. intros Ho. rewrite last_snoc, omap_app.
  destruct (Ho words) as (Hl & o & ->); [set_solver|]. exists o. split; [done|].
  rewrite decode_cons by done. apply last_snoc.
Qed.

Lemma outputs_words s : accepted s = map output_words (outputs_of accepted s).
Proof.
  unfold outputs_of. pose proof (accepted_outputs (CoreContractLaws := CTL) s) as Ho. revert Ho.
  induction (accepted s) as [|words l IH]; intros Ho; [done|]. destruct (Ho words) as (Hl & o & ->); [set_solver|].
  rewrite decode_cons by done. cbn [map]. f_equal. apply IH. intros w Hw. apply Ho. set_solver.
Qed.

Lemma client_update_cases words s r s' :
  client_update_state words s = Ret (r, s') ->
  exists t, update_transaction words s = Ret (t, s') /\
    match r with Ok receipt => t = Ok (Some receipt) | Err _ => forall receipt, t <> Ok (Some receipt) end.
Proof.
  unfold client_update_state, update_transaction, emap_err, etry, ebind, eret.
  destruct (cc_update_state words s) as [[[p|] s1]|]; [|intros [= <- <-]; by eexists|done]. cbn [map_err].
  destruct (cc_receipt p s1) as [[[[x|]|] s2]|]; [..|done]; intros [= <- <-]; by eexists.
Qed.

Lemma update_state_client o s r s' :
  update_state (SettlementProvider := ethereum_provider (BHash := BHash)) o s = Ret (r, s') ->
  exists t, client_update_state (output_words o) s = Ret (t, s') /\
    match r with Ok _ => exists receipt, t = Ok receipt | Err e => e = EthereumClient end.
Proof.
  cbn [update_state ethereum_provider]. unfold from_ethereum, emap_err at 1, etry, ebind, eret.
  change (map convert_felt_to_u256 (into_encoded_vec o)) with (output_words o).
  destruct (client_update_state _ s) as [[[x|] s1]|]; [..|done]; intros [= <- <-]; eauto.
Qed.

Lemma read_felt_cases (m : effr L1 unit U256) s f s' :
  read_felt (BHash := BHash) m s = Ret (Ok f, s') -> exists w, m s = Ret (Ok w, s') /\ convert_u256_to_felt (BHash := BHash) w = Ok f.
Proof.
  unfold read_felt, from_ethereum, client_read, emap_err, etry, ebind, eret.
  destruct (m s) as [[[w|] s1]|]; [|done..]. cbn [map_err]. intros [= Hw <-]. eauto.
Qed.

Lemma get_state_outputs s st s' :
  get_state (SettlementProvider := ethereum_provider (BHash := BHash)) s = Ret (Ok st, s') ->
  st = settled genesis (outputs_of accepted s).
Proof.
  cbn [get_state ethereum_provider]. unfold etry at 1, ebind at 1.
  destruct (read_felt cc_state_block_number s) as [[[n|] s1]|] eqn:En; [|done..].
  apply read_felt_cases in En as (wn & En & Hn).
  pose proof (cc_state_block_number_reads _ _ _ En) as Hr. cbn in Hr. apply cc_state_block_number_last in En.
  unfold etry, ebind, eret. destruct (read_felt cc_state_root s1) as [[[root|] s2]|] eqn:Er; [|done..].
  apply read_felt_cases in Er as (wr & Er & Hroot). apply cc_state_root_last in Er. intros [= <- <-].
  rewrite Hr in Er. pose proof (outputs_last s) as Hlast. unfold settled.
  destruct (list.last (accepted s)) as [words|].
  - destruct Hlast as (o & -> & ->). destruct (output_head o) as [rest Hw]. rewrite Hw in En, Er.
    cbn in En, Er. simplify_eq. apply convert_roundtrip in Hn, Hroot. by subst.
  - rewrite Hlast. cbn. subst. apply convert_roundtrip in Hn, Hroot. subst. by destruct genesis.
Qed.

Lemma read_felt_within (m : effr L1 unit U256) :
  within (fun s s' => accepted s' = accepted s) m -> within (fun s s' => accepted s' = accepted s) (read_felt (BHash := BHash) m).
Proof.
  intros Hm s r s'. unfold read_felt, from_ethereum, client_read, emap_err, etry, ebind, eret.
  destruct (m s) as [[[w|] s1]|] eqn:E; [..|done]; intros [= <- <-]; by apply Hm in E.
Qed.

Lemma read_two (m1 m2 : effr L1 unit U256) {A} (k : StarkFelt -> StarkFelt -> A) s r s' :
  within (fun s s' => accepted s' = accepted s) m1 -> within (fun s s' => accepted s' = accepted s) m2 ->
  (a <-? read_felt (BHash := BHash) m1;; b <-? read_felt m2;; eret (Ok (k a b))) s = Ret (r, s') ->
  outputs_of accepted s' = outputs_of accepted s.
Proof.
  intros H1 H2. apply read_felt_within in H1, H2. unfold outputs_of, etry, ebind, eret.
  destruct (read_felt m1 s) as [[[a|] s1]|] eqn:E1; [|intros [= <- <-]; by apply H1 in E1; rewrite E1|done].
  apply H1 in E1. destruct (read_felt m2 s1) as [[[b|] s2]|] eqn:E2; [..|done]; intros [= <- <-]; apply H2 in E2;
    by rewrite E2, E1.
Qed.

(** With no reverted update, the contract is the ledger the loop takes it for. *)
Lemma ethereum_ledger :
  never_reverts -> SettlementLedger (ethereum_provider (BHash := BHash)) genesis (outputs_of accepted).
Proof.
  intros Hnr. constructor.
  - intros s r s'. cbn [is_initialized ethereum_provider].
    unfold from_ethereum, client_read, emap_err, etry, ebind, eret, outputs_of.
    destruct (cc_program_hash s) as [[[w|] s1]|] eqn:E; [..|done]; intros [= <- <-];
      apply cc_program_hash_reads in E; by rewrite E.
  - intros s r s'. apply (read_two _ _ (fun program_hash config_hash => mk_spec config_hash program_hash));
      [apply cc_program_hash_reads|apply cc_config_hash_reads].
  - intros s r s'. apply (read_two _ _ (fun number root => mk_state root number));
      [apply cc_state_block_number_reads|apply cc_state_root_reads].
  - exact get_state_outputs.
  - intros o s s' H. apply update_state_client in H as (t & H & x & ->).
    apply client_update_cases in H as (t & H & ->). apply outputs_snoc. pose proof (Hnr _ _ _ _ H) as Hx.
    apply update_mined in H. by rewrite Hx in H.
  - intros o s e s' H. apply update_state_client in H as (t & H & _).
    apply client_update_cases in H as (t' & H & _). apply update_unknown in H as [H|H].
    + left. unfold outputs_of. by rewrite H.
    + right. by apply outputs_snoc.
Qed.

(** An update whose transaction is mined and reverted changes nothing on the
    contract, and is reported as settled. *)
Theorem reverted_update_reported words s receipt s' o :
  words = output_words o -> update_transaction words s = Ret (Ok (Some receipt), s') -> rc_status receipt = false ->
  update_state (SettlementProvider := ethereum_provider (BHash := BHash)) o s = Ret (Ok tt, s') /\
  accepted s' = accepted s.
Proof.
  intros -> Hm Hs. split; [|apply update_mined in Hm; by rewrite Hs in Hm].
  revert Hm. cbn [update_state ethereum_provider]. unfold update_transaction, from_ethereum, client_update_state.
  unfold emap_err, etry, ebind, eret. change (map convert_felt_to_u256 (into_encoded_vec o)) with (output_words o).
  destruct (cc_update_state _ s) as [[[p|] s1]|]; [|done..]. cbn [map_err].
  destruct (cc_receipt p s1) as [[[[x|]|] s2]|]; [|done..]. by intros [= <- <-].
Qed.

End laws.

(** ** Settling on Ethereum *)
Section settling.
  Context `{SF : StarknetFf} `{SA : StarknetApi} `{PT : PrimitiveTypes} `{SC : StarknetCrypto} {HH : HasherT}.
  Context `{LC : LogCodec} `{CA : StarkCasts}.
  Context {SAL : StarknetApiLaws} {PTL : PrimitiveTypesLaws} {CAL : StarkCastsLaws}.
  Context {BHash L1 : Type} {CT : CoreContract L1} (genesis : StarknetState) (accepted : L1 -> list (list U256)).
  Context {CTL : CoreContractLaws genesis accepted} (F : Finalized BHash) (n0 : Z).

(** C11: the settlement thread over the Ethereum provider.  However often it fails
    and retries, as long as no transaction is mined and reverted, the words that the
    core contract has accepted are the encodings of the outputs of the finalized
    blocks, one by one, without a gap or a repeat. *)
Theorem ethereum_settles delay attempts s r s' :
  0 <= n0 < 2 ^ 64 -> st_block_number genesis = stark_from_uint n0 -> numbered F -> never_reverts ->
  Forall (fun a => honest F (fst a) /\ Forall (honest_notification F) (snd a)) attempts ->
  consecutive F n0 genesis (outputs_of accepted s) ->
  sync_state (PR := ethereum_provider) delay attempts s = Ret (r, s') ->
  accepted s' = map output_words (outputs_of accepted s') /\ consecutive F n0 genesis (outputs_of accepted s').
Proof.
  intros Hn Hg HF Hnr Ha Hs Hrun. split; [by apply (outputs_words genesis)|].
  pose proof (ethereum_ledger (BHash := BHash) genesis accepted Hnr) as HL.
  by apply (sync_state_spec F n0 genesis (outputs_of accepted) Hn Hg HF delay attempts s r s').
Qed.

End settling.

(** ** Witnesses *)
Module EthereumWitness.
Export SettlementWitness.

(** A contract that accepts the short outputs of the program, and drops any other
    transaction. *)
Definition short (o : StarknetOsOutput) : bool := zlen (output_words o) <? 2 ^ 64.
Definition taken (s : list StarknetOsOutput) : list StarknetOsOutput := List.filter short s.
Definition kept (s : list StarknetOsOutput) : list (list U256) := map output_words (taken s).
Definition current (s : list StarknetOsOutput) : StarknetState := settled start (taken s).
Definition same_words (u v : list U256) : bool := bool_decide (map bval u = map bval v).

#[export] Instance core : CoreContract (list StarknetOsOutput) := {|
  cc_program_hash := eret (Ok (convert_felt_to_u256 (spec_program_hash spec)));
  cc_config_hash := eret (Ok (convert_felt_to_u256 (spec_config_hash spec)));
  cc_state_root := eget (fun s => Ok (convert_felt_to_u256 (st_state_root (current s))));
  cc_state_block_number := eget (fun s => Ok (convert_felt_to_u256 (st_block_number (current s))));
  PendingTransaction := list U256;
  cc_update_state words := eret (Ok words);
  cc_update_state_with_data words _ _ := eret (Ok words);
  cc_receipt words := fun s =>
    match decode_words words with
    | Some o => if short o && same_words (output_words o) words then Ret (Ok (Some (mk_receipt true)), s ++ [o])
                else Ret (Err tt, s)
    | None => Ret (Err tt, s)
    end;
|}.

Lemma same_words_eq u v : same_words u v = true -> u = v.
Proof.
  unfold same_words. intros H%bool_decide_eq_true. revert v H. induction u as [|a u IH]; intros [|b v]; [done..|].
  cbn [map]. intros [= H1 H2]. f_equal; [by apply bounded_eq|by apply IH].
Qed.

Lemma core_update words s r s' :
  update_transaction words s = Ret (r, s') ->
  (r = Ok (Some (mk_receipt true)) /\ kept s' = kept s ++ [words]) \/ (r = Err tt /\ s' = s).
Proof.
  unfold update_transaction, etry, ebind. cbn [cc_update_state cc_receipt core]. unfold eret.
  destruct (decode_words words) as [o|]; [|intros [= <- <-]; by right].
  destruct (short o && _) eqn:E; intros [= <- <-]; [left|by right]. apply andb_prop in E as [Hs <-%same_words_eq].
  split; [done|]. unfold kept, taken. rewrite List.filter_app, map_app. cbn [List.filter]. by rewrite Hs.
Qed.

Lemma kept_last s : list.last (kept s) = output_words <$> list.last (taken s).
Proof. unfold kept. apply fmap_last. Qed.

#[export] Instance core_laws : CoreContractLaws start kept.
Proof.
  constructor; try by (intros s r s' [= <- <-]).
  - intros s w s' [= <- <-]. rewrite kept_last. unfold current, settled.
    destruct (list.last (taken s)) as [o|]; cbn [fmap option_fmap option_map]; [|done].
    destruct (output_head o) as [rest ->]. done.
  - intros s w s' [= <- <-]. rewrite kept_last. unfold current, settled.
    destruct (list.last (taken s)) as [o|]; cbn [fmap option_fmap option_map]; [|done].
    destruct (output_head o) as [rest ->]. done.
  - intros s words Hw. apply list_elem_of_In, in_map_iff in Hw as (o & <- & Ho). apply filter_In in Ho as [_ Ho].
    unfold short in Ho. split; [by zbool|by exists o].
  - intros words s receipt s' [[[= ->] Hk]|[? ?]]%core_update; [exact Hk|done].
  - intros words s r s' [[_ Hk]|[_ ->]]%core_update; [by right|by left].
Qed.

Lemma core_never_reverts : never_reverts (L1 := list StarknetOsOutput).
Proof. intros words s receipt s' [[[= ->] _]|[? ?]]%core_update; done. Qed.

Lemma consecutive_start : consecutive chain 0 start (outputs_of kept []).
Proof. apply consecutive_nil. Qed.

(** The attempts of the witness end, with one output settled. *)
Definition settles_one (m : outcome (option unit * list StarknetOsOutput)) : bool :=
  match m with Ret (_, s') => zlen s' =? 1 | Panic => false end.

Lemma settles_one_run m : settles_one m = true -> exists r s', m = Ret (r, s') /\ zlen s' = 1.
Proof. destruct m as [[r s']|]; [|done]. intros H. exists r, s'. split; [done|]. by apply Z.eqb_eq. Qed.

End EthereumWitness.
Import EthereumWitness.

Lemma ethereum_settles_witness :
  exists r s', sync_state (PR := ethereum_provider) 10 [(view, [notice])] [] = Ret (r, s') /\ zlen s' = 1 /\
    kept s' = map output_words (outputs_of kept s') /\ consecutive chain 0 start (outputs_of kept s').
Proof.
  destruct (settles_one_run (sync_state (PR := ethereum_provider) 10 [(view, [notice])] [])) as (r & s' & Hrun & Hlen);
    [vm_compute; reflexivity|].
  exists r, s'. split; [exact Hrun|]. split; [exact Hlen|].
  apply (ethereum_settles start kept chain 0 10 [(view, [notice])] [] r s');
    [lia|reflexivity|exact chain_numbered|exact core_never_reverts| |exact consecutive_start|exact Hrun].
  constructor; [|constructor]. split; [exact view_honest|]. constructor; [exact notice_honest|constructor].
Defined.
